(* ===== verification/_CoqProject ===== *)
-Q . S2P
Prelude.v
RustStr.v
Utf8.v
Json.v
World.v
Calls.v
Bridge.v
FcApi.v
Pool.v
Telemetry.v
BackendState.v
Backend.v
Ledger.v
BackendBoot.v
BackendSpec.v
BackendProps.v
Vsock.v
Lifetime.v
Server.v
ServerLock.v
HostMmds.v
Packet.v
UidRegistry.v
Profile.v
Jailer.v
Plist.v
Session.v
JailerRun.v
Fleet.v
FleetSafe.v
JailerProps.v
Proc.v
Sys.v
Agent.v
HostExec.v
AgentSpec.v
HostSpec.v
Channel.v
ChannelSafe.v
AgentShim.v
VsockMmds.v
MmdsAgree.v
MmdsPath.v
MmdsLive.v
MmdsGuest.v
CliHelp.v
CliArgs.v
Cli.v
CliProps.v
CliExec.v
Responder.v
Daemon.v
Confined.v
Typed.v
TypedCli.v
Output.v
Build.v
