(* ===== verification/Prelude.v ===== *)
(** * Hephaestus: a verification library

    Hephaestus runs Firecracker-shaped microVMs on macOS.  A daemon,
    [hephaestus-firecracker], speaks the HTTP API of Firecracker on a Unix
    socket and drives Apple's Virtualization framework through a Swift bridge.
    A jailer, [hephaestus-jailer], prepares a directory, a uid and a sandbox
    profile for a daemon and runs it.  In a VM an agent, [hephaestus-agent], is
    the init process: it runs one command for the host and relays metadata.
    A command line tool, [hephaestus], runs containers, pools and single VMs
    without a daemon.  This library models the jailer, the daemon, the command
    line, the crates under them and the agent as Rocq functions, definition by
    definition, and proves what they promise.

    ** The program and the files that model it

    - [Prelude], [RustStr], [Utf8]: the parts of Rust's standard library the
      code uses: [Result], machine integers ([wrap], saturating operations),
      record update, [str] and [Path] methods on byte strings, decimal and hexadecimal
      numbers, UTF-8 validity and lossy decoding.
    - [Json]: [serde_json::Value] with sorted objects, and [merge_json]
      (hephaestus-firecracker/src/backend.rs), the merge of PATCH /mmds.
    - [World]: effects.  Every request to the operating system or to Swift is
      a constructor of [Call]; the outside is the class [Outside], which may
      answer anything.  [M] is code with state, errors and a trace of calls,
      [wp] its weakest precondition.
    - [Calls]: [Keeps], the logic for what holds of every call of a
      computation under an invariant of its state.
    - [Bridge] (hephaestus-bridge/src/lib.rs): [VzSpec] and its builder, the
      marshalling of arguments to C, the handle [VzVm] with its methods and
      its [Drop], saving and restoring, the calls that run one VM to its end,
      the container [Vm] with its [Drop], the packet calls of vmnet,
      [Compression], [allocate_ip_octet].
    - [FcApi] (hephaestus-fc-api/src): the wire structures, the errors of a
      backend, [MacAddr].
    - [Pool] (hephaestus-pool/src/lib.rs): the warm pool's metadata file, the
      claim of a slot under [flock], restoring, running, creating, destroying.
    - [Telemetry], [BackendState], [Backend]
      (hephaestus-firecracker/src/backend.rs): logger and metrics, the state
      [VzBackend], and one definition per method of it, with the drops of what
      it owns written where Rust runs them.  [Request] and [exec] collect the
      methods the server calls.
    - [Ledger], [BackendBoot], [BackendSpec]: the specification of the backend.
      [Ledger] counts the VMs and locks of a trace, [BackendBoot] gives the
      rules of the starting paths, [BackendSpec] has the relation [effect]
      (what a request may do to the state), the invariant [wf], and the
      refinement [exec_refines].
    - [BackendProps]: histories of requests, and the whole life of a daemon
      ([assemble], [serve], [life]; the construction is
      hephaestus-firecracker/src/main.rs).
    - [Vsock] (backend.rs, [bridge_connection] and the functions under it): one
      client of the vsock bridge.  [Lifetime] has the threads that share the VM
      ([Arc<dyn VzVmHandle>]): the backend and its teardown, the responder, the
      accept loop and its clients, interleaved by [life_step].
    - [Server] (hephaestus-firecracker/src/server.rs, and the accept and flush
      loops of main.rs): routing, bodies, responses, and the interleavings of
      concurrent requests as the step relation [server_step].  [ServerLock] has
      the mutex around the backend: its guard, its queue, and the tasks of the
      requests and of the flush, with their awaits ([lock_step]).
    - [HostMmds], [Packet] (hephaestus-firecracker/src/host_mmds.rs): the
      metadata service on the guest's network, first its documents and HTTP,
      then ARP, IP and TCP on raw frames.
    - [UidRegistry] (hephaestus-jailer/src/uid_registry.rs): the file that
      records the uid of every instance, under its lock.
    - [Profile] (hephaestus-jailer/src/profile.rs): the generator of sandbox
      profiles, and a reader of profiles that says what one grants.
    - [Jailer] (hephaestus-jailer/src/main.rs): every function of the jailer;
      its state is [CHILD_PGID].
    - [Session], [JailerRun]: the protocol of one jailer process as an
      automaton over its calls ([step]), and that every run follows it.
    - [Fleet], [FleetSafe]: many jailers on one host.  [os] says what files,
      locks and processes do, [sys_step] interleaves the calls of all jailers,
      lets processes be killed and daemons exit; [Inv] is the invariant.
    - [Plist]: a reader of property lists, XML 1.0 and Apple's document type,
      for the file that launchd reads.
    - [JailerProps]: the child between fork and exec, the plist as launchd
      reads it, and when the jailer panics.
    - [Proc], [Sys]: processes that wait and loop without a bound, as
      interaction trees over the events [Sys]; [runs] is what a tree does,
      [Follows] the logic that a tree follows an automaton, [play] an
      executable environment; then the read and write loops of the standard
      library.
    - [Agent] (guest/hephaestus-agent/src/main.rs): every function of the
      agent, [thread_body] the threads it starts.
    - [HostExec] (swift/HephaestusBridge, DirectVZ.swift): the host's side of
      the command channel, [sendCommandAndAwaitExit] and what it calls.
    - [AgentSpec], [HostSpec]: the protocols of the two sides as automata, and
      that every run follows them.  [Channel] composes the agent, the host and
      their pumps over a connection of two byte streams that may break at any
      time ([chan_step]); [ChannelSafe] has the invariant [Inv].
    - [AgentShim]: one client of the agent's metadata shim.
    - [VsockMmds] (DirectVZ.swift, [MmdsSocketService]): the metadata service on
      vsock, its answer to a request and the block that serves a connection.
      [MmdsAgree] compares it with [HostMmds]; [MmdsPath] composes it with the
      agent's shim over a connection ([path_step]).  [MmdsLive] has the
      listeners Swift installs ([hb_vz_long_serve_mmds]) and follows them
      through the backend's code; [MmdsGuest] joins the API to the guest.
    - [CliHelp], [CliArgs], [Cli] (hephaestus-cli/src/main.rs): the help texts,
      the parsers of arguments as tables of flags ([parse_loop] is the loop
      they share), the commands and [main].  [CliProps] has what holds of every
      command, [CliExec] follows one command to the guest.
    - [Responder] (host_mmds.rs, the closure of [VmnetMmdsResponder::start]):
      the thread that moves frames between the VM's network and [Packet].
    - [Daemon] (hephaestus-firecracker/src/main.rs and sandbox.rs): the start of
      the daemon up to its accept loop, and a whole run ([daemon_run]).
    - [Confined]: the jailer and the daemon it starts, joined by the command
      line and the profile file.
    - [Typed], [TypedCli]: the C types of the bridge's parameters as a predicate
      on calls ([typed_call]), followed through the daemon and the command line.
    - [Output] (bridge/src/lib.rs, [TerminalSink] of the command line,
      [CallbackWriter] of Bridge.swift): a container's output on its way to the
      terminal ([output_step]), and the box of its sink ([box_step]).
    - [Build] (the build.rs of the bridge and of the two binaries): the scripts
      over a build machine ([Machine]), as functions to the lines they print
      for cargo.

    ** How they interact

    A connection's task runs [Server.route]: it plans an operation, runs it
    under the backend's mutex, and counts it under a second lock.  The
    operation is a [Backend.Request]; a start takes a slot of the [Pool] or
    builds a VM through the [Bridge], then starts the metadata responder
    ([Packet]) and the bridge whose clients [Vsock] serves.  The responder
    reads the document that PUT and PATCH /mmds write.

    The daemon is started by [Jailer.launch].  Jailers of different instances
    meet in the registry file and in the lock files, which a daemon inherits
    from its jailer; [Fleet] composes them.  [Daemon.start_up] reads the profile
    that [Jailer.prepare] wrote, enters the sandbox, binds the socket and hands
    the backend to [Server]; [Confined] composes the two processes.

    [Cli.main] dispatches to commands over the [Bridge] and the [Pool].
    [Cli.vz_exec_cmd] sends a command that [Agent.run_command] takes apart;
    [CliExec] composes the two ends of that string.

    [HostExec.sendCommandAndAwaitExit] connects to the port [COMMAND_PORT] of
    the guest, where [Agent.run] accepts; the command, the standard input and
    the exit code share that connection.  [Agent.handle_mmds_linklocal_client]
    forwards the guest's metadata requests to the host, where
    [VsockMmds.serve_connection] answers them from the document that
    [Backend.refresh_mmds_vsock_service] hands to Swift.

    ** What the theorems show

    - Refinement: every request does what [effect] allows, for any answers of
      the outside ([BackendProps.request_refines]); invariants, the ledger of
      VMs and slot locks, the lifecycle, the isolation of failures, the order
      of teardown, and the arguments a VM is built or restored with follow for
      every history.
    - The VM among threads: it is freed once, by the last that holds it, and not
      used afterwards ([Lifetime.vm_outlives_its_users]), and it is freed in
      the end ([Lifetime.vm_freed_in_the_end]); a client in its handshake can
      keep it past the release of its slot
      ([Lifetime.slot_unlocked_under_running_vm]).
    - Concurrency: the same invariants, and counters that count each request
      once, for every interleaving ([Server]); every run over the mutex is such
      an interleaving ([ServerLock.mutex_refines_server]), and it comes to an
      end with each request answered ([ServerLock.requests_answered]).
    - Routing: which requests are answered 404, what a response says, that a
      body that is too large or incomplete changes nothing.
    - Pool: the metadata file round trip, the order of the claim, that no two
      claims hold a slot, that a failed restore leaves the slot ready.
    - Metadata service: pointer lookup, listing, the response to a GET, and on
      the wire: no frame makes the responder panic, each frame it builds has
      valid checksums and reads back, and a request sent in pieces over TCP
      is answered with the whole response.
    - The two metadata services answer a GET alike, but for the values and
      listings that [answers_agree] names ([MmdsAgree.mmds_services_agree]);
      a client of the guest's shim is sent the vsock service's answer to its
      request ([MmdsPath.metadata_end_to_end]), so it reads what it would read
      on the network ([MmdsPath.guest_get_end_to_end]).  After any history the
      running VM's listener has the current document
      ([MmdsLive.guest_served_current_document]), so what API clients put and
      patched is what a program in the guest gets
      ([MmdsGuest.api_document_reaches_guest]).
    - Documents: [merge_json] member by member, and when it is the merge patch
      of RFC 7396 ([Json.merge_json_rfc7396]).
    - Jailer: every run follows the protocol of locks, registry and files, for
      any answers of the operating system ([JailerRun.jailer_follows_protocol]),
      so on a host as [Fleet] assumes it, with any number of jailers, no two
      live daemons share an instance or, unless sharing is allowed, a uid
      ([FleetSafe.live_daemons_distinct]).  A uid is allocated lowest first,
      the registry reads back as written, a profile grants the paths asked for
      and nothing else, whatever characters they hold, a daemon is executed
      only with the privileges dropped that it was told to drop, the plist
      reads back as the same instance when XML can hold its paths, and no
      command line that the parser accepts leads to a panic, unless the plist
      cannot be printed.
    - Agent: it follows its protocol whatever the kernel answers: a command is
      run only when it was received completely, the exit code is the only
      thing written back, disks are synced before the power is cut, and it
      never returns ([AgentSpec.agent_follows_protocol]).  End to end, an exit
      code that the host returns is that of a shell that ran the host's
      command, with a prefix of the host's standard input as its input
      ([ChannelSafe.command_channel]).  The shim relays a client's request and
      the host's complete answer ([AgentShim.shim_relays]), and reads a
      request in bounded time ([AgentShim.request_head_bounded]).
    - The responder's thread writes the replies of [Packet.exchange] to the
      frames it reads, in order, and returns only when it has found its flag
      cleared, which a failed call does ([Responder.responder_thread_serves]).
    - The daemon serves only inside the sandbox it was told to enter
      ([Daemon.sandbox_before_service]); started by the jailer it enters the
      profile that grants this instance's paths and nothing else
      ([Confined.jailed_daemon_confined]).
    - Types: the strings, numbers and arrays that cross to Swift are what the C
      declarations ask for ([Typed.daemon_calls_typed],
      [TypedCli.cli_calls_typed]).
    - Command line: for every argument vector the exit status is a byte, 2 means
      that nothing was done and 75 that every slot of a pool was found locked,
      unless the guest's command exited so ([CliProps.cli_exit_status]); VMs and slots that a
      command takes are released on every path ([CliProps.cli_releases]);
      [vz-exec] refuses exactly the arguments that are incomplete, that it does
      not understand or whose files are missing, makes the call the others
      describe, and the guest runs the command as it was written ([CliExec.vz_exec_end_to_end]).  Guest output
      appears in whole chunks and in order, whatever threads deliver it
      ([Output.terminal_shows_whole_chunks]).
    - Build: the archive the Swift build left is the one the linker of both
      binaries is told to force-load, when its path is UTF-8 without a comma
      ([Build.archive_reaches_binaries]); when the bridge's script
      succeeds ([Build.bridge_succeeds_iff]) and which files it watches
      ([Build.rerun_for_dir_exact]).

    ** Bounds and fuel

    Functions with fuel get as much as the length of their input, which is
    enough because each round consumes at least one byte: decoding in [Utf8],
    replacing and splitting in [RustStr], [HostMmds.collapse] (each round
    shortens the path, [collapse_clean]; [VsockMmds.without_doubles] is the
    same loop), [Packet.chunks] (theorem
    [chunks_fuel_spec]).  [Vsock.read_loop] runs 64 rounds as the source does,
    [Packet.fold_carry] two, which reduce any 32-bit sum to 16 bits
    ([fold_carry_spec]).  [Jailer.acquire_rounds] makes the three attempts of
    the source, [UidRegistry.scan] covers the window of 1000 uids cut at
    [u32::MAX].  The loops of [Agent] and [HostExec] have no fuel: they are
    [ITree.iter], which may run for ever; [connectToAgent] makes the 50
    attempts of the source; [Responder.responder_thread] is an [ITree.iter]
    too.  The parsers of the command line are structural on the arguments.
    [Build.rerun_for_dir] has fuel for paths up to [PATH_MAX], which each level
    of directories approaches ([rerun_for_dir_ends]).  A client of the vsock
    bridge makes at most 74 calls ([Lifetime.client_tidy]).
    The demonstrations of [play] have fuel for their
    one run.  Arithmetic that Rust checks, wraps or saturates is
    modelled at its width; sums of nanoseconds shown on standard error only
    are not.

    ** What is a parameter

    The outside ([Outside]: files, locks, sockets, threads, clocks, Swift),
    the serialization of JSON text ([Serde], [Decoders]; [TypedDecoders] says
    that a decoded number fits its type), and the read side of a Unix socket
    ([HostStream]).  [Fleet] does not take any answers but those of [os]: an
    exclusive lock belongs to the open file of an inode and lives until the
    last holder closes it, a child shares its parent's files, and a file is
    found under a name until it is unlinked.  The registry is kept by the
    jailers only, its writes and the waits for a daemon succeed, no jailer is
    killed in the middle of a rewrite ([rewriting]), and a teardown finds the
    lock file of its instance.  What clap
    accepts is a hypothesis where it matters ([JailerProps.clap_accepts], and
    [clap_reads] in [Confined]: an accepted command line sets the fields it
    names).  In [Responder] the bridge returns no more bytes than it was given
    room for, and a cleared flag stays cleared ([honest]).
    In [AgentSpec], [AgentShim] and [VsockMmds] the kernel may give any answer.
    Swift's text and Foundation are parameters ([SwiftText], [Foundation]); for
    [MmdsAgree] they do on ASCII text what Rust does ([AsciiText]), and read
    back the documents that serde_json and Foundation write ([JsonText]).  In
    [Channel] the two ends of the connection have the descriptors that accept
    and connect returned, bytes arrive in order, either side may see the end
    of the stream or an error at any time, and an exit status is a byte or a
    signal number ([status_ok]).  [MmdsPath] has the same connection, on which
    the shim reads the end only after the service has closed it.  In [Output]
    Swift does not call back after [hb_vm_free] has returned, nor after
    [hb_vm_new] has failed.  In [MmdsLive] serde_json writes every value.  In
    [Build] the machine refuses paths longer than [PATH_MAX] and cargo passes
    metadata on as its documentation says ([passes_metadata]).

    ** What is not modelled

    Text on standard error is left out, and with it the panic of an [eprintln!]
    that cannot be written; so is the scheduling inside tokio and hyper: of
    tokio the mutex is modelled, fair as it documents, and of hyper that a
    request's task is dropped with its connection.  Of the Swift sources the command channel, the metadata service with
    its listeners and the writer of guest output are modelled; the rest of them
    configures and drives Apple's frameworks.  The decoders of
    the wire structures are generated by serde's derive macros, which are not
    part of the sources, and stay a parameter.  The vendored Firecracker tree,
    the Go harness and the shell and Python scripts are not code of the daemon
    and are outside the library.  What is left of the Rust crates are module
    declarations, re-exports, error enumerations that nothing constructs, and
    tests. *)

From stdpp Require Export base decidable list strings gmap.
From Stdlib Require Export ZArith Lia ZifyBool.

(** ** Results

    [std::result::Result]: the value of every fallible function of the
    development. *)

Inductive Result (A E : Type) : Type :=
| Ok (a : A)
| Err (e : E).
Arguments Ok {A E} a.
Arguments Err {A E} e.

#[export] Instance Result_eq_dec `{EqDecision A, EqDecision E} : EqDecision (Result A E).
Proof. solve_decision. Defined.

Definition is_ok {A E} (r : Result A E) : bool :=
  match r with Ok _ => true | Err _ => false end.

Definition map_err {A E F} (f : E -> F) (r : Result A E) : Result A F :=
  match r with Ok a => Ok a | Err e => Err (f e) end.

Definition result_bind {A B E} (r : Result A E) (k : A -> Result B E) : Result B E :=
  match r with Ok a => k a | Err e => Err e end.

Definition ok_or {A E} (o : option A) (e : E) : Result A E :=
  match o with Some a => Ok a | None => Err e end.

Definition result_ok {A E} (r : Result A E) : option A :=
  match r with Ok a => Some a | Err _ => None end.

Declare Scope rust_scope.
Delimit Scope rust_scope with rust.

(** [let?] is the [?] operator on a pure [Result]. *)
Notation "'let?' x ':=' r 'in' k" := (result_bind r (fun x => k))
  (at level 10, x pattern, r at level 100, k at level 200) : rust_scope.
Notation "'let?!' r 'in' k" := (result_bind r (fun _ => k))
  (at level 10, r at level 100, k at level 200) : rust_scope.
Open Scope rust_scope.

(** ** Machine integers

    A [w]-bit unsigned integer is a [Z] in [0, 2^w); the operations write
    their wrap-around or saturation out. *)

Definition u8_max : Z := 255.
Definition u16_max : Z := 65535.
Definition u32_max : Z := 4294967295.
Definition u64_max : Z := 18446744073709551615.
(** Hephaestus only targets Apple Silicon, so [usize] has 64 bits. *)
Definition usize_max : Z := u64_max.

Definition u8_range (z : Z) : Prop := (0 <= z <= u8_max)%Z.
Definition u16_range (z : Z) : Prop := (0 <= z <= u16_max)%Z.
Definition u32_range (z : Z) : Prop := (0 <= z <= u32_max)%Z.
Definition u64_range (z : Z) : Prop := (0 <= z <= u64_max)%Z.

Definition wrap (w : Z) (z : Z) : Z := (z mod 2 ^ w)%Z.
Definition saturating_add (max a b : Z) : Z := Z.min max (a + b).
Definition saturating_sub (a b : Z) : Z := Z.max 0 (a - b).

Lemma wrap_small w z : (0 <= z < 2 ^ w)%Z -> wrap w z = z.
Proof. apply Z.mod_small. Qed.

Lemma wrap_range w z : (0 < 2 ^ w)%Z -> (0 <= wrap w z < 2 ^ w)%Z.
Proof. apply Z.mod_pos_bound. Qed.

Lemma wrap_add_l w a b : wrap w (wrap w a + b) = wrap w (a + b).
Proof. apply Zplus_mod_idemp_l. Qed.

Lemma saturating_add_mono max a b : (a <= max -> 0 <= b -> a <= saturating_add max a b <= max)%Z.
Proof. unfold saturating_add. lia. Qed.

(** ** Record update

    [r <| field := v |>] is [r] with one field replaced, for the assignments
    to fields of a struct.  A record has an instance of [Eta] that rebuilds it
    field by field; the setter of a field is found from it. *)

Class Eta (R : Type) := eta : R -> R.
Class Setter {R T : Type} (proj : R -> T) := set_field : (T -> T) -> R -> R.
Arguments set_field {R T} proj {_} f r /.

Definition with_field {R A B} (c : R -> A -> B) (proj : R -> A) : R -> B := fun r => c r (proj r).
Declare Scope fields_scope.
Delimit Scope fields_scope with fields.
Notation "c <+> proj" := (with_field c proj) (at level 50, left associativity) : fields_scope.

Ltac find_setter R proj :=
  let e := eval cbv [eta] in (@eta R _) in
  let e := lazymatch e with ?h => eval unfold h in h end in
  let p := eval pattern proj in e in
  lazymatch p with ?F _ => let s := eval cbv [with_field] in (fun f => F (fun r => f (proj r))) in exact s end.
#[export] Hint Extern 1 (@Setter ?R _ ?proj) => find_setter R proj : typeclass_instances.
Notation "r <| proj := v |>" := (set_field proj (fun _ => v) r)
  (at level 12, left associativity, proj at level 9) : rust_scope.

(** ** Automation *)

Create HintDb heph discriminated.
#[export] Hint Resolve saturating_add_mono : heph.

(** Split the [match] (or [if]) at the head of a hypothesis or of the goal,
    keep its equation and simplify; one step of the symbolic execution of a
    modelled function. *)
Ltac split_match :=
  match goal with
  | H : context [match ?x with _ => _ end] |- _ =>
      lazymatch x with context [match _ with _ => _ end] => fail | _ => idtac end;
      let E := fresh "E" in destruct x eqn:E
  | |- context [match ?x with _ => _ end] =>
      lazymatch x with context [match _ with _ => _ end] => fail | _ => idtac end;
      let E := fresh "E" in destruct x eqn:E
  end.

(** Symbolic execution to the leaves. *)
Ltac run_cases := repeat (split_match; simplify_eq/=).

(** Turn boolean tests of the code into propositions. *)
Ltac bool_prop :=
  repeat match goal with
  | H : (_ =? _)%Z = true |- _ => apply Z.eqb_eq in H
  | H : (_ =? _)%Z = false |- _ => apply Z.eqb_neq in H
  | H : (_ <? _)%Z = true |- _ => apply Z.ltb_lt in H
  | H : (_ <? _)%Z = false |- _ => apply Z.ltb_ge in H
  | H : (_ <=? _)%Z = true |- _ => apply Z.leb_le in H
  | H : (_ <=? _)%Z = false |- _ => apply Z.leb_gt in H
  | H : (_ && _)%bool = true |- _ => apply andb_true_iff in H as [? ?]
  | H : (_ && _)%bool = false |- _ => apply andb_false_iff in H
  | H : (_ || _)%bool = false |- _ => apply orb_false_iff in H as [? ?]
  | H : (_ || _)%bool = true |- _ => apply orb_true_iff in H
  | H : negb _ = true |- _ => apply negb_true_iff in H
  | H : negb _ = false |- _ => apply negb_false_iff in H
  | H : bool_decide _ = true |- _ => apply bool_decide_eq_true in H
  | H : bool_decide _ = false |- _ => apply bool_decide_eq_false in H
  end.
