(* ===== verification/RustStr.v ===== *)
(** * The parts of Rust's string library the program uses

    A Rust [String], [str] or [Path] is its byte sequence, a Rocq [string].
    Each definition models one method of [str], [u8]/[u32]/[u64]::from_str,
    [Path::join] or one [format!] placeholder, with the lemmas the components
    share: prefixes, splitting and joining, and the decimal round trip. *)

From S2P Require Import Prelude.
Local Open Scope string_scope.
Local Open Scope Z_scope.

(** Concatenation computes on constructors. *)
#[global] Arguments String.append !_ _ : simpl nomatch.

(** ** Characters *)

Definition ch (n : nat) : Ascii.ascii := Ascii.ascii_of_nat n.
Definition byte_of (a : Ascii.ascii) : Z := Z.of_N (Ascii.N_of_ascii a).
Definition NL : Ascii.ascii := ch 10.
Definition CR : Ascii.ascii := ch 13.
Definition QUOTE : Ascii.ascii := ch 34.
Definition nl : string := String NL "".
Definition quote : string := String QUOTE "".

Fixpoint str_forall (f : Ascii.ascii -> bool) (s : string) : bool :=
  match s with
  | "" => true
  | String a s' => f a && str_forall f s'
  end.

Definition str_is_empty (s : string) : bool :=
  match s with "" => true | _ => false end.

Definition len (s : string) : Z := Z.of_nat (String.length s).

(** [str::bytes], as unsigned bytes. *)
Fixpoint bytes (s : string) : list Z :=
  match s with
  | "" => []
  | String a s' => byte_of a :: bytes s'
  end.

Definition char_in_range (lo hi : Z) (a : Ascii.ascii) : bool :=
  (lo <=? byte_of a) && (byte_of a <=? hi).
Definition is_ascii_digit : Ascii.ascii -> bool := char_in_range 48 57.
Definition is_ascii_upper : Ascii.ascii -> bool := char_in_range 65 90.
Definition is_ascii_lower : Ascii.ascii -> bool := char_in_range 97 122.
Definition is_ascii_alphanumeric (a : Ascii.ascii) : bool :=
  is_ascii_digit a || is_ascii_upper a || is_ascii_lower a.

(** ** Prefixes, suffixes, trimming *)

Fixpoint strip_prefix (p s : string) : option string :=
  match p with
  | "" => Some s
  | String a p' =>
      match s with
      | "" => None
      | String b s' => if Ascii.eqb a b then strip_prefix p' s' else None
      end
  end.

Definition starts_with (p s : string) : bool :=
  match strip_prefix p s with Some _ => true | None => false end.

(** [str::trim_start_matches] with a string pattern: the prefix is removed
    as often as it occurs.  Each round shortens the string, so its length is
    enough fuel. *)
Fixpoint trim_start_matches_fuel (n : nat) (p s : string) : string :=
  match n with
  | O => s
  | S n' =>
      match strip_prefix p s with
      | Some r => trim_start_matches_fuel n' p r
      | None => s
      end
  end.
Definition trim_start_matches (p s : string) : string :=
  trim_start_matches_fuel (String.length s) p s.

Fixpoint trim_start_char (c : Ascii.ascii) (s : string) : string :=
  match s with
  | String a s' => if Ascii.eqb a c then trim_start_char c s' else s
  | "" => ""
  end.

Fixpoint trim_end_by (f : Ascii.ascii -> bool) (s : string) : string :=
  match s with
  | "" => ""
  | String a s' =>
      match trim_end_by f s' with
      | "" => if f a then "" else String a ""
      | t => String a t
      end
  end.
Definition trim_end_char (c : Ascii.ascii) : string -> string := trim_end_by (fun a => Ascii.eqb a c).

(** The characters with the Unicode property White_Space, in UTF-8. *)
Definition utf8 (l : list nat) : string := String.string_of_list_ascii (ch <$> l).
Definition white_space : list string :=
  utf8 <$> ([[9]; [10]; [11]; [12]; [13]; [32]; [194; 133]; [194; 160]; [225; 154; 128]] ++
            ((fun k => [226; 128; k]) <$> seq 128 11) ++
            [[226; 128; 168]; [226; 128; 169]; [226; 128; 175]; [226; 129; 159]; [227; 128; 128]])%nat%list.

Fixpoint strip_any (ps : list string) (s : string) : option string :=
  match ps with
  | [] => None
  | p :: ps' => match strip_prefix p s with Some r => Some r | None => strip_any ps' s end
  end.

Fixpoint trim_start_any (n : nat) (ps : list string) (s : string) : string :=
  match n with
  | O => s
  | S n' => match strip_any ps s with Some r => trim_start_any n' ps r | None => s end
  end.

Definition trim_start (s : string) : string :=
  trim_start_any (String.length s) white_space s.
(** The longest suffix of white space goes: on UTF-8 text no character
    starts inside another, so every suffix may be tried. *)
Fixpoint trim_end (s : string) : string :=
  match s with
  | "" => ""
  | String a s' => if str_is_empty (trim_start s) then "" else String a (trim_end s')
  end.
Definition trim (s : string) : string := trim_end (trim_start s).

(** ** Searching, splitting, replacing *)

Fixpoint contains_char (c : Ascii.ascii) (s : string) : bool :=
  match s with
  | "" => false
  | String a s' => Ascii.eqb a c || contains_char c s'
  end.

Fixpoint contains (p s : string) : bool :=
  starts_with p s || match s with "" => false | String _ s' => contains p s' end.

Fixpoint split_char (c : Ascii.ascii) (s : string) : list string :=
  match s with
  | "" => [""]
  | String a s' =>
      if Ascii.eqb a c then "" :: split_char c s'
      else match split_char c s' with
           | h :: t => String a h :: t
           | [] => [String a ""]
           end
  end.

Fixpoint join (sep : string) (l : list string) : string :=
  match l with
  | [] => ""
  | [x] => x
  | x :: l' => x +:+ sep +:+ join sep l'
  end.

(** The first entry of a table under a name: a [match] on string literals. *)
Fixpoint entry {A} (name : string) (table : list (string * A)) : option A :=
  match table with
  | [] => None
  | (n, a) :: rest => if String.eqb n name then Some a else entry name rest
  end.

Fixpoint split_once (c : Ascii.ascii) (s : string) : option (string * string) :=
  match s with
  | "" => None
  | String a s' =>
      if Ascii.eqb a c then Some ("", s')
      else match split_once c s' with
           | Some (l, r) => Some (String a l, r)
           | None => None
           end
  end.

(** [str::lines] and [BufRead::lines]: a line ends at a newline, with an
    optional carriage return before it; what follows the last newline is a
    line only when it is not empty. *)
Fixpoint strip_cr (s : string) : string :=
  match s with
  | "" => ""
  | String a "" => if Ascii.eqb a CR then "" else s
  | String a s' => String a (strip_cr s')
  end.
Fixpoint lines_of (parts : list string) : list string :=
  match parts with
  | [] => []
  | [last] => if str_is_empty last then [] else [last]
  | p :: ps => strip_cr p :: lines_of ps
  end.
Definition lines (s : string) : list string := lines_of (split_char NL s).

(** [str::replace] with a character pattern, and with a (non-empty) string
    pattern: matches are taken left to right and do not overlap. *)
Fixpoint replace_char (c : Ascii.ascii) (t s : string) : string :=
  match s with
  | "" => ""
  | String a s' => if Ascii.eqb a c then t +:+ replace_char c t s'
                   else String a (replace_char c t s')
  end.

Fixpoint replace_fuel (n : nat) (p t s : string) : string :=
  match n with
  | O => s
  | S n' =>
      match strip_prefix p s with
      | Some r => t +:+ replace_fuel n' p t r
      | None =>
          match s with
          | "" => ""
          | String a s' => String a (replace_fuel n' p t s')
          end
      end
  end.
Definition replace (p t s : string) : string := replace_fuel (String.length s) p t s.

Definition ascii_lower (a : Ascii.ascii) : Ascii.ascii :=
  if is_ascii_upper a then ch (Z.to_nat (byte_of a + 32)) else a.
Fixpoint to_ascii_lowercase (s : string) : string :=
  match s with
  | "" => ""
  | String a s' => String (ascii_lower a) (to_ascii_lowercase s')
  end.
Definition ascii_upper (a : Ascii.ascii) : Ascii.ascii :=
  if is_ascii_lower a then Ascii.ascii_of_nat (Ascii.nat_of_ascii a - 32) else a.
Fixpoint to_ascii_uppercase (s : string) : string :=
  match s with "" => "" | String a s' => String (ascii_upper a) (to_ascii_uppercase s') end.

(** ** Integers: [to_string], [parse], [from_str_radix] and [{:02x}] *)

Definition digit_char (d : Z) : Ascii.ascii := ch (Z.to_nat (48 + d)).

Fixpoint dec_fuel (n : nat) (z : Z) (acc : string) : string :=
  match n with
  | O => acc
  | S n' =>
      let acc' := String (digit_char (z mod 10)) acc in
      if z <? 10 then acc' else dec_fuel n' (z / 10) acc'
  end.
(** A number has at most as many decimal as binary digits. *)
Definition to_dec (z : Z) : string := dec_fuel (S (Z.to_nat (Z.log2 z))) z "".

(** [std::num::IntErrorKind], and [Display] of [ParseIntError]. *)
Inductive ParseIntError := Empty | InvalidDigit | PosOverflow.

Definition parse_int_error (e : ParseIntError) : string :=
  match e with
  | Empty => "cannot parse integer from empty string"
  | InvalidDigit => "invalid digit found in string"
  | PosOverflow => "number too large to fit in target type"
  end.

Definition digit_val (radix : Z) (a : Ascii.ascii) : option Z :=
  let b := byte_of a in
  let d := if is_ascii_digit a then b - 48
           else if is_ascii_lower a then b - 87
           else if is_ascii_upper a then b - 55 else radix in
  if d <? radix then Some d else None.

Fixpoint parse_digits (radix max acc : Z) (s : string) : Result Z ParseIntError :=
  match s with
  | "" => Ok acc
  | String a s' =>
      match digit_val radix a with
      | None => Err InvalidDigit
      | Some d =>
          let v := acc * radix + d in
          if v <=? max then parse_digits radix max v s' else Err PosOverflow
      end
  end.

(** [uN::from_str_radix]: an optional plus sign, then at least one digit. *)
Definition from_str_radix (radix max : Z) (s : string) : Result Z ParseIntError :=
  match s with
  | "" => Err Empty
  | String a s' =>
      if Ascii.eqb a (ch 43) then
        (if str_is_empty s' then Err InvalidDigit else parse_digits radix max 0 s')
      else parse_digits radix max 0 s
  end.
Definition parse_uint (max : Z) (s : string) : Result Z ParseIntError := from_str_radix 10 max s.

Definition hex_char (d : Z) : Ascii.ascii :=
  if d <? 10 then ch (Z.to_nat (48 + d)) else ch (Z.to_nat (87 + d)).
Definition fmt_02x (b : Z) : string := String (hex_char (b / 16)) (String (hex_char (b mod 16)) "").

Fixpoint zeros (n : nat) : string :=
  match n with O => "" | S n' => String (ch 48) (zeros n') end.
(** [{:0w}] of a number. *)
Definition fmt_pad0 (w : nat) (z : Z) : string :=
  let s := to_dec z in zeros (w - String.length s) +:+ s.

(** [{:?}] of a string, for text without unprintable non-ASCII characters. *)
Fixpoint debug_body (s : string) : string :=
  match s with
  | "" => ""
  | String a s' =>
      let b := byte_of a in
      (if (b =? 34) || (b =? 92) then String (ch 92) (String a "")
       else if b =? 10 then "\n" else if b =? 13 then "\r" else if b =? 9 then "\t"
       else if b =? 0 then "\0"
       else if (b <? 32) || (b =? 127)
       then "\u{" +:+ (if b <? 16 then String (hex_char b) "" else fmt_02x b) +:+ "}"
       else String a "") +:+ debug_body s'
  end.
Definition debug_str (s : string) : string := quote +:+ debug_body s +:+ quote.

Fixpoint ends_with_char (c : Ascii.ascii) (s : string) : bool :=
  match s with
  | "" => false
  | String a "" => Ascii.eqb a c
  | String _ s' => ends_with_char c s'
  end.

(** [Path::join]: an absolute argument replaces the base. *)
Definition path_join (base p : string) : string :=
  if starts_with "/" p then p
  else if str_is_empty base || ends_with_char (ch 47) base then base +:+ p
  else base +:+ "/" +:+ p.

(** ** Lemmas on prefixes *)

Lemma app_empty_r s : s +:+ "" = s.
Proof. induction s as [|a s IH]; [done|]. simpl. by rewrite IH. Qed.

Lemma app_assoc_s (a b c : string) : (a +:+ b) +:+ c = a +:+ b +:+ c.
Proof. induction a as [|x a IH]; [done|]. simpl. by rewrite IH. Qed.

Lemma length_app_s (a b : string) :
  String.length (a +:+ b) = (String.length a + String.length b)%nat.
Proof. induction a as [|x a IH]; [done|]. simpl. by rewrite IH. Qed.

Lemma append_cancel a b c : a +:+ b = a +:+ c -> b = c.
Proof. induction a as [|x a IH]; cbn; [done|]. intros [= H]. auto. Qed.

Lemma strip_prefix_Some p s r : strip_prefix p s = Some r <-> s = p +:+ r.
Proof.
  revert s. induction p as [|a p IH]; intros s; simpl.
  - split; congruence.
  - destruct s as [|b s]; [done|].
    destruct (Ascii.eqb_spec a b) as [->|Hne]; [rewrite IH|]; split; congruence.
Qed.

Lemma strip_prefix_app p r : strip_prefix p (p +:+ r) = Some r.
Proof. by apply strip_prefix_Some. Qed.

Lemma starts_with_spec p s : starts_with p s = true <-> exists r, s = p +:+ r.
Proof.
  unfold starts_with. destruct (strip_prefix p s) as [r|] eqn:E.
  - apply strip_prefix_Some in E. naive_solver.
  - split; [done|]. intros [r ->]. by rewrite strip_prefix_app in E.
Qed.

Lemma starts_with_char c a s : starts_with (String c "") (String a s) = Ascii.eqb c a.
Proof. unfold starts_with. cbn [strip_prefix]. by destruct (Ascii.eqb c a). Qed.

Lemma trim_start_matches_fuel_done p s n :
  p <> "" -> (String.length s <= n)%nat -> starts_with p (trim_start_matches_fuel n p s) = false.
Proof.
  intros Hp. revert s. induction n as [|n IH]; intros s Hn; simpl.
  - destruct s; [|simpl in Hn; lia]. destruct p; [done|]. reflexivity.
  - unfold starts_with. destruct (strip_prefix p s) as [r|] eqn:E; [|by rewrite E].
    apply IH. apply strip_prefix_Some in E. subst. rewrite length_app_s in Hn.
    destruct p; [done|]. simpl in Hn. lia.
Qed.

(** [trim_start_matches] leaves no occurrence of the prefix. *)
Lemma trim_start_matches_done p s :
  p <> "" -> starts_with p (trim_start_matches p s) = false.
Proof. intros. apply trim_start_matches_fuel_done; [done|lia]. Qed.

Lemma trim_start_matches_once p s :
  starts_with p s = false -> p <> "" -> trim_start_matches p (p +:+ s) = s.
Proof.
  intros Hs Hp. unfold trim_start_matches. rewrite length_app_s.
  destruct p as [|a p]; [done|]. simpl String.length.
  cbn [trim_start_matches_fuel Nat.add]. rewrite strip_prefix_app.
  unfold starts_with in Hs. destruct (String.length p + String.length s)%nat as [|n]; [done|].
  cbn [trim_start_matches_fuel]. by destruct (strip_prefix (String a p) s).
Qed.

(** ** Lemmas on characters *)

Lemma str_forall_app f a b : str_forall f (a +:+ b) = str_forall f a && str_forall f b.
Proof. induction a as [|x a IH]; [done|]. simpl. by rewrite IH, andb_assoc. Qed.

Lemma str_forall_impl (f g : Ascii.ascii -> bool) s :
  (forall a, f a = true -> g a = true) -> str_forall f s = true -> str_forall g s = true.
Proof.
  intros Hfg. induction s as [|a s IH]; [done|]. simpl.
  rewrite !andb_true_iff. naive_solver.
Qed.

Lemma contains_char_app c a b : contains_char c (a +:+ b) = contains_char c a || contains_char c b.
Proof. induction a as [|x a IH]; [done|]. simpl. by rewrite IH, orb_assoc. Qed.

Lemma contains_char_forall c f s :
  f c = false -> str_forall f s = true -> contains_char c s = false.
Proof.
  intros Hc. induction s as [|a s IH]; [done|]. simpl.
  rewrite andb_true_iff. intros [Ha Hs].
  destruct (Ascii.eqb_spec a c) as [->|]; [congruence|]. by rewrite IH.
Qed.

(** ** Splitting undoes joining *)

Lemma split_char_nonempty c s : split_char c s <> [].
Proof.
  destruct s as [|a s]; [done|]. simpl. destruct (Ascii.eqb a c); [done|].
  by destruct (split_char c s).
Qed.

Lemma join_split c s : join (String c "") (split_char c s) = s.
Proof.
  induction s as [|a s IH]; [done|]. simpl.
  pose proof (split_char_nonempty c s) as Hne.
  destruct (Ascii.eqb_spec a c) as [->|Hac].
  - destruct (split_char c s) as [|h t]; [done|]. simpl in *. by rewrite IH.
  - destruct (split_char c s) as [|h t]; [done|].
    destruct t; simpl in *; by rewrite IH.
Qed.

Lemma split_char_none c s : contains_char c s = false -> split_char c s = [s].
Proof.
  induction s as [|a s IH]; [done|]. simpl. rewrite orb_false_iff. intros [-> Hs].
  by rewrite IH.
Qed.

Lemma split_char_app c s t :
  contains_char c s = false -> split_char c (s +:+ String c t) = s :: split_char c t.
Proof.
  induction s as [|a s IH]; simpl.
  - intros _. by rewrite (Ascii.eqb_refl c).
  - rewrite orb_false_iff. intros [-> Hs]. by rewrite IH.
Qed.

Lemma split_join c l :
  l <> [] -> Forall (fun s => contains_char c s = false) l ->
  split_char c (join (String c "") l) = l.
Proof.
  intros Hne H. induction H as [|x l Hx Hl IH]; [done|].
  destruct l as [|y l]; [by apply split_char_none|].
  change (join _ (x :: y :: l)) with (x +:+ String c (join (String c "") (y :: l))).
  rewrite split_char_app by done. by rewrite IH.
Qed.

Lemma split_once_app c l r :
  contains_char c l = false -> split_once c (l +:+ String c r) = Some (l, r).
Proof.
  induction l as [|a l IH]; simpl.
  - by rewrite Ascii.eqb_refl.
  - rewrite orb_false_iff. intros [-> Hl]. by rewrite IH.
Qed.

(** ** The decimal round trip *)

Lemma byte_of_ch n : (n < 256)%nat -> byte_of (ch n) = Z.of_nat n.
Proof.
  intros. unfold byte_of, ch, Ascii.ascii_of_nat.
  rewrite Ascii.N_ascii_embedding by lia. by rewrite nat_N_Z.
Qed.

Lemma digit_char_digit d : 0 <= d < 10 -> is_ascii_digit (digit_char d) = true.
Proof.
  intros. unfold is_ascii_digit, char_in_range, digit_char.
  rewrite byte_of_ch by lia. apply andb_true_iff. lia.
Qed.

Lemma digit_val_char d : 0 <= d < 10 -> digit_val 10 (digit_char d) = Some d.
Proof.
  intros. unfold digit_val. rewrite digit_char_digit by done.
  unfold digit_char. rewrite byte_of_ch by lia.
  replace (Z.of_nat (Z.to_nat (48 + d)) - 48) with d by lia.
  by destruct (Z.ltb_spec d 10); [|lia].
Qed.

Lemma dec_fuel_digits n z acc :
  0 <= z -> str_forall is_ascii_digit acc = true ->
  str_forall is_ascii_digit (dec_fuel n z acc) = true.
Proof.
  revert z acc. induction n as [|n IH]; intros z acc Hz Hacc; [done|]. cbn [dec_fuel].
  assert (str_forall is_ascii_digit (String (digit_char (z mod 10)) acc) = true).
  { simpl. rewrite digit_char_digit; [done|]. apply Z.mod_pos_bound. lia. }
  destruct (z <? 10); [done|]. apply IH; [|done]. apply Z.div_pos; lia.
Qed.

Lemma to_dec_digits z : 0 <= z -> str_forall is_ascii_digit (to_dec z) = true.
Proof. intros. by apply dec_fuel_digits. Qed.

Lemma dec_fuel_nonempty n z acc : str_is_empty (dec_fuel (S n) z acc) = false.
Proof.
  revert z acc. induction n as [|n IH]; intros z acc.
  - simpl. by destruct (z <? 10).
  - cbn [dec_fuel]. destruct (z <? 10); [done|]. apply IH.
Qed.

Lemma to_dec_nonempty z : str_is_empty (to_dec z) = false.
Proof. apply dec_fuel_nonempty. Qed.

Lemma dec_fuel_length n z acc : (String.length (dec_fuel n z acc) <= n + String.length acc)%nat.
Proof.
  revert z acc. induction n as [|n IH]; intros z acc; simpl; [lia|].
  destruct (z <? 10); simpl; [lia|]. specialize (IH (z / 10) (String (digit_char (z mod 10)) acc)).
  simpl in IH. lia.
Qed.

Lemma to_dec_length z : (String.length (to_dec z) <= S (Z.to_nat (Z.log2 z)))%nat.
Proof. unfold to_dec. pose proof (dec_fuel_length (S (Z.to_nat (Z.log2 z))) z ""). simpl in *. lia. Qed.

Lemma parse_dec_fuel n z rest :
  0 <= z < 10 ^ Z.of_nat n -> (0 < n)%nat ->
  exists k, 0 <= k /\ forall max a, 0 <= a -> a * 10 ^ k + z <= max ->
    parse_digits 10 max a (dec_fuel n z rest) = parse_digits 10 max (a * 10 ^ k + z) rest.
Proof.
  revert z rest. induction n as [|n IH]; intros z rest Hz Hn; [lia|].
  cbn [dec_fuel]. pose proof (Z.mod_pos_bound z 10 ltac:(lia)) as Hd.
  destruct (Z.ltb_spec z 10) as [Hlt|Hge].
  - exists 1. split; [lia|]. intros max a Ha Hmax. cbn [parse_digits].
    rewrite digit_val_char by done. rewrite (Z.mod_small z) by lia.
    rewrite Z.pow_1_r in *. by destruct (Z.leb_spec (a * 10 + z) max); [|lia].
  - assert (Hn' : (0 < n)%nat) by (destruct n; [simpl in Hz; lia|lia]).
    rewrite Nat2Z.inj_succ, Z.pow_succ_r in Hz by lia.
    destruct (IH (z / 10) (String (digit_char (z mod 10)) rest)) as (k & Hk & Hp);
      [split; [apply Z.div_pos; lia|apply Z.div_lt_upper_bound; lia]|done|].
    exists (k + 1). split; [lia|]. intros max a Ha Hmax.
    pose proof (Z.div_mod z 10 ltac:(lia)) as Hdm.
    assert (0 <= a * 10 ^ k) by (apply Z.mul_nonneg_nonneg; [lia|apply Z.pow_nonneg; lia]).
    rewrite Z.pow_add_r, Z.pow_1_r in * by lia.
    assert (0 <= z / 10) by (apply Z.div_pos; lia).
    rewrite Hp by lia. cbn [parse_digits]. rewrite digit_val_char by done.
    replace ((a * 10 ^ k + z / 10) * 10 + z mod 10) with (a * (10 ^ k * 10) + z) by lia.
    by destruct (Z.leb_spec (a * (10 ^ k * 10) + z) max); [|lia].
Qed.

Lemma to_dec_fuel z : 0 <= z -> z < 10 ^ Z.of_nat (S (Z.to_nat (Z.log2 z))).
Proof.
  intros Hz. rewrite Nat2Z.inj_succ, Z2Nat.id by apply Z.log2_nonneg.
  destruct (Z.eq_dec z 0) as [->|Hne]; [reflexivity|].
  eapply Z.lt_le_trans; [apply Z.log2_spec; lia|].
  apply Z.pow_le_mono_l. lia.
Qed.

Lemma digit_not_plus a : is_ascii_digit a = true -> Ascii.eqb a (ch 43) = false.
Proof.
  intros Ha. apply Ascii.eqb_neq. intros ->. by compute in Ha.
Qed.

(** Printing a number and parsing it back gives the number, at every width
    that holds it. *)
Lemma parse_to_dec max z : 0 <= z <= max -> parse_uint max (to_dec z) = Ok z.
Proof.
  intros Hz. unfold parse_uint, from_str_radix.
  pose proof (to_dec_digits z ltac:(lia)) as Hd.
  pose proof (to_dec_nonempty z) as Hne.
  assert (Hp : parse_digits 10 max 0 (to_dec z) = Ok z).
  { destruct (parse_dec_fuel _ z "" (conj (proj1 Hz) (to_dec_fuel z (proj1 Hz))))
      as (k & Hk & Hp); [lia|].
    unfold to_dec. by rewrite Hp by lia. }
  destruct (to_dec z) as [|a s]; [done|].
  simpl in Hd. apply andb_true_iff in Hd as [Ha _].
  by rewrite (digit_not_plus a Ha).
Qed.

Lemma digit_val_range radix a d : digit_val radix a = Some d -> 0 <= d < radix.
Proof.
  unfold digit_val, is_ascii_digit, is_ascii_lower, is_ascii_upper, char_in_range.
  intros H. run_cases; lia.
Qed.

Lemma parse_digits_range radix max acc s v :
  0 <= radix -> 0 <= acc <= max -> parse_digits radix max acc s = Ok v -> 0 <= v <= max.
Proof.
  intros Hr. revert acc. induction s as [|a s IH]; intros acc Hacc H; simpl in H; [naive_solver|].
  destruct (digit_val radix a) as [d|] eqn:Ed; [|done].
  destruct (Z.leb_spec (acc * radix + d) max) as [Hle|]; [|done].
  apply digit_val_range in Ed. eapply IH; [|done]. nia.
Qed.

(** A parsed integer fits its type. *)
Lemma parse_uint_range max s v : 0 <= max -> parse_uint max s = Ok v -> 0 <= v <= max.
Proof.
  intros Hm. unfold parse_uint, from_str_radix. destruct s as [|a s]; [done|].
  destruct (Ascii.eqb a (ch 43)); [destruct (str_is_empty s); [done|]|];
    intros H; eapply parse_digits_range in H; done || lia.
Qed.
#[export] Hint Resolve parse_uint_range : heph.

(** ** Trimming *)

(** The first bytes of the white space characters. *)
Definition ws_lead (a : Ascii.ascii) : bool :=
  existsb (fun p => match p with String b _ => Ascii.eqb a b | "" => false end) white_space.

Lemma strip_any_lead a s ps :
  existsb (fun p => match p with String b _ => Ascii.eqb a b | "" => false end) ps = false ->
  forallb (fun p => negb (str_is_empty p)) ps = true ->
  strip_any ps (String a s) = None.
Proof.
  induction ps as [|p ps IH]; [done|]. simpl. rewrite orb_false_iff, andb_true_iff.
  intros [Ha Hps] [Hp Hne]. destruct p as [|b p]; [done|]. simpl.
  rewrite Ascii.eqb_sym, Ha. by apply IH.
Qed.

Lemma white_space_nonempty : forallb (fun p => negb (str_is_empty p)) white_space = true.
Proof. reflexivity. Qed.

Lemma trim_start_lead a s : ws_lead a = false -> trim_start (String a s) = String a s.
Proof.
  intros Ha. unfold trim_start. cbn [String.length trim_start_any].
  by rewrite (strip_any_lead a s _ Ha white_space_nonempty).
Qed.

Lemma trim_end_app_lead p s :
  str_forall (fun a => negb (ws_lead a)) p = true -> trim_end (p +:+ s) = p +:+ trim_end s.
Proof.
  induction p as [|a p IH]; [done|]. cbn [str_forall]. rewrite andb_true_iff.
  intros [Ha Hp]. apply negb_true_iff in Ha. simpl String.append. cbn [trim_end].
  rewrite (trim_start_lead a _ Ha). simpl. by rewrite IH.
Qed.

Lemma strip_any_suffix ps s r : strip_any ps s = Some r -> exists p, In p ps /\ s = p +:+ r.
Proof.
  induction ps as [|p ps IH]; [done|]. simpl.
  destruct (strip_prefix p s) as [r'|] eqn:E.
  - intros; simplify_eq. apply strip_prefix_Some in E. eauto.
  - intros H. destruct (IH H) as (p' & Hp' & ->). eauto.
Qed.

Lemma trim_start_any_suffix n ps s : exists p, s = p +:+ trim_start_any n ps s.
Proof.
  revert s. induction n as [|n IH]; intros s; simpl; [by exists ""|].
  destruct (strip_any ps s) as [r|] eqn:E; [|by exists ""].
  apply strip_any_suffix in E as (p & _ & ->). destruct (IH r) as [q Hq].
  exists (p +:+ q). by rewrite app_assoc_s, <- Hq.
Qed.

Lemma trim_end_length s : (String.length (trim_end s) <= String.length s)%nat.
Proof.
  induction s as [|a s IH]; [done|]. cbn [trim_end]. destruct (str_is_empty _); simpl; lia.
Qed.

Lemma trimmed_end s : trim s = s -> trim_end s = s.
Proof.
  unfold trim. intros H. destruct (trim_start_any_suffix (String.length s) white_space s) as [p Hp].
  fold (trim_start s) in Hp. pose proof (trim_end_length (trim_start s)) as Hl.
  assert (Hlen : String.length s = (String.length p + String.length (trim_start s))%nat).
  { rewrite Hp at 1. apply length_app_s. }
  rewrite H in Hl. destruct p as [|a p]; [|simpl in Hlen; lia].
  simpl in Hp. by rewrite <- Hp in H.
Qed.

Lemma trim_end_strip_cr s : trim_end s = s -> strip_cr s = s.
Proof.
  induction s as [|a s IH]; [done|]. cbn [trim_end]. intros H.
  destruct (str_is_empty (trim_start (String a s))) eqn:E; [done|].
  injection H as Hs. destruct s as [|b s].
  - simpl. destruct (Ascii.eqb_spec a CR) as [->|]; [by vm_compute in E|done].
  - cbn [strip_cr]. f_equal. by apply IH.
Qed.

(** A line [key=value] is its own trimming, and so are its halves. *)
Lemma trim_key_value k v :
  k <> "" -> str_forall (fun a => negb (ws_lead a)) k = true -> trim v = v ->
  trim (k +:+ String (ch 61) v) = k +:+ String (ch 61) v.
Proof.
  intros Hne Hk Hv. unfold trim.
  assert (Hs : trim_start (k +:+ String (ch 61) v) = k +:+ String (ch 61) v).
  { destruct k as [|a k]; [done|]. simpl in *. apply andb_true_iff in Hk as [Ha _].
    apply trim_start_lead. by apply negb_true_iff. }
  rewrite Hs, trim_end_app_lead by done. f_equal.
  change (String (ch 61) v) with (String (ch 61) "" +:+ v).
  rewrite trim_end_app_lead by done. by rewrite trimmed_end.
Qed.

Lemma trim_no_lead s : str_forall (fun a => negb (ws_lead a)) s = true -> trim s = s.
Proof.
  intros Hs. unfold trim. assert (H0 : trim_start s = s).
  { destruct s as [|a s]; [done|]. simpl in Hs. apply andb_true_iff in Hs as [Ha _].
    apply trim_start_lead. by apply negb_true_iff. }
  rewrite H0. rewrite <- (app_empty_r s) at 1. rewrite trim_end_app_lead by done.
  apply app_empty_r.
Qed.

(** ** Lines *)

(** Text written line by line. *)
Fixpoint unlines (ls : list string) : string :=
  match ls with [] => "" | l :: ls' => l +:+ String NL (unlines ls') end.

Lemma lines_unlines ls :
  Forall (fun l => contains_char NL l = false) ls -> lines (unlines ls) = strip_cr <$> ls.
Proof.
  unfold lines. induction 1 as [|l ls Hl Hls IH]; [done|]. cbn [unlines fmap list_fmap].
  rewrite split_char_app by done.
  pose proof (split_char_nonempty NL (unlines ls)) as Hne.
  destruct (split_char NL (unlines ls)) eqn:E; [done|]. rewrite <- IH. done.
Qed.

Lemma digits_no_lead s :
  str_forall is_ascii_digit s = true -> str_forall (fun a => negb (ws_lead a)) s = true.
Proof.
  apply str_forall_impl. intros a Ha. apply negb_true_iff.
  unfold is_ascii_digit, char_in_range in Ha.
  destruct (ws_lead a) eqn:E; [|done]. exfalso. unfold ws_lead in E.
  apply existsb_exists in E as (p & Hp & E).
  destruct p as [|b p]; [done|]. apply Ascii.eqb_eq in E. subst b.
  simpl in Hp. by repeat (destruct Hp as [Hp|Hp]; [injection Hp as <- _; vm_compute in Ha|]).
Qed.

Lemma digits_no_char c s :
  is_ascii_digit c = false -> str_forall is_ascii_digit s = true -> contains_char c s = false.
Proof. apply contains_char_forall. Qed.

(** ** Tables *)

Lemma entry_elem {A} name (table : list (string * A)) a : entry name table = Some a -> (name, a) ∈ table.
Proof.
  induction table as [|[n b] table IH]; cbn; [done|]. destruct (String.eqb_spec n name) as [->|]; [|set_solver].
  intros <-%(inj Some). set_solver.
Qed.
Lemma entry_Forall {A} (P : string -> A -> Prop) name (table : list (string * A)) a :
  Forall (fun e => P e.1 e.2) table -> entry name table = Some a -> P name a.
Proof. intros Ht Ha%entry_elem. rewrite Forall_forall in Ht. exact (Ht _ Ha). Qed.

(** ** Trimming, splitting and replacing, further *)

Lemma trim_end_idem f s : trim_end_by f (trim_end_by f s) = trim_end_by f s.
Proof.
  induction s as [|a s IH]; [done|]. cbn [trim_end_by]. destruct (trim_end_by f s) as [|b r] eqn:E.
  - destruct (f a) eqn:Ea; [done|]. cbn. by rewrite Ea.
  - cbn [trim_end_by] in *. by rewrite IH.
Qed.
Lemma trim_end_prefix f s : exists r, s = trim_end_by f s +:+ r.
Proof.
  induction s as [|a s [r IH]]; [by exists ""|]. cbn [trim_end_by]. destruct (trim_end_by f s) as [|b t].
  - destruct (f a); [by exists (String a s)|]. by exists s.
  - exists r. cbn in *. by rewrite IH at 1.
Qed.
Lemma trim_end_tail f a s : s <> "" -> trim_end_by f (String a s) = String a s -> trim_end_by f s = s.
Proof.
  cbn. intros Hne Ht. destruct (trim_end_by f s) as [|b r]; [destruct (f a); by simplify_eq|]. by injection Ht as ->.
Qed.
Lemma trim_end_snoc f r a : f a = true -> trim_end_by f (r +:+ String a "") = trim_end_by f r.
Proof. intros Ha. induction r as [|b r IH]; cbn; [by rewrite Ha|]. by rewrite IH. Qed.
Lemma trim_end_none f l : str_forall (fun a => negb (f a)) l = true -> trim_end_by f l = l.
Proof.
  induction l as [|a l IH]; [done|]. cbn. intros [Ha Hl]%andb_true_iff. rewrite IH by done. destruct l; [|done]. by destruct (f a).
Qed.
Lemma contains_prefix p a b : contains p (a +:+ b) = false -> contains p a = false.
Proof.
  induction a as [|x a IH]; cbn; intros Hc.
  - destruct p; [|done]. by destruct b.
  - apply orb_false_iff in Hc as [Hs Hc]. rewrite (IH Hc), orb_false_r. destruct (starts_with p (String x a)) eqn:E; [|done].
    apply starts_with_spec in E as [r E]. rewrite <- Hs. symmetry. apply starts_with_spec. exists (r +:+ b).
    change (String x (a +:+ b)) with (String x a +:+ b). by rewrite E, app_assoc_s.
Qed.
Lemma split_head c s : head (split_char c s) = Some (match split_once c s with Some (l, _) => l | None => s end).
Proof.
  induction s as [|a s IH]; [done|]. cbn. destruct (Ascii.eqb a c); [done|]. pose proof (split_char_nonempty c s).
  destruct (split_char c s) as [|h t]; [done|]. cbn in *. injection IH as ->. by destruct (split_once c s) as [[]|].
Qed.
Lemma split_char_forall f c s : str_forall f s = true -> Forall (fun x => str_forall f x = true) (split_char c s).
Proof.
  induction s as [|a s IH]; intros Hs; [by repeat constructor|]. cbn [str_forall] in Hs. apply andb_true_iff in Hs as [Ha Hs]. cbn.
  specialize (IH Hs). destruct (Ascii.eqb a c); [by constructor|]. destruct IH; [by repeat constructor; cbn; rewrite Ha|].
  constructor; [cbn; by rewrite Ha|done].
Qed.
Lemma split_unlines ls : Forall (fun l => contains_char NL l = false) ls -> split_char NL (unlines ls) = (ls ++ [""])%list.
Proof. induction 1 as [|l ls Hl _ IH]; [done|]. cbn [unlines app]. by rewrite split_char_app, IH. Qed.
Lemma replace_forall f p t s : str_forall f t = true -> str_forall f s = true -> str_forall f (replace p t s) = true.
Proof.
  intros Ht. unfold replace. generalize (String.length s) as n. intros n. revert s.
  induction n as [|n IH]; intros s Hs; [done|]. cbn [replace_fuel]. destruct (strip_prefix p s) as [r|] eqn:E.
  - apply strip_prefix_Some in E. rewrite E, str_forall_app in Hs. apply andb_true_iff in Hs as [_ Hs]. by rewrite str_forall_app, Ht, IH.
  - destruct s as [|a s]; [done|]. cbn [str_forall] in *. apply andb_true_iff in Hs as [Ha Hs]. by rewrite Ha, IH.
Qed.

(** A number is read at any width it fits. *)
Lemma parse_digits_grows max acc s v : 0 <= acc -> parse_digits 10 max acc s = Ok v -> acc <= v.
Proof.
  revert acc. induction s as [|a s IH]; intros acc Ha; cbn; [intros [= ->]; lia|]. destruct (digit_val 10 a) as [d|] eqn:Ed; [|done].
  apply digit_val_range in Ed. destruct (acc * 10 + d <=? max); [|done]. intros Hv. specialize (IH (acc * 10 + d) ltac:(lia) Hv). lia.
Qed.
Lemma parse_digits_max max max' acc s v : 0 <= acc -> v <= max' -> parse_digits 10 max acc s = Ok v -> parse_digits 10 max' acc s = Ok v.
Proof.
  revert acc. induction s as [|a s IH]; intros acc Ha Hv; cbn; [done|]. destruct (digit_val 10 a) as [d|] eqn:Ed; [|done].
  apply digit_val_range in Ed. destruct (Z.leb_spec (acc * 10 + d) max); [|done]. intros Hp.
  pose proof (parse_digits_grows max (acc * 10 + d) s v ltac:(lia) Hp). destruct (Z.leb_spec (acc * 10 + d) max'); [|lia]. apply IH; [lia..|done].
Qed.
Lemma parse_uint_max max max' s v : v <= max' -> parse_uint max s = Ok v -> parse_uint max' s = Ok v.
Proof.
  intros Hv. unfold parse_uint, from_str_radix. destruct s as [|a s]; [done|]. destruct (Ascii.eqb a (ch 43)); [destruct (str_is_empty s); [done|]|];
    by apply parse_digits_max.
Qed.
Lemma digits_zero max s : s <> "" -> parse_digits 10 max 0 s = Ok 0 -> starts_with "0" s = true.
Proof.
  destruct s as [|a s]; [done|]. intros _. cbn [parse_digits]. destruct (digit_val 10 a) as [d|] eqn:Ed; [|done].
  destruct (0 * 10 + d <=? max); [|done]. intros Hp. pose proof (digit_val_range _ _ _ Ed). apply parse_digits_grows in Hp; [|lia].
  assert (d = 0) as -> by lia. change "0" with (String (ch 48) ""). rewrite starts_with_char.
  by destruct a as [[] [] [] [] [] [] [] []]; vm_compute in Ed |- *.
Qed.
