(* ===== verification/Utf8.v ===== *)
(** * UTF-8 validity and lossy decoding

    [str::from_utf8] and [String::from_utf8_lossy] of the standard library,
    on byte strings: the program decides with them which paths and lines it
    accepts and how it shows the others.  [utf8_step] reads one character or
    one maximal ill-formed prefix. *)

From S2P Require Import Prelude RustStr.
Local Open Scope string_scope.
Local Open Scope Z_scope.

Definition in_range (lo hi : Z) (a : Ascii.ascii) : bool := (lo <=? byte_of a) && (byte_of a <=? hi).
Definition continuation : Ascii.ascii -> bool := in_range 128 191.

(** The second bytes a first byte admits, and how many more follow it. *)
Definition lead (a : Ascii.ascii) : option ((Ascii.ascii -> bool) * nat) :=
  if in_range 194 223 a then Some (continuation, 0%nat)
  else if in_range 224 224 a then Some (in_range 160 191, 1%nat)
  else if in_range 237 237 a then Some (in_range 128 159, 1%nat)
  else if in_range 225 239 a then Some (continuation, 1%nat)
  else if in_range 240 240 a then Some (in_range 144 191, 2%nat)
  else if in_range 241 243 a then Some (continuation, 2%nat)
  else if in_range 244 244 a then Some (in_range 128 143, 2%nat)
  else None.

(** Reads [n] continuation bytes: the bytes read, whether all were there, the rest. *)
Fixpoint take_cont (n : nat) (s : string) : string * bool * string :=
  match n with
  | O => ("", true, s)
  | S n' =>
      match s with
      | String a s' =>
          if continuation a
          then let '(t, ok, r) := take_cont n' s' in (String a t, ok, r)
          else ("", false, s)
      | "" => ("", false, s)
      end
  end.

(** One step on a non-empty string: the bytes consumed after the first,
    whether with the first they are a character, and the rest. *)
Definition utf8_step (a : Ascii.ascii) (s : string) : string * bool * string :=
  if byte_of a <? 128 then ("", true, s)
  else match lead a with
       | None => ("", false, s)
       | Some (second, more) =>
           match s with
           | String b s' =>
               if second b
               then let '(t, ok, r) := take_cont more s' in (String b t, ok, r)
               else ("", false, s)
           | "" => ("", false, s)
           end
       end.

(** U+FFFD, the replacement character. *)
Definition replacement : string := utf8 [239; 191; 189]%nat.

Fixpoint utf8_valid_fuel (n : nat) (s : string) : bool :=
  match n, s with
  | _, "" => true
  | O, _ => false
  | S n', String a s' =>
      let '(_, ok, r) := utf8_step a s' in ok && utf8_valid_fuel n' r
  end.
Definition utf8_valid (s : string) : bool := utf8_valid_fuel (String.length s) s.

Fixpoint lossy_fuel (n : nat) (s : string) : string :=
  match n, s with
  | _, "" => ""
  | O, _ => ""
  | S n', String a s' =>
      let '(t, ok, r) := utf8_step a s' in
      (if ok then String a t else replacement) +:+ lossy_fuel n' r
  end.
Definition from_utf8_lossy (s : string) : string := lossy_fuel (String.length s) s.

(** ** Lemmas *)

Lemma take_cont_app n s t ok r : take_cont n s = (t, ok, r) -> s = t +:+ r.
Proof.
  revert s t. induction n as [|n IH]; intros s t H; simpl in H; [by simplify_eq|].
  destruct s as [|a s]; [by simplify_eq|]. destruct (continuation a); [|by simplify_eq].
  destruct (take_cont n s) as [[t' ok'] r'] eqn:E. simplify_eq. simpl. f_equal. by eapply IH.
Qed.

(** A step splits the input. *)
Lemma utf8_step_app a s t ok r : utf8_step a s = (t, ok, r) -> s = t +:+ r.
Proof.
  unfold utf8_step. intros H. run_cases; try done.
  f_equal. by eapply take_cont_app.
Qed.

Lemma utf8_step_length a s t ok r :
  utf8_step a s = (t, ok, r) -> (String.length r <= String.length s)%nat.
Proof. intros ->%utf8_step_app. rewrite length_app_s. lia. Qed.

(** Every string steps to its end within its length: decoding is total. *)
Lemma utf8_valid_fuel_enough n m s :
  (String.length s <= n)%nat -> (String.length s <= m)%nat ->
  utf8_valid_fuel n s = utf8_valid_fuel m s.
Proof.
  revert m s. induction n as [|n IH]; intros m [|a s] Hn Hm; simpl in *;
    [by destruct m|lia|by destruct m|]. destruct m as [|m]; [lia|]. simpl.
  destruct (utf8_step a s) as [[t ok] r] eqn:E. f_equal.
  apply utf8_step_length in E. apply IH; lia.
Qed.

(** Text that is UTF-8 is decoded to itself. *)
Lemma lossy_valid s : utf8_valid s = true -> from_utf8_lossy s = s.
Proof.
  unfold utf8_valid, from_utf8_lossy. generalize (String.length s).
  intros n. revert s. induction n as [|n IH]; intros [|a s]; [done..|]. simpl.
  destruct (utf8_step a s) as [[t ok] r] eqn:E. rewrite andb_true_iff. intros [-> Hr].
  rewrite IH by done. simpl. f_equal. symmetry. by eapply utf8_step_app.
Qed.

(** ASCII text is UTF-8. *)
Lemma ascii_valid s : str_forall (fun a => byte_of a <? 128) s = true -> utf8_valid s = true.
Proof.
  unfold utf8_valid. induction s as [|a s IH]; [done|]. simpl.
  unfold utf8_step. rewrite andb_true_iff. by intros [-> Hs%IH].
Qed.
