(* ===== verification/Json.v ===== *)
(** * JSON documents and the MMDS merge

    [serde_json::Value] as the crates configure it: an object is a
    [BTreeMap], an association list kept sorted by the bytes of its keys.
    The file holds the map operations the program uses, [merge_json]
    (hephaestus-firecracker/src/backend.rs), its member-wise behaviour, and
    its relation to the merge of RFC 7396. *)

From S2P Require Import Prelude RustStr.
Local Open Scope string_scope.
Local Open Scope Z_scope.

(** ** The order of strings: lexicographic on bytes *)

Fixpoint str_ltb (a b : string) : bool :=
  match a, b with
  | _, "" => false
  | "", String _ _ => true
  | String x a', String y b' =>
      if byte_of x <? byte_of y then true
      else if byte_of y <? byte_of x then false
      else str_ltb a' b'
  end.

(** [Vec<String>::sort]: by bytes. *)
Definition str_le (a b : string) : Prop := str_ltb b a = false.
#[export] Instance str_le_dec : RelDecision str_le.
Proof. intros a b. unfold str_le. apply _. Defined.

Lemma byte_of_inj a b : byte_of a = byte_of b -> a = b.
Proof.
  unfold byte_of. intros H. apply N2Z.inj in H.
  rewrite <- (Ascii.ascii_N_embedding a), <- (Ascii.ascii_N_embedding b). by rewrite H.
Qed.

Lemma str_ltb_irrefl a : str_ltb a a = false.
Proof.
  induction a as [|x a IH]; [done|]. simpl. by rewrite Z.ltb_irrefl.
Qed.

Lemma str_ltb_trans a b c : str_ltb a b = true -> str_ltb b c = true -> str_ltb a c = true.
Proof.
  revert b c. induction a as [|x a IH]; intros [|y b] [|z c]; try done. simpl.
  intros H1 H2. run_cases; try done; try lia. by eapply IH.
Qed.

Lemma str_ltb_total a b : str_ltb a b = false -> str_ltb b a = false -> a = b.
Proof.
  revert b. induction a as [|x a IH]; intros [|y b]; try done. simpl.
  intros H1 H2. run_cases; try done.
  f_equal; [apply byte_of_inj; lia|by apply IH].
Qed.

Lemma str_ltb_asym a b : str_ltb a b = true -> str_ltb b a = false.
Proof.
  intros H. destruct (str_ltb b a) eqn:E; [|done].
  pose proof (str_ltb_trans _ _ _ H E) as Hc. by rewrite str_ltb_irrefl in Hc.
Qed.

(** ** Sorted association lists: the parts of [BTreeMap] in use *)

Section SortedMap.
Context {V : Type}.
Implicit Types (m : list (string * V)) (k : string) (v : V).

Fixpoint map_get k m : option V :=
  match m with
  | [] => None
  | (k', v') :: m' => if String.eqb k k' then Some v' else map_get k m'
  end.

Fixpoint map_insert k v m : list (string * V) :=
  match m with
  | [] => [(k, v)]
  | (k', v') :: m' =>
      if str_ltb k k' then (k, v) :: m
      else if str_ltb k' k then (k', v') :: map_insert k v m'
      else (k', v) :: m'
  end.

Fixpoint map_remove k m : list (string * V) :=
  match m with
  | [] => []
  | (k', v') :: m' => if String.eqb k k' then m' else (k', v') :: map_remove k m'
  end.

(** Every key of [m] is above [k]. *)
Definition above k m : bool := forallb (fun e => str_ltb k e.1) m.

Fixpoint sorted m : bool :=
  match m with
  | [] => true
  | (k, _) :: m' => above k m' && sorted m'
  end.

Lemma above_trans k k' m : str_ltb k k' = true -> above k' m = true -> above k m = true.
Proof.
  unfold above. intros Hk. rewrite !forallb_forall. intros H e He.
  eapply str_ltb_trans; [done|]. by apply H.
Qed.

Lemma above_get k m : above k m = true -> map_get k m = None.
Proof.
  induction m as [|[k' v'] m IH]; [done|]. simpl. rewrite andb_true_iff. intros [Hk Ha].
  destruct (String.eqb_spec k k') as [<-|]; [by rewrite str_ltb_irrefl in Hk|by apply IH].
Qed.

Lemma above_insert k0 k v m :
  str_ltb k0 k = true -> above k0 m = true -> above k0 (map_insert k v m) = true.
Proof.
  intros Hk. induction m as [|[k' v'] m IH]; simpl; [by rewrite Hk|].
  rewrite andb_true_iff. intros [Hk' Ha].
  destruct (str_ltb k k'); simpl; [by rewrite Hk, Hk'|].
  destruct (str_ltb k' k); simpl; rewrite Hk'; simpl; [by apply IH|done].
Qed.

Lemma above_remove k0 k m : above k0 m = true -> above k0 (map_remove k m) = true.
Proof.
  induction m as [|[k' v'] m IH]; [done|]. simpl. rewrite andb_true_iff. intros [Hk Ha].
  destruct (String.eqb k k'); [done|]. simpl. by rewrite Hk, IH.
Qed.

Lemma sorted_insert k v m : sorted m = true -> sorted (map_insert k v m) = true.
Proof.
  induction m as [|[k' v'] m IH]; [done|]. simpl. rewrite andb_true_iff. intros [Ha Hs].
  destruct (str_ltb k k') eqn:E; simpl.
  - rewrite E, Ha, Hs. simpl. by rewrite (above_trans _ _ _ E Ha).
  - destruct (str_ltb k' k) eqn:E'; simpl; [|by rewrite Ha, Hs].
    by rewrite IH, above_insert.
Qed.

Lemma sorted_remove k m : sorted m = true -> sorted (map_remove k m) = true.
Proof.
  induction m as [|[k' v'] m IH]; [done|]. simpl. rewrite andb_true_iff. intros [Ha Hs].
  destruct (String.eqb k k'); [done|]. simpl. by rewrite IH, above_remove.
Qed.

Lemma map_get_insert k v k' m :
  sorted m = true ->
  map_get k' (map_insert k v m) = if String.eqb k' k then Some v else map_get k' m.
Proof.
  induction m as [|[k0 v0] m IH]; [done|]. simpl. rewrite andb_true_iff. intros [Ha Hs].
  destruct (str_ltb k k0) eqn:E1; [done|]. destruct (str_ltb k0 k) eqn:E2; simpl.
  - rewrite IH by done. destruct (String.eqb_spec k' k0) as [->|]; [|done].
    destruct (String.eqb_spec k0 k) as [->|]; [by rewrite str_ltb_irrefl in E2|done].
  - rewrite (str_ltb_total _ _ E2 E1) in *. by destruct (String.eqb k' k).
Qed.

Lemma map_get_remove k k' m :
  sorted m = true ->
  map_get k' (map_remove k m) = if String.eqb k' k then None else map_get k' m.
Proof.
  induction m as [|[k0 v0] m IH]; simpl; [by destruct (String.eqb k' k)|].
  rewrite andb_true_iff. intros [Ha Hs].
  destruct (String.eqb_spec k k0) as [<-|Hne].
  - destruct (String.eqb_spec k' k) as [->|]; [by apply above_get|done].
  - simpl. rewrite IH by done. destruct (String.eqb_spec k' k0) as [->|]; [|done].
    by destruct (String.eqb_spec k0 k) as [->|].
Qed.

(** A key above all others is inserted at the end. *)
Lemma map_insert_snoc k v m :
  forallb (fun e => str_ltb e.1 k) m = true -> map_insert k v m = (m ++ [(k, v)])%list.
Proof.
  induction m as [|[k' v'] m IH]; [done|]. simpl. rewrite andb_true_iff. intros [Hk Hm].
  by rewrite (str_ltb_asym _ _ Hk), Hk, IH.
Qed.

(** Two sorted maps with the same members are the same list. *)
Lemma sorted_ext m1 m2 :
  sorted m1 = true -> sorted m2 = true ->
  (forall k, map_get k m1 = map_get k m2) -> m1 = m2.
Proof.
  revert m2. induction m1 as [|[k1 v1] m1 IH]; intros [|[k2 v2] m2] H1 H2 He; [done|..].
  - specialize (He k2). simpl in He. by rewrite String.eqb_refl in He.
  - specialize (He k1). simpl in He. by rewrite String.eqb_refl in He.
  - simpl in H1, H2. apply andb_true_iff in H1 as [Ha1 Hs1], H2 as [Ha2 Hs2].
    assert (Hk : k1 = k2).
    { apply str_ltb_total.
      - destruct (str_ltb k1 k2) eqn:E; [|done]. specialize (He k1). simpl in He.
        rewrite String.eqb_refl in He. destruct (String.eqb_spec k1 k2) as [->|];
          [by rewrite str_ltb_irrefl in E|].
        by rewrite (above_get k1 m2) in He by (by eapply above_trans).
      - destruct (str_ltb k2 k1) eqn:E; [|done]. specialize (He k2). simpl in He.
        rewrite String.eqb_refl in He. destruct (String.eqb_spec k2 k1) as [->|];
          [by rewrite str_ltb_irrefl in E|].
        by rewrite (above_get k2 m1) in He by (by eapply above_trans). }
    subst k2. pose proof (He k1) as Hv. simpl in Hv. rewrite String.eqb_refl in Hv.
    simplify_eq. f_equal. apply IH; [done..|]. intros k. specialize (He k). simpl in He.
    destruct (String.eqb k k1) eqn:E; [|done].
    apply String.eqb_eq in E. subst k. by rewrite !above_get.
Qed.

Lemma map_get_In k v m : map_get k m = Some v -> In (k, v) m.
Proof.
  induction m as [|[k' v'] m IH]; [done|]. simpl.
  destruct (String.eqb_spec k k') as [->|]; [intros; simplify_eq; by left|right; by apply IH].
Qed.
End SortedMap.

(** ** Values *)

(** [serde_json::Number]; a float is the text serde_json prints for it. *)
Inductive Number :=
| PosInt (n : Z)
| NegInt (n : Z)
| Float (text : string).

(** [serde_json::Value]. *)
Inductive Value :=
| Null
| Bool (b : bool)
| Num (n : Number)
| Str (s : string)
| Array (l : list Value)
| Object (m : list (string * Value)).

Definition is_null (v : Value) : bool := match v with Null => true | _ => false end.
Definition is_object (v : Value) : bool := match v with Object _ => true | _ => false end.

(** Induction with the members of arrays and objects. *)
Definition Value_ind' (P : Value -> Prop)
  (HN : P Null) (HB : forall b, P (Bool b)) (HM : forall n, P (Num n)) (HS : forall s, P (Str s))
  (HA : forall l, Forall P l -> P (Array l))
  (HO : forall m, Forall (fun e => P e.2) m -> P (Object m)) : forall v, P v :=
  fix go v :=
    match v with
    | Null => HN
    | Bool b => HB b
    | Num n => HM n
    | Str s => HS s
    | Array l => HA l ((fix gol l := match l return Forall P l with
                        | [] => @Forall_nil_2 _ _
                        | x :: l' => @Forall_cons_2 _ _ x l' (go x) (gol l') end) l)
    | Object m => HO m ((fix gom m := match m return Forall (fun e => P e.2) m with
                         | [] => @Forall_nil_2 _ _
                         | e :: m' => @Forall_cons_2 _ _ e m' (go e.2) (gom m') end) m)
    end.

(** What the type [BTreeMap] maintains: the keys of every object are sorted. *)
Fixpoint wf_value (v : Value) : bool :=
  match v with
  | Array l => forallb wf_value l
  | Object m => sorted m && forallb (fun e => wf_value e.2) m
  | _ => true
  end.

(** ** [merge_json] *)

(** One member of the patch, then the rest: the [for] loop. *)
Definition merge_member (merge : Value -> Value -> Value) (dst_map : list (string * Value))
  (entry : string * Value) : list (string * Value) :=
  let '(key, value) := entry in
  if is_null value then map_remove key dst_map
  else map_insert key (merge (default Null (map_get key dst_map)) value) dst_map.

Fixpoint merge_json (dst patch : Value) {struct patch} : Value :=
  match dst, patch with
  | Object dst_map, Object patch_map =>
      Object ((fix members (dm pm : list (string * Value)) {struct pm} :=
                 match pm with
                 | [] => dm
                 | (key, value) :: pm' =>
                     members (merge_member (fun d _ => merge_json d value) dm (key, value)) pm'
                 end) dst_map patch_map)
  | _, value => value
  end.

(** The merge of RFC 7396, section 2. *)
Fixpoint rfc7396 (target patch : Value) {struct patch} : Value :=
  match patch with
  | Object patch_map =>
      let tm := match target with Object tm => tm | _ => [] end in
      Object ((fix members (tm pm : list (string * Value)) {struct pm} :=
                 match pm with
                 | [] => tm
                 | (name, value) :: pm' =>
                     members (if is_null value then map_remove name tm
                              else map_insert name (rfc7396 (default Null (map_get name tm)) value) tm)
                             pm'
                 end) tm patch_map)
  | _ => patch
  end.

(** The member loops, as folds over the whole merge. *)
Definition merge_members (dm pm : list (string * Value)) : list (string * Value) :=
  foldl (merge_member merge_json) dm pm.
Definition rfc_members (dm pm : list (string * Value)) : list (string * Value) :=
  foldl (merge_member rfc7396) dm pm.

Lemma merge_json_object dm pm : merge_json (Object dm) (Object pm) = Object (merge_members dm pm).
Proof.
  unfold merge_members. simpl. f_equal. revert dm.
  induction pm as [|[k v] pm IH]; intros dm; [done|]. simpl. by rewrite IH.
Qed.

Lemma rfc7396_object t pm :
  rfc7396 t (Object pm) = Object (rfc_members (match t with Object tm => tm | _ => [] end) pm).
Proof.
  unfold rfc_members. simpl. f_equal. generalize (match t with Object tm => tm | _ => [] end).
  induction pm as [|[k v] pm IH]; intros dm; [done|]. simpl. by rewrite IH.
Qed.

Section MemberLoop.
Context (merge : Value -> Value -> Value).

Lemma merge_member_sorted dm e : sorted dm = true -> sorted (merge_member merge dm e) = true.
Proof.
  destruct e as [k v]. simpl. destruct (is_null v); [apply sorted_remove|apply sorted_insert].
Qed.

Lemma merge_member_get dm k v k' :
  sorted dm = true ->
  map_get k' (merge_member merge dm (k, v)) =
    if String.eqb k' k
    then if is_null v then None else Some (merge (default Null (map_get k dm)) v)
    else map_get k' dm.
Proof.
  intros Hs. simpl. destruct (is_null v).
  - by rewrite map_get_remove.
  - by rewrite map_get_insert.
Qed.

Lemma members_sorted dm pm :
  sorted dm = true -> sorted (foldl (merge_member merge) dm pm) = true.
Proof.
  revert dm. induction pm as [|e pm IH]; intros dm Hs; [done|].
  simpl. apply IH. by apply merge_member_sorted.
Qed.

(** A member of the result: untouched when the patch does not name it,
    removed when the patch has null, merged otherwise. *)
Lemma members_get dm pm k :
  sorted dm = true -> sorted pm = true ->
  map_get k (foldl (merge_member merge) dm pm) =
    match map_get k pm with
    | None => map_get k dm
    | Some v => if is_null v then None else Some (merge (default Null (map_get k dm)) v)
    end.
Proof.
  revert dm. induction pm as [|[k0 v0] pm IH]; intros dm Hd Hp; [done|].
  simpl in Hp. apply andb_true_iff in Hp as [Ha Hp].
  cbn [foldl map_get]. rewrite IH by auto using merge_member_sorted.
  destruct (String.eqb_spec k k0) as [->|Hne].
  - by rewrite (above_get _ _ Ha), merge_member_get, String.eqb_refl.
  - rewrite merge_member_get by done. by destruct (String.eqb_spec k k0).
Qed.
End MemberLoop.

(** No object nested in the value has a null member. *)
Fixpoint null_free (v : Value) : bool :=
  match v with
  | Object m => forallb (fun e => negb (is_null e.2) && null_free e.2) m
  | _ => true
  end.

(** Where a member of the patch is an object with null members, the target
    has an object to remove them from. *)
Fixpoint mergeable (dst patch : Value) {struct patch} : bool :=
  match patch with
  | Object pm =>
      match dst with
      | Object dm => forallb (fun e => is_null e.2 || mergeable (default Null (map_get e.1 dm)) e.2) pm
      | _ => null_free patch
      end
  | _ => true
  end.

(** ** Shared lemmas on values *)

Lemma wf_object m :
  wf_value (Object m) = true <-> sorted m = true /\ forall k v, map_get k m = Some v -> wf_value v = true.
Proof.
  simpl. rewrite andb_true_iff. split.
  - intros [Hs Hm]. split; [done|]. intros k v Hk.
    rewrite forallb_forall in Hm. by apply (Hm (k, v)), map_get_In.
  - intros [Hs Hm]. split; [done|]. clear -Hs Hm.
    induction m as [|[k v] m IH]; [done|]. simpl in *. apply andb_true_iff in Hs as [Ha Hs].
    rewrite (Hm k v) by (by rewrite String.eqb_refl). simpl. apply IH; [done|].
    intros k' v' Hk'. apply (Hm k' v'). destruct (String.eqb_spec k' k) as [->|]; [|done].
    by rewrite above_get in Hk'.
Qed.

Lemma forall_get {P : string * Value -> Prop} (m : list (string * Value)) k v :
  Forall P m -> map_get k m = Some v -> P (k, v).
Proof. intros Hm Hk. rewrite Forall_forall in Hm. apply (Hm (k, v)), list_elem_of_In, map_get_In, Hk. Qed.

Lemma forallb_get (f : string * Value -> bool) m k v :
  forallb f m = true -> map_get k m = Some v -> f (k, v) = true.
Proof. rewrite forallb_forall. intros Hm Hk. by apply Hm, map_get_In. Qed.

Lemma wf_get m k v : wf_value (Object m) = true -> map_get k m = Some v -> wf_value v = true.
Proof. rewrite wf_object. naive_solver. Qed.

Lemma wf_default m k : wf_value (Object m) = true -> wf_value (default Null (map_get k m)) = true.
Proof. intros H. destruct (map_get k m) eqn:E; [|done]. simpl. by eapply wf_get. Qed.
#[export] Hint Resolve wf_default members_sorted : heph.

(** Merging keeps the documents well formed. *)
Lemma merge_json_wf dst patch :
  wf_value dst = true -> wf_value patch = true -> wf_value (merge_json dst patch) = true.
Proof.
  revert dst. induction patch as [| | | | |pm IH] using Value_ind'; intros dst Hd Hp;
    try (by destruct dst).
  destruct dst as [| | | | |dm]; try done.
  pose proof (proj1 (wf_object _) Hd) as [Hsd _].
  pose proof (proj1 (wf_object _) Hp) as [Hsp Hwp].
  rewrite merge_json_object. apply wf_object. split; [by apply members_sorted|].
  intros k v. unfold merge_members. rewrite members_get by done.
  destruct (map_get k pm) as [pv|] eqn:Ek; [|intros Hk; exact (wf_get _ _ _ Hd Hk)].
  destruct (is_null pv); [done|]. intros; simplify_eq.
  pose proof (forall_get _ _ _ IH Ek) as Hk. eauto with heph.
Qed.
#[export] Hint Resolve merge_json_wf : heph.

(** Patching nothing into existence: without nulls, a patch is its own
    result. *)
Lemma rfc7396_fresh t v :
  is_object t = false -> wf_value v = true -> null_free v = true -> rfc7396 t v = v.
Proof.
  revert t. induction v as [| | | | |pm IH] using Value_ind'; intros t Ht Hw Hn; try done.
  pose proof (proj1 (wf_object _) Hw) as [Hsp Hwp].
  rewrite rfc7396_object. replace (match t with Object tm => tm | _ => [] end)
    with (@nil (string * Value)) by (by destruct t).
  f_equal. apply sorted_ext; [by apply members_sorted|done|]. intros k.
  unfold rfc_members. rewrite members_get by done.
  destruct (map_get k pm) as [pv|] eqn:Ek; [|done].
  pose proof (forallb_get _ _ _ _ Hn Ek) as Hk. simpl in Hk. apply andb_true_iff in Hk as [Hk1 Hk2].
  apply negb_true_iff in Hk1. rewrite Hk1. f_equal. simpl.
  pose proof (forall_get _ _ _ IH Ek) as Hv. eauto.
Qed.

(** ** Properties *)

(** PATCH /mmds works member by member.  A member the patch does not
    name is kept, a member it names with null is removed, and any other
    member becomes the merge of its old value (null when absent) with the
    patch's value. *)
Theorem merge_json_members dm pm :
  wf_value (Object dm) = true -> wf_value (Object pm) = true ->
  exists m, merge_json (Object dm) (Object pm) = Object m /\
    sorted m = true /\
    forall k, map_get k m =
      match map_get k pm with
      | None => map_get k dm
      | Some Null => None
      | Some v => Some (merge_json (default Null (map_get k dm)) v)
      end.
Proof.
  intros Hd Hp. apply wf_object in Hd as [Hd _], Hp as [Hp _].
  exists (merge_members dm pm). rewrite merge_json_object.
  split_and!; [done|by apply members_sorted|].
  intros k. unfold merge_members. rewrite members_get by done.
  destruct (map_get k pm) as [v|]; [by destruct v|done].
Qed.

Lemma merge_json_members_witness :
  exists m, merge_json (Object [("a", Str "1"); ("b", Object [("c", Bool true)])])
                       (Object [("a", Null); ("b", Object [("d", Bool false)])]) = Object m /\
    map_get "a" m = None /\
    map_get "b" m = Some (Object [("c", Bool true); ("d", Bool false)]).
Proof.
  destruct (merge_json_members [("a", Str "1"); ("b", Object [("c", Bool true)])]
              [("a", Null); ("b", Object [("d", Bool false)])] eq_refl eq_refl) as (m & Hm & _ & Hk).
  exists m. split; [exact Hm|]. split; [rewrite (Hk "a"); reflexivity|rewrite (Hk "b"); reflexivity].
Defined.

Lemma in_get (m : list (string * Value)) k v : sorted m = true -> In (k, v) m -> map_get k m = Some v.
Proof.
  induction m as [|[k0 v0] m IH]; [done|]. simpl. intros [Ha Hs]%andb_true_iff [[= -> ->]|Hin]; [by rewrite String.eqb_refl|].
  specialize (IH Hs Hin). destruct (String.eqb_spec k k0) as [->|]; [|done]. by rewrite above_get in IH.
Qed.
Lemma forallb_members (f : string * Value -> bool) m :
  sorted m = true -> (forall k v, map_get k m = Some v -> f (k, v) = true) -> forallb f m = true.
Proof. intros Hs Hf. apply forallb_forall. intros [k v] Hin. by apply Hf, in_get. Qed.

(** Where there is no object to merge into, RFC 7396 drops the nulls. *)
Lemma rfc7396_fresh_nulls t v :
  is_object t = false -> wf_value v = true -> rfc7396 t v = v -> null_free v = true.
Proof.
  revert t. induction v as [| | | | |pm IH] using Value_ind'; intros t Ht Hw; try done.
  pose proof (proj1 (wf_object _) Hw) as [Hsp Hwp]. rewrite rfc7396_object.
  replace (match t with Object tm => tm | _ => [] end) with (@nil (string * Value)) by (by destruct t).
  intros [= He]. apply (forallb_members _ pm Hsp). intros k v Hk. cbn [snd].
  assert (Hg : map_get k (rfc_members [] pm) = map_get k pm) by by rewrite He.
  unfold rfc_members in Hg. rewrite members_get, Hk in Hg by done. destruct (is_null v); [done|]. injection Hg as Hg. cbn in Hg.
  apply andb_true_iff. split; [done|]. apply (forall_get _ _ _ IH Hk Null); [done|by eapply Hwp|done].
Qed.

(** Members agree when the objects do. *)
Lemma merge_members_agree dm pm : sorted dm = true -> sorted pm = true ->
  merge_members dm pm = rfc_members dm pm <->
  forall k v, map_get k pm = Some v -> is_null v = false ->
    merge_json (default Null (map_get k dm)) v = rfc7396 (default Null (map_get k dm)) v.
Proof.
  intros Hd Hp. unfold merge_members, rfc_members. split.
  - intros He k v Hk Hn. apply (f_equal (map_get k)) in He. rewrite !members_get, Hk, Hn in He by done. by injection He.
  - intros Hm. apply sorted_ext; [by apply members_sorted..|]. intros k. rewrite !members_get by done.
    destruct (map_get k pm) as [v|] eqn:Hk; [|done]. destruct (is_null v) eqn:Hn; [done|]. by rewrite (Hm k v).
Qed.

(** C38: PATCH /mmds is the merge of RFC 7396 exactly when no null of the patch
    is left without an object to remove a member from: a patch that is an
    object, on a document that is not one, has no null members at any depth;
    and on an object, each member of the patch that is an object has the same
    property towards the document's member of that name (none counts as no
    object).  In every other case the two results differ: such a null is
    stored, where RFC 7396 drops it. *)
Theorem merge_json_rfc7396 dst patch :
  wf_value dst = true -> wf_value patch = true ->
  merge_json dst patch = rfc7396 dst patch <-> mergeable dst patch = true.
Proof.
  revert dst. induction patch as [| | | | |pm IH] using Value_ind'; intros dst Hd Hp; try (by destruct dst).
  destruct (is_object dst) eqn:Eo.
  2:{ replace (mergeable dst (Object pm)) with (null_free (Object pm)) by (by destruct dst).
      replace (merge_json dst (Object pm)) with (Object pm) by (by destruct dst). split.
      - intros He. by apply (rfc7396_fresh_nulls dst).
      - intros Hn. by rewrite rfc7396_fresh. }
  destruct dst as [| | | | |dm]; try done. rewrite merge_json_object, rfc7396_object.
  pose proof (proj1 (wf_object _) Hd) as [Hsd _]. pose proof (proj1 (wf_object _) Hp) as [Hsp Hwp].
  assert (Hv : forall k v, map_get k pm = Some v ->
    merge_json (default Null (map_get k dm)) v = rfc7396 (default Null (map_get k dm)) v <-> mergeable (default Null (map_get k dm)) v = true).
  { intros k v Hk. apply (forall_get _ _ _ IH Hk); [by apply wf_default|by eapply Hwp]. }
  transitivity (merge_members dm pm = rfc_members dm pm); [split; congruence|]. rewrite merge_members_agree by done. cbn [mergeable]. split.
  - intros Hm. apply forallb_members; [done|]. intros k v Hk. cbn [fst snd]. destruct (is_null v) eqn:Hn; [done|]. by apply Hv, Hm.
  - intros Hm k v Hk Hn. pose proof (forallb_get _ _ _ _ Hm Hk) as Hf. cbn [fst snd] in Hf. rewrite Hn in Hf. by apply Hv.
Qed.

Lemma merge_json_rfc7396_witness :
  let dst := Object [("a", Object [("x", Str "1"); ("y", Str "2")])] in
  let patch := Object [("a", Object [("x", Null)]); ("b", Object [("c", Str "3")])] in
  merge_json dst patch = rfc7396 dst patch /\
  rfc7396 dst patch = Object [("a", Object [("y", Str "2")]); ("b", Object [("c", Str "3")])] /\
  merge_json (Str "x") (Object [("a", Null)]) <> rfc7396 (Str "x") (Object [("a", Null)]).
Proof.
  split; [apply merge_json_rfc7396; reflexivity|]. split; [reflexivity|].
  intros He. apply merge_json_rfc7396 in He; [discriminate He|reflexivity..].
Defined.

(** Outside that condition the two merges differ: a nested null in a
    member the document lacks is stored as a null, where RFC 7396 drops it. *)
Theorem merge_json_keeps_nested_null k k' :
  merge_json (Object []) (Object [(k, Object [(k', Null)])]) = Object [(k, Object [(k', Null)])] /\
  rfc7396 (Object []) (Object [(k, Object [(k', Null)])]) = Object [(k, Object [])].
Proof. split; reflexivity. Qed.
