(* ===== verification/World.v ===== *)
(** * Effects: calls to the outside, and the monad of the effectful code

    Everything the program asks of the operating system and of the Swift
    side of the bridge is a constructor of [Call], indexed by the type of the
    answer.  The outside itself is the class [Outside]: any type of worlds
    with any function that answers calls.  [M W S E A] is code over a mutable
    state [S] that may fail with [E]; a failure keeps the state changes made
    before it, as the [?] operator does, and the trace records every call
    with its answer, in order.  [wp] is its weakest precondition, with one
    rule per construct; the components reason with these rules only. *)

From S2P Require Import Prelude RustStr.
Local Open Scope string_scope.
Local Open Scope Z_scope.

(** ** The vocabulary of the bridge to Swift *)

(** [HbStatus], the status of a bridge call. *)
Inductive HbStatus := HbOk | HbInvalidArgument | HbSwiftError.

(** A bridge call fills an out-parameter and may set an error string
    ([None] for a null pointer). *)
Record FfiReply (A : Type) := { status : HbStatus; out : A; out_err : option string }.
Arguments Build_FfiReply {A}. Arguments status {A}. Arguments out {A}. Arguments out_err {A}.

(** A Swift-owned VM, by its address. *)
Definition Handle : Type := Z.

Record HbRestoreTimings := {
  config_nanos : Z; construct_nanos : Z; restore_nanos : Z; resume_nanos : Z }.

(** The arguments of [hb_vz_long_new]; [hb_vz_long_restore] has in addition
    the save file and the resume flag.  [None] is a null pointer. *)
Record LongArgs := {
  a_kernel : string; a_rootfs : string; a_initrd : option string; a_log : string;
  a_boot_args : string; a_cpus : Z; a_memory_mib : Z; a_read_only : bool; a_network : Z;
  a_host_packet_interface : bool; a_mac : option string;
  a_drive_count : Z; a_drive_paths : option (list string); a_drive_readonly : option (list bool) }.

(** [HbVmConfig], without the callbacks for the guest's output, which are the
    same in every call.  [None] is a null pointer. *)
Record HbVmConfig := {
  c_id : string; c_kernel : string; c_initfs : string; c_rootfs : string; c_cpus : Z; c_memory_mib : Z;
  c_argv : option (list string); c_cwd : option string; c_networking : bool; c_ip_octet : Z; c_tty : bool }.

(** ** Calls *)

Inductive FlockAnswer := Locked | WouldBlock | FlockFailed (errno : string).

(** A file as far as it could be read. *)
Record FileData := { contents : string; read_error : option string }.

(** An [io::Error]: whether its kind is [NotFound], and its text. *)
Record IoError := { not_found : bool; io_text : string }.

(** What [symlink_metadata] tells of a path. *)
Record Stat := { st_symlink : bool; st_dir : bool; st_uid : Z; st_ino : Z; st_dev : Z }.

Inductive Resource := NoFile | NProc | FSize.

(** A process to start ([std::process::Command]): the program, its
    environment and arguments, and what its [pre_exec] hook captures. *)
Record Command := {
  cmd_program : string; cmd_env : list (string * string); cmd_args : list string;
  cmd_lock : string; cmd_nofile : option Z; cmd_nproc : option Z; cmd_fsize : option Z;
  cmd_uid : option Z; cmd_gid : option Z }.

Inductive Call : Type -> Type :=
(* files; an [Err] holds the text of the [io::Error] *)
| PathExists (p : string) : Call bool
| Canonicalize (p : string) : Call (Result string string)
| OpenAppend (p : string) : Call (Result unit string)
| OpenTruncate (p : string) : Call (Result unit string)
| AppendFile (p text : string) : Call unit
| ReadFile (p : string) : Call (Result FileData string)
| WriteFile (p text : string) : Call (Result unit string)
| CreateDir (p : string) : Call (Result unit string)
| CreateDirAll (p : string) : Call (Result unit string)
| CreateFile (p : string) : Call (Result unit string)
| RemoveFile (p : string) : Call (Result unit string)
| RemoveDirAll (p : string) : Call (Result unit string)
| OpenLock (p : string) : Call (Result unit string)
| Flock (p : string) : Call FlockAnswer
| Unlock (p : string) : Call unit
| CpClone (src dst : string) : Call (Result Z string)
| Lstat (p : string) : Call (Result Stat IoError)
| IsDir (p : string) : Call bool
| IsFile (p : string) : Call bool
| ReadDir (p : string) : Call (option (list string))
| ReadHead (p : string) (n : Z) : Call (Result (list Z) string)
| FileSize (p : string) : Call (Result Z string)
| SetMode (p : string) (mode : Z) : Call (Result unit string)
| Chown (p : string) (uid gid : option Z) : Call (Result unit string)
(* an open file, by its path: the uid registry and the instance lock *)
| OpenCreate (p : string) (mode : option Z) : Call (Result unit string)
| OpenExisting (p : string) : Call (Result unit IoError)
| FlockWait (p : string) : Call (Result unit string)
| Fstat (p : string) : Call (Result Stat string)
| ReadAll (p : string) : Call (Result string string)
| Rewind (p : string) : Call (Result unit string)
| SetLen (p : string) (n : Z) : Call (Result unit string)
| WriteAll (p text : string) : Call (Result unit string)
| SyncAll (p : string) : Call (Result unit string)
(* the process *)
| EnvVar (name : string) : Call (option string)
| TempDir : Call string
| UnixTime : Call (option (Z * Z))
| InstantNow : Call Z
| ElapsedMicros (since : Z) : Call Z
| ElapsedNanos (since : Z) : Call Z
| ThreadName : Call (option string)
| SpawnThread (name : string) : Call (Result unit string)
| JoinThread (name : string) : Call unit
| UdsBind (p : string) : Call (Result unit string)
| UdsConnect (p : string) : Call bool
| SleepMillis (n : Z) : Call unit
| SandboxInit (profile : string) : Call (Z * option string)
| CurrentExe : Call (Result string string)
| PrintOut (text : string) : Call (Result unit string)
| GetEuid : Call Z
| GetPwUid (uid : Z) : Call bool
| GetPwNam (name : string) : Call (option (Z * Z))
| Spawn (cmd : Command) : Call (Result Z string)
| OnSignal (signal : Z) : Call unit
| Kill (pid signal : Z) : Call unit
| WaitChild (pid : Z) : Call (Result (option Z) string)
(* a child between fork and exec *)
| SetPgid : Call (Result unit string)
| ClearCloexec (p : string) : Call (Result unit string)
| SetRlimit (r : Resource) (v : Z) : Call (Result unit string)
| GetGid : Call Z
| SetGroups (gid : Z) : Call (Result unit string)
| SetGid (gid : Z) : Call (Result unit string)
| SetUid (uid : Z) : Call (Result unit string)
(* one client of the vsock bridge: its socket, the guest's, the copying
   threads, and the thread's own reference to the VM *)
| HostReadByte : Call (option Z)
| HostWriteAll (text : string) : Call (Result unit string)
| HostReadTimeout (seconds : option Z) : Call (Result unit string)
| HostTryClone : Call (Result unit string)
| GuestTryClone : Call (Result unit string)
| SpawnCopy (host_to_guest : bool) : Call unit
| JoinCopy (host_to_guest : bool) : Call unit
| ReleaseVm (vm : Handle) : Call unit
(* Virtualization.framework, through the bridge *)
| HbLongNew (args : LongArgs) : Call (FfiReply Handle)
| HbLongStart (vm : Handle) : Call (FfiReply unit)
| HbLongPause (vm : Handle) : Call (FfiReply unit)
| HbLongResume (vm : Handle) : Call (FfiReply unit)
| HbLongRequestStop (vm : Handle) : Call (FfiReply unit)
| HbLongStop (vm : Handle) : Call (FfiReply unit)
| HbLongSetBalloonTarget (vm : Handle) (bytes : Z) : Call (FfiReply unit)
| HbLongServeMmds (vm : Handle) (port : Z) (json : string) : Call (FfiReply unit)
| HbLongConnect (vm : Handle) (port : Z) : Call (FfiReply Z)
| HbLongSave (vm : Handle) (save : string) : Call (FfiReply unit)
| HbLongFree (vm : Handle) : Call unit
| HbLongRestore (args : LongArgs) (save : string) (resume : bool)
    : Call (FfiReply (Handle * HbRestoreTimings))
| HbPoolRestoreLong (kernel initramfs rootfs save : string) (log : option string) (cpus memory : Z)
    : Call (FfiReply (Handle * HbRestoreTimings))
| HbStockPoolRestoreLong (kernel rootfs save : string) (log : option string) (cpus memory : Z)
    : Call (FfiReply (Handle * HbRestoreTimings))
| HbExecSnapshotSave (kernel initramfs rootfs save : string) (log : option string) (cpus memory : Z)
    : Call (FfiReply unit)
| HbSnapshotSave (kernel rootfs log save : string) (cpus memory settle : Z) : Call (FfiReply unit)
| HbExecSnapshotRestore (kernel initramfs rootfs save command : string) (log : option string)
    (cpus memory : Z) : Call (FfiReply (Z * Z))
| HbLongVmnetRead (vm : Handle) (capacity : Z) : Call (FfiReply (list Z))
| HbLongVmnetWrite (vm : Handle) (frame : list Z) : Call (FfiReply unit)
| HbBoot (kernel rootfs log : string) (cpus memory run_seconds : Z) : Call (FfiReply unit)
| HbSnapshotRestore (kernel rootfs log save : string) (cpus memory run_seconds : Z) : Call (FfiReply Z)
| HbSh (kernel rootfs : string) (cpus memory timeout : Z) : Call (FfiReply unit)
| HbExec (kernel initramfs rootfs command : string) (log : option string) (cpus memory timeout forward_stdin : Z)
    : Call (FfiReply Z)
| HbRootfsFromTar (tar out : string) (block_size_mib compression : Z) : Call (FfiReply unit)
(* the Containerization path *)
| HbPing : Call (option string)
| HbVmNew (config : HbVmConfig) : Call (FfiReply Handle)
| HbVmCreate (vm : Handle) : Call (FfiReply unit)
| HbVmStart (vm : Handle) : Call (FfiReply unit)
| HbVmWait (vm : Handle) : Call (FfiReply Z)
| HbVmStop (vm : Handle) : Call (FfiReply unit)
| HbVmFree (vm : Handle) : Call unit.

(** The outside: it answers a call and changes. *)
Class Outside (W : Type) := call : forall A, Call A -> W -> A * W.
Arguments call {W _ A}.

(** An outside in which everything succeeds, for concrete runs: no file is
    in the way, every bridge call returns, the clock stands still. *)
Definition ok_reply {A} (a : A) : FfiReply A := {| status := HbOk; out := a; out_err := None |}.
Definition no_timings : HbRestoreTimings :=
  {| config_nanos := 0; construct_nanos := 0; restore_nanos := 0; resume_nanos := 0 |}.
Definition calm_answer {A} (c : Call A) : A :=
  match c in Call A return A with
  | PathExists _ => true
  | Canonicalize p => Ok p
  | OpenAppend _ | OpenTruncate _ | WriteFile _ _ | CreateDir _ | CreateDirAll _ | CreateFile _
  | RemoveFile _ | RemoveDirAll _ | OpenLock _ | SpawnThread _ | UdsBind _ | HostWriteAll _
  | HostReadTimeout _ | HostTryClone | GuestTryClone | SetMode _ _ | Chown _ _ _ | OpenCreate _ _
  | FlockWait _ | Rewind _ | SetLen _ _ | WriteAll _ _ | SyncAll _ | SetPgid | ClearCloexec _
  | SetRlimit _ _ | SetGroups _ | SetGid _ | SetUid _ | PrintOut _ => Ok tt
  | OpenExisting _ => Ok tt
  | Lstat _ => Err {| not_found := true; io_text := "No such file or directory" |}
  | Fstat _ => Err ""
  | ReadAll _ | CurrentExe => Ok ""
  | WaitChild _ => Ok (Some 0)
  | Spawn _ => Ok 2
  | IsDir _ | IsFile _ => true
  | ReadDir _ => Some []
  | ReadHead _ _ => Ok []
  | FileSize _ => Ok 0
  | SandboxInit _ => (0, None)
  | GetEuid | GetGid => 0
  | GetPwUid _ => false
  | GetPwNam _ => None
  | AppendFile _ _ | Unlock _ | OnSignal _ | Kill _ _ | JoinThread _ | HbLongFree _ | SpawnCopy _ | JoinCopy _ | ReleaseVm _ | SleepMillis _
  | HbVmFree _ => tt
  | HostReadByte => None
  | ReadFile _ => Ok {| contents := ""; read_error := None |}
  | Flock _ => Locked
  | CpClone _ _ => Ok 0
  | EnvVar _ => None
  | TempDir => "/tmp"
  | UnixTime => Some (0, 0)
  | InstantNow | ElapsedMicros _ | ElapsedNanos _ => 0
  | ThreadName => Some "main"
  | UdsConnect _ => true
  | HbLongNew _ => ok_reply 1
  | HbLongStart _ | HbLongPause _ | HbLongResume _ | HbLongRequestStop _ | HbLongStop _
  | HbLongSetBalloonTarget _ _ | HbLongServeMmds _ _ _ | HbLongSave _ _
  | HbExecSnapshotSave _ _ _ _ _ _ _ | HbSnapshotSave _ _ _ _ _ _ _ | HbLongVmnetWrite _ _ | HbBoot _ _ _ _ _ _
  | HbSh _ _ _ _ _ | HbRootfsFromTar _ _ _ _ | HbVmCreate _ | HbVmStart _ | HbVmStop _ => ok_reply tt
  | HbLongConnect _ _ => ok_reply 3
  | HbLongRestore _ _ _ | HbPoolRestoreLong _ _ _ _ _ _ _ | HbStockPoolRestoreLong _ _ _ _ _ _ =>
      ok_reply (1, no_timings)
  | HbExecSnapshotRestore _ _ _ _ _ _ _ _ => ok_reply (0, 0)
  | HbLongVmnetRead _ _ => ok_reply []
  | HbSnapshotRestore _ _ _ _ _ _ _ | HbExec _ _ _ _ _ _ _ _ _ | HbVmWait _ => ok_reply 0
  | HbPing => Some "pong"
  | HbVmNew _ => ok_reply 1
  end.
Definition calm : Outside unit := fun A c w => (calm_answer c, w).

(** A call that was made, with its answer. *)
Inductive Event :=
| Ev (A : Type) (c : Call A) (a : A).
Arguments Ev {A}.
Definition Trace := list Event.

(** The calls of a trace, without their answers. *)
Definition calls (t : Trace) : list {A : Type & Call A} :=
  (fun e => match e with Ev c _ => existT _ c end) <$> t.

Lemma calls_app t1 t2 : calls (t1 ++ t2)%list = (calls t1 ++ calls t2)%list.
Proof. apply fmap_app. Qed.

(** ** The monad *)

Section Monad.
Context {W : Type} `{Outside W}.

Definition M (S E A : Type) : Type := S -> W -> Result A E * S * W * Trace.

Definition ret {S E A} (a : A) : M S E A := fun s w => (Ok a, s, w, []).
Definition fail {S E A} (e : E) : M S E A := fun s w => (Err e, s, w, []).
Definition bind {S E A B} (m : M S E A) (k : A -> M S E B) : M S E B := fun s w =>
  let '(r, s1, w1, t1) := m s w in
  match r with
  | Err e => (Err e, s1, w1, t1)
  | Ok a => let '(r2, s2, w2, t2) := k a s1 w1 in (r2, s2, w2, (t1 ++ t2)%list)
  end.
Definition get {S E} : M S E S := fun s w => (Ok s, s, w, []).
Definition modify {S E} (f : S -> S) : M S E unit := fun s w => (Ok tt, f s, w, []).
Definition ask {S E A} (c : Call A) : M S E A := fun s w =>
  let '(a, w') := call c w in (Ok a, s, w', [Ev c a]).

(** A pure [Result]. *)
Definition lift {S E A} (r : Result A E) : M S E A := match r with Ok a => ret a | Err e => fail e end.
(** [map_err(f)?] *)
Definition with_err {S E E' A} (f : E -> E') (m : M S E A) : M S E' A := fun s w =>
  let '(r, s1, w1, t1) := m s w in (map_err f r, s1, w1, t1).
(** The result as a value, for [match] and [if let Err] on it. *)
Definition attempt {S E E' A} (m : M S E A) : M S E' (Result A E) := fun s w =>
  let '(r, s1, w1, t1) := m s w in (Ok r, s1, w1, t1).
(** Code without state, run in code with state. *)
Definition io {S E A} (m : M unit E A) : M S E A := fun s w =>
  let '(r, _, w1, t1) := m tt w in (r, s, w1, t1).

(** Code under a guard whose drop is [cleanup]: it runs at the end of the
    scope, on success and on failure. *)
Definition guarded {S E A} (cleanup : M S E unit) (m : M S E A) : M S E A :=
  bind (attempt m) (fun r => bind cleanup (fun _ => lift r)).
(** The same when success moves the guard out of the scope. *)
Definition on_error {S E A} (cleanup : M S E unit) (m : M S E A) : M S E A :=
  bind (attempt m) (fun r => match r with Ok a => ret a | Err e => bind cleanup (fun _ => fail e) end).

(** ** Weakest preconditions *)

(** The run from state [s] and world [w] ends in [Q]. *)
Definition wp {S E A} (m : M S E A) (Q : Result A E -> S -> W -> Trace -> Prop) (s : S) (w : W) : Prop :=
  match m s w with (r, s', w', t) => Q r s' w' t end.

Lemma wp_ret {S E A} (a : A) (Q : Result A E -> S -> W -> Trace -> Prop) s w :
  Q (Ok a) s w [] -> wp (ret a) Q s w.
Proof. done. Qed.

Lemma wp_fail {S E A} (e : E) (Q : Result A E -> S -> W -> Trace -> Prop) s w :
  Q (Err e) s w [] -> wp (fail e) Q s w.
Proof. done. Qed.

Lemma wp_bind {S E A B} (m : M S E A) (k : A -> M S E B) Q s w :
  wp m (fun r s1 w1 t1 =>
          match r with
          | Ok a => wp (k a) (fun r2 s2 w2 t2 => Q r2 s2 w2 (t1 ++ t2)%list) s1 w1
          | Err e => Q (Err e) s1 w1 t1
          end) s w ->
  wp (bind m k) Q s w.
Proof.
  unfold wp, bind. destruct (m s w) as [[[[a|e] s1] w1] t1]; [|done].
  by destruct (k a s1 w1) as [[[? ?] ?] ?].
Qed.

Lemma wp_get {S E} (Q : Result S E -> S -> W -> Trace -> Prop) s w : Q (Ok s) s w [] -> wp get Q s w.
Proof. done. Qed.

Lemma wp_modify {S E} f (Q : Result unit E -> S -> W -> Trace -> Prop) s w :
  Q (Ok tt) (f s) w [] -> wp (modify f) Q s w.
Proof. done. Qed.

Lemma wp_ask {S E A} (c : Call A) (Q : Result A E -> S -> W -> Trace -> Prop) s w :
  (forall a w', call c w = (a, w') -> Q (Ok a) s w' [Ev c a]) -> wp (ask c) Q s w.
Proof. intros HQ. unfold wp, ask. destruct (call c w) eqn:E0. by apply HQ. Qed.

Lemma wp_lift {S E A} (r : Result A E) (Q : Result A E -> S -> W -> Trace -> Prop) s w :
  Q r s w [] -> wp (lift r) Q s w.
Proof. by destruct r. Qed.

Lemma wp_with_err {S E E' A} (f : E -> E') (m : M S E A) (Q : Result A E' -> S -> W -> Trace -> Prop) s w :
  wp m (fun r => Q (map_err f r)) s w -> wp (with_err f m) Q s w.
Proof. unfold wp, with_err. by destruct (m s w) as [[[r s1] w1] t1]. Qed.

Lemma wp_attempt {S E E' A} (m : M S E A) (Q : Result (Result A E) E' -> S -> W -> Trace -> Prop) s w :
  wp m (fun r => Q (Ok r)) s w -> wp (attempt m) Q s w.
Proof. unfold wp, attempt. by destruct (m s w) as [[[r s1] w1] t1]. Qed.

(** An attempt itself never fails. *)
Lemma wp_attempt_any {S E E' A} (m : M S E A) (Q : Result (Result A E) E' -> S -> W -> Trace -> Prop) s w :
  (forall r s' w' t, Q (Ok r) s' w' t) -> wp (attempt m) Q s w.
Proof. unfold wp, attempt. destruct (m s w) as [[[r s1] w1] t1]. auto. Qed.

Lemma wp_io {S E A} (m : M unit E A) (Q : Result A E -> S -> W -> Trace -> Prop) s w :
  wp m (fun r _ => Q r s) tt w -> wp (io m) Q s w.
Proof. unfold wp, io. by destruct (m tt w) as [[[r s1] w1] t1]. Qed.

Lemma wp_mono {S E A} (m : M S E A) (P Q : Result A E -> S -> W -> Trace -> Prop) s w :
  wp m P s w -> (forall r s' w' t, P r s' w' t -> Q r s' w' t) -> wp m Q s w.
Proof. unfold wp. destruct (m s w) as [[[r s1] w1] t1]. intros Hm HPQ. by apply HPQ. Qed.

Lemma wp_and {S E A} (m : M S E A) (P Q : Result A E -> S -> W -> Trace -> Prop) s w :
  wp m P s w -> wp m Q s w -> wp m (fun r s' w' t => P r s' w' t /\ Q r s' w' t) s w.
Proof. unfold wp. by destruct (m s w) as [[[r s1] w1] t1]. Qed.

(** A cleanup that is one call. *)
Lemma wp_guarded {S E A} (c : Call unit) (m : M S E A) (Q : Result A E -> S -> W -> Trace -> Prop) s w :
  wp m (fun r s1 w1 t1 => forall b w2, Q r s1 w2 (t1 ++ [Ev c b])%list) s w ->
  wp (guarded (ask c) m) Q s w.
Proof.
  unfold wp, guarded, attempt, bind, ask, lift, ret, fail. destruct (m s w) as [[[r s1] w1] t1].
  destruct (call c w1) as [b w2]. intros HQ. specialize (HQ b w2). destruct r; cbn; by rewrite ?app_nil_r.
Qed.

Lemma wp_on_error {S E A} (c : Call unit) (m : M S E A) (Q : Result A E -> S -> W -> Trace -> Prop) s w :
  wp m (fun r s1 w1 t1 => match r with
                          | Ok a => Q (Ok a) s1 w1 t1
                          | Err e => forall b w2, Q (Err e) s1 w2 (t1 ++ [Ev c b])%list
                          end) s w ->
  wp (on_error (ask c) m) Q s w.
Proof.
  unfold wp, on_error, attempt, bind, ask, lift, ret, fail. destruct (m s w) as [[[[a|e] s1] w1] t1].
  - by rewrite app_nil_r.
  - destruct (call c w1) as [b w2]. intros HQ. cbn. apply HQ.
Qed.

(** What [wp] says of the run. *)
Lemma wp_result {S E A} (m : M S E A) Q s w r s' w' t :
  wp m Q s w -> m s w = (r, s', w', t) -> Q r s' w' t.
Proof. unfold wp. intros Hm E0. by rewrite E0 in Hm. Qed.

Lemma wp_elim {S E A} (m : M S E A) Q s w :
  wp m Q s w -> forall r s' w' t, m s w = (r, s', w', t) -> Q r s' w' t.
Proof. intros Hm r s' w' t. by apply wp_result. Qed.

Lemma wp_intro {S E A} (m : M S E A) (Q : Result A E -> S -> W -> Trace -> Prop) s w :
  (forall r s' w' t, m s w = (r, s', w', t) -> Q r s' w' t) -> wp m Q s w.
Proof. unfold wp. destruct (m s w) as [[[r s1] w1] t1]. auto. Qed.
End Monad.

Arguments M W S E A : clear implicits.
#[global] Opaque wp.

Notation "'let!' x ':=' m 'in' k" := (bind m (fun x => k))
  (at level 10, x pattern, m at level 100, k at level 200) : rust_scope.
Notation "'do!' m 'in' k" := (bind m (fun _ => k))
  (at level 10, m at level 100, k at level 200) : rust_scope.

(** One step of symbolic execution: the rule of the construct at the head,
    or a case analysis where the code branches. *)
Ltac wp_step :=
  lazymatch goal with
  | |- wp (bind _ _) _ _ _ => apply wp_bind; cbv beta
  | |- wp (ret _) _ _ _ => apply wp_ret; cbv beta iota
  | |- wp (fail _) _ _ _ => apply wp_fail; cbv beta iota
  | |- wp get _ _ _ => apply wp_get; cbv beta iota
  | |- wp (modify _) _ _ _ => apply wp_modify; cbv beta iota
  | |- wp (ask _) _ _ _ => apply wp_ask; intros ? ? _; cbv beta iota
  | |- wp (lift _) _ _ _ => apply wp_lift; cbv beta iota
  | |- wp (with_err _ _) _ _ _ => apply wp_with_err; cbv beta
  | |- wp (attempt _) _ _ _ => apply wp_attempt; cbv beta
  | |- wp (io _) _ _ _ => apply wp_io; cbv beta
  | |- wp (guarded (ask _) _) _ _ _ => apply wp_guarded; cbv beta
  | |- wp (on_error (ask _) _) _ _ _ => apply wp_on_error; cbv beta
  | |- wp (match ?x with _ => _ end) _ _ _ => destruct x eqn:?
  | |- match ?x with _ => _ end => destruct x eqn:?
  end.
Ltac wp_run := repeat wp_step.

(** Every call of a trace is one of those allowed. *)
Definition Only (P : forall A, Call A -> Prop) (t : Trace) : Prop :=
  Forall (fun e => match e with Ev c _ => P _ c end) t.

Lemma only_nil P : Only P [].
Proof. constructor. Qed.
Lemma only_cons P A (c : Call A) (a : A) t : P A c -> Only P t -> Only P (Ev c a :: t).
Proof. by constructor. Qed.
Lemma only_app P t1 t2 : Only P t1 -> Only P t2 -> Only P (t1 ++ t2)%list.
Proof. intros. by apply Forall_app. Qed.
Lemma only_mono (P Q : forall A, Call A -> Prop) t : (forall A c, P A c -> Q A c) -> Only P t -> Only Q t.
Proof. intros HPQ Ht. eapply Forall_impl; [exact Ht|]. intros [A c a]. apply HPQ. Qed.
#[export] Hint Resolve only_nil only_cons only_app : heph.

(** A write to standard output failed. *)
Definition print_failed (e : Event) : bool :=
  match e with
  | Ev c a => match c in Call A return A -> bool with
              | PrintOut _ => fun r => negb (is_ok r)
              | _ => fun _ => false
              end a
  end.
Definition unprinted (t : Trace) : Prop := existsb print_failed t = true.

Lemma unprinted_app_l t1 t2 : unprinted t1 -> unprinted (t1 ++ t2)%list.
Proof. unfold unprinted. rewrite existsb_app. by intros ->. Qed.
Lemma unprinted_app_r t1 t2 : unprinted t2 -> unprinted (t1 ++ t2)%list.
Proof. unfold unprinted. rewrite existsb_app. intros ->. apply orb_true_r. Qed.
