(* ===== verification/Calls.v ===== *)
(** * Which calls a computation makes

    A logic on top of [wp] for statements about every call in a trace: under
    an invariant [I] of the state, which it keeps, a computation makes only
    calls of [P], and what it returns satisfies [Q].  The tactic [keeps]
    follows the code. *)

From S2P Require Import Prelude RustStr World.
Local Open Scope Z_scope.
Local Open Scope list_scope.

Definition Keeps {W} `{Outside W} {S E A} (I : S -> Prop) (P : forall A, Call A -> Prop) (m : M W S E A) (Q : A -> Prop) : Prop :=
  forall s w, I s -> wp m (fun r s' _ t => I s' /\ Only P t /\ match r with Ok a => Q a | Err _ => True end) s w.
Definition whatever {A} (a : A) : Prop := True.

Section Keeps.
Context {W : Type} `{Outside W} {S E : Type} {I : S -> Prop} {P : forall A, Call A -> Prop}.

Lemma keeps_ret {A} (a : A) (Q : A -> Prop) : Q a -> Keeps I P (ret a : M W S E A) Q.
Proof. intros HQ s w Hs. wp_step. by split; [|split; [apply only_nil|]]. Qed.
Lemma keeps_fail {A} e (Q : A -> Prop) : Keeps I P (fail e : M W S E A) Q.
Proof. intros s w Hs. wp_step. by split; [|split; [apply only_nil|]]. Qed.
Lemma keeps_lift {A} r (Q : A -> Prop) : (forall a, r = Ok a -> Q a) -> Keeps I P (lift r : M W S E A) Q.
Proof. intros Hr. destruct r; [by apply keeps_ret, Hr|apply keeps_fail]. Qed.
Lemma keeps_ask {A} (c : Call A) (Q : A -> Prop) : P A c -> (forall a, Q a) -> Keeps I P (ask c : M W S E A) Q.
Proof. intros Hc HQ s w Hs. wp_step. split; [done|]. split; [by apply only_cons; [|apply only_nil]|]. apply HQ. Qed.
Lemma keeps_modify f (Q : unit -> Prop) : (forall s, I s -> I (f s)) -> Q tt -> Keeps I P (modify f : M W S E unit) Q.
Proof. intros Hf HQ s w Hs. wp_step. split; [by apply Hf|]. by split; [apply only_nil|]. Qed.
Lemma keeps_bind {A B} (m : M W S E A) (k : A -> M W S E B) (R : A -> Prop) Q :
  Keeps I P m R -> (forall a, R a -> Keeps I P (k a) Q) -> Keeps I P (bind m k) Q.
Proof.
  intros Hm Hk s w Hs. wp_step. eapply wp_mono; [by apply Hm|]. intros [a|e] s1 w1 t1 (H1 & Ho & Ha); [|done].
  eapply wp_mono; [by apply (Hk a Ha)|]. intros r s2 w2 t2 (H2 & Ho2 & Hr). split; [done|]. by split; [apply only_app|].
Qed.
Lemma keeps_known {A B} r (k : A -> M W S E B) Q : (forall a, r = Ok a -> Keeps I P (k a) Q) -> Keeps I P (bind (lift r) k) Q.
Proof. intros Hk. apply (keeps_bind _ _ (fun a => r = Ok a)); [|done]. by apply keeps_lift. Qed.
Lemma keeps_get {B} (k : S -> M W S E B) Q : (forall s, I s -> Keeps I P (k s) Q) -> Keeps I P (bind get k) Q.
Proof. intros Hk s w Hs. do 2 wp_step. by apply Hk. Qed.
Lemma keeps_with_err {E' A} (f : E -> E') (m : M W S E A) Q : Keeps I P m Q -> Keeps I P (with_err f m) Q.
Proof. intros Hm s w Hs. wp_step. eapply wp_mono; [by apply Hm|]. by intros [a|e]. Qed.
Lemma keeps_attempt {E' A} (m : M W S E A) (R : A -> Prop) (Q : Result A E -> Prop) :
  Keeps I P m R -> (forall r, match r with Ok a => R a | Err _ => True end -> Q r) -> Keeps I P (attempt m : M W S E' (Result A E)) Q.
Proof.
  intros Hm HQ s w Hs. wp_step. eapply wp_mono; [by apply Hm|]. intros r s1 w1 t1 (H1 & Ho & Hr). split; [done|]. split; [done|]. by apply HQ.
Qed.
Lemma keeps_mono {A} (m : M W S E A) (Q R : A -> Prop) : Keeps I P m Q -> (forall a, Q a -> R a) -> Keeps I P m R.
Proof. intros Hm HQ s w Hs. eapply wp_mono; [by apply Hm|]. intros [a|e] s1 w1 t1 (H1 & Ho & Ha); naive_solver. Qed.
Lemma keeps_only {A} (m : M W S E A) Q s w : Keeps I P m Q -> I s -> wp m (fun _ _ _ t => Only P t) s w.
Proof. intros Hm Hs. eapply wp_mono; [by apply Hm|]. naive_solver. Qed.
Lemma keeps_whatever {A} (m : M W S E A) Q : Keeps I P m Q -> Keeps I P m whatever.
Proof. intros Hm. by eapply keeps_mono. Qed.
End Keeps.

Section Cleanup.
Context {W : Type} `{Outside W} {S E : Type} {I : S -> Prop} {P : forall A, Call A -> Prop}.
Lemma keeps_guarded {A} (c : M W S E unit) (m : M W S E A) Q : Keeps I P c whatever -> Keeps I P m Q -> Keeps I P (guarded c m) Q.
Proof.
  intros Hc Hm. unfold guarded. eapply (keeps_bind _ _ (fun r => match r with Ok a => Q a | Err _ => True end)); [by eapply keeps_attempt|].
  intros r Hr. eapply keeps_bind; [exact Hc|]. intros _ _. apply keeps_lift. by intros a ->.
Qed.
Lemma keeps_on_error {A} (c : M W S E unit) (m : M W S E A) Q : Keeps I P c whatever -> Keeps I P m Q -> Keeps I P (on_error c m) Q.
Proof.
  intros Hc Hm. unfold on_error. eapply (keeps_bind _ _ (fun r => match r with Ok a => Q a | Err _ => True end)); [by eapply keeps_attempt|].
  intros [a|e] Hr; [by apply keeps_ret|]. eapply keeps_bind; [exact Hc|]. intros _ _. apply keeps_fail.
Qed.
End Cleanup.

(** One step along the code; what is left are the calls that are not
    obviously in [P], and the computations no hint describes. *)
Create HintDb keeps.
Ltac keeps_side := first [exact I|assumption|solve [eauto with keeps]].
Ltac keeps_step :=
  lazymatch goal with
  | |- Keeps _ _ (bind (lift _) _) _ => apply keeps_known; intros ? ?
  | |- Keeps _ _ (bind get _) _ => apply keeps_get; intros ? ?
  | |- Keeps _ _ (bind _ _) _ =>
      first [eapply keeps_bind; [solve [eauto with keeps]|intros ? ?; cbv beta in *]
            |apply (keeps_bind _ _ whatever); [|intros ? _]]
  | |- Keeps _ _ (ret _) _ => apply keeps_ret; try keeps_side
  | |- Keeps _ _ (fail _) _ => apply keeps_fail
  | |- Keeps _ _ (lift _) _ => apply keeps_lift; intros ? ?; try keeps_side
  | |- Keeps _ _ (ask _) _ => apply keeps_ask; [try keeps_side|intros ?; try keeps_side]
  | |- Keeps _ _ (modify _) _ => apply keeps_modify; [intros ? ?; try keeps_side|try keeps_side]
  | |- Keeps _ _ (with_err _ _) _ => apply keeps_with_err
  | |- Keeps _ _ (attempt _) whatever => apply (keeps_attempt _ whatever); [|intros ? _; exact I]
  | |- Keeps _ _ (guarded _ _) _ => apply keeps_guarded
  | |- Keeps _ _ (on_error _ _) _ => apply keeps_on_error
  | |- Keeps _ _ (match ?x with _ => _ end) _ => destruct x eqn:?
  | |- Keeps _ _ _ _ => first [solve [eauto with keeps]|eapply keeps_whatever; solve [eauto with keeps]]
  end.
Ltac keeps := intros; repeat (keeps_step; cbv zeta).
