(* ===== verification/Bridge.v ===== *)
(** * The Rust side of the Swift bridge (hephaestus-bridge/src/lib.rs)

    The specification of a long-running VM ([VzSpec]) and its builder, the
    marshalling of its arguments across the C boundary, the methods of a
    [VzVm] handle and its [Drop], the restore and save entry points, and the
    small pure functions of the crate ([Compression::auto_detect],
    [allocate_ip_octet]).  The Swift functions behind the boundary are calls
    ([World.Call]). *)

From S2P Require Import Prelude RustStr Utf8 World.
Local Open Scope string_scope.
Local Open Scope Z_scope.

(** ** Network mode and specification *)

Inductive VzNetworkMode := NetNone | Nat | Vmnet.

#[export] Instance VzNetworkMode_eq_dec : EqDecision VzNetworkMode.
Proof. solve_decision. Defined.

Definition network_code (m : VzNetworkMode) : Z :=
  match m with NetNone => 0 | Nat => 1 | Vmnet => 2 end.

Record VzSpec := {
  kernel_path : string; rootfs_path : string; initrd_path : option string; log_path : string;
  boot_args : string; cpus : Z; memory_mib : Z; read_only : bool; network_mode : VzNetworkMode;
  host_packet_interface : bool; mac : option string; extra_drives : list (string * bool) }.

Definition VzSpec_new (kernel rootfs log boot_args : string) : VzSpec :=
  {| kernel_path := kernel; rootfs_path := rootfs; initrd_path := None; log_path := log;
     boot_args := boot_args; cpus := 0; memory_mib := 0; read_only := false;
     network_mode := NetNone; host_packet_interface := false; mac := None; extra_drives := [] |}.

(** The builder's methods, each setting one field. *)
Definition spec_initrd (p : string) (s : VzSpec) : VzSpec :=
  {| kernel_path := kernel_path s; rootfs_path := rootfs_path s; initrd_path := Some p;
     log_path := log_path s; boot_args := boot_args s; cpus := cpus s; memory_mib := memory_mib s;
     read_only := read_only s; network_mode := network_mode s;
     host_packet_interface := host_packet_interface s; mac := mac s; extra_drives := extra_drives s |}.
Definition spec_read_only (b : bool) (s : VzSpec) : VzSpec :=
  {| kernel_path := kernel_path s; rootfs_path := rootfs_path s; initrd_path := initrd_path s;
     log_path := log_path s; boot_args := boot_args s; cpus := cpus s; memory_mib := memory_mib s;
     read_only := b; network_mode := network_mode s;
     host_packet_interface := host_packet_interface s; mac := mac s; extra_drives := extra_drives s |}.
Definition spec_network_mode (m : VzNetworkMode) (s : VzSpec) : VzSpec :=
  {| kernel_path := kernel_path s; rootfs_path := rootfs_path s; initrd_path := initrd_path s;
     log_path := log_path s; boot_args := boot_args s; cpus := cpus s; memory_mib := memory_mib s;
     read_only := read_only s; network_mode := m;
     host_packet_interface := host_packet_interface s; mac := mac s; extra_drives := extra_drives s |}.
Definition spec_networking (on : bool) : VzSpec -> VzSpec := spec_network_mode (if on then Nat else NetNone).
Definition spec_host_packet_interface (b : bool) (s : VzSpec) : VzSpec :=
  {| kernel_path := kernel_path s; rootfs_path := rootfs_path s; initrd_path := initrd_path s;
     log_path := log_path s; boot_args := boot_args s; cpus := cpus s; memory_mib := memory_mib s;
     read_only := read_only s; network_mode := network_mode s;
     host_packet_interface := b; mac := mac s; extra_drives := extra_drives s |}.
Definition spec_mac (m : option string) (s : VzSpec) : VzSpec :=
  {| kernel_path := kernel_path s; rootfs_path := rootfs_path s; initrd_path := initrd_path s;
     log_path := log_path s; boot_args := boot_args s; cpus := cpus s; memory_mib := memory_mib s;
     read_only := read_only s; network_mode := network_mode s;
     host_packet_interface := host_packet_interface s; mac := m; extra_drives := extra_drives s |}.
Definition spec_extra_drives (d : list (string * bool)) (s : VzSpec) : VzSpec :=
  {| kernel_path := kernel_path s; rootfs_path := rootfs_path s; initrd_path := initrd_path s;
     log_path := log_path s; boot_args := boot_args s; cpus := cpus s; memory_mib := memory_mib s;
     read_only := read_only s; network_mode := network_mode s;
     host_packet_interface := host_packet_interface s; mac := mac s; extra_drives := d |}.
Definition spec_cpus (n : Z) (s : VzSpec) : VzSpec :=
  {| kernel_path := kernel_path s; rootfs_path := rootfs_path s; initrd_path := initrd_path s;
     log_path := log_path s; boot_args := boot_args s; cpus := n; memory_mib := memory_mib s;
     read_only := read_only s; network_mode := network_mode s;
     host_packet_interface := host_packet_interface s; mac := mac s; extra_drives := extra_drives s |}.
Definition spec_memory_mib (n : Z) (s : VzSpec) : VzSpec :=
  {| kernel_path := kernel_path s; rootfs_path := rootfs_path s; initrd_path := initrd_path s;
     log_path := log_path s; boot_args := boot_args s; cpus := cpus s; memory_mib := n;
     read_only := read_only s; network_mode := network_mode s;
     host_packet_interface := host_packet_interface s; mac := mac s; extra_drives := extra_drives s |}.

(** ** Errors *)

Inductive VmError := InvalidArgument (m : string) | Swift (m : string).

Definition vm_error_display (e : VmError) : string :=
  match e with
  | InvalidArgument m => "invalid argument: " +:+ m
  | Swift m => "swift error: " +:+ m
  end.

(** [take_swift_string]: a null pointer, or a copy of the C string. *)
Definition take_swift_string (ptr : option string) : option string := from_utf8_lossy <$> ptr.

Definition into_result (st : HbStatus) (err : option string) : Result unit VmError :=
  let message := default "(no message)" (take_swift_string err) in
  match st with
  | HbOk => Ok tt
  | HbInvalidArgument => Err (InvalidArgument message)
  | HbSwiftError => Err (Swift message)
  end.

(** ** Marshalling *)

(** The position of the first NUL byte. *)
Fixpoint nul_position (s : string) : option Z :=
  match s with
  | "" => None
  | String a s' => if byte_of a =? 0 then Some 0 else (fun i => i + 1) <$> nul_position s'
  end.

(** [CString::new(s)?] with [From<NulError> for VmError]. *)
Definition cstring (s : string) : Result string VmError :=
  match nul_position s with
  | Some i => Err (InvalidArgument ("string contained interior NUL: nul byte found in provided data at position: " +:+ to_dec i))
  | None => Ok s
  end.

Definition path_to_str (p label : string) : Result string VmError :=
  if utf8_valid p then Ok p else Err (InvalidArgument (label +:+ " path is not UTF-8")).

(** [CString::new(path_to_str(p, label)?)?] *)
Definition path_cstring (p label : string) : Result string VmError :=
  let? s := path_to_str p label in cstring s.

Definition opt_path_cstring (p : option string) (label : string) : Result (option string) VmError :=
  match p with
  | None => Ok None
  | Some p => let? c := path_cstring p label in Ok (Some c)
  end.

Definition opt_cstring (s : option string) : Result (option string) VmError :=
  match s with
  | None => Ok None
  | Some s => let? c := cstring s in Ok (Some c)
  end.

(** [DriveArrays]: parallel arrays, null when empty. *)
Record DriveArrays := { d_paths : list string; d_readonly : list bool }.

Fixpoint drive_arrays (drives : list (string * bool)) : Result DriveArrays VmError :=
  match drives with
  | [] => Ok {| d_paths := []; d_readonly := [] |}
  | (path, ro) :: rest =>
      let? c := path_cstring path "drive" in
      let? d := drive_arrays rest in
      Ok {| d_paths := c :: d_paths d; d_readonly := ro :: d_readonly d |}
  end.

Definition non_null {A} (l : list A) : option (list A) := match l with [] => None | _ => Some l end.
Definition drive_count (d : DriveArrays) : Z := Z.of_nat (length (d_paths d)).
Definition paths_ptr (d : DriveArrays) : option (list string) := non_null (d_paths d).
Definition readonly_ptr (d : DriveArrays) : option (list bool) := non_null (d_readonly d).

(** The marshalling half of [VzVm::new], in the order of its [?]s. *)
Definition long_args (s : VzSpec) : Result LongArgs VmError :=
  let? kernel_c := path_cstring (kernel_path s) "kernel" in
  let? rootfs_c := path_cstring (rootfs_path s) "rootfs" in
  let? log_c := path_cstring (log_path s) "log" in
  let? boot_args_c := cstring (boot_args s) in
  let? initrd_c := opt_path_cstring (initrd_path s) "initrd" in
  let? mac_c := opt_cstring (mac s) in
  let? drives := drive_arrays (extra_drives s) in
  Ok {| a_kernel := kernel_c; a_rootfs := rootfs_c; a_initrd := initrd_c; a_log := log_c;
        a_boot_args := boot_args_c; a_cpus := cpus s; a_memory_mib := memory_mib s;
        a_read_only := read_only s; a_network := network_code (network_mode s);
        a_host_packet_interface := host_packet_interface s; a_mac := mac_c;
        a_drive_count := drive_count drives; a_drive_paths := paths_ptr drives;
        a_drive_readonly := readonly_ptr drives |}.

(** ** Handles and entry points *)

Section Calls.
Context {W : Type} `{Outside W} {S : Type}.

(** A bridge call: the status decides, the out-parameter is the value. *)
Definition ffi {A} (c : Call (FfiReply A)) : M W S VmError A :=
  let! r := ask c in
  do! lift (into_result (status r) (out_err r)) in
  ret (out r).

Definition VzVm_new (spec : VzSpec) : M W S VmError Handle :=
  let! args := lift (long_args spec) in
  ffi (HbLongNew args).
Definition build (spec : VzSpec) : M W S VmError Handle := VzVm_new spec.

Definition vm_start (vm : Handle) : M W S VmError unit := ffi (HbLongStart vm).
Definition vm_pause (vm : Handle) : M W S VmError unit := ffi (HbLongPause vm).
Definition vm_request_stop (vm : Handle) : M W S VmError unit := ffi (HbLongRequestStop vm).
Definition vm_set_balloon_target (vm : Handle) (target_bytes : Z) : M W S VmError unit :=
  ffi (HbLongSetBalloonTarget vm target_bytes).
Definition vm_resume (vm : Handle) : M W S VmError unit := ffi (HbLongResume vm).
Definition vm_serve_mmds_vsock (vm : Handle) (port : Z) (json : string) : M W S VmError unit :=
  ffi (HbLongServeMmds vm port json).
Definition vm_connect_vsock (vm : Handle) (port : Z) : M W S VmError Z :=
  let! fd := ffi (HbLongConnect vm port) in
  if fd <? 0
  then fail (Swift "vz_long_connect reported success but returned no file descriptor")
  else ret fd.
Definition vm_stop (vm : Handle) : M W S VmError unit := ffi (HbLongStop vm).
Definition vm_save_state (vm : Handle) (save_path : string) : M W S VmError unit :=
  let! save_c := lift (path_cstring save_path "save") in
  ffi (HbLongSave vm save_c).

(** [Drop for VzVm].  Its test for a null handle is passed: the bridge
    gives a handle with each success, which the constructors assert. *)
Definition drop_vm {E} (vm : Handle) : M W S E unit := ask (HbLongFree vm).

Definition vz_pool_restore_long (kernel initramfs rootfs save : string) (log : option string)
  (cpu_count memory_mib : Z) : M W S VmError (Handle * HbRestoreTimings) :=
  let! kernel_c := lift (path_cstring kernel "kernel") in
  let! initramfs_c := lift (path_cstring initramfs "initramfs") in
  let! rootfs_c := lift (path_cstring rootfs "rootfs") in
  let! save_c := lift (path_cstring save "save") in
  let! log_c := lift (opt_path_cstring log "log") in
  ffi (HbPoolRestoreLong kernel_c initramfs_c rootfs_c save_c log_c cpu_count memory_mib).

Definition vz_stock_pool_restore_long (kernel rootfs save : string) (log : option string)
  (cpu_count memory_mib : Z) : M W S VmError (Handle * HbRestoreTimings) :=
  let! kernel_c := lift (path_cstring kernel "kernel") in
  let! rootfs_c := lift (path_cstring rootfs "rootfs") in
  let! save_c := lift (path_cstring save "save") in
  let! log_c := lift (opt_path_cstring log "log") in
  ffi (HbStockPoolRestoreLong kernel_c rootfs_c save_c log_c cpu_count memory_mib).

Definition vz_long_restore (kernel rootfs : string) (initrd : option string) (log boot_args save : string)
  (cpu_count memory_mib : Z) (read_only : bool) (network_mode : VzNetworkMode)
  (host_packet_interface : bool) (mac : option string) (extra_drives : list (string * bool))
  (resume : bool) : M W S VmError (Handle * HbRestoreTimings) :=
  let! kernel_c := lift (path_cstring kernel "kernel") in
  let! rootfs_c := lift (path_cstring rootfs "rootfs") in
  let! log_c := lift (path_cstring log "log") in
  let! boot_args_c := lift (cstring boot_args) in
  let! save_c := lift (path_cstring save "save") in
  let! initrd_c := lift (opt_path_cstring initrd "initrd") in
  let! mac_c := lift (opt_cstring mac) in
  let! drives := lift (drive_arrays extra_drives) in
  ffi (HbLongRestore
    {| a_kernel := kernel_c; a_rootfs := rootfs_c; a_initrd := initrd_c; a_log := log_c;
       a_boot_args := boot_args_c; a_cpus := cpu_count; a_memory_mib := memory_mib;
       a_read_only := read_only; a_network := network_code network_mode;
       a_host_packet_interface := host_packet_interface; a_mac := mac_c;
       a_drive_count := drive_count drives; a_drive_paths := paths_ptr drives;
       a_drive_readonly := readonly_ptr drives |} save_c resume).

Definition vz_exec_snapshot_save (kernel initramfs rootfs save : string) (log : option string)
  (cpu_count memory_mib : Z) : M W S VmError unit :=
  let! kernel_c := lift (path_cstring kernel "kernel") in
  let! initramfs_c := lift (path_cstring initramfs "initramfs") in
  let! rootfs_c := lift (path_cstring rootfs "rootfs") in
  let! save_c := lift (path_cstring save "save") in
  let! log_c := lift (opt_path_cstring log "log") in
  ffi (HbExecSnapshotSave kernel_c initramfs_c rootfs_c save_c log_c cpu_count memory_mib).

Definition vz_snapshot_save (kernel rootfs log save : string) (cpu_count memory_mib settle_seconds : Z)
  : M W S VmError unit :=
  let! kernel_c := lift (path_cstring kernel "kernel") in
  let! rootfs_c := lift (path_cstring rootfs "rootfs") in
  let! log_c := lift (path_cstring log "log") in
  let! save_c := lift (path_cstring save "save") in
  ffi (HbSnapshotSave kernel_c rootfs_c log_c save_c cpu_count memory_mib settle_seconds).

Definition vz_exec_snapshot_restore (kernel initramfs rootfs save command : string)
  (log : option string) (cpu_count memory_mib : Z) : M W S VmError (Z * Z) :=
  let! kernel_c := lift (path_cstring kernel "kernel") in
  let! initramfs_c := lift (path_cstring initramfs "initramfs") in
  let! rootfs_c := lift (path_cstring rootfs "rootfs") in
  let! save_c := lift (path_cstring save "save") in
  let! cmd_c := lift (cstring command) in
  let! log_c := lift (opt_path_cstring log "log") in
  ffi (HbExecSnapshotRestore kernel_c initramfs_c rootfs_c save_c cmd_c log_c cpu_count memory_mib).

(** The frame that was read, cut at the size of the buffer. *)
Definition vm_vmnet_read (vm : Handle) (capacity : Z) : M W S VmError (list Z) := ffi (HbLongVmnetRead vm capacity).
Definition vm_vmnet_write (vm : Handle) (frame : list Z) : M W S VmError unit := ffi (HbLongVmnetWrite vm frame).

Definition vz_boot (kernel rootfs log : string) (cpu_count memory_mib run_seconds : Z) : M W S VmError unit :=
  let! kernel_c := lift (path_cstring kernel "kernel") in
  let! rootfs_c := lift (path_cstring rootfs "rootfs") in
  let! log_c := lift (path_cstring log "log") in
  ffi (HbBoot kernel_c rootfs_c log_c cpu_count memory_mib run_seconds).

Definition vz_exec (kernel initramfs rootfs command : string) (log : option string)
  (cpu_count memory_mib timeout_seconds : Z) (forward_stdin : bool) : M W S VmError Z :=
  let! kernel_c := lift (path_cstring kernel "kernel") in
  let! initramfs_c := lift (path_cstring initramfs "initramfs") in
  let! rootfs_c := lift (path_cstring rootfs "rootfs") in
  let! cmd_c := lift (cstring command) in
  let! log_c := lift (opt_path_cstring log "log") in
  ffi (HbExec kernel_c initramfs_c rootfs_c cmd_c log_c cpu_count memory_mib timeout_seconds
         (if forward_stdin then 1 else 0)).

Definition vz_snapshot_restore (kernel rootfs log save : string) (cpu_count memory_mib run_seconds : Z)
  : M W S VmError Z :=
  let! kernel_c := lift (path_cstring kernel "kernel") in
  let! rootfs_c := lift (path_cstring rootfs "rootfs") in
  let! log_c := lift (path_cstring log "log") in
  let! save_c := lift (path_cstring save "save") in
  ffi (HbSnapshotRestore kernel_c rootfs_c log_c save_c cpu_count memory_mib run_seconds).

Definition vz_sh (kernel rootfs : string) (cpu_count memory_mib timeout_seconds : Z) : M W S VmError unit :=
  let! kernel_c := lift (path_cstring kernel "kernel") in
  let! rootfs_c := lift (path_cstring rootfs "rootfs") in
  ffi (HbSh kernel_c rootfs_c cpu_count memory_mib timeout_seconds).
End Calls.

(** ** Pure functions *)

Inductive Compression := CNone | Gzip | Zstd.

Definition compression_code (c : Compression) : Z := match c with CNone => 0 | Gzip => 1 | Zstd => 2 end.

(** [Compression::auto_detect] on the first bytes of the file (at most four). *)
Definition auto_detect (head : list Z) : option Compression :=
  match head with
  | 31 :: 139 :: _ => Some Gzip
  | [40; 181; 47; 253] => Some Zstd
  | _ => None
  end.

Definition build_rootfs_from_tar {W S} `{Outside W} (tar out : string) (block_size_mib : Z) (compression : Compression)
  : M W S VmError unit :=
  let! tar_c := lift (path_cstring tar "tar") in
  let! out_c := lift (path_cstring out "output") in
  ffi (HbRootfsFromTar tar_c out_c block_size_mib (compression_code compression)).

Definition FNV_OFFSET : Z := 0x811c9dc5.
Definition FNV_PRIME : Z := 0x01000193.

Definition fnv1a (s : string) : Z :=
  foldl (fun h b => wrap 32 (Z.lxor h b * FNV_PRIME)) FNV_OFFSET (bytes s).

Definition allocate_ip_octet (id : string) : Z := wrap 8 (wrap 8 (fnv1a id mod 253) + 2).

(** ** The Containerization path *)

Record Spec := {
  sp_id : string; sp_kernel : string; sp_initfs : string; sp_rootfs : string; sp_cpus : Z; sp_memory_mib : Z;
  sp_argv : list string; sp_cwd : option string; sp_networking : bool; sp_ip_octet : option Z; sp_tty : bool }.

Definition Spec_new (id kernel initfs rootfs : string) : Spec :=
  {| sp_id := id; sp_kernel := kernel; sp_initfs := initfs; sp_rootfs := rootfs; sp_cpus := 0; sp_memory_mib := 0;
     sp_argv := []; sp_cwd := None; sp_networking := false; sp_ip_octet := None; sp_tty := false |}.

#[export] Instance eta_Spec : Eta Spec :=
  ((fun _ => Build_Spec) <+> sp_id <+> sp_kernel <+> sp_initfs <+> sp_rootfs <+> sp_cpus <+> sp_memory_mib <+> sp_argv
   <+> sp_cwd <+> sp_networking <+> sp_ip_octet <+> sp_tty)%fields.

(** The methods of the builder. *)
Definition container_argv (argv : list string) (s : Spec) : Spec := s <| sp_argv := argv |>.
Definition container_cwd (cwd : string) (s : Spec) : Spec := s <| sp_cwd := Some cwd |>.
Definition container_cpus (n : Z) (s : Spec) : Spec := s <| sp_cpus := n |>.
Definition container_memory_mib (n : Z) (s : Spec) : Spec := s <| sp_memory_mib := n |>.
Definition container_networking (on : bool) (s : Spec) : Spec := s <| sp_networking := on |>.
Definition container_ip_octet (octet : Z) (s : Spec) : Spec := s <| sp_ip_octet := Some octet |>.
Definition container_tty (on : bool) (s : Spec) : Spec := s <| sp_tty := on |>.

(** [iter().map(CString::new).collect()] *)
Fixpoint cstrings (l : list string) : Result (list string) VmError :=
  match l with
  | [] => Ok []
  | s :: rest => let? c := cstring s in let? cs := cstrings rest in Ok (c :: cs)
  end.

(** The marshalling half of [Vm::new]. *)
Definition vm_config (s : Spec) : Result HbVmConfig VmError :=
  let? id_c := cstring (sp_id s) in
  let? kernel_c := path_cstring (sp_kernel s) "kernel" in
  let? initfs_c := path_cstring (sp_initfs s) "initfs" in
  let? rootfs_c := path_cstring (sp_rootfs s) "rootfs" in
  let? cwd_c := opt_cstring (sp_cwd s) in
  let? argv_c := cstrings (sp_argv s) in
  Ok {| c_id := id_c; c_kernel := kernel_c; c_initfs := initfs_c; c_rootfs := rootfs_c; c_cpus := sp_cpus s;
        c_memory_mib := sp_memory_mib s; c_argv := non_null argv_c; c_cwd := cwd_c;
        c_networking := sp_networking s; c_ip_octet := default (allocate_ip_octet (sp_id s)) (sp_ip_octet s);
        c_tty := sp_tty s |}.

Section Container.
Context {W : Type} `{Outside W} {S : Type}.

(** [None] is a panic: the bridge returned no text. *)
Definition ping {E} : M W S E (option string) :=
  let! p := ask HbPing in
  ret (match p with Some s => if utf8_valid s then Some s else None | None => None end).

Definition Vm_new (s : Spec) : M W S VmError Handle :=
  let! config := lift (vm_config s) in
  ffi (HbVmNew config).
Definition container_build (s : Spec) : M W S VmError Handle := Vm_new s.
Definition Vm_create (vm : Handle) : M W S VmError unit := ffi (HbVmCreate vm).
Definition Vm_start (vm : Handle) : M W S VmError unit := ffi (HbVmStart vm).
Definition Vm_wait (vm : Handle) : M W S VmError Z := ffi (HbVmWait vm).
Definition Vm_stop (vm : Handle) : M W S VmError unit := ffi (HbVmStop vm).

(** [Drop for Vm]: the status of the stop is ignored. *)
Definition drop_Vm {E} (vm : Handle) : M W S E unit :=
  do! ask (HbVmStop vm) in
  ask (HbVmFree vm).
End Container.

(** A chunk of the guest's output that Swift hands over: a null [userdata],
    or null data of positive length, is dropped. *)
Inductive SinkCall := OnStdout (bytes : list Z) | OnStderr (bytes : list Z).
Definition trampoline (userdata : bool) (data : option (list Z)) (n : Z) (stderr : bool) : option SinkCall :=
  if negb userdata then None
  else match data with
       | None => if 0 <? n then None else Some (if stderr then OnStderr [] else OnStdout [])
       | Some d => let slice := take (Z.to_nat n) d in Some (if stderr then OnStderr slice else OnStdout slice)
       end.
Definition trampoline_stdout (userdata : bool) (data : option (list Z)) (n : Z) : option SinkCall := trampoline userdata data n false.
Definition trampoline_stderr (userdata : bool) (data : option (list Z)) (n : Z) : option SinkCall := trampoline userdata data n true.

(** ** Lemmas *)

Lemma cstring_Ok s c : cstring s = Ok c -> c = s.
Proof. unfold cstring. by destruct (nul_position s); intros; simplify_eq. Qed.

Lemma path_cstring_Ok p l c : path_cstring p l = Ok c -> c = p.
Proof.
  unfold path_cstring, path_to_str. destruct (utf8_valid p); [|done]. simpl. apply cstring_Ok.
Qed.

Lemma opt_path_cstring_Ok p l c : opt_path_cstring p l = Ok c -> c = p.
Proof.
  destruct p as [p|]; simpl; [|by intros; simplify_eq].
  destruct (path_cstring p l) eqn:E; simpl; [|done].
  intros; simplify_eq. by apply path_cstring_Ok in E as ->.
Qed.

Lemma opt_cstring_Ok s c : opt_cstring s = Ok c -> c = s.
Proof.
  destruct s as [s|]; simpl; [|by intros; simplify_eq].
  destruct (cstring s) eqn:E; simpl; [|done].
  intros; simplify_eq. by apply cstring_Ok in E as ->.
Qed.

Lemma drive_arrays_Ok drives d :
  drive_arrays drives = Ok d -> d_paths d = drives.*1 /\ d_readonly d = drives.*2.
Proof.
  revert d. induction drives as [|[p ro] drives IH]; intros d; simpl; [by intros; simplify_eq|].
  destruct (path_cstring p "drive") eqn:E; simpl; [|done].
  destruct (drive_arrays drives) as [d'|]; simpl; [|done].
  intros; simplify_eq. simpl. apply path_cstring_Ok in E as ->.
  by destruct (IH d' eq_refl) as [-> ->].
Qed.

Lemma non_null_default {A} (l : list A) : default [] (non_null l) = l.
Proof. by destruct l. Qed.

(** ** Properties *)

(** The arguments hold the specification: the pointers of the drive arrays
    are null exactly when there is no drive, and else hold the drives in
    order. *)
Definition args_of (s : VzSpec) (a : LongArgs) : Prop :=
  a_kernel a = kernel_path s /\ a_rootfs a = rootfs_path s /\ a_initrd a = initrd_path s /\
  a_log a = log_path s /\ a_boot_args a = boot_args s /\ a_cpus a = cpus s /\
  a_memory_mib a = memory_mib s /\ a_read_only a = read_only s /\
  a_network a = network_code (network_mode s) /\
  a_host_packet_interface a = host_packet_interface s /\ a_mac a = mac s /\
  a_drive_count a = Z.of_nat (length (extra_drives s)) /\
  zip (default [] (a_drive_paths a)) (default [] (a_drive_readonly a)) = extra_drives s /\
  (a_drive_paths a = None <-> extra_drives s = []).

(** The three C arguments a list of drives becomes. *)
Lemma drives_faithful drives d :
  drive_arrays drives = Ok d ->
  drive_count d = Z.of_nat (length drives) /\
  zip (default [] (paths_ptr d)) (default [] (readonly_ptr d)) = drives /\
  (paths_ptr d = None <-> drives = []).
Proof.
  intros Hd. destruct (drive_arrays_Ok _ _ Hd) as [Hp Hr].
  unfold drive_count, paths_ptr, readonly_ptr. rewrite Hp, Hr, length_fmap, !non_null_default.
  split_and!; [done|apply zip_fst_snd|by destruct drives].
Qed.

(** Marshalling neither truncates nor reorders: arguments that cross the
    boundary are the specification's. *)
Lemma long_args_faithful s a : long_args s = Ok a -> args_of s a.
Proof.
  unfold long_args. intros H.
  destruct (path_cstring (kernel_path s) _) eqn:E1; simpl in H; [|done].
  destruct (path_cstring (rootfs_path s) _) eqn:E2; simpl in H; [|done].
  destruct (path_cstring (log_path s) _) eqn:E3; simpl in H; [|done].
  destruct (cstring (boot_args s)) eqn:E4; simpl in H; [|done].
  destruct (opt_path_cstring (initrd_path s) _) eqn:E5; simpl in H; [|done].
  destruct (opt_cstring (mac s)) eqn:E6; simpl in H; [|done].
  destruct (drive_arrays (extra_drives s)) as [d|] eqn:E7; simpl in H; [|done].
  apply path_cstring_Ok in E1, E2, E3. apply cstring_Ok in E4.
  apply opt_path_cstring_Ok in E5. apply opt_cstring_Ok in E6.
  simplify_eq. unfold args_of; simpl. by split_and!; try apply drives_faithful.
Qed.

(** What marshalling refuses is an invalid argument. *)
Lemma path_cstring_error p l e : path_cstring p l = Err e -> exists m, e = InvalidArgument m.
Proof.
  unfold path_cstring, path_to_str, cstring. intros. run_cases; eauto.
Qed.

Lemma drive_arrays_error drives e : drive_arrays drives = Err e -> exists m, e = InvalidArgument m.
Proof.
  revert e. induction drives as [|[p ro] drives IH]; intros e; simpl; [done|].
  destruct (path_cstring p "drive") eqn:E; simpl; [|intros; simplify_eq; by eapply path_cstring_error].
  destruct (drive_arrays drives); simpl; [done|]. intros; simplify_eq; eauto.
Qed.

Lemma long_args_error s e : long_args s = Err e -> exists m, e = InvalidArgument m.
Proof.
  unfold long_args, opt_path_cstring, opt_cstring, cstring, result_bind. intros.
  run_cases; eauto using path_cstring_error, drive_arrays_error.
Qed.

(** The default last octet of a VM's address is always in [2, 254]: the
    8-bit additions do not wrap and the network, gateway and broadcast
    addresses are never handed out. *)
Theorem allocate_ip_octet_range id : 2 <= allocate_ip_octet id <= 254.
Proof.
  unfold allocate_ip_octet.
  pose proof (Z.mod_pos_bound (fnv1a id) 253 ltac:(lia)) as Hm.
  rewrite (wrap_small 8 (fnv1a id mod 253)) by (simpl; lia).
  rewrite wrap_small by (simpl; lia). lia.
Qed.

(** Building a VM either fails before any call, because an argument
    cannot cross the C boundary, or makes exactly one call, whose arguments
    are the specification's (paths and drives unshortened and in order, null
    pointers exactly for what is absent) and whose status decides the
    result. *)
Theorem VzVm_new_marshals {W} `{Outside W} (spec : VzSpec) (u : unit) (w : W) :
  wp (VzVm_new spec)
    (fun r _ _ t =>
       (exists m, r = Err (InvalidArgument m) /\ t = []) \/
       (exists args reply, args_of spec args /\ t = [Ev (HbLongNew args) reply] /\
          r = match into_result (status reply) (out_err reply) with
              | Ok _ => Ok (out reply)
              | Err e => Err e
              end)) u w.
Proof.
  unfold VzVm_new, ffi. wp_step. wp_step. destruct (long_args spec) as [args|e] eqn:Ea.
  - do 4 wp_step. destruct (into_result (status a) (out_err a)) eqn:Er; [wp_step|];
      right; exists args, a; rewrite Er; auto using long_args_faithful.
  - left. destruct (long_args_error _ _ Ea) as [m ->]. by exists m.
Qed.
