(* ===== verification/FcApi.v ===== *)
(** * The wire types of the API (hephaestus-fc-api)

    The request and response structures of the Firecracker HTTP API, one
    Module per source file where field names repeat, the errors a backend
    returns, and [MacAddr] with its parser and printer. *)

From S2P Require Import Prelude RustStr Json.
Local Open Scope string_scope.
Local Open Scope Z_scope.

(** ** Backend errors (backend.rs) *)

Inductive VmmBackendError :=
| InvalidState (m : string)
| InvalidConfig (m : string)
| NotSupported (m : string)
| Internal (m : string).

Definition backend_error_display (e : VmmBackendError) : string :=
  match e with
  | InvalidState m => "Operation not permitted in the current VM state: " +:+ m
  | InvalidConfig m => "Invalid configuration: " +:+ m
  | NotSupported m => "This endpoint is not supported by this backend: " +:+ m
  | Internal m => "Backend failure: " +:+ m
  end.

(** ** Rate limiters (vmm_config/mod.rs) *)

Record TokenBucketConfig := { size : Z; one_time_burst : option Z; refill_time : Z }.
Record RateLimiterConfig := { bandwidth : option TokenBucketConfig; ops : option TokenBucketConfig }.

(** ** vmm_config/boot_source.rs *)

Definition DEFAULT_KERNEL_CMDLINE : string :=
  "reboot=k panic=1 nomodule 8250.nr_uarts=0 i8042.noaux i8042.nomux i8042.dumbkbd swiotlb=noforce".

Module BootSource.
Record BootSourceConfig := {
  kernel_image_path : string; initrd_path : option string; boot_args : option string }.
End BootSource.

(** ** vmm_config/drive.rs *)

Inductive CacheType := Unsafe | Writeback.
Inductive FileEngineType := Async | Sync.

Module Drive.
Record BlockDeviceConfig := {
  drive_id : string; partuuid : option string; is_root_device : bool; cache_type : CacheType;
  is_read_only : option bool; path_on_host : option string; rate_limiter : option RateLimiterConfig;
  file_engine_type : option FileEngineType; socket : option string }.
End Drive.

Module DriveUpdate.
Record BlockDeviceUpdateConfig := {
  drive_id : string; path_on_host : option string; rate_limiter : option RateLimiterConfig }.
End DriveUpdate.

(** ** vmm_config/machine_config.rs *)

Definition DEFAULT_MEM_SIZE_MIB : Z := 128.
Definition MAX_SUPPORTED_VCPUS : Z := 32.

Inductive HugePageConfig := HugeNone | Hugetlbfs2M.

Module Machine.
Record MachineConfig := {
  vcpu_count : Z; mem_size_mib : Z; smt : bool; cpu_template : option Value;
  track_dirty_pages : bool; huge_pages : HugePageConfig }.

Definition default_config : MachineConfig :=
  {| vcpu_count := 1; mem_size_mib := DEFAULT_MEM_SIZE_MIB; smt := false; cpu_template := None;
     track_dirty_pages := false; huge_pages := HugeNone |}.
End Machine.

Module MachineUpdate.
Record MachineConfigUpdate := {
  vcpu_count : option Z; mem_size_mib : option Z; smt : option bool; cpu_template : option Value;
  track_dirty_pages : option bool; huge_pages : option HugePageConfig }.

(** Equality with the default, whose fields are all [None]. *)
Definition is_empty (u : MachineConfigUpdate) : bool :=
  match u with
  | {| vcpu_count := None; mem_size_mib := None; smt := None; cpu_template := None;
       track_dirty_pages := None; huge_pages := None |} => true
  | _ => false
  end.
End MachineUpdate.

(** ** vmm_config/net.rs *)

Definition MAC_ADDR_LEN : nat := 6.

(** [MacAddr]: six bytes. *)
Definition MacAddr : Type := list Z.
Definition wf_mac (m : MacAddr) : Prop := length m = MAC_ADDR_LEN /\ Forall u8_range m.

Definition mac_to_string (m : MacAddr) : string := join ":" (fmt_02x <$> m).

(** The loop over the six parts. *)
Fixpoint mac_bytes (s : string) (parts : list string) : Result (list Z) string :=
  match parts with
  | [] => Ok []
  | p :: rest =>
      if negb (len p =? 2) then Err s
      else let? b := map_err (fun _ => s) (from_str_radix 16 u8_max p) in
           let? bs := mac_bytes s rest in
           Ok (b :: bs)
  end.

Definition mac_from_str (s : string) : Result MacAddr string :=
  let v := split_char (ch 58) s in
  if negb (Nat.eqb (length v) MAC_ADDR_LEN) then Err s else mac_bytes s v.

Module Net.
Record NetworkInterfaceConfig := {
  iface_id : string; host_dev_name : string; guest_mac : option MacAddr;
  rx_rate_limiter : option RateLimiterConfig; tx_rate_limiter : option RateLimiterConfig }.
End Net.

(** ** The small structures *)

Record LoggerConfig := {
  l_log_path : option string; l_level : option string; l_show_level : option bool;
  l_show_log_origin : option bool; l_module : option string }.

Record MetricsConfig := { metrics_path : string }.

Inductive MmdsVersion := V1 | V2.
Record MmdsConfig := {
  ipv4_address : option string; network_interfaces : list string; version : option MmdsVersion }.
Definition default_mmds_config : MmdsConfig :=
  {| ipv4_address := None; network_interfaces := []; version := Some V1 |}.

Record VsockConfig := { guest_cid : Z; uds_path : string; vsock_id : option string }.

Module Balloon.
Record BalloonDeviceConfig := {
  amount_mib : Z; deflate_on_oom : bool; stats_polling_interval_s : Z }.
End Balloon.
Record BalloonUpdateConfig := { update_amount_mib : Z }.

Inductive SnapshotType := Diff | Full.
Inductive MemBackendType := File | Uffd.
Record CreateSnapshotParams := {
  cs_snapshot_path : string; cs_mem_file_path : string; cs_snapshot_type : SnapshotType;
  cs_version : option string }.
Record MemBackendConfig := { backend_path : string; backend_type : MemBackendType }.
Record LoadSnapshotConfig := {
  ls_snapshot_path : string; ls_mem_file_path : option string; ls_mem_backend : option MemBackendConfig;
  ls_enable_diff_snapshots : bool; ls_track_dirty_pages : bool; ls_resume_vm : bool }.

Inductive VmState := NotStarted | Paused | Running.

#[export] Instance VmState_eq_dec : EqDecision VmState.
Proof. solve_decision. Defined.

Definition vm_state_display (s : VmState) : string :=
  match s with NotStarted => "Not started" | Paused => "Paused" | Running => "Running" end.

Record InstanceInfo := {
  ii_id : string; ii_state : VmState; ii_vmm_version : string; ii_app_name : string }.

Definition FIRECRACKER_COMPAT_VERSION : string := "1.16.0-dev".

Inductive VmUpdatedState := ToPaused | ToResumed.
Record UpdatedVm := { updated_state : VmUpdatedState }.

(** ** MAC addresses: printing and parsing *)

Lemma hex_digit d : 0 <= d < 16 -> digit_val 16 (hex_char d) = Some d.
Proof.
  intros H.
  assert (Hd : In d (Z.of_nat <$> seq 0 16)).
  { apply list_elem_of_In, list_elem_of_fmap. exists (Z.to_nat d).
    split; [lia|]. apply elem_of_seq. lia. }
  simpl in Hd. by repeat destruct Hd as [<-|Hd]; [..|done].
Qed.

Lemma hex_char_clean d : 0 <= d < 16 -> Ascii.eqb (hex_char d) (ch 43) = false /\ Ascii.eqb (hex_char d) (ch 58) = false.
Proof.
  intros H.
  assert (Hd : In d (Z.of_nat <$> seq 0 16)).
  { apply list_elem_of_In, list_elem_of_fmap. exists (Z.to_nat d).
    split; [lia|]. apply elem_of_seq. lia. }
  simpl in Hd. by repeat destruct Hd as [<-|Hd]; [..|done].
Qed.

Lemma byte_nibbles b : u8_range b -> 0 <= b / 16 < 16 /\ 0 <= b mod 16 < 16.
Proof.
  unfold u8_range, u8_max. intros. split.
  - split; [apply Z.div_pos; lia|apply Z.div_lt_upper_bound; lia].
  - apply Z.mod_pos_bound. lia.
Qed.

Lemma parse_fmt_02x b : u8_range b -> from_str_radix 16 u8_max (fmt_02x b) = Ok b.
Proof.
  intros Hb. destruct (byte_nibbles b Hb) as [H1 H2].
  unfold from_str_radix, fmt_02x. destruct (hex_char_clean _ H1) as [-> _].
  unfold parse_digits. rewrite !hex_digit by done.
  pose proof (Z.div_mod b 16 ltac:(lia)) as Hd. unfold u8_range in Hb.
  destruct (Z.leb_spec (0 * 16 + b / 16) u8_max); [|lia].
  destruct (Z.leb_spec ((0 * 16 + b / 16) * 16 + b mod 16) u8_max); [|lia].
  f_equal. lia.
Qed.

Lemma fmt_02x_no_colon b : u8_range b -> contains_char (ch 58) (fmt_02x b) = false.
Proof.
  intros Hb. destruct (byte_nibbles b Hb) as [H1 H2]. unfold fmt_02x. simpl.
  by rewrite (proj2 (hex_char_clean _ H1)), (proj2 (hex_char_clean _ H2)).
Qed.

Lemma mac_bytes_fmt s l : Forall u8_range l -> mac_bytes s (fmt_02x <$> l) = Ok l.
Proof.
  induction 1 as [|b l Hb Hl IH]; [done|]. cbn [fmap list_fmap mac_bytes].
  change (len (fmt_02x b) =? 2) with true. cbn [negb].
  by rewrite parse_fmt_02x; simpl; [rewrite IH|].
Qed.

(** A MAC address the configuration accepted prints to text that parses
    back to the same address: what crosses the bridge is what the client
    set. *)
Theorem mac_roundtrip m : wf_mac m -> mac_from_str (mac_to_string m) = Ok m.
Proof.
  intros [Hlen Hm]. unfold mac_from_str, mac_to_string.
  rewrite (split_join (ch 58)).
  - rewrite length_fmap, Hlen. simpl. by apply mac_bytes_fmt.
  - by destruct m.
  - apply Forall_fmap. eapply Forall_impl; [exact Hm|]. intros b Hb. by apply fmt_02x_no_colon.
Qed.

Lemma mac_roundtrip_witness :
  mac_from_str (mac_to_string [2; 72; 80; 77; 68; 255]) = Ok [2; 72; 80; 77; 68; 255] /\
  mac_to_string [2; 72; 80; 77; 68; 255] = "02:48:50:4d:44:ff".
Proof.
  split; [|reflexivity]. apply mac_roundtrip. split; [reflexivity|].
  repeat constructor; vm_compute; congruence.
Defined.

Lemma mac_bytes_wf s parts bs :
  mac_bytes s parts = Ok bs -> length bs = length parts /\ Forall u8_range bs.
Proof.
  revert bs. induction parts as [|p parts IH]; intros bs; simpl; [by intros; simplify_eq|].
  destruct (negb (len p =? 2)); [done|].
  destruct (from_str_radix 16 u8_max p) as [b|] eqn:Eb; simpl; [|done].
  destruct (mac_bytes s parts) as [bs'|] eqn:Es; simpl; [|done].
  intros; simplify_eq. destruct (IH _ eq_refl) as [IHl IHf]. split; [simpl; by rewrite IHl|].
  constructor; [|done]. unfold from_str_radix in Eb. unfold u8_range.
  assert (0 <= 0 <= u8_max) by (unfold u8_max; lia).
  destruct p as [|a p]; [done|].
  destruct (Ascii.eqb a (ch 43)); [destruct (str_is_empty p); [done|]|];
    eapply parse_digits_range in Eb; done.
Qed.

(** Parsing yields six bytes. *)
Lemma mac_from_str_wf s m : mac_from_str s = Ok m -> wf_mac m.
Proof.
  unfold mac_from_str. destruct (Nat.eqb_spec (length (split_char (ch 58) s)) MAC_ADDR_LEN); [|done].
  simpl. intros H%mac_bytes_wf. unfold wf_mac. naive_solver lia.
Qed.

(** ** On the wire *)

(** [Serialize] and [Deserialize] for [MacAddr]; [mismatch] is serde's text
    for a value that is no string. *)
Definition mac_serialize (m : MacAddr) : Value := Str (mac_to_string m).
Definition mac_deserialize (mismatch : Value -> string) (v : Value) : Result MacAddr string :=
  match v with
  | Str s => map_err (fun _ => "The provided MAC address is invalid.") (mac_from_str s)
  | v => Err (mismatch v)
  end.
(** [Serialize for VmState] *)
Definition vm_state_serialize (s : VmState) : Value := Str (vm_state_display s).

(** An address that was written is read back; one that was read has six bytes. *)
Theorem mac_json_roundtrip mismatch m : wf_mac m -> mac_deserialize mismatch (mac_serialize m) = Ok m.
Proof. intros Hm. cbn. by rewrite mac_roundtrip. Qed.
Theorem mac_deserialize_wf mismatch v m : mac_deserialize mismatch v = Ok m -> wf_mac m.
Proof.
  destruct v as [| | |s| |]; try done. cbn. destruct (mac_from_str s) eqn:E; [|done]. intros [= <-]. by eapply mac_from_str_wf.
Qed.

(** The parser inherits the sign [from_str_radix] allows. *)
Lemma mac_accepts_plus : mac_from_str "+f:00:00:00:00:00" = Ok [15; 0; 0; 0; 0; 0].
Proof. reflexivity. Qed.
