(* ===== verification/Pool.v ===== *)
(** * The warm pool (hephaestus-pool/src/lib.rs)

    The pool directory's metadata file and its parser, the claim of a slot by
    [flock], restoring a claimed slot into a VM, running a command in it,
    creating and destroying a pool.  Files, locks and the VM are calls to the
    outside; a pool value is its directory and metadata. *)

From S2P Require Import Prelude RustStr Utf8 World Bridge.
Local Open Scope string_scope.
Local Open Scope Z_scope.

(** ** Data *)

Definition DEFAULT_CPUS : Z := 2.
Definition DEFAULT_MEMORY_MIB : Z := 512.

Inductive PoolFlavor := Agent | StockInit.

#[export] Instance PoolFlavor_eq_dec : EqDecision PoolFlavor.
Proof. solve_decision. Defined.

Inductive PoolError :=
| AlreadyExists (p : string)
| NotAPool (p : string)
| InvalidSize
| Io (ctx e : string)
| FlockErrno (slot : Z) (errno : string)
| BadMeta (m : string)
| CpFailed (exit_status : Z)
| VmSave (e : VmError)
| VmRestore (e : VmError)
| WrongFlavor (op : string) (got want : PoolFlavor).

Definition flavor_str (f : PoolFlavor) : string :=
  match f with Agent => "Agent" | StockInit => "StockInit" end.

Definition flavor_from_str (s : string) : Result PoolFlavor PoolError :=
  if String.eqb s "Agent" then Ok Agent
  else if String.eqb s "StockInit" then Ok StockInit
  else Err (BadMeta ("unknown flavor `" +:+ s +:+ "`")).

Record PoolMeta := {
  m_kernel : string; m_initramfs : option string; m_pristine : string; m_save : string;
  m_slots : Z; m_cpus : Z; m_memory_mib : Z; m_flavor : PoolFlavor }.

(** The lock of a claimed slot is held on [path]/lock. *)
Record ClaimedSlot := { slot_index : Z; slot_path : string; slot_rootfs : string }.

Record PoolMatchSpec := {
  spec_kernel : string; spec_rootfs : string; spec_vcpu_count : Z; spec_memory : Z }.

Record Pool := { dir : string; meta : PoolMeta }.

Record SlotState := { st_index : Z; st_busy : bool; st_has_rootfs : bool }.

Record PoolInit := {
  pi_dir : string; pi_kernel : string; pi_rootfs_source : string; pi_slots : Z; pi_cpus : Z;
  pi_memory_mib : Z; pi_flavor : PoolFlavor; pi_initramfs : option string; pi_settle_seconds : Z }.

Record PoolRestoreBreakdown := { clone_nanos : Z; vz : HbRestoreTimings }.

Definition total_nanos (b : PoolRestoreBreakdown) : Z :=
  clone_nanos b + config_nanos (vz b) + construct_nanos (vz b) + restore_nanos (vz b)
  + resume_nanos (vz b).

(** [Display for PoolError]; [exit_status] is the [Display] of a process's
    [ExitStatus]. *)
Definition pool_error_display (exit_status : Z -> string) (e : PoolError) : string :=
  match e with
  | AlreadyExists p => "pool dir already exists: " +:+ from_utf8_lossy p
  | NotAPool p => "not a pool dir (no meta): " +:+ from_utf8_lossy p
  | InvalidSize => "--size must be " +:+ utf8 [226; 137; 165]%nat +:+ " 1"
  | Io ctx e => ctx +:+ ": " +:+ e
  | FlockErrno i e => "flock on slot " +:+ to_dec i +:+ ": " +:+ e
  | BadMeta s => "bad pool meta: " +:+ s
  | CpFailed s => "cp -c exited " +:+ exit_status s
  | VmSave e => "vm save: " +:+ vm_error_display e
  | VmRestore e => "vm restore: " +:+ vm_error_display e
  | WrongFlavor op got want =>
      op +:+ " requires a " +:+ flavor_str want +:+ "-flavored pool, this one is " +:+ flavor_str got
  end.

(** ** The metadata file *)

(** The lines [PoolMeta::write] writes. *)
Definition meta_lines (m : PoolMeta) : list string :=
  (["kernel=" +:+ from_utf8_lossy (m_kernel m)] ++
   match m_initramfs m with Some p => ["initramfs=" +:+ from_utf8_lossy p] | None => [] end ++
   ["pristine=" +:+ from_utf8_lossy (m_pristine m); "save=" +:+ from_utf8_lossy (m_save m);
    "slots=" +:+ to_dec (m_slots m); "cpus=" +:+ to_dec (m_cpus m);
    "memory_mib=" +:+ to_dec (m_memory_mib m); "flavor=" +:+ flavor_str (m_flavor m)])%list.
Definition meta_text (m : PoolMeta) : string := unlines (meta_lines m).

(** [BufRead::lines] on a file: a line that is not UTF-8 is an error, and so
    is what follows the last complete line when reading failed. *)
Definition check_line (l : string) : Result string string :=
  if utf8_valid l then Ok l else Err "stream did not contain valid UTF-8".
Definition read_lines (f : FileData) : list (Result string string) :=
  match read_error f with
  | None => check_line <$> lines (contents f)
  | Some e =>
      ((check_line <$> (strip_cr <$> removelast (split_char NL (contents f)))) ++ [Err e])%list
  end.

Fixpoint parse_lines (ls : list (Result string string)) (m : gmap string string)
  : Result (gmap string string) PoolError :=
  match ls with
  | [] => Ok m
  | Err e :: _ => Err (Io "read meta line" e)
  | Ok line :: rest =>
      let line := trim line in
      if str_is_empty line || starts_with "#" line then parse_lines rest m
      else match split_once (ch 61) line with
           | None => Err (BadMeta ("missing `=` in " +:+ debug_str line))
           | Some (k, v) => parse_lines rest (<[trim k := trim v]> m)
           end
  end.

Definition get_key (m : gmap string string) (k : string) : Result string PoolError :=
  ok_or (m !! k) (BadMeta ("missing key `" +:+ k +:+ "`")).

Definition parse_key (m : gmap string string) (ty : string) (max : Z) (k : string) : Result Z PoolError :=
  let? s := get_key m k in
  map_err (fun e => BadMeta ("`" +:+ k +:+ "` not " +:+ ty +:+ ": " +:+ parse_int_error e))
    (parse_uint max s).

Definition meta_of_map (m : gmap string string) : Result PoolMeta PoolError :=
  let? flavor := match m !! "flavor" with Some s => flavor_from_str s | None => Ok Agent end in
  let? kernel := get_key m "kernel" in
  let? pristine := get_key m "pristine" in
  let? save := get_key m "save" in
  let? slots := parse_key m "u32" u32_max "slots" in
  let? cpus := parse_key m "u32" u32_max "cpus" in
  let? memory_mib := parse_key m "u64" u64_max "memory_mib" in
  Ok {| m_kernel := kernel; m_initramfs := m !! "initramfs"; m_pristine := pristine; m_save := save;
        m_slots := slots; m_cpus := cpus; m_memory_mib := memory_mib; m_flavor := flavor |}.

Definition meta_parse (f : FileData) : Result PoolMeta PoolError :=
  let? m := parse_lines (read_lines f) ∅ in meta_of_map m.

(** ** Operations *)

Definition matches (p : Pool) (s : PoolMatchSpec) : bool :=
  String.eqb (m_kernel (meta p)) (spec_kernel s) && String.eqb (m_pristine (meta p)) (spec_rootfs s)
  && (m_cpus (meta p) =? spec_vcpu_count s) && (m_memory_mib (meta p) =? spec_memory s).

Definition slot_dir (d : string) (i : Z) : string := path_join d ("slot-" +:+ to_dec i).
Definition lock_of (slot_path : string) : string := path_join slot_path "lock".

Section Ops.
Context {W : Type} `{Outside W} {S : Type}.

Definition clone_file (src dst : string) : M W S PoolError unit :=
  let! st := ask (CpClone src dst) in
  let! status := lift (map_err (Io "spawn cp") st) in
  if status =? 0 then ret tt else fail (CpFailed status).

Definition PoolMeta_write (m : PoolMeta) (path : string) : M W S PoolError unit :=
  let! f := ask (CreateFile path) in
  do! lift (map_err (Io "write meta") f) in
  let! r := ask (WriteFile path (meta_text m)) in
  lift (map_err (Io "write meta body") r).

Definition PoolMeta_read (path : string) : M W S PoolError PoolMeta :=
  let! r := ask (ReadFile path) in
  let! f := lift (map_err (Io "open meta") r) in
  lift (meta_parse f).

Definition canonicalize_or {E} (p : string) : M W S E string :=
  let! r := ask (Canonicalize p) in
  ret (match r with Ok q => q | Err _ => p end).

(** [PoolMatchSpec::canonicalize]. *)
Definition canonicalize_spec {E} (s : PoolMatchSpec) : M W S E PoolMatchSpec :=
  let! k := canonicalize_or (spec_kernel s) in
  let! r := canonicalize_or (spec_rootfs s) in
  ret {| spec_kernel := k; spec_rootfs := r; spec_vcpu_count := spec_vcpu_count s;
         spec_memory := spec_memory s |}.

(** The slot directories, each holding a lock file. *)
Fixpoint create_slots (d : string) (i : Z) (n : nat) : M W S PoolError unit :=
  match n with
  | O => ret tt
  | Datatypes.S n' =>
      let! r := ask (CreateDir (slot_dir d i)) in
      do! lift (map_err (Io "create slot dir") r) in
      let! r := ask (CreateFile (lock_of (slot_dir d i))) in
      do! lift (map_err (Io "create slot lock") r) in
      create_slots d (i + 1) n'
  end.

Definition warm_up (args : PoolInit) (d pristine save : string) (cpus memory_mib : Z)
  : M W S PoolError unit :=
  match pi_flavor args with
  | Agent =>
      match pi_initramfs args with
      | Some initramfs =>
          with_err VmSave
            (vz_exec_snapshot_save (pi_kernel args) initramfs pristine save None cpus memory_mib)
      | None => fail (BadMeta "Agent flavor requires an initramfs")
      end
  | StockInit =>
      with_err VmSave
        (vz_snapshot_save (pi_kernel args) pristine (path_join d "save.log") save cpus memory_mib
           (pi_settle_seconds args))
  end.

Definition init (args : PoolInit) : M W S PoolError Pool :=
  let! there := ask (PathExists (pi_dir args)) in
  if there then fail (AlreadyExists (pi_dir args)) else
  if pi_slots args =? 0 then fail InvalidSize else
  if bool_decide (pi_flavor args = Agent) && bool_decide (pi_initramfs args = None)
  then fail (BadMeta "Agent flavor requires an initramfs") else
  let! r := ask (CreateDirAll (pi_dir args)) in
  do! lift (map_err (Io "create pool dir") r) in
  let! r := ask (Canonicalize (pi_dir args)) in
  let! d := lift (map_err (Io "canonicalize pool dir") r) in
  let pristine := path_join d "pristine.ext4" in
  let save := path_join d "save.bin" in
  let cpus := if pi_cpus args =? 0 then DEFAULT_CPUS else pi_cpus args in
  let memory_mib := if pi_memory_mib args =? 0 then DEFAULT_MEMORY_MIB else pi_memory_mib args in
  do! clone_file (pi_rootfs_source args) pristine in
  do! warm_up args d pristine save cpus memory_mib in
  do! create_slots d 0 (Z.to_nat (pi_slots args)) in
  let! kernel := canonicalize_or (pi_kernel args) in
  let! initramfs := match pi_initramfs args with
                    | None => ret None
                    | Some p => let! q := canonicalize_or p in ret (Some q)
                    end in
  let m := {| m_kernel := kernel; m_initramfs := initramfs; m_pristine := pristine; m_save := save;
              m_slots := pi_slots args; m_cpus := cpus; m_memory_mib := memory_mib;
              m_flavor := pi_flavor args |} in
  do! PoolMeta_write m (path_join d "meta") in
  ret {| dir := d; meta := m |}.

Definition open (d : string) : M W S PoolError Pool :=
  let! r := ask (Canonicalize d) in
  let! d := lift (map_err (Io "canonicalize pool dir") r) in
  let! there := ask (PathExists (path_join d "meta")) in
  if negb there then fail (NotAPool d) else
  let! m := PoolMeta_read (path_join d "meta") in
  ret {| dir := d; meta := m |}.

(** The loop of [try_claim_slot] from slot [i], [n] slots to go. *)
Fixpoint claim_from (d : string) (i : Z) (n : nat) : M W S PoolError (option ClaimedSlot) :=
  match n with
  | O => ret None
  | Datatypes.S n' =>
      let slot_path := slot_dir d i in
      let lock_path := lock_of slot_path in
      let! r := ask (OpenLock lock_path) in
      do! lift (map_err (Io "open slot lock") r) in
      let! a := ask (Flock lock_path) in
      match a with
      | Locked => ret (Some {| slot_index := i; slot_path := slot_path;
                               slot_rootfs := path_join slot_path "rootfs.ext4" |})
      | WouldBlock => claim_from d (i + 1) n'
      | FlockFailed errno => fail (FlockErrno i errno)
      end
  end.
Definition try_claim_slot (p : Pool) : M W S PoolError (option ClaimedSlot) :=
  claim_from (dir p) 0 (Z.to_nat (m_slots (meta p))).

Definition try_claim_matching_slot (p : Pool) (s : PoolMatchSpec) : M W S PoolError (option ClaimedSlot) :=
  if negb (matches p s) then ret None else try_claim_slot p.

Fixpoint stats_from (d : string) (i : Z) (n : nat) : M W S PoolError (list SlotState) :=
  match n with
  | O => ret []
  | Datatypes.S n' =>
      let lock_path := lock_of (slot_dir d i) in
      let! has_rootfs := ask (PathExists (path_join (slot_dir d i) "rootfs.ext4")) in
      let! r := ask (OpenLock lock_path) in
      do! lift (map_err (Io "open slot lock for stats") r) in
      let! a := ask (Flock lock_path) in
      let! busy := match a with
                   | Locked => do! ask (Unlock lock_path) in ret false
                   | WouldBlock => ret true
                   | FlockFailed errno => fail (FlockErrno i errno)
                   end in
      let! rest := stats_from d (i + 1) n' in
      ret ({| st_index := i; st_busy := busy; st_has_rootfs := has_rootfs |} :: rest)
  end.
Definition stats (p : Pool) : M W S PoolError (list SlotState) :=
  stats_from (dir p) 0 (Z.to_nat (m_slots (meta p))).

Definition run (p : Pool) (slot : ClaimedSlot) (command : string) : M W S PoolError Z :=
  if negb (bool_decide (m_flavor (meta p) = Agent))
  then fail (WrongFlavor "run" (m_flavor (meta p)) Agent) else
  let! initramfs := lift (ok_or (m_initramfs (meta p)) (BadMeta "Agent flavor missing initramfs")) in
  do! clone_file (m_pristine (meta p)) (slot_rootfs slot) in
  let! log := ask (EnvVar "HEPHAESTUS_POOL_LOG") in
  let! result := attempt (vz_exec_snapshot_restore (m_kernel (meta p)) initramfs (slot_rootfs slot)
                            (m_save (meta p)) command log (m_cpus (meta p)) (m_memory_mib (meta p))) in
  do! ask (RemoveFile (slot_rootfs slot)) in
  lift (match result with Ok (code, _) => Ok code | Err e => Err (VmRestore e) end).

Definition restore_into_vm (p : Pool) (slot : ClaimedSlot) (log : option string)
  : M W S PoolError (Handle * PoolRestoreBreakdown) :=
  let! clone_start := ask InstantNow in
  do! clone_file (m_pristine (meta p)) (slot_rootfs slot) in
  let! nanos := ask (ElapsedNanos clone_start) in
  let clone_nanos := if nanos <=? u64_max then nanos else u64_max in
  let! result :=
    match m_flavor (meta p) with
    | Agent =>
        let! initramfs := lift (ok_or (m_initramfs (meta p)) (BadMeta "Agent flavor missing initramfs")) in
        attempt (vz_pool_restore_long (m_kernel (meta p)) initramfs (slot_rootfs slot) (m_save (meta p))
                   log (m_cpus (meta p)) (m_memory_mib (meta p)))
    | StockInit =>
        attempt (vz_stock_pool_restore_long (m_kernel (meta p)) (slot_rootfs slot) (m_save (meta p))
                   log (m_cpus (meta p)) (m_memory_mib (meta p)))
    end in
  match result with
  | Ok (vm, vz) => ret (vm, {| clone_nanos := clone_nanos; vz := vz |})
  | Err err => do! ask (RemoveFile (slot_rootfs slot)) in fail (VmRestore err)
  end.

Definition destroy (d : string) : M W S PoolError unit :=
  let! there := ask (PathExists d) in
  if negb there then ret tt else
  let! r := ask (RemoveDirAll d) in
  lift (map_err (Io "remove pool dir") r).

(** [Drop for ClaimedSlot], then the drop of its lock. *)
Definition drop_slot {E} (slot : ClaimedSlot) : M W S E unit :=
  do! ask (RemoveFile (slot_rootfs slot)) in
  ask (Unlock (lock_of (slot_path slot))).
End Ops.

(** A number of the metadata file fits its type. *)
Lemma parse_key_range m ty max k v : 0 <= max -> parse_key m ty max k = Ok v -> 0 <= v <= max.
Proof.
  intros Hm. unfold parse_key. destruct (get_key m k) as [s|]; cbn; [|done].
  destruct (parse_uint max s) as [n|] eqn:En; cbn; [|done]. intros [= <-]. by eapply parse_uint_range.
Qed.

(** ** The metadata file round trip *)

(** A path the line format keeps: UTF-8, on one line, without white space at
    its ends. *)
Definition clean_path (p : string) : bool :=
  utf8_valid p && negb (contains_char NL p) && bool_decide (trim p = p).

Definition wf_meta (m : PoolMeta) : Prop :=
  clean_path (m_kernel m) = true /\ clean_path (m_pristine m) = true /\ clean_path (m_save m) = true /\
  (forall p, m_initramfs m = Some p -> clean_path p = true) /\
  u32_range (m_slots m) /\ u32_range (m_cpus m) /\ u64_range (m_memory_mib m).

Lemma utf8_valid_cons a s : (byte_of a <? 128) = true -> utf8_valid (String a s) = utf8_valid s.
Proof. intros Ha. unfold utf8_valid. simpl. unfold utf8_step. by rewrite Ha. Qed.

Lemma utf8_valid_app p s :
  str_forall (fun a => byte_of a <? 128) p = true -> utf8_valid (p +:+ s) = utf8_valid s.
Proof.
  induction p as [|a p IH]; [done|]. simpl. rewrite andb_true_iff. intros [Ha Hp].
  by rewrite utf8_valid_cons, IH.
Qed.

Lemma clean_path_spec p :
  clean_path p = true <-> utf8_valid p = true /\ contains_char NL p = false /\ trim p = p.
Proof.
  unfold clean_path. rewrite !andb_true_iff, negb_true_iff, bool_decide_eq_true. tauto.
Qed.

Lemma clean_digits z : 0 <= z -> clean_path (to_dec z) = true.
Proof.
  intros Hz%to_dec_digits. apply clean_path_spec. split_and!.
  - apply ascii_valid. eapply str_forall_impl; [|exact Hz]. intros a Ha.
    unfold is_ascii_digit, char_in_range in Ha. lia.
  - by eapply digits_no_char; [|exact Hz].
  - by apply trim_no_lead, digits_no_lead.
Qed.

(** The keys of the file. *)
Definition key_ok (k : string) : bool :=
  negb (str_is_empty k) && negb (contains_char (ch 61) k) && negb (contains_char NL k)
  && negb (starts_with "#" k) && str_forall (fun a => negb (ws_lead a)) k
  && str_forall (fun a => byte_of a <? 128) k.

Definition kv (k v : string) : string := k +:+ String (ch 61) v.

Ltac key_facts H :=
  unfold key_ok in H; rewrite !andb_true_iff, !negb_true_iff in H;
  destruct H as (((((Hne & Heq) & Hnl) & Hhash) & Hlead) & Hascii).

(** A line [key=value] is read as it was written. *)
Lemma read_kv k v : key_ok k = true -> clean_path v = true ->
  contains_char NL (kv k v) = false /\ check_line (strip_cr (kv k v)) = Ok (kv k v) /\
  forall rest m, parse_lines (Ok (kv k v) :: rest) m = parse_lines rest (<[k := v]> m).
Proof.
  intros Hk Hv. key_facts Hk. apply clean_path_spec in Hv as (Hu & Hnlv & Ht).
  assert (Hkne : k <> "") by (by destruct k).
  pose proof (trim_key_value k v Hkne Hlead Ht) as Htrim. unfold kv. split_and!.
  - rewrite contains_char_app. simpl. by rewrite Hnl, Hnlv.
  - rewrite trim_end_strip_cr by (by apply trimmed_end). unfold check_line.
    rewrite utf8_valid_app by done. by rewrite utf8_valid_cons, Hu.
  - intros rest m. cbn [parse_lines]. rewrite Htrim.
    assert (He : str_is_empty (k +:+ String (ch 61) v) = false) by (by destruct k).
    assert (Hh : starts_with "#" (k +:+ String (ch 61) v) = false).
    { destruct k as [|a k]; [done|]. rewrite starts_with_char in Hhash. cbn [String.append].
      by rewrite starts_with_char. }
    rewrite He, Hh. simpl. rewrite split_once_app by done. rewrite Ht.
    by rewrite trim_no_lead.
Qed.

(** A file of such lines is read as the list of its entries. *)
Lemma read_entries (es : list (string * string)) :
  Forall (fun e => key_ok e.1 = true /\ clean_path e.2 = true) es ->
  parse_lines (read_lines {| contents := unlines ((fun e => kv e.1 e.2) <$> es); read_error := None |}) ∅
  = Ok (foldl (fun m e => <[e.1 := e.2]> m) ∅ es).
Proof.
  intros Hes. unfold read_lines. simpl.
  rewrite lines_unlines.
  2:{ apply Forall_fmap. eapply Forall_impl; [exact Hes|]. intros [k v] [Hk Hv]. by apply read_kv. }
  generalize (∅ : gmap string string). induction Hes as [|[k v] es [Hk Hv] Hes IH]; intros m; [done|].
  cbn [fmap list_fmap fst snd]. destruct (read_kv k v Hk Hv) as (_ & Hc & Hp).
  rewrite Hc, Hp. cbn [foldl fst snd]. apply IH.
Qed.

(** The entries of a metadata file. *)
Definition meta_entries (m : PoolMeta) : list (string * string) :=
  ([("kernel", m_kernel m)] ++
   match m_initramfs m with Some p => [("initramfs", p)] | None => [] end ++
   [("pristine", m_pristine m); ("save", m_save m); ("slots", to_dec (m_slots m));
    ("cpus", to_dec (m_cpus m)); ("memory_mib", to_dec (m_memory_mib m));
    ("flavor", flavor_str (m_flavor m))])%list.

Lemma clean_lossy p : clean_path p = true -> from_utf8_lossy p = p.
Proof. rewrite clean_path_spec. intros (Hu & _). by apply lossy_valid. Qed.

Lemma meta_lines_entries m : wf_meta m -> meta_lines m = (fun e => kv e.1 e.2) <$> meta_entries m.
Proof.
  intros (Hk & Hp & Hs & Hi & _). unfold meta_lines, meta_entries.
  rewrite !clean_lossy by done. destruct (m_initramfs m) as [p|]; [|done].
  by rewrite (clean_lossy p) by auto.
Qed.

Lemma meta_entries_ok m :
  wf_meta m -> Forall (fun e => key_ok e.1 = true /\ clean_path e.2 = true) (meta_entries m).
Proof.
  intros (Hk & Hp & Hs & Hi & Hsl & Hc & Hm). unfold u32_range, u64_range in *.
  unfold meta_entries. destruct (m_initramfs m) as [p|];
    repeat constructor; simpl; auto; try (apply clean_digits; lia); by destruct (m_flavor m).
Qed.

Lemma meta_of_entries m :
  wf_meta m -> meta_of_map (foldl (fun m e => <[e.1 := e.2]> m) ∅ (meta_entries m)) = Ok m.
Proof.
  intros (_ & _ & _ & _ & Hsl & Hc & Hm). unfold u32_range, u64_range in *.
  unfold meta_of_map, parse_key, get_key, meta_entries.
  destruct m as [k i p s sl c me f]; simpl in *; destruct i as [i|]; simpl;
    simplify_map_eq; simpl; rewrite !parse_to_dec by lia; by destruct f.
Qed.

(** The pool's metadata file is read back as it was written, for every
    metadata whose paths fit the line format and whose numbers fit their
    types: a pool opened later is the pool that was initialised. *)
Theorem meta_roundtrip m :
  wf_meta m -> meta_parse {| contents := meta_text m; read_error := None |} = Ok m.
Proof.
  intros Hm. unfold meta_parse, meta_text. rewrite meta_lines_entries by done.
  rewrite read_entries by (by apply meta_entries_ok). simpl. by apply meta_of_entries.
Qed.

Lemma meta_roundtrip_witness :
  let m := {| m_kernel := "/k/vmlinux"; m_initramfs := Some "/k/agent.cpio.gz";
              m_pristine := "/pool/pristine.ext4"; m_save := "/pool/save.bin"; m_slots := 4;
              m_cpus := 2; m_memory_mib := 512; m_flavor := Agent |} in
  meta_parse {| contents := meta_text m; read_error := None |} = Ok m.
Proof.
  apply meta_roundtrip. unfold wf_meta. split_and!; try reflexivity;
    try (split; vm_compute; congruence). intros p Hp. simpl in Hp. injection Hp as <-. reflexivity.
Defined.

(** ** Claiming a slot *)

(** The calls made for slot [i] when its lock answers [a]. *)
Definition probe (d : string) (i : Z) (a : FlockAnswer) : Trace :=
  [Ev (OpenLock (lock_of (slot_dir d i))) (Ok tt); Ev (Flock (lock_of (slot_dir d i))) a].

(** [k] busy slots from [i]. *)
Fixpoint busy_probes (d : string) (i : Z) (k : nat) : Trace :=
  match k with
  | O => []
  | S k' => (probe d i WouldBlock ++ busy_probes d (i + 1) k')%list
  end.

Definition slot_at (d : string) (i : Z) : ClaimedSlot :=
  {| slot_index := i; slot_path := slot_dir d i; slot_rootfs := path_join (slot_dir d i) "rootfs.ext4" |}.

(** What a walk over slots [i], [i+1], ... ([n] of them) may end in after
    [k] busy ones, with the calls made after those. *)
Definition claim_outcome (d : string) (i : Z) (n k : nat)
  (r : Result (option ClaimedSlot) PoolError) (tail : Trace) : Prop :=
  let j := i + Z.of_nat k in
  match r with
  | Ok (Some slot) => (k < n)%nat /\ slot = slot_at d j /\ tail = probe d j Locked
  | Ok None => k = n /\ tail = []
  | Err (Io ctx e) => (k < n)%nat /\ ctx = "open slot lock" /\
                      tail = [Ev (OpenLock (lock_of (slot_dir d j))) (Err e)]
  | Err (FlockErrno j' e) => (k < n)%nat /\ j' = j /\ tail = probe d j (FlockFailed e)
  | Err _ => False
  end.

Lemma claim_outcome_next d i n k r tail :
  claim_outcome d (i + 1) n k r tail -> claim_outcome d i (S n) (S k) r tail.
Proof.
  unfold claim_outcome. replace (i + 1 + Z.of_nat k) with (i + Z.of_nat (S k)) by lia.
  destruct r as [[slot|]|[]]; naive_solver lia.
Qed.

Lemma claim_from_spec {W S} `{Outside W} d i n (s : S) (w : W) :
  wp (claim_from d i n)
    (fun r s' _ t => s' = s /\
       exists k tail, t = (busy_probes d i k ++ tail)%list /\ claim_outcome d i n k r tail) s w.
Proof.
  revert i w. induction n as [|n IH]; intros i w; cbn [claim_from];
    [wp_run; split; [done|]; by exists 0%nat, []|].
  do 4 wp_step. destruct a as [[]|e]; cbn [map_err].
  2:{ split; [done|]. exists 0%nat. eexists. split; [done|]. unfold claim_outcome. rewrite Z.add_0_r.
      split_and!; [lia|done..]. }
  do 2 wp_step. destruct a as [| |errno]; [wp_step| |wp_step].
  - split; [done|]. exists 0%nat. eexists. split; [done|]. unfold claim_outcome. rewrite Z.add_0_r.
    split_and!; [lia|done..].
  - eapply wp_mono; [apply IH|]. intros r s1 w1 t (-> & k & tail & -> & Hk). split; [done|].
    exists (Datatypes.S k), tail. split; [done|]. by apply claim_outcome_next.
  - split; [done|]. exists 0%nat. eexists. split; [done|]. unfold claim_outcome. rewrite Z.add_0_r.
    split_and!; [lia|done..].
Qed.

(** Claiming walks the slots in order.  Every slot before the one
    reached was open but locked by another process; the walk ends with the
    first slot whose lock is granted, with no slot when every one is taken,
    or with the first error, and no other call is made. *)
Theorem try_claim_slot_first_free {W S} `{Outside W} (p : Pool) (s : S) (w : W) :
  wp (try_claim_slot p)
    (fun r s' _ t => s' = s /\ exists k tail,
       t = (busy_probes (dir p) 0 k ++ tail)%list /\
       claim_outcome (dir p) 0 (Z.to_nat (m_slots (meta p))) k r tail) s w.
Proof. apply claim_from_spec. Qed.

(** ** Exclusive claims *)

(** What [flock] promises about the locks of the modelled processes: a lock
    is granted only when none of them holds it, and only [Flock] and
    [Unlock] change the holders. *)
Definition lock_call {A} (c : Call A) : bool :=
  match c with Flock _ | Unlock _ => true | _ => false end.

Class FlockTable (W : Type) `{Outside W} := {
  held : W -> string -> Prop;
  flock_granted p w w' : call (Flock p) w = (Locked, w') ->
    ~ held w p /\ forall q, held w' q <-> q = p \/ held w q;
  flock_refused p w a w' : call (Flock p) w = (a, w') -> a <> Locked ->
    forall q, held w' q <-> held w q;
  unlock_frees p w u w' : call (Unlock p) w = (u, w') -> forall q, held w' q <-> q <> p /\ held w q;
  other_calls A (c : Call A) w a w' : call c w = (a, w') -> lock_call c = false ->
    forall q, held w' q <-> held w q }.

(** The claims of any number of processes on one pool: a process claims a
    slot, fails to, drops one it has, or asks for the statistics. *)
Inductive pool_reach {W} `{FlockTable W} (p : Pool) : W -> list ClaimedSlot -> Prop :=
| reach_start w : (forall q, ~ held w q) -> pool_reach p w []
| reach_claim w cs slot w' t :
    pool_reach p w cs -> try_claim_slot p tt w = (Ok (Some slot), tt, w', t) ->
    pool_reach p w' (slot :: cs)
| reach_no_claim w cs r w' t :
    pool_reach p w cs -> try_claim_slot p tt w = (r, tt, w', t) ->
    (forall slot, r <> Ok (Some slot)) -> pool_reach p w' cs
| reach_drop w cs1 slot cs2 w' t :
    pool_reach p w (cs1 ++ slot :: cs2) ->
    drop_slot (E := PoolError) slot tt w = (Ok tt, tt, w', t) -> pool_reach p w' (cs1 ++ cs2)
| reach_stats w cs r w' t :
    pool_reach p w cs -> stats p tt w = (r, tt, w', t) -> pool_reach p w' cs.

Section Exclusive.
Context {W : Type} `{FlockTable W}.
Implicit Types (w : W).

Lemma claim_from_held d i n w :
  wp (claim_from (S := unit) d i n)
    (fun r _ w' _ => match r with
       | Ok (Some slot) => slot = slot_at d (slot_index slot) /\
           ~ held w (lock_of (slot_path slot)) /\
           forall q, held w' q <-> q = lock_of (slot_path slot) \/ held w q
       | _ => forall q, held w' q <-> held w q
       end) tt w.
Proof.
  revert i w. induction n as [|n IH]; intros i w; cbn [claim_from]; [by wp_run|].
  wp_step. apply wp_ask. intros o w1 Ho. pose proof (other_calls _ _ _ _ _ Ho eq_refl) as H1.
  do 2 wp_step. destruct o as [[]|e]; cbn [map_err]; [|done].
  wp_step. apply wp_ask. intros a w2 Ha. destruct a as [| |errno].
  - wp_step. apply flock_granted in Ha as [Hn Hh]. simpl. split; [done|].
    setoid_rewrite Hh. setoid_rewrite <- H1. done.
  - eapply wp_mono; [apply IH|]. intros r s3 w3 t3 Hr.
    pose proof (flock_refused _ _ _ _ Ha ltac:(done)) as H2.
    destruct r as [[slot|]|]; setoid_rewrite H2 in Hr; setoid_rewrite H1 in Hr; done.
  - wp_step. pose proof (flock_refused _ _ _ _ Ha ltac:(done)) as H2.
    intros q. by rewrite H2, H1.
Qed.

Lemma stats_from_held d i n w :
  wp (stats_from (S := unit) d i n) (fun _ _ w' _ => forall q, held w' q <-> held w q) tt w.
Proof.
  revert i w. induction n as [|n IH]; intros i w; cbn [stats_from]; [by wp_run|].
  wp_step. apply wp_ask. intros e w0 He. pose proof (other_calls _ _ _ _ _ He eq_refl) as H0'.
  wp_step. apply wp_ask. intros o w1 Ho. pose proof (other_calls _ _ _ _ _ Ho eq_refl) as H1.
  do 2 wp_step. destruct o as [[]|err]; cbn [map_err]; [|intros q; by rewrite H1].
  wp_step. apply wp_ask. intros a w2 Ha. wp_step.
  assert (Hrest : forall busy w3, (forall q, held w3 q <-> held w q) ->
            wp (let! rest := stats_from d (i + 1) n in
                ret ({| st_index := i; st_busy := busy; st_has_rootfs := e |} :: rest))
               (fun _ (_ : unit) w' _ => forall q, held w' q <-> held w q) tt w3).
  { intros busy w3 H3. wp_step. eapply wp_mono; [apply IH|]. intros r s4 w4 t4 H4.
    destruct r; [wp_step|]; intros q; by rewrite H4. }
  destruct a as [| |errno].
  - wp_step. apply wp_ask. intros u w3 Hu. apply flock_granted in Ha as [Hn Hh].
    pose proof (unlock_frees _ _ _ _ Hu) as H3. wp_step. apply Hrest.
    intros q. rewrite H3, Hh, <- H0', <- H1.
    destruct (decide (q = lock_of (slot_dir d i))); subst; naive_solver.
  - wp_step. pose proof (flock_refused _ _ _ _ Ha ltac:(done)) as H2. apply Hrest.
    intros q. by rewrite H2, H1.
  - wp_step. pose proof (flock_refused _ _ _ _ Ha ltac:(done)) as H2. intros q. by rewrite H2, H1.
Qed.
End Exclusive.

Definition locks (cs : list ClaimedSlot) : list string := (fun c => lock_of (slot_path c)) <$> cs.

Lemma pool_reach_inv {W} `{FlockTable W} p (w : W) cs :
  pool_reach p w cs ->
  Forall (fun c => c = slot_at (dir p) (slot_index c)) cs /\ NoDup (locks cs) /\
  forall q, held w q <-> q ∈ locks cs.
Proof.
  induction 1 as [w Hw|w cs slot w' t _ (IHf & IHn & IHh) E|w cs r w' t _ (IHf & IHn & IHh) E Hr
                 |w cs1 slot cs2 w' t _ (IHf & IHn & IHh) E|w cs r w' t _ (IHf & IHn & IHh) E].
  - split_and!; [constructor..|]. intros q. rewrite elem_of_nil. naive_solver.
  - pose proof (wp_result _ _ _ _ _ _ _ _ (claim_from_held _ _ _ _) E) as (Hs & Hn & Hh).
    split_and!; [by constructor| |].
    + simpl. constructor; [by rewrite <- IHh|done].
    + intros q. rewrite Hh, IHh. simpl. by rewrite elem_of_cons.
  - pose proof (wp_result _ _ _ _ _ _ _ _ (claim_from_held _ _ _ _) E) as Hh.
    destruct r as [[slot|]|]; [by edestruct Hr| |];
      (split_and!; [done..|]; intros q; by rewrite Hh, IHh).
  - apply Forall_app in IHf as [Hf1 [Hf2 Hf3]%Forall_cons].
    unfold locks in *. rewrite fmap_app in IHn, IHh. simpl in IHn, IHh.
    apply NoDup_app in IHn as (Hn1 & Hn2 & Hn3). apply NoDup_cons in Hn3 as [Hn3 Hn4].
    assert (Hh : forall q, held w' q <-> q <> lock_of (slot_path slot) /\ held w q).
    { eapply (wp_result _ (fun _ _ w' _ => forall q, held w' q <-> _) _ _ _ _ _ _); [|exact E].
      unfold drop_slot. wp_step. apply wp_ask. intros o w1 Ho. apply wp_ask. intros u w2 Hu q.
      rewrite (unlock_frees _ _ _ _ Hu q). by rewrite (other_calls _ _ _ _ _ Ho eq_refl q). }
    split_and!; [by apply Forall_app| |].
    + rewrite fmap_app. apply NoDup_app. split_and!; [done| |done]. intros x Hx Hx'.
      apply (Hn2 x Hx). by apply elem_of_cons; right.
    + intros q. rewrite Hh, IHh, fmap_app, !elem_of_app, elem_of_cons.
      specialize (Hn2 q). set_solver.
  - pose proof (wp_result _ _ _ _ _ _ _ _ (stats_from_held _ _ _ _) E) as Hh.
    simpl in Hh. split_and!; [done..|]. intros q. by rewrite Hh, IHh.
Qed.

(** C31: However many processes claim, release and inspect the slots of a
    pool, no slot is ever held by two claims at once. *)
Theorem claims_exclusive {W} `{FlockTable W} p (w : W) cs :
  pool_reach p w cs -> NoDup (slot_index <$> cs).
Proof.
  intros (Hf & Hn & _)%pool_reach_inv. apply (NoDup_fmap_1 (fun i => lock_of (slot_dir (dir p) i))).
  rewrite <- list_fmap_compose. unfold locks in Hn. erewrite list_fmap_ext; [exact Hn|].
  intros i c Hc. rewrite Forall_lookup in Hf. simpl. by rewrite (Hf i c Hc).
Qed.

(** A lock table for concrete runs: the set of held locks. *)
Definition lock_world : Outside (gset string) := fun A c w =>
  match c in Call A return (A -> A * gset string) with
  | Flock p => fun _ => if decide (p ∈ w) then (WouldBlock, w) else (Locked, {[p]} ∪ w)
  | Unlock p => fun _ => (tt, w ∖ {[p]})
  | _ => fun a => (a, w)
  end (calm_answer c).

#[local] Instance lock_table : @FlockTable (gset string) lock_world.
Proof.
  refine {| held := fun (w : gset string) p => p ∈ w |}; unfold call, lock_world.
  - intros p w w' Hc. case_decide; simplify_eq. set_solver.
  - intros p w a w' Hc Ha. case_decide; simplify_eq. done.
  - intros p w u w' Hc. simplify_eq. set_solver.
  - intros A c w a w' Hc Hl. by destruct c; simplify_eq/=.
Defined.

Lemma claims_exclusive_witness :
  let p := {| dir := "/p"; meta := {| m_kernel := "/k"; m_initramfs := None; m_pristine := "/p/r";
                m_save := "/p/s"; m_slots := 2; m_cpus := 2; m_memory_mib := 512;
                m_flavor := StockInit |} |} in
  NoDup (slot_index <$> [slot_at "/p" 1; slot_at "/p" 0]).
Proof.
  intros p.
  eapply (@claims_exclusive (gset string) lock_world lock_table p
            ({["/p/slot-1/lock"]} ∪ ({["/p/slot-0/lock"]} ∪ ∅))).
  eapply (reach_claim p ({["/p/slot-0/lock"]} ∪ ∅)); [|vm_compute; reflexivity].
  eapply (reach_claim p ∅); [|vm_compute; reflexivity].
  apply reach_start. intros q Hq. simpl in Hq. set_solver.
Defined.

(** ** Restoring, releasing, initialising *)

(** A restore that fails in the framework leaves the slot ready: the
    last call made removes the rootfs clone, and dropping a claimed slot
    removes the clone before it releases the lock. *)
Theorem restore_failure_cleans {W} `{Outside W} (p : Pool) (slot : ClaimedSlot) log (u : unit) (w : W) :
  wp (restore_into_vm p slot log)
    (fun r _ _ t => match r with
       | Err (VmRestore _) => exists t' a, t = (t' ++ [Ev (RemoveFile (slot_rootfs slot)) a])%list
       | _ => True
       end) u w /\
  wp (drop_slot (E := PoolError) slot)
    (fun r _ _ t => exists a b, r = Ok tt /\
       t = [Ev (RemoveFile (slot_rootfs slot)) a; Ev (Unlock (lock_of (slot_path slot))) b]) u w.
Proof.
  split; [|unfold drop_slot; do 3 wp_step; destruct a0; by eexists _, _].
  assert (Htail : forall (m : M W unit PoolError (Result (Handle * HbRestoreTimings) VmError)) cn w1 t0,
    wp m (fun r _ _ _ => forall e, r = Err e -> forall v, e <> VmRestore v) u w1 ->
    wp (let! result := m in
        match result with
        | Ok (vm, vz) => ret (vm, {| clone_nanos := cn; vz := vz |})
        | Err err => do! ask (RemoveFile (slot_rootfs slot)) in fail (VmRestore err)
        end) (fun r _ _ t => match r with
       | Err (VmRestore _) => exists t' a, (t0 ++ t = t' ++ [Ev (RemoveFile (slot_rootfs slot)) a])%list
       | _ => True
       end) u w1).
  { intros m cn w1 t0 Hm. wp_step. eapply wp_mono; [exact Hm|]. intros r [] w2 t1 Hr. destruct u.
    destruct r as [[[vm z]|e]|e]; [by wp_run| |].
    - do 3 wp_step. exists (t0 ++ t1)%list, a. by rewrite app_nil_r, app_assoc.
    - destruct e; try done. by destruct (Hr _ eq_refl e). }
  unfold restore_into_vm, clone_file. do 7 wp_step.
  destruct a0 as [st|e]; cbn [map_err]; [|done]. destruct (st =? 0); [|by wp_run]. do 3 wp_step.
  eapply wp_mono; [apply (Htail _ _ _ [])|]; [|intros r s5 w5 t; simpl; destruct r as [|[]]; try done].
  - destruct (m_flavor (meta p)); [|by apply wp_attempt_any]. do 2 wp_step.
    destruct (m_initramfs (meta p)); simpl; [by apply wp_attempt_any|by intros; simplify_eq].
  - intros (t' & b & ->). by eexists (_ :: _ :: _ :: t'), b.
Qed.
