(* ===== verification/Telemetry.v ===== *)
(** * Logger and metrics (hephaestus-firecracker/src/backend.rs)

    The pure part of the daemon's telemetry: log levels and the text of a
    log record, the per-endpoint request counters and their classification of
    a request, and the metrics document written at each flush. *)

From S2P Require Import Prelude RustStr Json FcApi.
Local Open Scope string_scope.
Local Open Scope Z_scope.

(** ** Log levels *)

Inductive LogLevel := LError | LWarn | LInfo | LDebug | LTrace | LOff.

(** The derived order: the order of declaration. *)
Definition level_rank (l : LogLevel) : Z :=
  match l with LError => 0 | LWarn => 1 | LInfo => 2 | LDebug => 3 | LTrace => 4 | LOff => 5 end.

Definition level_parse (value : string) : Result LogLevel VmmBackendError :=
  let v := to_ascii_lowercase value in
  if String.eqb v "error" then Ok LError
  else if String.eqb v "warn" || String.eqb v "warning" then Ok LWarn
  else if String.eqb v "info" then Ok LInfo
  else if String.eqb v "debug" then Ok LDebug
  else if String.eqb v "trace" then Ok LTrace
  else if String.eqb v "off" then Ok LOff
  else Err (InvalidConfig ("invalid logger level " +:+ debug_str v)).

Definition level_str (l : LogLevel) : string :=
  match l with
  | LError => "ERROR" | LWarn => "WARN" | LInfo => "INFO" | LDebug => "DEBUG" | LTrace => "TRACE"
  | LOff => "OFF"
  end.

Definition enabled (self record : LogLevel) : bool :=
  match self with LOff => false | _ => level_rank record <=? level_rank self end.

Record LoggerState := {
  lg_path : option string; lg_level : LogLevel; lg_show_level : bool; lg_show_log_origin : bool;
  lg_module : option string }.
Definition default_logger : LoggerState :=
  {| lg_path := None; lg_level := LInfo; lg_show_level := false; lg_show_log_origin := false;
     lg_module := None |}.

(** Whether [write_log] gets past its guards, and to which file. *)
Definition log_target (lg : LoggerState) (level : LogLevel) (origin : string) : option string :=
  if negb (enabled (lg_level lg) level) then None
  else match lg_module lg with
       | Some m => if negb (starts_with m origin) then None else lg_path lg
       | None => lg_path lg
       end.

(** The record's text; [time] is the time since the epoch in seconds and
    nanoseconds, [None] before it. *)
Definition log_record (id : string) (lg : LoggerState) (time : option (Z * Z)) (thread : option string)
  (level : LogLevel) (origin : string) (line : option Z) (message : string) : string :=
  let timestamp := match time with
                   | Some (secs, nanos) => to_dec secs +:+ "." +:+ fmt_pad0 6 (nanos / 1000)
                   | None => "0.000000"
                   end in
  let level_suffix := if lg_show_level lg then ":" +:+ level_str level else "" in
  let origin_suffix := if lg_show_log_origin lg
                       then ":" +:+ origin +:+ ":" +:+ match line with Some n => to_dec n | None => "?" end
                       else "" in
  timestamp +:+ " [" +:+ id +:+ ":" +:+ default "-" thread +:+ level_suffix +:+ origin_suffix
  +:+ "] " +:+ message +:+ nl.

(** ** Request counters *)

(** The fields of [ApiCounters]. *)
Inductive Counter :=
| KInstanceInfo | KMachineCfgGet | KMmdsGet | KVmmVersion
| KActions | KBootSource | KDrivePut | KLogger | KMachineCfgPut | KMetrics | KMmdsPut | KNetPut
| KSnapshotCreate | KSnapshotLoad
| KDrivePatch | KMachineCfgPatch | KMmdsPatch | KNetPatch | KVmPatch.

#[export] Instance Counter_eq_dec : EqDecision Counter.
Proof. solve_decision. Defined.

Definition ApiCounters : Type := Counter -> Z.
Definition no_requests : ApiCounters := fun _ => 0.

Definition bump (k : Counter) (c : ApiCounters) : ApiCounters :=
  fun k' => if decide (k' = k) then saturating_add u64_max (c k') 1 else c k'.

(** The classification [record] makes of a method and a path. *)
Definition counter_of (method path : string) : option Counter :=
  if String.eqb method "GET" then
    if String.eqb path "/" then Some KInstanceInfo
    else if String.eqb path "/machine-config" then Some KMachineCfgGet
    else if String.eqb path "/version" then Some KVmmVersion
    else if String.eqb path "/mmds" then Some KMmdsGet
    else None
  else if String.eqb method "PUT" then
    if String.eqb path "/actions" then Some KActions
    else if String.eqb path "/boot-source" then Some KBootSource
    else if String.eqb path "/logger" then Some KLogger
    else if String.eqb path "/machine-config" then Some KMachineCfgPut
    else if String.eqb path "/metrics" then Some KMetrics
    else if String.eqb path "/snapshot/create" then Some KSnapshotCreate
    else if String.eqb path "/snapshot/load" then Some KSnapshotLoad
    else if String.eqb path "/mmds" || String.eqb path "/mmds/config" then Some KMmdsPut
    else if starts_with "/drives/" path then Some KDrivePut
    else if starts_with "/network-interfaces/" path then Some KNetPut
    else None
  else if String.eqb method "PATCH" then
    if String.eqb path "/machine-config" then Some KMachineCfgPatch
    else if String.eqb path "/vm" then Some KVmPatch
    else if String.eqb path "/mmds" then Some KMmdsPatch
    else if starts_with "/drives/" path then Some KDrivePatch
    else if starts_with "/network-interfaces/" path then Some KNetPatch
    else None
  else None.

Definition record (c : ApiCounters) (method path : string) : ApiCounters :=
  match counter_of method path with Some k => bump k c | None => c end.

(** ** Metrics *)

(** [mt_file] is the open metrics file, by its path; [mt_started_at] the
    [Instant] of the daemon's start. *)
Record MetricsState := {
  mt_file : option string; mt_started_at : Z; mt_flush_count : Z; mt_api_requests : Z;
  mt_api_request_fails : Z; mt_counters : ApiCounters; mt_pool_hits : Z; mt_pool_misses : Z;
  mt_snapshot_loads : Z }.

Definition default_metrics (now : Z) : MetricsState :=
  {| mt_file := None; mt_started_at := now; mt_flush_count := 0; mt_api_requests := 0;
     mt_api_request_fails := 0; mt_counters := no_requests; mt_pool_hits := 0; mt_pool_misses := 0;
     mt_snapshot_loads := 0 |}.

Definition inc (n : Z) : Z := saturating_add u64_max n 1.

Definition with_file (f : string) (m : MetricsState) : MetricsState :=
  {| mt_file := Some f; mt_started_at := mt_started_at m; mt_flush_count := mt_flush_count m;
     mt_api_requests := mt_api_requests m; mt_api_request_fails := mt_api_request_fails m;
     mt_counters := mt_counters m; mt_pool_hits := mt_pool_hits m; mt_pool_misses := mt_pool_misses m;
     mt_snapshot_loads := mt_snapshot_loads m |}.
Definition inc_flush (m : MetricsState) : MetricsState :=
  {| mt_file := mt_file m; mt_started_at := mt_started_at m; mt_flush_count := inc (mt_flush_count m);
     mt_api_requests := mt_api_requests m; mt_api_request_fails := mt_api_request_fails m;
     mt_counters := mt_counters m; mt_pool_hits := mt_pool_hits m; mt_pool_misses := mt_pool_misses m;
     mt_snapshot_loads := mt_snapshot_loads m |}.
Definition inc_pool_hits (m : MetricsState) : MetricsState :=
  {| mt_file := mt_file m; mt_started_at := mt_started_at m; mt_flush_count := mt_flush_count m;
     mt_api_requests := mt_api_requests m; mt_api_request_fails := mt_api_request_fails m;
     mt_counters := mt_counters m; mt_pool_hits := inc (mt_pool_hits m);
     mt_pool_misses := mt_pool_misses m; mt_snapshot_loads := mt_snapshot_loads m |}.
Definition inc_pool_misses (m : MetricsState) : MetricsState :=
  {| mt_file := mt_file m; mt_started_at := mt_started_at m; mt_flush_count := mt_flush_count m;
     mt_api_requests := mt_api_requests m; mt_api_request_fails := mt_api_request_fails m;
     mt_counters := mt_counters m; mt_pool_hits := mt_pool_hits m;
     mt_pool_misses := inc (mt_pool_misses m); mt_snapshot_loads := mt_snapshot_loads m |}.
Definition inc_snapshot_loads (m : MetricsState) : MetricsState :=
  {| mt_file := mt_file m; mt_started_at := mt_started_at m; mt_flush_count := mt_flush_count m;
     mt_api_requests := mt_api_requests m; mt_api_request_fails := mt_api_request_fails m;
     mt_counters := mt_counters m; mt_pool_hits := mt_pool_hits m;
     mt_pool_misses := mt_pool_misses m; mt_snapshot_loads := inc (mt_snapshot_loads m) |}.

(** The counting half of [observe_request]. *)
Definition count_request (method path : string) (status : Z) (m : MetricsState) : MetricsState :=
  {| mt_file := mt_file m; mt_started_at := mt_started_at m; mt_flush_count := mt_flush_count m;
     mt_api_requests := inc (mt_api_requests m);
     mt_api_request_fails := if 400 <=? status then inc (mt_api_request_fails m)
                             else mt_api_request_fails m;
     mt_counters := record (mt_counters m) method path; mt_pool_hits := mt_pool_hits m;
     mt_pool_misses := mt_pool_misses m; mt_snapshot_loads := mt_snapshot_loads m |}.

Definition num (n : Z) : Value := Num (PosInt n).
(** An object literal of [json!]: its members inserted one by one. *)
Definition obj (l : list (string * Value)) : Value :=
  Object (foldl (fun m e => map_insert e.1 e.2 m) [] l).

(** The document [flush_metrics] writes. *)
Definition metrics_payload (m : MetricsState) (timestamp_ms uptime_us : Z) : Value :=
  let c := mt_counters m in
  obj
    [("utc_timestamp_ms", num timestamp_ms);
     ("api_server", obj
        [("process_startup_time_us", num uptime_us);
         ("sync_response_fails", num (mt_api_request_fails m))]);
     ("get_api_requests", obj
        [("instance_info_count", num (c KInstanceInfo));
         ("machine_cfg_count", num (c KMachineCfgGet));
         ("mmds_count", num (c KMmdsGet));
         ("vmm_version_count", num (c KVmmVersion))]);
     ("put_api_requests", obj
        [("actions_count", num (c KActions));
         ("boot_source_count", num (c KBootSource));
         ("drive_count", num (c KDrivePut));
         ("logger_count", num (c KLogger));
         ("machine_cfg_count", num (c KMachineCfgPut));
         ("metrics_count", num (c KMetrics));
         ("mmds_count", num (c KMmdsPut));
         ("net_count", num (c KNetPut));
         ("snapshot_create_count", num (c KSnapshotCreate));
         ("snapshot_load_count", num (c KSnapshotLoad))]);
     ("patch_api_requests", obj
        [("drive_count", num (c KDrivePatch));
         ("machine_cfg_count", num (c KMachineCfgPatch));
         ("mmds_count", num (c KMmdsPatch));
         ("net_count", num (c KNetPatch));
         ("vm_count", num (c KVmPatch))]);
     ("logger", obj
        [("missed_log_count", num 0);
         ("missed_metrics_count", num 0);
         ("flush_count", num (mt_flush_count m))]);
     ("vmm", obj [("panic_count", num 0)]);
     ("vcpu", obj [("exit_io_in", num 0); ("exit_io_out", num 0); ("failures", num 0)]);
     ("seccomp", obj [("num_faults", num 0)]);
     ("hephaestus", obj
        [("api_requests", num (mt_api_requests m));
         ("api_request_fails", num (mt_api_request_fails m));
         ("pool_hits", num (mt_pool_hits m));
         ("pool_misses", num (mt_pool_misses m));
         ("snapshot_loads", num (mt_snapshot_loads m))])].

(** ** Lemmas *)

(** The metrics document is a well-formed value. *)
Lemma metrics_payload_wf m t u : wf_value (metrics_payload m t u) = true.
Proof. reflexivity. Qed.

(** Counting a request changes at most one counter, by one. *)
Lemma record_one c method path k :
  record c method path k = if bool_decide (counter_of method path = Some k) then inc (c k) else c k.
Proof.
  unfold record. destruct (counter_of method path) as [k'|]; [|done].
  unfold bump. case_decide; case_bool_decide; simplify_eq; done.
Qed.

(** Counters stay machine integers. *)
Definition wf_metrics (m : MetricsState) : Prop :=
  u64_range (mt_flush_count m) /\ u64_range (mt_api_requests m) /\
  u64_range (mt_api_request_fails m) /\ (forall k, u64_range (mt_counters m k)) /\
  u64_range (mt_pool_hits m) /\ u64_range (mt_pool_misses m) /\ u64_range (mt_snapshot_loads m) /\
  mt_api_request_fails m <= mt_api_requests m.

Lemma inc_range n : u64_range n -> u64_range (inc n).
Proof. unfold u64_range, inc, saturating_add. lia. Qed.

Lemma inc_mono a b : a <= b -> inc a <= inc b.
Proof. unfold inc, saturating_add. lia. Qed.

Lemma count_request_wf method path status m :
  wf_metrics m -> wf_metrics (count_request method path status m).
Proof.
  intros (? & ? & ? & Hk & ? & ? & ? & Hle). unfold wf_metrics, count_request; simpl.
  pose proof (inc_mono _ _ Hle). split_and!; auto using inc_range.
  - destruct (400 <=? status); auto using inc_range.
  - intros k. rewrite record_one. case_bool_decide; auto using inc_range.
  - destruct (400 <=? status); [done|]. unfold inc, saturating_add, u64_range in *. lia.
Qed.

Lemma wf_metrics_default now : wf_metrics (default_metrics now).
Proof. unfold wf_metrics; simpl. unfold no_requests. repeat split; unfold u64_max; lia. Qed.

Lemma wf_metrics_step m :
  wf_metrics m -> wf_metrics (inc_flush m) /\ wf_metrics (inc_pool_hits m) /\
  wf_metrics (inc_pool_misses m) /\ wf_metrics (inc_snapshot_loads m) /\
  forall f, wf_metrics (with_file f m).
Proof.
  intros (? & ? & ? & ? & ? & ? & ? & ?). unfold wf_metrics; simpl.
  split_and!; intros; split_and?; auto using inc_range.
Qed.

(** The counts of requests, and the changes of the metrics that leave them
    alone. *)
Definition requests_of (m : MetricsState) : Z * Z * ApiCounters :=
  (mt_api_requests m, mt_api_request_fails m, mt_counters m).
Definition ticks (m m' : MetricsState) : Prop :=
  (wf_metrics m -> wf_metrics m') /\ requests_of m' = requests_of m.

#[export] Instance ticks_preorder : PreOrder ticks.
Proof.
  split; [done|]. intros m1 m2 m3 [H1 R1] [H2 R2]. split; [auto|]. by rewrite R2, R1.
Qed.

Lemma ticks_step m :
  ticks m (inc_flush m) /\ ticks m (inc_pool_hits m) /\ ticks m (inc_pool_misses m) /\
  ticks m (inc_snapshot_loads m) /\ forall f, ticks m (with_file f m).
Proof. split_and!; intros; (split; [intros; by apply wf_metrics_step|done]). Qed.
#[export] Hint Resolve wf_metrics_default count_request_wf : heph.
