(* ===== verification/BackendState.v ===== *)
(** * The state of the backend (hephaestus-firecracker/src/backend.rs)

    [VzBackend] with the structures it holds, and one setter per field.  A VM
    is held by reference counting ([Arc]): by the backend itself, by the
    vmnet responder's thread and by the vsock bridge's accept loop, each
    recorded here with the handle it holds. *)

From S2P Require Import Prelude RustStr Json World Bridge FcApi Pool Telemetry.
Export BootSource(BootSourceConfig) Net(NetworkInterfaceConfig) Machine(MachineConfig)
  Balloon(BalloonDeviceConfig).
Local Open Scope string_scope.
Local Open Scope Z_scope.

Inductive RunOrigin := ColdBoot | FromPool | SnapshotLoad.

Record ExtraDrive := { xd_id : string; xd_path : string; xd_read_only : bool }.

(** [VsockBridge]: the socket it listens on and the VM its accept loop holds. *)
Record VsockBridge := { vb_uds_path : string; vb_vm : Handle }.

(** [Arc<RwLock<Value>>]: poisoned when a writer panicked. *)
Record RwLock (A : Type) := { poisoned : bool; cell : A }.
Arguments Build_RwLock {A}. Arguments poisoned {A}. Arguments cell {A}.

(** [vmnet_mmds] is the VM the responder's thread holds. *)
Record VzBackend := {
  id : string;
  state : VmState;
  boot_source : option BootSourceConfig;
  root_drive : option string;
  root_drive_read_only : bool;
  extra_drives : list ExtraDrive;
  iface : option NetworkInterfaceConfig;
  network_mode : VzNetworkMode;
  machine_config : MachineConfig;
  mmds : Value;
  mmds_shared : RwLock Value;
  mmds_config : MmdsConfig;
  host_mmds : bool;
  balloon : option BalloonDeviceConfig;
  vsock : option VsockConfig;
  logger : LoggerState;
  metrics : MetricsState;
  vmnet_mmds : option Handle;
  vsock_bridge : option VsockBridge;
  vm : option Handle;
  pool_slot : option ClaimedSlot;
  pool : option Pool;
  origin : option RunOrigin }.
(** ** Setters *)

Definition set_state (x : VmState) (b : VzBackend) : VzBackend :=
  {| id := id b; state := x; boot_source := boot_source b; root_drive := root_drive b;
     root_drive_read_only := root_drive_read_only b; extra_drives := extra_drives b;
     iface := iface b; network_mode := network_mode b; machine_config := machine_config b;
     mmds := mmds b; mmds_shared := mmds_shared b; mmds_config := mmds_config b;
     host_mmds := host_mmds b; balloon := balloon b; vsock := vsock b; logger := logger b;
     metrics := metrics b; vmnet_mmds := vmnet_mmds b; vsock_bridge := vsock_bridge b;
     vm := vm b; pool_slot := pool_slot b; pool := pool b; origin := origin b |}.
Definition set_boot_source (x : option BootSourceConfig) (b : VzBackend) : VzBackend :=
  {| id := id b; state := state b; boot_source := x; root_drive := root_drive b;
     root_drive_read_only := root_drive_read_only b; extra_drives := extra_drives b;
     iface := iface b; network_mode := network_mode b; machine_config := machine_config b;
     mmds := mmds b; mmds_shared := mmds_shared b; mmds_config := mmds_config b;
     host_mmds := host_mmds b; balloon := balloon b; vsock := vsock b; logger := logger b;
     metrics := metrics b; vmnet_mmds := vmnet_mmds b; vsock_bridge := vsock_bridge b;
     vm := vm b; pool_slot := pool_slot b; pool := pool b; origin := origin b |}.
Definition set_root_drive (x : option string) (b : VzBackend) : VzBackend :=
  {| id := id b; state := state b; boot_source := boot_source b; root_drive := x;
     root_drive_read_only := root_drive_read_only b; extra_drives := extra_drives b;
     iface := iface b; network_mode := network_mode b; machine_config := machine_config b;
     mmds := mmds b; mmds_shared := mmds_shared b; mmds_config := mmds_config b;
     host_mmds := host_mmds b; balloon := balloon b; vsock := vsock b; logger := logger b;
     metrics := metrics b; vmnet_mmds := vmnet_mmds b; vsock_bridge := vsock_bridge b;
     vm := vm b; pool_slot := pool_slot b; pool := pool b; origin := origin b |}.
Definition set_root_drive_read_only (x : bool) (b : VzBackend) : VzBackend :=
  {| id := id b; state := state b; boot_source := boot_source b; root_drive := root_drive b;
     root_drive_read_only := x; extra_drives := extra_drives b; iface := iface b;
     network_mode := network_mode b; machine_config := machine_config b; mmds := mmds b;
     mmds_shared := mmds_shared b; mmds_config := mmds_config b; host_mmds := host_mmds b;
     balloon := balloon b; vsock := vsock b; logger := logger b; metrics := metrics b;
     vmnet_mmds := vmnet_mmds b; vsock_bridge := vsock_bridge b; vm := vm b;
     pool_slot := pool_slot b; pool := pool b; origin := origin b |}.
Definition set_extra_drives (x : list ExtraDrive) (b : VzBackend) : VzBackend :=
  {| id := id b; state := state b; boot_source := boot_source b; root_drive := root_drive b;
     root_drive_read_only := root_drive_read_only b; extra_drives := x; iface := iface b;
     network_mode := network_mode b; machine_config := machine_config b; mmds := mmds b;
     mmds_shared := mmds_shared b; mmds_config := mmds_config b; host_mmds := host_mmds b;
     balloon := balloon b; vsock := vsock b; logger := logger b; metrics := metrics b;
     vmnet_mmds := vmnet_mmds b; vsock_bridge := vsock_bridge b; vm := vm b;
     pool_slot := pool_slot b; pool := pool b; origin := origin b |}.
Definition set_iface (x : option NetworkInterfaceConfig) (b : VzBackend) : VzBackend :=
  {| id := id b; state := state b; boot_source := boot_source b; root_drive := root_drive b;
     root_drive_read_only := root_drive_read_only b; extra_drives := extra_drives b;
     iface := x; network_mode := network_mode b; machine_config := machine_config b;
     mmds := mmds b; mmds_shared := mmds_shared b; mmds_config := mmds_config b;
     host_mmds := host_mmds b; balloon := balloon b; vsock := vsock b; logger := logger b;
     metrics := metrics b; vmnet_mmds := vmnet_mmds b; vsock_bridge := vsock_bridge b;
     vm := vm b; pool_slot := pool_slot b; pool := pool b; origin := origin b |}.
Definition set_network_mode (x : VzNetworkMode) (b : VzBackend) : VzBackend :=
  {| id := id b; state := state b; boot_source := boot_source b; root_drive := root_drive b;
     root_drive_read_only := root_drive_read_only b; extra_drives := extra_drives b;
     iface := iface b; network_mode := x; machine_config := machine_config b; mmds := mmds b;
     mmds_shared := mmds_shared b; mmds_config := mmds_config b; host_mmds := host_mmds b;
     balloon := balloon b; vsock := vsock b; logger := logger b; metrics := metrics b;
     vmnet_mmds := vmnet_mmds b; vsock_bridge := vsock_bridge b; vm := vm b;
     pool_slot := pool_slot b; pool := pool b; origin := origin b |}.
Definition set_machine_config (x : MachineConfig) (b : VzBackend) : VzBackend :=
  {| id := id b; state := state b; boot_source := boot_source b; root_drive := root_drive b;
     root_drive_read_only := root_drive_read_only b; extra_drives := extra_drives b;
     iface := iface b; network_mode := network_mode b; machine_config := x; mmds := mmds b;
     mmds_shared := mmds_shared b; mmds_config := mmds_config b; host_mmds := host_mmds b;
     balloon := balloon b; vsock := vsock b; logger := logger b; metrics := metrics b;
     vmnet_mmds := vmnet_mmds b; vsock_bridge := vsock_bridge b; vm := vm b;
     pool_slot := pool_slot b; pool := pool b; origin := origin b |}.
Definition set_mmds (x : Value) (b : VzBackend) : VzBackend :=
  {| id := id b; state := state b; boot_source := boot_source b; root_drive := root_drive b;
     root_drive_read_only := root_drive_read_only b; extra_drives := extra_drives b;
     iface := iface b; network_mode := network_mode b; machine_config := machine_config b;
     mmds := x; mmds_shared := mmds_shared b; mmds_config := mmds_config b;
     host_mmds := host_mmds b; balloon := balloon b; vsock := vsock b; logger := logger b;
     metrics := metrics b; vmnet_mmds := vmnet_mmds b; vsock_bridge := vsock_bridge b;
     vm := vm b; pool_slot := pool_slot b; pool := pool b; origin := origin b |}.
Definition set_mmds_shared (x : RwLock Value) (b : VzBackend) : VzBackend :=
  {| id := id b; state := state b; boot_source := boot_source b; root_drive := root_drive b;
     root_drive_read_only := root_drive_read_only b; extra_drives := extra_drives b;
     iface := iface b; network_mode := network_mode b; machine_config := machine_config b;
     mmds := mmds b; mmds_shared := x; mmds_config := mmds_config b; host_mmds := host_mmds b;
     balloon := balloon b; vsock := vsock b; logger := logger b; metrics := metrics b;
     vmnet_mmds := vmnet_mmds b; vsock_bridge := vsock_bridge b; vm := vm b;
     pool_slot := pool_slot b; pool := pool b; origin := origin b |}.
Definition set_mmds_config (x : MmdsConfig) (b : VzBackend) : VzBackend :=
  {| id := id b; state := state b; boot_source := boot_source b; root_drive := root_drive b;
     root_drive_read_only := root_drive_read_only b; extra_drives := extra_drives b;
     iface := iface b; network_mode := network_mode b; machine_config := machine_config b;
     mmds := mmds b; mmds_shared := mmds_shared b; mmds_config := x; host_mmds := host_mmds b;
     balloon := balloon b; vsock := vsock b; logger := logger b; metrics := metrics b;
     vmnet_mmds := vmnet_mmds b; vsock_bridge := vsock_bridge b; vm := vm b;
     pool_slot := pool_slot b; pool := pool b; origin := origin b |}.
Definition set_host_mmds (x : bool) (b : VzBackend) : VzBackend :=
  {| id := id b; state := state b; boot_source := boot_source b; root_drive := root_drive b;
     root_drive_read_only := root_drive_read_only b; extra_drives := extra_drives b;
     iface := iface b; network_mode := network_mode b; machine_config := machine_config b;
     mmds := mmds b; mmds_shared := mmds_shared b; mmds_config := mmds_config b;
     host_mmds := x; balloon := balloon b; vsock := vsock b; logger := logger b;
     metrics := metrics b; vmnet_mmds := vmnet_mmds b; vsock_bridge := vsock_bridge b;
     vm := vm b; pool_slot := pool_slot b; pool := pool b; origin := origin b |}.
Definition set_balloon (x : option BalloonDeviceConfig) (b : VzBackend) : VzBackend :=
  {| id := id b; state := state b; boot_source := boot_source b; root_drive := root_drive b;
     root_drive_read_only := root_drive_read_only b; extra_drives := extra_drives b;
     iface := iface b; network_mode := network_mode b; machine_config := machine_config b;
     mmds := mmds b; mmds_shared := mmds_shared b; mmds_config := mmds_config b;
     host_mmds := host_mmds b; balloon := x; vsock := vsock b; logger := logger b;
     metrics := metrics b; vmnet_mmds := vmnet_mmds b; vsock_bridge := vsock_bridge b;
     vm := vm b; pool_slot := pool_slot b; pool := pool b; origin := origin b |}.
Definition set_vsock (x : option VsockConfig) (b : VzBackend) : VzBackend :=
  {| id := id b; state := state b; boot_source := boot_source b; root_drive := root_drive b;
     root_drive_read_only := root_drive_read_only b; extra_drives := extra_drives b;
     iface := iface b; network_mode := network_mode b; machine_config := machine_config b;
     mmds := mmds b; mmds_shared := mmds_shared b; mmds_config := mmds_config b;
     host_mmds := host_mmds b; balloon := balloon b; vsock := x; logger := logger b;
     metrics := metrics b; vmnet_mmds := vmnet_mmds b; vsock_bridge := vsock_bridge b;
     vm := vm b; pool_slot := pool_slot b; pool := pool b; origin := origin b |}.
Definition set_logger (x : LoggerState) (b : VzBackend) : VzBackend :=
  {| id := id b; state := state b; boot_source := boot_source b; root_drive := root_drive b;
     root_drive_read_only := root_drive_read_only b; extra_drives := extra_drives b;
     iface := iface b; network_mode := network_mode b; machine_config := machine_config b;
     mmds := mmds b; mmds_shared := mmds_shared b; mmds_config := mmds_config b;
     host_mmds := host_mmds b; balloon := balloon b; vsock := vsock b; logger := x;
     metrics := metrics b; vmnet_mmds := vmnet_mmds b; vsock_bridge := vsock_bridge b;
     vm := vm b; pool_slot := pool_slot b; pool := pool b; origin := origin b |}.
Definition set_metrics (x : MetricsState) (b : VzBackend) : VzBackend :=
  {| id := id b; state := state b; boot_source := boot_source b; root_drive := root_drive b;
     root_drive_read_only := root_drive_read_only b; extra_drives := extra_drives b;
     iface := iface b; network_mode := network_mode b; machine_config := machine_config b;
     mmds := mmds b; mmds_shared := mmds_shared b; mmds_config := mmds_config b;
     host_mmds := host_mmds b; balloon := balloon b; vsock := vsock b; logger := logger b;
     metrics := x; vmnet_mmds := vmnet_mmds b; vsock_bridge := vsock_bridge b; vm := vm b;
     pool_slot := pool_slot b; pool := pool b; origin := origin b |}.
Definition set_vmnet_mmds (x : option Handle) (b : VzBackend) : VzBackend :=
  {| id := id b; state := state b; boot_source := boot_source b; root_drive := root_drive b;
     root_drive_read_only := root_drive_read_only b; extra_drives := extra_drives b;
     iface := iface b; network_mode := network_mode b; machine_config := machine_config b;
     mmds := mmds b; mmds_shared := mmds_shared b; mmds_config := mmds_config b;
     host_mmds := host_mmds b; balloon := balloon b; vsock := vsock b; logger := logger b;
     metrics := metrics b; vmnet_mmds := x; vsock_bridge := vsock_bridge b; vm := vm b;
     pool_slot := pool_slot b; pool := pool b; origin := origin b |}.
Definition set_vsock_bridge (x : option VsockBridge) (b : VzBackend) : VzBackend :=
  {| id := id b; state := state b; boot_source := boot_source b; root_drive := root_drive b;
     root_drive_read_only := root_drive_read_only b; extra_drives := extra_drives b;
     iface := iface b; network_mode := network_mode b; machine_config := machine_config b;
     mmds := mmds b; mmds_shared := mmds_shared b; mmds_config := mmds_config b;
     host_mmds := host_mmds b; balloon := balloon b; vsock := vsock b; logger := logger b;
     metrics := metrics b; vmnet_mmds := vmnet_mmds b; vsock_bridge := x; vm := vm b;
     pool_slot := pool_slot b; pool := pool b; origin := origin b |}.
Definition set_vm (x : option Handle) (b : VzBackend) : VzBackend :=
  {| id := id b; state := state b; boot_source := boot_source b; root_drive := root_drive b;
     root_drive_read_only := root_drive_read_only b; extra_drives := extra_drives b;
     iface := iface b; network_mode := network_mode b; machine_config := machine_config b;
     mmds := mmds b; mmds_shared := mmds_shared b; mmds_config := mmds_config b;
     host_mmds := host_mmds b; balloon := balloon b; vsock := vsock b; logger := logger b;
     metrics := metrics b; vmnet_mmds := vmnet_mmds b; vsock_bridge := vsock_bridge b; vm := x;
     pool_slot := pool_slot b; pool := pool b; origin := origin b |}.
Definition set_pool_slot (x : option ClaimedSlot) (b : VzBackend) : VzBackend :=
  {| id := id b; state := state b; boot_source := boot_source b; root_drive := root_drive b;
     root_drive_read_only := root_drive_read_only b; extra_drives := extra_drives b;
     iface := iface b; network_mode := network_mode b; machine_config := machine_config b;
     mmds := mmds b; mmds_shared := mmds_shared b; mmds_config := mmds_config b;
     host_mmds := host_mmds b; balloon := balloon b; vsock := vsock b; logger := logger b;
     metrics := metrics b; vmnet_mmds := vmnet_mmds b; vsock_bridge := vsock_bridge b;
     vm := vm b; pool_slot := x; pool := pool b; origin := origin b |}.
Definition set_pool (x : option Pool) (b : VzBackend) : VzBackend :=
  {| id := id b; state := state b; boot_source := boot_source b; root_drive := root_drive b;
     root_drive_read_only := root_drive_read_only b; extra_drives := extra_drives b;
     iface := iface b; network_mode := network_mode b; machine_config := machine_config b;
     mmds := mmds b; mmds_shared := mmds_shared b; mmds_config := mmds_config b;
     host_mmds := host_mmds b; balloon := balloon b; vsock := vsock b; logger := logger b;
     metrics := metrics b; vmnet_mmds := vmnet_mmds b; vsock_bridge := vsock_bridge b;
     vm := vm b; pool_slot := pool_slot b; pool := x; origin := origin b |}.
Definition set_origin (x : option RunOrigin) (b : VzBackend) : VzBackend :=
  {| id := id b; state := state b; boot_source := boot_source b; root_drive := root_drive b;
     root_drive_read_only := root_drive_read_only b; extra_drives := extra_drives b;
     iface := iface b; network_mode := network_mode b; machine_config := machine_config b;
     mmds := mmds b; mmds_shared := mmds_shared b; mmds_config := mmds_config b;
     host_mmds := host_mmds b; balloon := balloon b; vsock := vsock b; logger := logger b;
     metrics := metrics b; vmnet_mmds := vmnet_mmds b; vsock_bridge := vsock_bridge b;
     vm := vm b; pool_slot := pool_slot b; pool := pool b; origin := x |}.
