(* ===== verification/Backend.v ===== *)
(** * The backend's operations (hephaestus-firecracker/src/backend.rs)

    One definition per method of [VzBackend], in the monad of [World]: state
    changes made before an error stay, every call to the outside is traced,
    and values that go out of scope or are overwritten are dropped where the
    source drops them.  The text printed on standard error is not modelled,
    nor is the panic of [thread::spawn] when no thread can be created. *)

From S2P Require Import Prelude RustStr Utf8 Json World Bridge FcApi Pool Telemetry BackendState.
Local Open Scope string_scope.
Local Open Scope Z_scope.

(** serde_json's printers: [to_vec] of a value, and [Display]. *)
Class Serde := {
  json_to_vec : Value -> Result string string;
  json_display : Value -> string }.

Definition MMDS_VSOCK_PORT : Z := 16992.
Definition CARGO_PKG_VERSION : string := "0.4.0-alpha.3".

(** [VzBackend::new]; [now] is the instant the metrics start at. *)
Definition new (id : string) (now : Z) : VzBackend :=
  {| BackendState.id := id; state := NotStarted; boot_source := None; root_drive := None;
     root_drive_read_only := false; extra_drives := []; iface := None; network_mode := Nat;
     machine_config := Machine.default_config; mmds := Object [];
     mmds_shared := {| poisoned := false; cell := Object [] |}; mmds_config := default_mmds_config;
     host_mmds := false; balloon := None; vsock := None; logger := default_logger;
     metrics := default_metrics now; vmnet_mmds := None; vsock_bridge := None; vm := None;
     pool_slot := None; pool := None; origin := None |}.

Definition with_pool (p : Pool) (b : VzBackend) : VzBackend := set_pool (Some p) b.
Definition with_host_mmds (enabled : bool) (b : VzBackend) : VzBackend := set_host_mmds enabled b.
Definition with_vmnet_networking (enabled : bool) (b : VzBackend) : VzBackend :=
  set_network_mode (if enabled then Vmnet else Nat) b.

(** ** Pure helpers *)

Definition configured_network_mode (b : VzBackend) : VzNetworkMode :=
  match iface b with Some _ => network_mode b | None => NetNone end.

Definition configured_mac (b : VzBackend) : option string :=
  match iface b with
  | Some i => mac_to_string <$> Net.guest_mac i
  | None => None
  end.

Definition extra_drive_specs (b : VzBackend) : list (string * bool) :=
  (fun d => (xd_path d, xd_read_only d)) <$> extra_drives b.

Definition long_run_spec (b : VzBackend) (kernel rootfs log boot_args : string) (cpu memory : Z) : VzSpec :=
  spec_extra_drives (extra_drive_specs b)
    (spec_mac (configured_mac b)
      (spec_host_packet_interface (host_mmds b)
        (spec_network_mode (configured_network_mode b)
          (spec_read_only (root_drive_read_only b)
            (spec_memory_mib memory
              (spec_cpus cpu (VzSpec_new kernel rootfs log boot_args))))))).

(** [Ipv4Addr::from_str]: four decimal octets, without leading zeros. *)
Definition parse_octet (s : string) : option Z :=
  if negb (str_forall is_ascii_digit s) || str_is_empty s || (3 <? len s)
     || ((1 <? len s) && starts_with "0" s)
  then None
  else result_ok (parse_uint u8_max s).
Definition parse_ipv4 (s : string) : option (Z * Z * Z * Z) :=
  match split_char (ch 46) s with
  | [a; b; c; d] =>
      match parse_octet a, parse_octet b, parse_octet c, parse_octet d with
      | Some a, Some b, Some c, Some d => Some (a, b, c, d)
      | _, _, _, _ => None
      end
  | _ => None
  end.

Definition validate_mmds_link_local_addr (addr : string) : Result unit VmmBackendError :=
  match parse_ipv4 addr with
  | None => Err (InvalidConfig "mmds.ipv4_address must be IPv4: invalid IPv4 address syntax")
  | Some (a, b, _, _) =>
      if (a =? 169) && (b =? 254) then Ok tt
      else Err (InvalidConfig "mmds.ipv4_address must be in 169.254.0.0/16")
  end.

Definition instance_info (b : VzBackend) : InstanceInfo :=
  {| ii_id := BackendState.id b; ii_state := state b; ii_vmm_version := CARGO_PKG_VERSION;
     ii_app_name := "hephaestus-firecracker" |}.
Definition get_mmds (b : VzBackend) : Value := mmds b.
Definition get_machine_config (b : VzBackend) : MachineConfig := machine_config b.
Definition get_balloon (b : VzBackend) : Result BalloonDeviceConfig VmmBackendError :=
  ok_or (balloon b) (NotSupported "balloon device not configured").

(** Update of the first drive with an id, the [iter_mut().find()] of the
    source. *)
Fixpoint update_drive (id : string) (f : ExtraDrive -> ExtraDrive) (ds : list ExtraDrive)
  : option (list ExtraDrive) :=
  match ds with
  | [] => None
  | d :: ds' =>
      if String.eqb (xd_id d) id then Some (f d :: ds')
      else match update_drive id f ds' with Some ds'' => Some (d :: ds'') | None => None end
  end.

Section Ops.
Context {W : Type} `{Outside W} `{Serde}.
Abbreviation B := (M W VzBackend VmmBackendError).

Definition internal (e : VmError) : VmmBackendError := Internal (vm_error_display e).

Definition require_preboot : B unit :=
  let! b := get in
  match state b with
  | NotStarted => ret tt
  | _ => fail (InvalidState "operation not supported post-boot")
  end.

Definition validate_balloon_amount (amount_mib : Z) : B unit :=
  let! b := get in
  let mem := Machine.mem_size_mib (machine_config b) in
  if mem <=? amount_mib then
    fail (InvalidConfig ("balloon amount_mib (" +:+ to_dec amount_mib
            +:+ ") must be less than mem_size_mib (" +:+ to_dec mem +:+ ")"))
  else ret tt.

(** ** References to the VM, and dropping *)

(** Some field still holds the VM. *)
Definition arc_held (b : VzBackend) (h : Handle) : bool :=
  bool_decide (vm b = Some h) || bool_decide (vmnet_mmds b = Some h)
  || match vsock_bridge b with Some vb => vb_vm vb =? h | None => false end.

(** Dropping one [Arc] of a VM: the last one frees the handle.  Of the holders,
    the clients of the bridge in their handshake are not the backend's to see;
    a client can delay the free past this point ([Lifetime]). *)
Definition drop_arc (h : Handle) : B unit :=
  let! b := get in
  if arc_held b h then ret tt else drop_vm h.

(** [Drop for VmnetMmdsResponder]: stop and join the thread. *)
Definition drop_responder (h : Handle) : B unit :=
  do! ask (JoinThread "hephaestus-vmnet-mmds") in
  drop_arc h.

(** [Drop for VsockBridge]: wake the accept loop, join it, remove the socket. *)
Definition drop_bridge (vb : VsockBridge) : B unit :=
  do! ask (UdsConnect (vb_uds_path vb)) in
  do! ask (JoinThread "vsock accept loop") in
  do! drop_arc (vb_vm vb) in
  do! ask (RemoveFile (vb_uds_path vb)) in
  ret tt.

(** Assignments to the fields that own something drop the old value. *)
Definition put_vmnet_mmds (x : option Handle) : B unit :=
  let! b := get in
  do! modify (set_vmnet_mmds None) in
  do! match vmnet_mmds b with Some h => drop_responder h | None => ret tt end in
  modify (set_vmnet_mmds x).
Definition put_vsock_bridge (x : option VsockBridge) : B unit :=
  let! b := get in
  do! modify (set_vsock_bridge None) in
  do! match vsock_bridge b with Some vb => drop_bridge vb | None => ret tt end in
  modify (set_vsock_bridge x).
Definition put_vm (x : option Handle) : B unit :=
  let! b := get in
  do! modify (set_vm None) in
  do! match vm b with Some h => drop_arc h | None => ret tt end in
  modify (set_vm x).
Definition put_pool_slot (x : option ClaimedSlot) : B unit :=
  let! b := get in
  do! modify (set_pool_slot None) in
  do! match pool_slot b with Some s => drop_slot s | None => ret tt end in
  modify (set_pool_slot x).

Definition abort_boot : B unit :=
  do! put_vmnet_mmds None in
  do! put_vsock_bridge None in
  do! put_vm None in
  do! put_pool_slot None in
  do! modify (set_origin None) in
  modify (set_state NotStarted).

(** The drop of a whole [VzBackend]: its fields in the order of their
    declaration; only these four own something outside. *)
Definition drop_backend : B unit :=
  do! put_vmnet_mmds None in
  do! put_vsock_bridge None in
  do! put_vm None in
  do! put_pool_slot None in
  ret tt.

(** ** Logging and metrics *)

Definition write_log (level : LogLevel) (origin : string) (line : option Z) (message : string) : B unit :=
  let! b := get in
  match log_target (logger b) level origin with
  | None => ret tt
  | Some path =>
      let! time := ask UnixTime in
      let! thread := ask ThreadName in
      let record := log_record (BackendState.id b) (logger b) time thread level origin line message in
      let! f := ask (OpenAppend path) in
      match f with
      | Ok _ => ask (AppendFile path record)
      | Err _ => ret tt
      end
  end.

Definition log_info (origin message : string) : B unit := write_log LInfo origin None message.

Definition flush_metrics : B unit :=
  let! b := get in
  match mt_file (metrics b) with
  | None => ret tt
  | Some file =>
      do! modify (fun b => set_metrics (inc_flush (metrics b)) b) in
      let! time := ask UnixTime in
      let timestamp_ms := match time with Some (secs, nanos) => secs * 1000 + nanos / 1000000 | None => 0 end in
      let! uptime_us := ask (ElapsedMicros (mt_started_at (metrics b))) in
      let! b := get in
      ask (AppendFile file (json_display (metrics_payload (metrics b) timestamp_ms uptime_us) +:+ nl))
  end.

Definition observe_request (request_id : Z) (method path : string) (status : Z) : B unit :=
  do! modify (fun b => set_metrics (count_request method path status (metrics b)) b) in
  let! b := get in
  do! (if enabled (lg_level (logger b)) LDebug
       then write_log LDebug "api_server::request" None
              ("request_id=" +:+ to_dec request_id +:+ " method=" +:+ method +:+ " path=" +:+ path
               +:+ " status=" +:+ to_dec status)
       else ret tt) in
  flush_metrics.

(** ** MMDS, vsock and balloon of a running VM *)

Definition refresh_mmds_vsock_service : B unit :=
  let! b := get in
  match vm b with
  | None => ret tt
  | Some h =>
      let! json := lift (map_err Internal (json_to_vec (mmds b))) in
      with_err internal (vm_serve_mmds_vsock h MMDS_VSOCK_PORT json)
  end.

(** [VmnetMmdsResponder::start]. *)
Definition responder_start : B unit :=
  let! r := ask (SpawnThread "hephaestus-vmnet-mmds") in
  lift (map_err (fun e => Internal ("spawn vmnet MMDS: " +:+ e)) r).

Definition start_vmnet_mmds (h : Handle) : B unit :=
  let! b := get in
  if negb (host_mmds b) then ret tt
  else if negb (bool_decide (configured_network_mode b = Vmnet))
  then fail (InvalidConfig "--host-mmds requires --network-backend vmnet")
  else do! responder_start in
       put_vmnet_mmds (Some h).

(** [VsockBridge::start]. *)
Definition bridge_start (h : Handle) (uds : string) : B VsockBridge :=
  do! ask (RemoveFile uds) in
  let! r := ask (UdsBind uds) in
  do! lift (map_err (fun e => InvalidConfig ("cannot bind vsock uds_path " +:+ from_utf8_lossy uds
                                             +:+ ": " +:+ e)) r) in
  ret {| vb_uds_path := uds; vb_vm := h |}.

Definition start_vsock_bridge : B unit :=
  let! b := get in
  match vsock b with
  | None => do! attempt refresh_mmds_vsock_service in ret tt
  | Some cfg =>
      do! refresh_mmds_vsock_service in
      let! b := get in
      let! h := lift (ok_or (vm b) (Internal "vsock bridge without VM")) in
      let! vb := bridge_start h (uds_path cfg) in
      put_vsock_bridge (Some vb)
  end.

Definition apply_balloon_target : B unit :=
  let! b := get in
  match balloon b, vm b with
  | Some cfg, Some h =>
      let target_mib := saturating_sub (Machine.mem_size_mib (machine_config b)) (Balloon.amount_mib cfg) in
      with_err internal (vm_set_balloon_target h (wrap 64 (wrap 64 (target_mib * 1024) * 1024)))
  | _, _ => ret tt
  end.

Definition apply_initial_balloon : B unit :=
  let! b := get in
  match balloon b with
  | Some _ => do! attempt apply_balloon_target in ret tt
  | None => ret tt
  end.

Definition serial_log_path : B string :=
  let! b := get in
  let! dir := ask (EnvVar "HEPHAESTUS_FC_WORK_DIR") in
  let! base := match dir with Some d => ret d | None => ask TempDir end in
  ret (path_join base ("hephaestus-firecracker-" +:+ BackendState.id b +:+ ".log")).

(** ** The API: configuration *)

Definition configure_boot_source (cfg : BootSourceConfig) : B unit :=
  do! require_preboot in
  let! there := ask (PathExists (BootSource.kernel_image_path cfg)) in
  if negb there
  then fail (InvalidConfig ("kernel image not found at " +:+ BootSource.kernel_image_path cfg))
  else modify (set_boot_source (Some cfg)).

Definition insert_block_device (cfg : Drive.BlockDeviceConfig) : B unit :=
  do! require_preboot in
  let! path := lift (ok_or (Drive.path_on_host cfg) (InvalidConfig "drive.path_on_host is required")) in
  let! there := ask (PathExists path) in
  if negb there then fail (InvalidConfig ("drive not found at " +:+ from_utf8_lossy path)) else
  let read_only := default false (Drive.is_read_only cfg) in
  if Drive.is_root_device cfg then
    do! modify (set_root_drive (Some path)) in
    modify (set_root_drive_read_only read_only)
  else
    let! b := get in
    match update_drive (Drive.drive_id cfg)
            (fun d => {| xd_id := xd_id d; xd_path := path; xd_read_only := read_only |}) (extra_drives b) with
    | Some ds => modify (set_extra_drives ds)
    | None => modify (set_extra_drives (extra_drives b ++ [{| xd_id := Drive.drive_id cfg; xd_path := path;
                                                              xd_read_only := read_only |}])%list)
    end.

Definition update_block_device (cfg : DriveUpdate.BlockDeviceUpdateConfig) : B unit :=
  do! require_preboot in
  match DriveUpdate.path_on_host cfg with
  | None => ret tt
  | Some path =>
      let! there := ask (PathExists path) in
      if negb there then fail (InvalidConfig ("drive not found at " +:+ from_utf8_lossy path)) else
      let! b := get in
      match update_drive (DriveUpdate.drive_id cfg)
              (fun d => {| xd_id := xd_id d; xd_path := path; xd_read_only := xd_read_only d |}) (extra_drives b) with
      | Some ds => modify (set_extra_drives ds)
      | None => modify (set_root_drive (Some path))
      end
  end.

Definition insert_network_device (cfg : NetworkInterfaceConfig) : B unit :=
  do! require_preboot in
  modify (set_iface (Some cfg)).

(** The trait's default: accept and ignore. *)
Definition update_network_device (cfg : NetworkInterfaceConfig) : B unit := ret tt.

Definition set_logger_field (f : LoggerState -> LoggerState) : B unit :=
  modify (fun b => set_logger (f (logger b)) b).

(** The blocks of [configure_logger]: the path, the level, then the rest. *)
Definition logger_path (cfg : LoggerConfig) : B unit :=
  match l_log_path cfg with
  | None => ret tt
  | Some path =>
      let! r := ask (OpenAppend path) in
      do! lift (map_err (fun e => InvalidConfig ("cannot open log_path " +:+ from_utf8_lossy path
                                                 +:+ ": " +:+ e)) r) in
      set_logger_field (fun l => {| lg_path := Some path; lg_level := lg_level l;
        lg_show_level := lg_show_level l; lg_show_log_origin := lg_show_log_origin l;
        lg_module := lg_module l |})
  end.

Definition logger_level (cfg : LoggerConfig) : B unit :=
  match l_level cfg with
  | None => ret tt
  | Some level =>
      let! level := lift (level_parse level) in
      set_logger_field (fun l => {| lg_path := lg_path l; lg_level := level;
        lg_show_level := lg_show_level l; lg_show_log_origin := lg_show_log_origin l;
        lg_module := lg_module l |})
  end.

Definition logger_flags (cfg : LoggerConfig) : B unit :=
  do! match l_show_level cfg with
      | None => ret tt
      | Some v =>
          set_logger_field (fun l => {| lg_path := lg_path l; lg_level := lg_level l;
            lg_show_level := v; lg_show_log_origin := lg_show_log_origin l; lg_module := lg_module l |})
      end in
  do! match l_show_log_origin cfg with
      | None => ret tt
      | Some v =>
          set_logger_field (fun l => {| lg_path := lg_path l; lg_level := lg_level l;
            lg_show_level := lg_show_level l; lg_show_log_origin := v; lg_module := lg_module l |})
      end in
  match l_module cfg with
  | None => ret tt
  | Some m =>
      set_logger_field (fun l => {| lg_path := lg_path l; lg_level := lg_level l;
        lg_show_level := lg_show_level l; lg_show_log_origin := lg_show_log_origin l;
        lg_module := if str_is_empty m then None else Some m |})
  end.

Definition configure_logger (cfg : LoggerConfig) : B unit :=
  do! logger_path cfg in
  do! logger_level cfg in
  do! logger_flags cfg in
  log_info "api_server::request::logger" "The logger was configured successfully.".

Definition configure_metrics (cfg : MetricsConfig) : B unit :=
  let! r := ask (OpenAppend (metrics_path cfg)) in
  do! lift (map_err (fun e => InvalidConfig ("cannot open metrics_path "
              +:+ from_utf8_lossy (metrics_path cfg) +:+ ": " +:+ e)) r) in
  do! modify (fun b => set_metrics (with_file (metrics_path cfg) (metrics b)) b) in
  flush_metrics.

(** [*self.mmds_shared.write()? = self.mmds.clone()]. *)
Definition publish_mmds : B unit :=
  let! b := get in
  if poisoned (mmds_shared b) then fail (Internal "MMDS lock poisoned")
  else modify (set_mmds_shared {| poisoned := false; cell := mmds b |}).

Definition put_mmds (data : Value) : B unit :=
  do! modify (set_mmds data) in
  do! publish_mmds in
  refresh_mmds_vsock_service.

Definition patch_mmds (data : Value) : B unit :=
  do! modify (fun b => set_mmds (merge_json (mmds b) data) b) in
  do! publish_mmds in
  refresh_mmds_vsock_service.

Definition configure_mmds (cfg : MmdsConfig) : B unit :=
  do! require_preboot in
  do! match ipv4_address cfg with
      | Some addr => lift (validate_mmds_link_local_addr addr)
      | None => ret tt
      end in
  modify (set_mmds_config cfg).

Definition configure_vsock (cfg : VsockConfig) : B unit :=
  do! require_preboot in
  if guest_cid cfg <? 3 then fail (InvalidConfig "vsock.guest_cid must be >= 3")
  else if str_is_empty (uds_path cfg) then fail (InvalidConfig "vsock.uds_path is required")
  else modify (set_vsock (Some cfg)).

Definition put_machine_config (cfg : MachineConfig) : B unit :=
  do! require_preboot in
  if Machine.vcpu_count cfg =? 0 then fail (InvalidConfig "vcpu_count must be >= 1")
  else if MAX_SUPPORTED_VCPUS <? Machine.vcpu_count cfg
  then fail (InvalidConfig ("vcpu_count must be <= " +:+ to_dec MAX_SUPPORTED_VCPUS))
  else if Machine.mem_size_mib cfg =? 0 then fail (InvalidConfig "mem_size_mib must be > 0")
  else match Machine.cpu_template cfg with
       | Some _ => fail (NotSupported "cpu_template is not supported on Apple Silicon/VZ")
       | None => modify (set_machine_config cfg)
       end.

Definition patch_machine_config (update : MachineUpdate.MachineConfigUpdate) : B unit :=
  do! require_preboot in
  if MachineUpdate.is_empty update then fail (InvalidConfig "empty machine-config patch") else
  let! b := get in
  let cfg := machine_config b in
  let cfg := {| Machine.vcpu_count := default (Machine.vcpu_count cfg) (MachineUpdate.vcpu_count update);
                Machine.mem_size_mib := default (Machine.mem_size_mib cfg) (MachineUpdate.mem_size_mib update);
                Machine.smt := default (Machine.smt cfg) (MachineUpdate.smt update);
                Machine.cpu_template := Machine.cpu_template cfg;
                Machine.track_dirty_pages :=
                  default (Machine.track_dirty_pages cfg) (MachineUpdate.track_dirty_pages update);
                Machine.huge_pages := default (Machine.huge_pages cfg) (MachineUpdate.huge_pages update) |} in
  match MachineUpdate.cpu_template update with
  | Some _ => fail (NotSupported "cpu_template is not supported on Apple Silicon/VZ")
  | None => put_machine_config cfg
  end.

Definition configure_entropy : B unit := require_preboot.

Definition configure_balloon (cfg : BalloonDeviceConfig) : B unit :=
  do! require_preboot in
  if negb (Balloon.stats_polling_interval_s cfg =? 0)
  then fail (NotSupported "balloon statistics (VZ exposes no balloon stats)")
  else modify (set_balloon (Some cfg)).

Definition live (b : VzBackend) : bool :=
  match state b with Running | Paused => true | NotStarted => false end.

Definition update_balloon (cfg : BalloonUpdateConfig) : B unit :=
  let! b := get in
  match balloon b with
  | None => fail (InvalidState "balloon device was not configured (PUT /balloon first)")
  | Some old =>
      do! (if live b then validate_balloon_amount (update_amount_mib cfg) else ret tt) in
      do! modify (set_balloon (Some {| Balloon.amount_mib := update_amount_mib cfg;
                                       Balloon.deflate_on_oom := Balloon.deflate_on_oom old;
                                       Balloon.stats_polling_interval_s := Balloon.stats_polling_interval_s old |})) in
      if live b then apply_balloon_target else ret tt
  end.

(** ** The API: lifecycle *)

Definition send_ctrl_alt_del : B unit :=
  let! b := get in
  match state b with
  | Paused => fail (InvalidState "cannot SendCtrlAltDel while paused")
  | NotStarted => fail (InvalidState "cannot SendCtrlAltDel before InstanceStart")
  | Running =>
      let! h := lift (ok_or (vm b) (Internal "running state without a VM handle")) in
      do! with_err internal (vm_request_stop h) in
      log_info "vmm" "Guest shutdown requested (SendCtrlAltDel)."
  end.

Definition validate_configured_balloon : B unit :=
  let! b := get in
  match balloon b with
  | Some c => validate_balloon_amount (Balloon.amount_mib c)
  | None => ret tt
  end.

(** [u64::try_from(usize)]. *)
Definition memory_u64 (mem : Z) : Result Z VmmBackendError :=
  if mem <=? u64_max then Ok mem
  else Err (InvalidConfig "out of range integral type conversion attempted").

(** After the VM is up: bridge, or roll back. *)
Definition bridge_or_abort : B unit :=
  let! r := attempt start_vsock_bridge in
  match r with
  | Ok _ => ret tt
  | Err err => do! abort_boot in fail err
  end.

(** The pool fast path; [true] when it served the request. *)
Definition try_pool (p : Pool) (spec : PoolMatchSpec) (log : string) : B bool :=
  let! spec := canonicalize_spec spec in
  let! claim := attempt (try_claim_matching_slot p spec) in
  match claim with
  | Ok (Some slot) =>
      let! restored := attempt (restore_into_vm p slot (Some log)) in
      match restored with
      | Ok (h, _) =>
          do! put_vm (Some h) in
          do! put_pool_slot (Some slot) in
          do! modify (set_state Running) in
          do! modify (set_origin (Some FromPool)) in
          do! modify (fun b => set_metrics (inc_pool_hits (metrics b)) b) in
          do! bridge_or_abort in
          do! apply_initial_balloon in
          do! flush_metrics in
          ret true
      | Err _ => do! drop_slot slot in ret false
      end
  | Ok None =>
      do! modify (fun b => set_metrics (inc_pool_misses (metrics b)) b) in
      ret false
  | Err _ => ret false
  end.

(** What both starting paths do with a VM that runs: attach the responder,
    record the VM, start the bridge, or release it again. *)
Definition install_vm (h : Handle) (st : VmState) (o : RunOrigin) : B unit :=
  let! r := attempt (start_vmnet_mmds h) in
  match r with
  | Err e => do! drop_arc h in fail e
  | Ok _ =>
      do! put_vm (Some h) in
      do! modify (set_state st) in
      do! modify (set_origin (Some o)) in
      do! bridge_or_abort in
      apply_initial_balloon
  end.

Definition cold_boot (boot : BootSourceConfig) (kernel rootfs log boot_args : string) (cpu memory : Z) : B unit :=
  let! b := get in
  let spec := long_run_spec b kernel rootfs log boot_args cpu memory in
  let spec := match BootSource.initrd_path boot with Some p => spec_initrd p spec | None => spec end in
  let! h := with_err internal (build spec) in
  let! started := attempt (vm_start h) in
  match started with
  | Err e => do! drop_vm h in fail (internal e)
  | Ok _ =>
      do! install_vm h Running ColdBoot in
      log_info "vmm" "Vmm is running."
  end.

Definition start_micro_vm : B unit :=
  do! require_preboot in
  do! validate_configured_balloon in
  let! b := get in
  let! boot := lift (ok_or (boot_source b) (InvalidState "boot-source not configured")) in
  let! rootfs := lift (ok_or (root_drive b) (InvalidState "root drive not configured")) in
  let kernel := BootSource.kernel_image_path boot in
  let boot_args := default DEFAULT_KERNEL_CMDLINE (BootSource.boot_args boot) in
  let cpu := Machine.vcpu_count (machine_config b) in
  let! memory := lift (memory_u64 (Machine.mem_size_mib (machine_config b))) in
  let! log := serial_log_path in
  let! served :=
    match extra_drives b, pool b with
    | [], Some p =>
        if negb (bool_decide (configured_network_mode b = Vmnet))
        then try_pool p {| spec_kernel := kernel; spec_rootfs := rootfs; spec_vcpu_count := cpu;
                           spec_memory := memory |} log
        else ret false
    | _, _ => ret false
    end in
  if served then ret tt else cold_boot boot kernel rootfs log boot_args cpu memory.

Definition create_snapshot (params : CreateSnapshotParams) : B unit :=
  let! b := get in
  match state b with
  | Paused =>
      match cs_snapshot_type params with
      | Diff => fail (NotSupported "snapshot_type=Diff (VZ has no incremental save)")
      | Full =>
          match origin b with
          | None => fail (InvalidState "no VM running")
          | Some FromPool =>
              fail (NotSupported "snapshot/create on a pool-restored VM (cold-boot to snapshot)")
          | Some _ =>
              let! h := lift (ok_or (vm b) (Internal "Paused state without a VM handle")) in
              do! with_err internal (vm_save_state h (cs_snapshot_path params)) in
              let! r := ask (OpenTruncate (cs_mem_file_path params)) in
              lift (map_err (fun e => InvalidConfig ("cannot touch mem_file_path "
                      +:+ from_utf8_lossy (cs_mem_file_path params) +:+ ": " +:+ e)) r)
          end
      end
  | _ => fail (InvalidState "snapshot/create requires the VM to be Paused (PATCH /vm first)")
  end.

Definition check_mem_backend (params : LoadSnapshotConfig) : B unit :=
  match ls_mem_backend params with
  | Some {| backend_type := Uffd |} => fail (NotSupported "mem_backend.backend_type=Uffd (Linux-only)")
  | _ => ret tt
  end.

Definition load_snapshot (params : LoadSnapshotConfig) : B unit :=
  do! require_preboot in
  do! validate_configured_balloon in
  if ls_enable_diff_snapshots params || ls_track_dirty_pages params
  then fail (NotSupported "diff/dirty-page tracking (VZ has no equivalent)") else
  do! check_mem_backend params in
  let! b := get in
  let! boot := lift (ok_or (boot_source b)
                       (InvalidState "snapshot/load requires PUT /boot-source first")) in
  let! rootfs := lift (ok_or (root_drive b)
                         (InvalidState "snapshot/load requires PUT /drives/{id} first")) in
  let kernel := BootSource.kernel_image_path boot in
  let boot_args := default DEFAULT_KERNEL_CMDLINE (BootSource.boot_args boot) in
  let cpu := Machine.vcpu_count (machine_config b) in
  let! memory := lift (memory_u64 (Machine.mem_size_mib (machine_config b))) in
  let! log := serial_log_path in
  let! restored := with_err internal
    (vz_long_restore kernel rootfs (BootSource.initrd_path boot) log boot_args
       (ls_snapshot_path params) cpu memory (root_drive_read_only b) (configured_network_mode b)
       (host_mmds b) (configured_mac b) (extra_drive_specs b) (ls_resume_vm params)) in
  do! install_vm (fst restored) (if ls_resume_vm params then Running else Paused) SnapshotLoad in
  do! modify (fun b => set_metrics (inc_snapshot_loads (metrics b)) b) in
  do! flush_metrics in
  log_info "vmm" "Snapshot loaded.".

Definition pause : B unit :=
  let! b := get in
  match state b with
  | Paused => ret tt
  | NotStarted => fail (InvalidState "cannot pause before InstanceStart")
  | Running =>
      let! h := lift (ok_or (vm b) (Internal "running state without a VM handle")) in
      do! with_err internal (vm_pause h) in
      do! modify (set_state Paused) in
      log_info "vmm" "Vmm is paused."
  end.

Definition resume : B unit :=
  let! b := get in
  match state b with
  | Running => ret tt
  | NotStarted => fail (InvalidState "cannot resume before InstanceStart")
  | Paused =>
      let! h := lift (ok_or (vm b) (Internal "paused state without a VM handle")) in
      do! with_err internal (vm_resume h) in
      do! modify (set_state Running) in
      log_info "vmm" "Vmm is resumed."
  end.
End Ops.

(** ** Requests *)

(** What the HTTP layer asks of the backend. *)
Inductive Request :=
| ConfigureBootSource (cfg : BootSourceConfig)
| InsertBlockDevice (cfg : Drive.BlockDeviceConfig)
| UpdateBlockDevice (cfg : DriveUpdate.BlockDeviceUpdateConfig)
| InsertNetworkDevice (cfg : NetworkInterfaceConfig)
| UpdateNetworkDevice (cfg : NetworkInterfaceConfig)
| ConfigureLogger (cfg : LoggerConfig)
| ConfigureMetrics (cfg : MetricsConfig)
| PutMmds (data : Value)
| PatchMmds (data : Value)
| ConfigureMmds (cfg : MmdsConfig)
| ConfigureVsock (cfg : VsockConfig)
| PutMachineConfig (cfg : MachineConfig)
| PatchMachineConfig (update : MachineUpdate.MachineConfigUpdate)
| ConfigureEntropy
| ConfigureBalloon (cfg : BalloonDeviceConfig)
| UpdateBalloon (cfg : BalloonUpdateConfig)
| SendCtrlAltDel
| StartMicroVm
| CreateSnapshot (params : CreateSnapshotParams)
| LoadSnapshot (params : LoadSnapshotConfig)
| Pause
| Resume
| FlushMetrics
| ObserveRequest (request_id : Z) (method path : string) (status : Z).

Definition exec {W} `{Outside W} `{Serde} (r : Request) : M W VzBackend VmmBackendError unit :=
  match r with
  | ConfigureBootSource cfg => configure_boot_source cfg
  | InsertBlockDevice cfg => insert_block_device cfg
  | UpdateBlockDevice cfg => update_block_device cfg
  | InsertNetworkDevice cfg => insert_network_device cfg
  | UpdateNetworkDevice cfg => update_network_device cfg
  | ConfigureLogger cfg => configure_logger cfg
  | ConfigureMetrics cfg => configure_metrics cfg
  | PutMmds data => put_mmds data
  | PatchMmds data => patch_mmds data
  | ConfigureMmds cfg => configure_mmds cfg
  | ConfigureVsock cfg => configure_vsock cfg
  | PutMachineConfig cfg => put_machine_config cfg
  | PatchMachineConfig update => patch_machine_config update
  | ConfigureEntropy => configure_entropy
  | ConfigureBalloon cfg => configure_balloon cfg
  | UpdateBalloon cfg => update_balloon cfg
  | SendCtrlAltDel => send_ctrl_alt_del
  | StartMicroVm => start_micro_vm
  | CreateSnapshot params => create_snapshot params
  | LoadSnapshot params => load_snapshot params
  | Pause => pause
  | Resume => resume
  | FlushMetrics => flush_metrics
  | ObserveRequest id m p st => observe_request id m p st
  end.
