(* ===== verification/Ledger.v ===== *)
(** * What a run creates and releases

    The ledger of a trace: the VMs the framework created and those freed, the
    slot locks granted and those released.  The lemmas here give each part of
    the backend its effect on state and ledger, as the rules by which the
    properties of whole requests are proved. *)

From S2P Require Import Prelude RustStr Json World Bridge FcApi Pool Telemetry BackendState Backend.
Local Open Scope string_scope.
Local Open Scope Z_scope.
Local Open Scope list_scope.

(** ** The ledger of a trace *)

Definition made {A} (r : FfiReply A) (h : A -> Handle) : list Handle :=
  match status r with HbOk => [h (out r)] | _ => [] end.

Definition created_by (e : Event) : list Handle :=
  match e with
  | Ev c a =>
      match c in Call A return A -> list Handle with
      | HbLongNew _ => fun r => made r (fun h => h)
      | HbLongRestore _ _ _ => fun r => made r fst
      | HbPoolRestoreLong _ _ _ _ _ _ _ => fun r => made r fst
      | HbStockPoolRestoreLong _ _ _ _ _ _ => fun r => made r fst
      | _ => fun _ => []
      end a
  end.
Definition freed_by (e : Event) : list Handle :=
  match e with Ev (HbLongFree h) _ => [h] | _ => [] end.
Definition locked_by (e : Event) : list string :=
  match e with
  | Ev c a =>
      match c in Call A return A -> list string with
      | Flock p => fun r => match r with Locked => [p] | _ => [] end
      | _ => fun _ => []
      end a
  end.
Definition unlocked_by (e : Event) : list string :=
  match e with Ev (Unlock p) _ => [p] | _ => [] end.

Definition created (t : Trace) : list Handle := t ≫= created_by.
Definition freed (t : Trace) : list Handle := t ≫= freed_by.
Definition locked (t : Trace) : list string := t ≫= locked_by.
Definition unlocked (t : Trace) : list string := t ≫= unlocked_by.

(** Nothing created or released. *)
Definition quiet (t : Trace) : Prop :=
  created t = [] /\ freed t = [] /\ locked t = [] /\ unlocked t = [].

(** From holding VMs [V] and locks [L] a trace leads to holding [V'] and
    [L']: nothing is lost, nothing is released twice. *)
Definition balance (V : list Handle) (L : list string) (t : Trace) (V' : list Handle) (L' : list string) : Prop :=
  V ++ created t ≡ₚ freed t ++ V' /\ L ++ locked t ≡ₚ unlocked t ++ L'.

Lemma quiet_app t1 t2 : quiet t1 -> quiet t2 -> quiet (t1 ++ t2).
Proof.
  unfold quiet, created, freed, locked, unlocked. rewrite !bind_app.
  by intros (-> & -> & -> & ->) (-> & -> & -> & ->).
Qed.

Lemma quiet_nil : quiet [].
Proof. done. Qed.

Lemma balance_quiet V L t : quiet t -> balance V L t V L.
Proof. intros (Hc & Hf & Hl & Hu). unfold balance. by rewrite Hc, Hf, Hl, Hu, !app_nil_r. Qed.

Lemma balance_app V L t V1 L1 t1 V2 L2 :
  balance V L t V1 L1 -> balance V1 L1 t1 V2 L2 -> balance V L (t ++ t1) V2 L2.
Proof.
  unfold balance, created, freed, locked, unlocked. rewrite !bind_app.
  intros [Hv Hl] [Hv1 Hl1]. split.
  - by rewrite (assoc_L (++)), Hv, <- (assoc_L (++)), Hv1, (assoc_L (++)).
  - by rewrite (assoc_L (++)), Hl, <- (assoc_L (++)), Hl1, (assoc_L (++)).
Qed.

(** What is held besides plays no part. *)
Lemma balance_frame V0 L0 V L t V' L' :
  balance V L t V' L' -> balance (V ++ V0) (L ++ L0) t (V' ++ V0) (L' ++ L0).
Proof.
  intros [Hv Hl]. split.
  - by rewrite <- (assoc_L (++)), (comm (++) V0), (assoc_L (++)), Hv, <- (assoc_L (++)).
  - by rewrite <- (assoc_L (++)), (comm (++) L0), (assoc_L (++)), Hl, <- (assoc_L (++)).
Qed.
#[export] Hint Resolve quiet_app quiet_nil balance_quiet : heph.
#[export] Hint Extern 1 (quiet (_ :: _)) => (split_and!; reflexivity) : heph.

(** Close the goals left by a quiet part. *)
Ltac quiet_done := split_and?; simpl; rewrite ?app_nil_r; eauto 8 with heph.

(** ** Parts that change nothing *)

Section Parts.
Context {W : Type} `{Outside W} `{Serde}.
Abbreviation B := (M W VzBackend VmmBackendError).
Implicit Types (b : VzBackend) (w : W).

(** The part keeps the state and is quiet; its result satisfies [P]. *)
Definition quietly {A} (m : B A) (P : VzBackend -> Result A VmmBackendError -> Prop) : Prop :=
  forall b w, wp m (fun r b' _ t => b' = b /\ quiet t /\ P b r) b w.

Lemma wp_quietly {A} (m : B A) P Q b w :
  quietly m P -> (forall r w' t, quiet t -> P b r -> Q r b w' t) -> wp m Q b w.
Proof.
  intros Hm HQ. eapply wp_mono; [apply Hm|]. intros r b' w' t (-> & Ht & Hr). by apply HQ.
Qed.

Definition any {A} : VzBackend -> Result A VmmBackendError -> Prop := fun _ _ => True.
Definition succeeds {A} : VzBackend -> Result A VmmBackendError -> Prop := fun _ r => exists a, r = Ok a.

Lemma into_result_Ok st e u : into_result st e = Ok u -> st = HbOk.
Proof. by destruct st. Qed.
Lemma into_result_Err st e x : into_result st e = Err x -> st <> HbOk.
Proof. by destruct st. Qed.

(** A bridge call: its result follows the status of its one event. *)
Lemma wp_ffi {S A} (c : Call (FfiReply A)) (Q : Result A VmError -> S -> W -> Trace -> Prop) s w :
  (forall a w', status a = HbOk -> Q (Ok (out a)) s w' [Ev c a]) ->
  (forall a e w', status a <> HbOk -> Q (Err e) s w' [Ev c a]) ->
  wp (ffi c) Q s w.
Proof.
  intros HOk HErr. unfold ffi. do 4 wp_step.
  destruct (into_result (status a) (out_err a)) eqn:E.
  - wp_step. apply HOk. by eapply into_result_Ok.
  - apply HErr. by eapply into_result_Err.
Qed.

Lemma quietly_write_log level origin line message : quietly (write_log level origin line message) succeeds.
Proof.
  intros b w. unfold write_log, succeeds. wp_run; quiet_done.
Qed.

Lemma quietly_log_info origin message : quietly (log_info origin message) succeeds.
Proof. apply quietly_write_log. Qed.

Lemma quietly_refresh : quietly refresh_mmds_vsock_service any.
Proof.
  intros b w. unfold refresh_mmds_vsock_service, vm_serve_mmds_vsock. wp_step. wp_step.
  destruct (vm b); [|by wp_step]. do 2 wp_step.
  destruct (json_to_vec (mmds b)); cbn [map_err]; [|done].
  wp_step. apply wp_ffi; done.
Qed.

Lemma quietly_apply_balloon : quietly apply_balloon_target any.
Proof.
  intros b w. unfold apply_balloon_target, vm_set_balloon_target. do 2 wp_step.
  destruct (balloon b), (vm b); try by wp_step. wp_step. apply wp_ffi; done.
Qed.

Lemma quietly_initial_balloon : quietly apply_initial_balloon succeeds.
Proof.
  intros b w. unfold apply_initial_balloon, succeeds. do 2 wp_step.
  destruct (balloon b); [|wp_step; quiet_done]. do 2 wp_step.
  eapply wp_quietly; [apply quietly_apply_balloon|]. intros r w' t Ht _. wp_step. quiet_done.
Qed.

Lemma quietly_serial_log_path : quietly serial_log_path succeeds.
Proof.
  intros b w. unfold serial_log_path, succeeds. do 5 wp_step.
  destruct a; wp_run; quiet_done.
Qed.

Lemma quietly_require_preboot :
  quietly require_preboot (fun b r => match r with
                                      | Ok _ => state b = NotStarted
                                      | Err e => state b <> NotStarted /\
                                                 e = InvalidState "operation not supported post-boot"
                                      end).
Proof.
  intros b w. unfold require_preboot. do 2 wp_step.
  destruct (state b) eqn:E; wp_step; quiet_done; try congruence.
Qed.

Lemma quietly_validate_balloon amount :
  quietly (validate_balloon_amount amount)
    (fun b r => match r with
                | Ok _ => amount < Machine.mem_size_mib (machine_config b)
                | Err e => Machine.mem_size_mib (machine_config b) <= amount /\ exists m, e = InvalidConfig m
                end).
Proof.
  intros b w. unfold validate_balloon_amount. do 2 wp_step.
  destruct (Z.leb_spec (Machine.mem_size_mib (machine_config b)) amount); wp_step; quiet_done.
Qed.

Lemma quietly_validate_configured :
  quietly validate_configured_balloon
    (fun b r => match r with
                | Ok _ => forall c, balloon b = Some c ->
                            Balloon.amount_mib c < Machine.mem_size_mib (machine_config b)
                | Err e => exists m, e = InvalidConfig m
                end).
Proof.
  intros b w. unfold validate_configured_balloon. do 2 wp_step. destruct (balloon b) as [c|] eqn:E.
  - eapply wp_quietly; [apply quietly_validate_balloon|]. intros r w' t Ht Hr. quiet_done.
    destruct r; naive_solver.
  - wp_step. split_and!; auto with heph. by intros.
Qed.

Lemma quietly_canonicalize_spec spec :
  quietly (canonicalize_spec spec)
    (fun _ r => exists spec', r = Ok spec' /\ spec_vcpu_count spec' = spec_vcpu_count spec /\
                              spec_memory spec' = spec_memory spec).
Proof.
  intros b w. unfold canonicalize_spec, canonicalize_or. do 9 wp_step. quiet_done.
Qed.

Lemma quietly_check_mem_backend params : quietly (check_mem_backend params) any.
Proof.
  intros b w. unfold check_mem_backend. destruct (ls_mem_backend params) as [[? []]|]; by wp_step.
Qed.

(** ** Flushing metrics *)

Lemma set_metrics_id b : set_metrics (metrics b) b = b.
Proof. by destruct b. Qed.

Lemma wp_flush_metrics Q b w :
  (forall m' w' t, quiet t -> m' = metrics b \/ m' = inc_flush (metrics b) ->
                   Q (Ok tt) (set_metrics m' b) w' t) ->
  wp flush_metrics Q b w.
Proof.
  intros HQ. unfold flush_metrics. do 2 wp_step. destruct (mt_file (metrics b)).
  - do 9 wp_step. destruct a1. apply HQ; auto with heph.
  - wp_step. specialize (HQ (metrics b) w []). rewrite set_metrics_id in HQ. apply HQ; auto with heph.
Qed.

(** ** Tearing down *)

Lemma wp_drop_arc h Q b w :
  (arc_held b h = true -> Q (Ok tt) b w []) ->
  (arc_held b h = false -> forall u w', Q (Ok u) b w' [Ev (HbLongFree h) u]) ->
  wp (drop_arc h) Q b w.
Proof.
  intros H1 H2. unfold drop_arc, drop_vm. do 2 wp_step. destruct (arc_held b h); [by wp_step; apply H1|].
  wp_step. by apply H2.
Qed.
End Parts.

(** The VMs and slot locks a backend holds. *)
Definition vms (b : VzBackend) : list Handle := option_list (vm b).
Definition slot_locks (b : VzBackend) : list string :=
  (fun s => lock_of (slot_path s)) <$> option_list (pool_slot b).

(** The helper threads hold the VM the backend holds. *)
Definition one_vm (b : VzBackend) : Prop :=
  (forall h, vmnet_mmds b = Some h -> vm b = Some h) /\
  (forall vb, vsock_bridge b = Some vb -> vm b = Some (vb_vm vb)).

(** The order in which a backend lets go of what it holds: the helper
    threads, then the VM, then the slot, whose lock goes last. *)
Definition teardown_calls (b : VzBackend) : list {A : Type & Call A} :=
  match vmnet_mmds b with
  | Some _ => [existT _ (JoinThread "hephaestus-vmnet-mmds")]
  | None => []
  end ++
  match vsock_bridge b with
  | Some vb => [existT _ (UdsConnect (vb_uds_path vb)); existT _ (JoinThread "vsock accept loop");
                existT _ (RemoveFile (vb_uds_path vb))]
  | None => []
  end ++
  match vm b with Some h => [existT _ (HbLongFree h)] | None => [] end ++
  match pool_slot b with
  | Some s => [existT _ (RemoveFile (slot_rootfs s)); existT _ (Unlock (lock_of (slot_path s)))]
  | None => []
  end.

Definition dropped (b : VzBackend) : VzBackend :=
  set_pool_slot None (set_vm None (set_vsock_bridge None (set_vmnet_mmds None b))).
Definition torn_down (b : VzBackend) : VzBackend := set_state NotStarted (set_origin None (dropped b)).

(** The ledger of releases is decided by the calls. *)
Definition freed_call (c : {A : Type & Call A}) : list Handle :=
  match c with existT _ (HbLongFree h) => [h] | _ => [] end.
Definition unlocked_call (c : {A : Type & Call A}) : list string :=
  match c with existT _ (Unlock p) => [p] | _ => [] end.
Definition acquires (c : {A : Type & Call A}) : bool :=
  match c with
  | existT _ (HbLongNew _) | existT _ (HbLongRestore _ _ _) | existT _ (Flock _)
  | existT _ (HbPoolRestoreLong _ _ _ _ _ _ _) | existT _ (HbStockPoolRestoreLong _ _ _ _ _ _) => true
  | _ => false
  end.

Lemma freed_calls t : freed t = calls t ≫= freed_call.
Proof.
  unfold freed, calls. induction t as [|[A c a] t IH]; [done|].
  rewrite fmap_cons, !bind_cons, IH. by destruct c.
Qed.

Lemma unlocked_calls t : unlocked t = calls t ≫= unlocked_call.
Proof.
  unfold unlocked, calls. induction t as [|[A c a] t IH]; [done|].
  rewrite fmap_cons, !bind_cons, IH. by destruct c.
Qed.

Lemma acquires_none t :
  forallb (fun c => negb (acquires c)) (calls t) = true -> created t = [] /\ locked t = [].
Proof.
  unfold created, locked, calls. induction t as [|[A c a] t IH]; [done|].
  rewrite fmap_cons, !bind_cons. cbn [forallb]. rewrite andb_true_iff. intros [Hc Ht].
  destruct (IH Ht) as [-> ->]. by destruct c.
Qed.

Lemma teardown_balance b t : calls t = teardown_calls b -> balance (vms b) (slot_locks b) t [] [].
Proof.
  intros Ht. destruct (acquires_none t) as [Hc Hl].
  { rewrite Ht. unfold teardown_calls.
    by destruct (vmnet_mmds b), (vsock_bridge b), (vm b), (pool_slot b). }
  unfold balance. rewrite Hc, Hl, freed_calls, unlocked_calls, Ht.
  unfold teardown_calls, vms, slot_locks.
  by destruct (vmnet_mmds b), (vsock_bridge b), (vm b), (pool_slot b).
Qed.

Section Teardown.
Context {W : Type} `{Outside W} `{Serde}.
Implicit Types (b : VzBackend) (w : W).

(** Letting go of a helper thread frees nothing while the backend holds the
    VM. *)
Lemma arc_held_vm b h : vm b = Some h -> arc_held b h = true.
Proof. intros Hv. unfold arc_held. by rewrite bool_decide_eq_true_2. Qed.

Lemma wp_put_vmnet_none Q b w :
  one_vm b ->
  (forall w' t, calls t = match vmnet_mmds b with
                          | Some _ => [existT _ (JoinThread "hephaestus-vmnet-mmds")]
                          | None => [] end ->
                Q (Ok tt) (set_vmnet_mmds None b) w' t) ->
  wp (put_vmnet_mmds None) Q b w.
Proof.
  intros [Hr _] HQ. unfold put_vmnet_mmds, drop_responder. do 5 wp_step.
  destruct (vmnet_mmds b) as [h|] eqn:E; [|do 2 wp_step; by apply HQ].
  do 2 wp_step. apply wp_drop_arc; rewrite arc_held_vm by (by apply Hr); [|done].
  intros _. wp_step. by apply HQ.
Qed.

Lemma wp_put_bridge_none Q b w :
  one_vm b -> 
  (forall w' t, calls t = match vsock_bridge b with
                          | Some vb => [existT _ (UdsConnect (vb_uds_path vb));
                                        existT _ (JoinThread "vsock accept loop");
                                        existT _ (RemoveFile (vb_uds_path vb))]
                          | None => [] end ->
                Q (Ok tt) (set_vsock_bridge None b) w' t) ->
  wp (put_vsock_bridge None) Q b w.
Proof.
  intros [_ Hb] HQ. unfold put_vsock_bridge, drop_bridge. do 5 wp_step.
  destruct (vsock_bridge b) as [vb|] eqn:E; [|do 2 wp_step; by apply HQ].
  do 5 wp_step. apply wp_drop_arc; rewrite arc_held_vm by (by apply Hb); [|done].
  intros _. do 4 wp_step. by apply HQ.
Qed.

(** The four assignments that tear down, whatever follows. *)
Lemma wp_teardown {A} (k : M W VzBackend VmmBackendError A) Q b w :
  one_vm b ->
  (forall w' t, calls t = teardown_calls b -> wp k (fun r b' w2 t2 => Q r b' w2 (t ++ t2)) (dropped b) w') ->
  wp (do! put_vmnet_mmds None in do! put_vsock_bridge None in do! put_vm None in
      do! put_pool_slot None in k) Q b w.
Proof.
  intros Hb HQ. unfold teardown_calls in HQ. wp_step.
  apply wp_put_vmnet_none; [done|]. intros w1 t1 Ht1. wp_step.
  apply wp_put_bridge_none; [by destruct Hb; split|]. intros w2 t2 Ht2. wp_step.
  unfold put_vm. do 5 wp_step. simpl in Ht2.
  assert (Hlast : forall w3 t3, calls t3 = match vm b with Some h => [existT _ (HbLongFree h)] | None => [] end ->
    wp (do! put_pool_slot None in k)
      (fun r2 s2 w4 t4 => Q r2 s2 w4 (t1 ++ t2 ++ t3 ++ t4))
      (set_vm None (set_vsock_bridge None (set_vmnet_mmds None b))) w3).
  { intros w3 t3 Ht3. unfold put_pool_slot, drop_slot. do 6 wp_step. simpl.
    destruct (pool_slot b) as [s|]; wp_run.
    - eapply wp_mono; [apply (HQ _ (t1 ++ t2 ++ t3 ++ [Ev (RemoveFile (slot_rootfs s)) a;
          Ev (Unlock (lock_of (slot_path s))) a0])); rewrite !calls_app, Ht1, Ht2, Ht3; done|].
      intros r b' w4 t4. by rewrite <- !(assoc_L (++)).
    - eapply wp_mono; [apply (HQ _ (t1 ++ t2 ++ t3 ++ [])); rewrite !calls_app, Ht1, Ht2, Ht3; done|].
      intros r b' w4 t4. by rewrite <- !(assoc_L (++)). }
  simpl. destruct (vm b) as [h|] eqn:E.
  - apply wp_drop_arc; unfold arc_held; simpl; [done|]. intros _ u w3. wp_step.
    eapply wp_mono; [apply (Hlast w3 [Ev (HbLongFree h) u]); done|]. done.
  - do 2 wp_step. eapply wp_mono; [apply (Hlast w2 []); done|]. done.
Qed.

Lemma wp_drop_backend Q b w :
  one_vm b ->
  (forall w' t, calls t = teardown_calls b -> Q (Ok tt) (dropped b) w' t) ->
  wp drop_backend Q b w.
Proof.
  intros Hb HQ. apply wp_teardown; [done|]. intros w' t Ht. wp_step. rewrite app_nil_r. by apply HQ.
Qed.

Lemma wp_abort_boot Q b w :
  one_vm b ->
  (forall w' t, calls t = teardown_calls b -> Q (Ok tt) (torn_down b) w' t) ->
  wp abort_boot Q b w.
Proof.
  intros Hb HQ. apply wp_teardown; [done|]. intros w' t Ht. do 3 wp_step. rewrite !app_nil_r. by apply HQ.
Qed.
End Teardown.

(** ** The pool *)

Lemma quiet_busy d i k : quiet (busy_probes d i k).
Proof. revert i. induction k as [|k IH]; intros i; [done|]. apply quiet_app; [done|apply IH]. Qed.

Section PoolParts.
Context {W : Type} `{Outside W}.
Implicit Types (b : VzBackend) (w : W).

(** A claim acquires exactly the lock of the slot it returns. *)
Lemma wp_try_claim p spec Q b w :
  (forall slot w' t, matches p spec = true -> balance [] [] t [] [lock_of (slot_path slot)] ->
                     Q (Ok (Some slot)) b w' t) ->
  (forall w' t, quiet t -> Q (Ok None) b w' t) ->
  (forall e w' t, quiet t -> Q (Err e) b w' t) ->
  wp (try_claim_matching_slot p spec) Q b w.
Proof.
  intros HSome HNone HErr. unfold try_claim_matching_slot.
  destruct (matches p spec) eqn:Em; cbn [negb]; [|by wp_step; auto with heph].
  eapply wp_mono; [apply claim_from_spec|]. intros r b' w' t (-> & k & tail & -> & Ho).
  pose proof (quiet_busy (dir p) 0 k) as Hq. unfold claim_outcome in Ho.
  destruct r as [[slot|]|[]]; try done.
  - destruct Ho as (_ & -> & ->). apply HSome; [done|].
    eapply balance_app; [by apply balance_quiet|]. done.
  - destruct Ho as (_ & ->). apply HNone. auto with heph.
  - destruct Ho as (_ & -> & ->). apply HErr. auto with heph.
  - destruct Ho as (_ & -> & ->). apply HErr. auto with heph.
Qed.

(** A restore creates the VM it returns, or none. *)
Lemma wp_restored {S} (c : Call (FfiReply (Handle * HbRestoreTimings))) Q (s : S) w :
  (forall a, created_by (Ev c a) = made a fst) ->
  (forall a, freed [Ev c a] = [] /\ locked [Ev c a] = [] /\ unlocked [Ev c a] = []) ->
  (forall h z w' t, balance [] [] t [h] [] -> Q (Ok (h, z)) s w' t) ->
  (forall e w' t, quiet t -> Q (Err e) s w' t) ->
  wp (ffi c) Q s w.
Proof.
  intros Hc' Hq HOk HErr.
  assert (Hc : forall a, created [Ev c a] = made a fst).
  { intros a. unfold created. rewrite bind_cons, Hc'. apply app_nil_r. }
  apply wp_ffi.
  - intros a w' Ha. destruct (out a) as [h z] eqn:Eo. apply HOk.
    destruct (Hq a) as (Hf & Hl & Hu). unfold balance. rewrite Hc, Hf, Hl, Hu.
    unfold made. by rewrite Ha, Eo.
  - intros a e w' Ha. apply HErr. destruct (Hq a) as (Hf & Hl & Hu).
    unfold quiet. rewrite Hc, Hf, Hl, Hu. unfold made. by destruct (status a).
Qed.

Lemma wp_vz_pool_restore kernel initramfs rootfs save log cpus mem Q b w :
  (forall h z w' t, balance [] [] t [h] [] -> Q (Ok (h, z)) b w' t) ->
  (forall e w' t, quiet t -> Q (Err e) b w' t) ->
  wp (vz_pool_restore_long kernel initramfs rootfs save log cpus mem) Q b w.
Proof.
  intros HOk HErr. unfold vz_pool_restore_long.
  repeat (do 2 wp_step; match goal with |- match ?r with _ => _ end => destruct r end;
          [|by apply HErr]).
  by apply wp_restored.
Qed.

Lemma wp_vz_stock_restore kernel rootfs save log cpus mem Q b w :
  (forall h z w' t, balance [] [] t [h] [] -> Q (Ok (h, z)) b w' t) ->
  (forall e w' t, quiet t -> Q (Err e) b w' t) ->
  wp (vz_stock_pool_restore_long kernel rootfs save log cpus mem) Q b w.
Proof.
  intros HOk HErr. unfold vz_stock_pool_restore_long.
  repeat (do 2 wp_step; match goal with |- match ?r with _ => _ end => destruct r end;
          [|by apply HErr]).
  by apply wp_restored.
Qed.

(** The specification a restore describes, argument by argument. *)
Definition restore_spec (kernel rootfs : string) (initrd : option string) (log args : string) (cpus mem : Z)
  (ro : bool) (net : VzNetworkMode) (hpi : bool) (mac : option string) (drives : list (string * bool)) : VzSpec :=
  {| kernel_path := kernel; rootfs_path := rootfs; initrd_path := initrd; log_path := log;
     Bridge.boot_args := args; cpus := cpus; memory_mib := mem; read_only := ro;
     Bridge.network_mode := net; host_packet_interface := hpi; Bridge.mac := mac;
     Bridge.extra_drives := drives |}.

Lemma wp_vz_long_restore kernel rootfs initrd log args save cpus mem ro net hpi mac drives res Q b w :
  (forall h z a reply w', args_of (restore_spec kernel rootfs initrd log args cpus mem ro net hpi mac drives) a ->
     status reply = HbOk -> out reply = (h, z) ->
     Q (Ok (h, z)) b w' [Ev (HbLongRestore a save res) reply]) ->
  (forall e w' t, quiet t -> Q (Err e) b w' t) ->
  wp (vz_long_restore kernel rootfs initrd log args save cpus mem ro net hpi mac drives res) Q b w.
Proof.
  intros HOk HErr. unfold vz_long_restore.
  repeat (do 2 wp_step; match goal with |- match ?r with _ => _ end => destruct r eqn:? end;
          [|by apply HErr]).
  repeat match goal with
  | Hp : path_cstring _ _ = Ok _ |- _ => apply path_cstring_Ok in Hp as ->
  | Hp : opt_path_cstring _ _ = Ok _ |- _ => apply opt_path_cstring_Ok in Hp as ->
  | Hp : cstring _ = Ok _ |- _ => apply cstring_Ok in Hp as ->
  | Hp : opt_cstring _ = Ok _ |- _ => apply opt_cstring_Ok in Hp as ->
  end.
  apply wp_ffi.
  - intros reply w' Hr. destruct (out reply) as [h z] eqn:Eo. apply HOk; [|done..].
    unfold args_of; simpl. by split_and!; try apply drives_faithful.
  - intros reply e w' Hr. apply HErr. split_and!; [|done..].
    unfold created; simpl. unfold made. by destruct (status reply).
Qed.

Lemma wp_clone_file src dst Q b w :
  (forall w' t, quiet t -> Q (Ok tt) b w' t) -> (forall e w' t, quiet t -> Q (Err e) b w' t) ->
  wp (clone_file src dst) Q b w.
Proof.
  intros HOk HErr. unfold clone_file. do 4 wp_step. destruct a as [st|]; cbn [map_err]; [|by apply HErr].
  destruct (st =? 0); wp_step; [by apply HOk|by apply HErr].
Qed.

Lemma wp_restore_into_vm p slot log Q b w :
  (forall h z w' t, balance [] [] t [h] [] -> Q (Ok (h, z)) b w' t) ->
  (forall e w' t, quiet t -> Q (Err e) b w' t) ->
  wp (restore_into_vm p slot log) Q b w.
Proof.
  intros HOk HErr. unfold restore_into_vm. do 3 wp_step.
  apply wp_clone_file; [|intros e w1 t1 Ht1; apply HErr; auto with heph].
  intros w1 t1 Ht1. do 3 wp_step.
  assert (Htail : forall (r : Result (Handle * HbRestoreTimings) VmError) w2 t2,
    match r with Ok (h, _) => balance [] [] t2 [h] [] | Err _ => quiet t2 end ->
    wp (match r with
        | Ok (vm, vz) => ret (vm, {| clone_nanos := if a0 <=? u64_max then a0 else u64_max; vz := vz |})
        | Err err => do! ask (RemoveFile (slot_rootfs slot)) in fail (VmRestore err)
        end)
      (fun r2 b' w3 t3 => Q r2 b' w3 ([Ev InstantNow a] ++ t1 ++ [Ev (ElapsedNanos a) a0] ++ t2 ++ t3)) b w2).
  { intros [[h z]|e] w2 t2 Ht2.
    - wp_step. apply HOk. rewrite app_nil_r.
      repeat (eapply balance_app; [by apply balance_quiet|]). done.
    - do 3 wp_step. apply HErr. auto 10 with heph. }
  destruct (m_flavor (meta p)).
  - do 2 wp_step. destruct (m_initramfs (meta p)); cbn [ok_or].
    + wp_step. apply wp_vz_pool_restore; [intros h z w2 t2 Ht2|intros e w2 t2 Ht2];
        (eapply wp_mono; [exact (Htail (Ok (h, z)) w2 t2 Ht2) || exact (Htail (Err e) w2 t2 Ht2)|done]).
    + apply HErr. auto 10 with heph.
  - wp_step. apply wp_vz_stock_restore; [intros h z w2 t2 Ht2|intros e w2 t2 Ht2];
        (eapply wp_mono; [exact (Htail (Ok (h, z)) w2 t2 Ht2) || exact (Htail (Err e) w2 t2 Ht2)|done]).
Qed.

Lemma wp_drop_slot slot (Q : Result unit VmmBackendError -> VzBackend -> W -> Trace -> Prop) b w :
  (forall w' t, balance [] [lock_of (slot_path slot)] t [] [] -> Q (Ok tt) b w' t) ->
  wp (drop_slot slot) Q b w.
Proof. intros HQ. unfold drop_slot. do 3 wp_step. destruct a0. by apply HQ. Qed.
End PoolParts.
