(* ===== verification/BackendBoot.v ===== *)
(** * Booting: what starting a VM does to the backend

    The rules for the parts of [start_micro_vm] and [load_snapshot]: the
    responder, the bridge and its rollback, the pool's fast path, the cold
    boot.  Each rule gives the state and the ledger of every outcome. *)

From S2P Require Import Prelude RustStr Json World Bridge FcApi Pool Telemetry BackendState Backend Ledger.
Local Open Scope string_scope.
Local Open Scope Z_scope.
Local Open Scope list_scope.

(** ** Starting a VM *)

(** Nothing is running and nothing is held. *)
Definition ready (b : VzBackend) : Prop :=
  state b = NotStarted /\ vm b = None /\ vmnet_mmds b = None /\ vsock_bridge b = None /\
  pool_slot b = None /\ origin b = None.

(** The state with a VM installed. *)
Definition booted (h : Handle) (st : VmState) (o : RunOrigin) (resp : option Handle)
  (br : option VsockBridge) (slot : option ClaimedSlot) (b : VzBackend) : VzBackend :=
  set_origin (Some o) (set_state st (set_pool_slot slot (set_vm (Some h)
    (set_vsock_bridge br (set_vmnet_mmds resp b))))).

Definition bridge_of (b : VzBackend) (h : Handle) : option VsockBridge :=
  match vsock b with
  | Some cfg => Some {| vb_uds_path := uds_path cfg; vb_vm := h |}
  | None => None
  end.

Definition responder_of (b : VzBackend) (h : Handle) : option Handle :=
  if host_mmds b then Some h else None.

(** Only the metrics changed, and not the counts of requests. *)
Definition but_metrics (b b' : VzBackend) : Prop :=
  exists m, b' = set_metrics m b /\ ticks (metrics b) m.

Lemma but_metrics_refl b : but_metrics b b.
Proof. exists (metrics b). by rewrite set_metrics_id. Qed.

Lemma torn_down_booted h st o resp br slot b :
  ready b -> torn_down (booted h st o resp br slot b) = b.
Proof. destruct b. unfold ready. simpl. by intros (-> & -> & -> & -> & -> & ->). Qed.

Lemma booted_one_vm h st o resp br slot b :
  (forall h', resp = Some h' -> h' = h) -> (forall vb, br = Some vb -> vb_vm vb = h) ->
  one_vm (booted h st o resp br slot b).
Proof. intros Hr Hb. split; simpl; [intros h' ->|intros vb ->]; f_equal; [by rewrite Hr|by rewrite Hb]. Qed.

Lemma set_vmnet_none b : vmnet_mmds b = None -> set_vmnet_mmds None b = b.
Proof. destruct b. simpl. by intros ->. Qed.

Lemma set_bridge_none b : vsock_bridge b = None -> set_vsock_bridge None b = b.
Proof. destruct b. simpl. by intros ->. Qed.

(** The states the starting paths build step by step. *)
Lemma booted_direct h st o resp b :
  ready b ->
  set_origin (Some o) (set_state st (set_vm (Some h) (set_vm None (set_vmnet_mmds resp b)))) =
  booted h st o resp None None b.
Proof. destruct b. unfold ready. simpl. by intros (-> & -> & -> & -> & -> & ->). Qed.

Lemma booted_pool h slot b :
  ready b ->
  set_origin (Some FromPool) (set_state Running (set_pool_slot (Some slot) (set_pool_slot None
    (set_vm (Some h) (set_vm None b))))) =
  booted h Running FromPool None None (Some slot) b.
Proof. destruct b. unfold ready. simpl. by intros (-> & -> & -> & -> & -> & ->). Qed.

Section Start.
Context {W : Type} `{Outside W} `{Serde}.
Implicit Types (b : VzBackend) (w : W).

Lemma wp_start_vmnet_mmds h Q b w :
  vmnet_mmds b = None ->
  (forall w' t, quiet t -> Q (Ok tt) (set_vmnet_mmds (responder_of b h) b) w' t) ->
  (forall e w' t, quiet t -> Q (Err e) b w' t) ->
  wp (start_vmnet_mmds h) Q b w.
Proof.
  intros Hn HOk HErr. unfold start_vmnet_mmds, responder_start, responder_of in *. do 2 wp_step.
  destruct (host_mmds b) eqn:Eh; simpl.
  - destruct (bool_decide _); simpl; [|wp_step; auto with heph]. do 4 wp_step.
    destruct a as [[]|]; cbn [map_err]; [|by apply HErr].
    unfold put_vmnet_mmds. do 5 wp_step. rewrite Hn. do 2 wp_step. by apply HOk.
  - wp_step. specialize (HOk w [] quiet_nil).
    by rewrite set_vmnet_none in HOk.
Qed.

Lemma wp_start_vsock_bridge h Q b w :
  vm b = Some h -> vsock_bridge b = None ->
  (forall w' t, quiet t -> Q (Ok tt) (set_vsock_bridge (bridge_of b h) b) w' t) ->
  (forall e w' t, quiet t -> Q (Err e) b w' t) ->
  wp start_vsock_bridge Q b w.
Proof.
  intros Hv Hn HOk HErr. unfold start_vsock_bridge, bridge_of in *. do 2 wp_step.
  destruct (vsock b) as [cfg|] eqn:Ev.
  - wp_step. eapply wp_quietly; [apply quietly_refresh|]. intros r w1 t1 Ht1 _.
    destruct r as [[]|e]; [|by apply HErr]. do 4 wp_step. rewrite Hv. cbn [ok_or].
    wp_step. unfold bridge_start. do 6 wp_step.
    destruct a0 as [[]|e]; cbn [map_err]; [|apply HErr; auto 10 with heph].
    wp_step. unfold put_vsock_bridge. do 5 wp_step. rewrite Hn. do 2 wp_step. simpl.
    apply HOk. auto 10 with heph.
  - do 2 wp_step. eapply wp_quietly; [apply quietly_refresh|]. intros r w1 t1 Ht1 _. wp_step.
    specialize (HOk w1 (t1 ++ []) ltac:(auto with heph)).
    by rewrite set_bridge_none in HOk.
Qed.

(** Starting the bridge, or undoing the boot. *)
Lemma wp_bridge_or_abort h st o resp slot Q b w :
  ready b -> (forall h', resp = Some h' -> h' = h) ->
  (forall w' t, quiet t -> Q (Ok tt) (booted h st o resp (bridge_of b h) slot b) w' t) ->
  (forall e w' t, balance [h] ((fun s => lock_of (slot_path s)) <$> option_list slot) t [] [] ->
                  Q (Err e) b w' t) ->
  wp bridge_or_abort Q (booted h st o resp None slot b) w.
Proof.
  intros Hb Hr HOk HErr. unfold bridge_or_abort. do 2 wp_step.
  apply (wp_start_vsock_bridge h); [done..| |].
  - intros w1 t1 Ht1. wp_step. rewrite app_nil_r. by apply HOk.
  - intros e w1 t1 Ht1. wp_step. apply wp_abort_boot; [by apply booted_one_vm|].
    intros w2 t2 Ht2. wp_step. rewrite torn_down_booted by done. apply HErr.
    rewrite app_nil_r. eapply balance_app; [by apply balance_quiet|].
    apply (teardown_balance _ _ Ht2).
Qed.

Lemma wp_install_vm h st o Q b w :
  ready b ->
  (forall w' t, quiet t -> Q (Ok tt) (booted h st o (responder_of b h) (bridge_of b h) None b) w' t) ->
  (forall e w' t, balance [h] [] t [] [] -> Q (Err e) b w' t) ->
  wp (install_vm h st o) Q b w.
Proof.
  intros Hb HOk HErr. destruct Hb as (Hs & Hv & Hr & Hbr & Hp & Ho) eqn:Eb. unfold install_vm. do 2 wp_step.
  apply wp_start_vmnet_mmds; [done| |].
  - intros w1 t1 Ht1. wp_step. unfold put_vm. do 5 wp_step. cbn [vm set_vmnet_mmds]. rewrite Hv.
    do 7 wp_step. rewrite booted_direct by done.
    apply (wp_bridge_or_abort h st o (responder_of b h) None); [done| | |].
    + unfold responder_of. intros h'. destruct (host_mmds b); naive_solver.
    + intros w2 t2 Ht2. eapply wp_quietly; [apply quietly_initial_balloon|].
      intros r w3 t3 Ht3 [[] ->]. apply HOk. auto 10 with heph.
    + intros e w2 t2 Ht2. apply HErr. eapply balance_app; [by apply balance_quiet|].
      apply Ht2.
  - intros e w1 t1 Ht1. wp_step. apply wp_drop_arc.
    + intros Hh. unfold arc_held in Hh. rewrite Hv, Hr, Hbr in Hh. by destruct h.
    + intros _ u w2. wp_step. apply HErr. eapply balance_app; [by apply balance_quiet|].
      by split; simpl.
Qed.

Lemma ready_set_metrics m b : ready b -> ready (set_metrics m b).
Proof. done. Qed.

Lemma set_metrics_booted m' m h st o resp br slot b :
  set_metrics m' (booted h st o resp br slot (set_metrics m b)) = set_metrics m' (booted h st o resp br slot b).
Proof. by destruct b. Qed.

Lemma set_metrics_twice m' m b : set_metrics m' (set_metrics m b) = set_metrics m' b.
Proof. by destruct b. Qed.

(** The VM and its lock, as the pool's fast path ends with them. *)
Definition pool_booted (h : Handle) (slot : ClaimedSlot) (b : VzBackend) : VzBackend :=
  booted h Running FromPool None (bridge_of b h) (Some slot) b.

Lemma wp_try_pool p spec log Q b w :
  ready b ->
  (forall h slot m w' t, m_cpus (meta p) = spec_vcpu_count spec -> m_memory_mib (meta p) = spec_memory spec ->
     balance [] [] t [h] [lock_of (slot_path slot)] ->
     ticks (metrics b) m -> Q (Ok true) (set_metrics m (pool_booted h slot b)) w' t) ->
  (forall b' w' t, but_metrics b b' -> balance [] [] t [] [] -> Q (Ok false) b' w' t) ->
  (forall e b' w' t, but_metrics b b' -> balance [] [] t [] [] -> Q (Err e) b' w' t) ->
  wp (try_pool p spec log) Q b w.
Proof.
  intros Hb HHit HMiss HErr. unfold try_pool. wp_step.
  eapply wp_quietly; [apply quietly_canonicalize_spec|]. intros r w0 t0 Ht0 (spec' & -> & Hcpu & Hmem).
  do 2 wp_step. apply wp_try_claim.
  - intros slot w1 t1 Hmatch Ht1. unfold matches in Hmatch. rewrite !andb_true_iff, !Z.eqb_eq in Hmatch.
    destruct Hmatch as [[_ Hcpu'] Hmem']. do 2 wp_step. apply wp_restore_into_vm.
    + intros h z w2 t2 Ht2. wp_step. unfold put_vm. do 5 wp_step.
      destruct Hb as (Hs & Hv & Hr & Hbr & Hp & Ho) eqn:Eb. rewrite Hv. do 3 wp_step.
      unfold put_pool_slot. do 5 wp_step. cbn [pool_slot set_vm]. rewrite Hp. do 8 wp_step.
      cbv beta. rewrite booted_pool by done. wp_step.
      set (m := inc_pool_hits (metrics b)).
      assert (Hm : ticks (metrics b) m) by apply ticks_step.
      change (set_metrics _ _) with (booted h Running FromPool None None (Some slot) (set_metrics m b)).
      assert (Hheld : balance [] [] (t0 ++ t1 ++ t2) [h] [lock_of (slot_path slot)]).
      { eapply balance_app; [by apply balance_quiet|]. eapply balance_app; [exact Ht1|].
        exact (balance_frame [] [lock_of (slot_path slot)] _ _ _ _ _ Ht2). }
      apply (wp_bridge_or_abort h Running FromPool None (Some slot)); [by apply ready_set_metrics|done| |].
      * intros w3 t3 Ht3. wp_step. eapply wp_quietly; [apply quietly_initial_balloon|].
        intros r w4 t4 Ht4 [[] ->]. wp_step. apply wp_flush_metrics. intros m' w5 t5 Ht5 Hm'. wp_step.
        rewrite set_metrics_booted. apply (HHit h slot m'); [by rewrite Hcpu'|by rewrite Hmem'| |destruct Hm' as [->| ->]; [done|]; etrans; [exact Hm|apply ticks_step]].
        simpl. rewrite ?app_nil_r. rewrite (assoc_L (++)), (assoc_L (++)), <- (assoc_L (++) t0).
        eapply balance_app; [exact Hheld|]. apply balance_quiet. auto 10 with heph.
      * intros e w3 t3 Ht3. apply HErr; [by exists m|]. simpl. rewrite ?app_nil_r.
        rewrite (assoc_L (++)), (assoc_L (++)), <- (assoc_L (++) t0).
        eapply balance_app; [exact Hheld|exact Ht3].
    + intros e w2 t2 Ht2. wp_step. apply wp_drop_slot. intros w3 t3 Ht3. wp_step.
      apply HMiss; [apply but_metrics_refl|]. rewrite app_nil_r.
      eapply balance_app; [by apply balance_quiet|]. eapply balance_app; [exact Ht1|].
      eapply balance_app; [by apply balance_quiet|exact Ht3].
  - intros w1 t1 Ht1. do 3 wp_step. apply HMiss; [|rewrite ?app_nil_r; auto with heph].
    exists (inc_pool_misses (metrics b)). split; [done|]. apply ticks_step.
  - intros e w1 t1 Ht1. wp_step. apply HMiss; [apply but_metrics_refl|rewrite ?app_nil_r; auto with heph].
Qed.

(** The state after a boot from the configuration. *)
Definition direct_booted (h : Handle) (st : VmState) (o : RunOrigin) (b : VzBackend) : VzBackend :=
  booted h st o (responder_of b h) (bridge_of b h) None b.

(** The VM was built from this specification, and then started. *)
Definition built (spec : VzSpec) (h : Handle) (t : Trace) : Prop :=
  exists t1 args reply started t2,
    t = t1 ++ Ev (HbLongNew args) reply :: Ev (HbLongStart h) started :: t2 /\
    args_of spec args /\ status reply = HbOk /\ out reply = h /\ status started = HbOk.

(** What the configuration says of the VM. *)
Definition configured_spec (b : VzBackend) (boot : BootSourceConfig) (rootfs log : string) : VzSpec :=
  restore_spec (BootSource.kernel_image_path boot) rootfs (BootSource.initrd_path boot) log
    (default DEFAULT_KERNEL_CMDLINE (BootSource.boot_args boot))
    (Machine.vcpu_count (machine_config b)) (Machine.mem_size_mib (machine_config b))
    (root_drive_read_only b) (configured_network_mode b) (host_mmds b) (configured_mac b)
    (extra_drive_specs b).

Lemma built_app spec h t t' : built spec h t' -> built spec h (t ++ t').
Proof.
  intros (t1 & args & reply & started & t2 & -> & Hrest). exists (t ++ t1), args, reply, started, t2.
  by rewrite <- (assoc_L (++)).
Qed.

Lemma wp_cold_boot boot kernel rootfs log args cpu mem Q b w :
  ready b ->
  (forall h w' t, balance [] [] t [h] [] ->
     built (restore_spec kernel rootfs (BootSource.initrd_path boot) log args cpu mem (root_drive_read_only b)
              (configured_network_mode b) (host_mmds b) (configured_mac b) (extra_drive_specs b)) h t ->
     Q (Ok tt) (direct_booted h Running ColdBoot b) w' t) ->
  (forall e w' t, balance [] [] t [] [] -> Q (Err e) b w' t) ->
  wp (cold_boot boot kernel rootfs log args cpu mem) Q b w.
Proof.
  intros Hb HOk HErr. unfold cold_boot, build, VzVm_new. do 6 wp_step.
  match goal with |- match long_args ?s with _ => _ end => set (spec := s) end.
  replace (restore_spec _ _ _ _ _ _ _ _ _ _ _ _) with spec in HOk
    by (unfold spec; by destruct (BootSource.initrd_path boot)).
  destruct (long_args spec) as [args'|e] eqn:Ea;
    [apply long_args_faithful in Ea|apply HErr; apply balance_quiet; auto with heph].
  apply wp_ffi; [|intros a e w1 Ha; apply HErr; apply balance_quiet; split_and!;
    [unfold created; simpl; unfold made; by destruct (status a)|done..]].
  intros a w1 Ha. cbn [map_err]. do 2 wp_step.
  assert (Hnew : balance [] [] [Ev (HbLongNew args') a] [out a] []).
  { split; [|done]. unfold created. simpl. unfold made. by rewrite Ha. }
  apply wp_ffi.
  - intros a1 w2 Ha1. wp_step. apply wp_install_vm; [done| |].
    + intros w3 t3 Ht3. eapply wp_quietly; [apply quietly_log_info|]. intros r w4 t4 Ht4 [[] ->].
      apply HOk; [|by exists [], args', a, a1, (t3 ++ t4)]. eapply (balance_app _ _ [_]); [exact Hnew|].
      apply balance_quiet. auto 10 with heph.
    + intros e w3 t3 Ht3. apply HErr. eapply (balance_app _ _ [_]); [exact Hnew|].
      eapply (balance_app _ _ [_]); [by apply balance_quiet|exact Ht3].
  - intros a1 e w2 Ha1. wp_step. unfold drop_vm. do 2 wp_step. apply HErr.
    eapply (balance_app _ _ [_]); [exact Hnew|]. eapply (balance_app _ _ [_]); [by apply balance_quiet|done].
Qed.

(** Before boot, nothing is held; the configured balloon leaves memory. *)
Definition preboot_ready (b : VzBackend) : Prop := state b = NotStarted -> ready b.
Definition balloon_fits (b : VzBackend) : Prop :=
  forall c, balloon b = Some c -> Balloon.amount_mib c < Machine.mem_size_mib (machine_config b).

Lemma but_metrics_ready b b' : but_metrics b b' -> ready b -> ready b'.
Proof. intros (m & -> & _). apply ready_set_metrics. Qed.

Lemma memory_u64_Ok mem m : memory_u64 mem = Ok m -> m = mem.
Proof. unfold memory_u64. by destruct (mem <=? u64_max); intros; simplify_eq. Qed.

Lemma wp_start_micro_vm Q b w :
  preboot_ready b ->
  (forall h b0 w' t, ready b -> balloon_fits b -> but_metrics b b0 -> balance [] [] t [h] [] ->
     (exists boot rootfs log, boot_source b = Some boot /\ root_drive b = Some rootfs /\
        built (configured_spec b boot rootfs log) h t) ->
     Q (Ok tt) (direct_booted h Running ColdBoot b0) w' t) ->
  (forall h slot m w' t, ready b -> balloon_fits b -> ticks (metrics b) m ->
     balance [] [] t [h] [lock_of (slot_path slot)] ->
     (exists p, pool b = Some p /\ extra_drives b = [] /\ configured_network_mode b <> Vmnet /\
        m_cpus (meta p) = Machine.vcpu_count (machine_config b) /\
        m_memory_mib (meta p) = Machine.mem_size_mib (machine_config b)) ->
     Q (Ok tt) (set_metrics m (pool_booted h slot b)) w' t) ->
  (forall e b' w' t, but_metrics b b' -> balance [] [] t [] [] -> Q (Err e) b' w' t) ->
  wp start_micro_vm Q b w.
Proof.
  intros Hpre HCold HPool HErr.
  assert (HErr' : forall e w' t, quiet t -> Q (Err e) b w' t) by (auto using but_metrics_refl with heph).
  unfold start_micro_vm. wp_step. eapply wp_quietly; [apply quietly_require_preboot|].
  intros r w1 t1 Ht1 Hr. destruct r as [[]|e]; [|by apply HErr']. specialize (Hpre Hr).
  wp_step. eapply wp_quietly; [apply quietly_validate_configured|].
  intros r w2 t2 Ht2 Hbal. destruct r as [[]|e]; [|auto with heph].
  do 4 wp_step. destruct (boot_source b) as [boot|] eqn:Eboot; cbn [ok_or]; [|auto 10 with heph].
  do 2 wp_step. destruct (root_drive b) as [rootfs|] eqn:Eroot; cbn [ok_or]; [|auto 10 with heph].
  do 2 wp_step. destruct (memory_u64 _) as [memory|] eqn:Emem; [apply memory_u64_Ok in Emem as ->|auto 10 with heph].
  wp_step. eapply wp_quietly; [apply quietly_serial_log_path|]. intros r w3 t3 Ht3 [log ->]. wp_step.
  set (args := default _ _). set (memory := Machine.mem_size_mib (machine_config b)).
  assert (Hcold : forall b0 w4 t4, but_metrics b b0 -> balance [] [] (t1 ++ t2 ++ t3 ++ t4) [] [] ->
    wp (cold_boot boot (BootSource.kernel_image_path boot) rootfs log args
          (Machine.vcpu_count (machine_config b)) memory)
      (fun r2 b2 w5 t5 => Q r2 b2 w5 ((t1 ++ t2 ++ t3 ++ t4) ++ t5)) b0 w4).
  { intros b0 w4 t4 Hb0 Ht4. apply wp_cold_boot; [by eapply but_metrics_ready| |].
    - intros h w5 t5 Ht5 Hbuilt. apply HCold; [done..|by eapply balance_app|].
      exists boot, rootfs, log. split_and!; [done..|]. apply built_app. by destruct Hb0 as (m & -> & _).
    - intros e w5 t5 Ht5. apply HErr; [done|]. by eapply balance_app. }
  assert (Hskip : wp (cold_boot boot (BootSource.kernel_image_path boot) rootfs log args
      (Machine.vcpu_count (machine_config b)) memory)
      (fun r2 b2 w5 t5 => Q r2 b2 w5 (t1 ++ t2 ++ [] ++ [] ++ [] ++ [] ++ t3 ++ [] ++ t5)) b w3).
  { eapply wp_mono; [apply (Hcold b w3 []); [apply but_metrics_refl|apply balance_quiet; auto 10 with heph]|].
    intros r b2 w5 t5. by rewrite app_nil_r, <- !(assoc_L (++)). }
  destruct (extra_drives b) eqn:Ed, (pool b) as [p|] eqn:Ep; try (wp_step; exact Hskip).
  case_bool_decide as Hnet; cbn [negb]; [wp_step; exact Hskip|].
  apply wp_try_pool; [done| | |].
  - intros h slot m w4 t4 Hcpu Hmem Ht4 Hm. wp_step. simpl. rewrite app_nil_r.
    apply HPool; [done..| |by exists p].
    do 3 (eapply balance_app; [by apply balance_quiet|]). done.
  - intros b0 w4 t4 Hb0 Ht4. eapply wp_mono; [apply (Hcold b0 w4 t4 Hb0)|].
    + do 3 (eapply balance_app; [by apply balance_quiet|]). done.
    + intros r b2 w5 t5. simpl. by rewrite <- !(assoc_L (++)).
  - intros e b0 w4 t4 Hb0 Ht4. simpl. apply HErr; [done|].
    do 3 (eapply balance_app; [by apply balance_quiet|]). done.
Qed.

Lemma wp_load_snapshot params Q b w :
  preboot_ready b ->
  (forall h m w' t, ready b -> balloon_fits b -> ticks (metrics b) m ->
     balance [] [] t [h] [] ->
     (exists boot rootfs log t1 args reply t2, boot_source b = Some boot /\ root_drive b = Some rootfs /\
        t = t1 ++ Ev (HbLongRestore args (ls_snapshot_path params) (ls_resume_vm params)) reply :: t2 /\
        args_of (configured_spec b boot rootfs log) args /\ status reply = HbOk /\ fst (out reply) = h) ->
     Q (Ok tt) (set_metrics m (direct_booted h (if ls_resume_vm params then Running else Paused)
                                 SnapshotLoad b)) w' t) ->
  (forall e w' t, balance [] [] t [] [] -> Q (Err e) b w' t) ->
  wp (load_snapshot params) Q b w.
Proof.
  intros Hpre HOk HErr.
  assert (HErr' : forall e w' t, quiet t -> Q (Err e) b w' t) by auto with heph.
  unfold load_snapshot. wp_step. eapply wp_quietly; [apply quietly_require_preboot|].
  intros r w1 t1 Ht1 Hr. destruct r as [[]|e]; [|by apply HErr']. specialize (Hpre Hr).
  wp_step. eapply wp_quietly; [apply quietly_validate_configured|].
  intros r w2 t2 Ht2 Hbal. destruct r as [[]|e]; [|auto with heph].
  destruct (_ || _); [wp_step; auto 10 with heph|]. wp_step.
  eapply wp_quietly; [apply quietly_check_mem_backend|].
  intros r w2' t2' Ht2' _. destruct r as [[]|e]; [|auto 10 with heph].
  do 4 wp_step. destruct (boot_source b) as [boot|] eqn:Eboot; cbn [ok_or]; [|auto 10 with heph].
  do 2 wp_step. destruct (root_drive b) as [rootfs|] eqn:Eroot; cbn [ok_or]; [|auto 10 with heph].
  do 2 wp_step. destruct (memory_u64 _) as [memory|] eqn:Emem; [apply memory_u64_Ok in Emem as ->|auto 10 with heph].
  wp_step. eapply wp_quietly; [apply quietly_serial_log_path|]. intros r w3 t3 Ht3 [log ->].
  do 2 wp_step. apply wp_vz_long_restore; [|intros e w4 t4 Ht4; cbn [map_err]; auto 15 with heph].
  intros h z args reply w4 Hargs Hok Hout.
  set (t4 := [_]). assert (Ht4 : balance [] [] t4 [h] []).
  { split; [|done]. unfold created; simpl. unfold made. by rewrite Hok, Hout. }
  cbn [map_err]. wp_step. cbn [fst]. apply wp_install_vm; [done| |].
  - intros w5 t5 Ht5. do 3 wp_step. apply wp_flush_metrics. intros m' w6 t6 Ht6 Hm'.
    eapply wp_quietly; [apply quietly_log_info|]. intros r w7 t7 Ht7 [[] ->].
    rewrite set_metrics_twice. apply HOk; [done|done| | |].
    + destruct Hm' as [->| ->]; simpl; [apply ticks_step|].
      trans (inc_snapshot_loads (metrics b)); apply ticks_step.
    + simpl. do 4 (eapply balance_app; [by apply balance_quiet|]).
      eapply (balance_app _ _ t4); [exact Ht4|]. apply balance_quiet. auto 10 with heph.
    + eexists boot, rootfs, log, (t1 ++ t2 ++ t2' ++ t3), args, reply, _. split_and!; [done..| |done|done|by rewrite Hout].
      simpl. by rewrite <- !(assoc_L (++)).
  - intros e w5 t5 Ht5. simpl. apply HErr. do 4 (eapply balance_app; [by apply balance_quiet|]).
    eapply (balance_app _ _ t4); [exact Ht4|exact Ht5].
Qed.
End Start.
