(* ===== verification/BackendSpec.v ===== *)
(** * What each request does: the backend against its specification

    [effect] is the specification of a request, as a relation between the
    state before, the result and the state after: which field a successful
    request sets, and what a failed one leaves behind.  [exec_refines] shows
    that the code does this and nothing else, whatever the outside answers,
    and balances its ledger.  The invariant, the lifecycle and the isolation
    of failures follow from the specification alone. *)

From S2P Require Import Prelude RustStr Json World Bridge FcApi Pool Telemetry BackendState Backend Ledger BackendBoot.
Local Open Scope string_scope.
Local Open Scope Z_scope.
Local Open Scope list_scope.

(** ** The specification *)

Definition preboot (b : VzBackend) : Prop := state b = NotStarted.

(** The request set one field before boot, or failed without a trace. *)
Definition sets (b : VzBackend) (res : Result unit VmmBackendError) (b' : VzBackend)
  (P : VzBackend -> Prop) : Prop :=
  match res with
  | Ok _ => preboot b /\ P b'
  | Err _ => b' = b
  end.

(** A drive list with one drive set: replaced where it is, else last. *)
Definition drive_set (id path : string) (ro : bool) (ds : list ExtraDrive) : list ExtraDrive :=
  if existsb (fun d => String.eqb (xd_id d) id) ds
  then (fun d => if String.eqb (xd_id d) id then {| xd_id := id; xd_path := path; xd_read_only := ro |}
                 else d) <$> ds
  else ds ++ [{| xd_id := id; xd_path := path; xd_read_only := ro |}].

(** The logger after a request: its fields updated where the request has
    them. *)
Definition logger_set (cfg : LoggerConfig) (level : LogLevel) (l : LoggerState) : LoggerState :=
  {| lg_path := match l_log_path cfg with Some p => Some p | None => lg_path l end;
     lg_level := level;
     lg_show_level := default (lg_show_level l) (l_show_level cfg);
     lg_show_log_origin := default (lg_show_log_origin l) (l_show_log_origin cfg);
     lg_module := match l_module cfg with
                  | Some m => if str_is_empty m then None else Some m
                  | None => lg_module l
                  end |}.

Definition published (v : Value) (b : VzBackend) : VzBackend :=
  set_mmds_shared {| poisoned := false; cell := v |} (set_mmds v b).

Definition flushed (b b' : VzBackend) : Prop := b' = b \/ b' = set_metrics (inc_flush (metrics b)) b.

Definition with_amount (n : Z) (c : BalloonDeviceConfig) : BalloonDeviceConfig :=
  {| Balloon.amount_mib := n; Balloon.deflate_on_oom := Balloon.deflate_on_oom c;
     Balloon.stats_polling_interval_s := Balloon.stats_polling_interval_s c |}.

Definition patched (u : MachineUpdate.MachineConfigUpdate) (c : MachineConfig) : MachineConfig :=
  {| Machine.vcpu_count := default (Machine.vcpu_count c) (MachineUpdate.vcpu_count u);
     Machine.mem_size_mib := default (Machine.mem_size_mib c) (MachineUpdate.mem_size_mib u);
     Machine.smt := default (Machine.smt c) (MachineUpdate.smt u);
     Machine.cpu_template := Machine.cpu_template c;
     Machine.track_dirty_pages := default (Machine.track_dirty_pages c) (MachineUpdate.track_dirty_pages u);
     Machine.huge_pages := default (Machine.huge_pages c) (MachineUpdate.huge_pages u) |}.

Definition machine_ok (c : MachineConfig) : Prop :=
  1 <= Machine.vcpu_count c <= MAX_SUPPORTED_VCPUS /\ Machine.mem_size_mib c <> 0 /\
  Machine.cpu_template c = None.

(** The transition of each request. *)
Definition effect (r : Request) (b : VzBackend) (res : Result unit VmmBackendError) (b' : VzBackend) : Prop :=
  match r with
  | ConfigureBootSource cfg => sets b res b' (eq (set_boot_source (Some cfg) b))
  | InsertBlockDevice cfg =>
      sets b res b' (fun b' => exists path, Drive.path_on_host cfg = Some path /\
        let ro := default false (Drive.is_read_only cfg) in
        if Drive.is_root_device cfg
        then b' = set_root_drive_read_only ro (set_root_drive (Some path) b)
        else b' = set_extra_drives (drive_set (Drive.drive_id cfg) path ro (extra_drives b)) b)
  | UpdateBlockDevice cfg =>
      sets b res b' (fun b' => match DriveUpdate.path_on_host cfg with
        | None => b' = b
        | Some path =>
            match find (fun d => String.eqb (xd_id d) (DriveUpdate.drive_id cfg)) (extra_drives b) with
            | Some d => b' = set_extra_drives (drive_set (DriveUpdate.drive_id cfg) path (xd_read_only d)
                                                 (extra_drives b)) b
            | None => b' = set_root_drive (Some path) b
            end
        end)
  | InsertNetworkDevice cfg => sets b res b' (eq (set_iface (Some cfg) b))
  | UpdateNetworkDevice _ => res = Ok tt /\ b' = b
  | ConfigureLogger cfg =>
      match res with
      | Ok _ => exists level,
          match l_level cfg with Some s => level_parse s = Ok level | None => level = lg_level (logger b) end /\
          b' = set_logger (logger_set cfg level (logger b)) b
      | Err _ => b' = b \/ exists l, l_log_path cfg = Some l /\
                   b' = set_logger (logger_set {| l_log_path := Some l; l_level := None; l_show_level := None;
                          l_show_log_origin := None; l_module := None |} (lg_level (logger b)) (logger b)) b
      end
  | ConfigureMetrics cfg =>
      match res with
      | Ok _ => flushed (set_metrics (with_file (metrics_path cfg) (metrics b)) b) b'
      | Err _ => b' = b
      end
  | PutMmds data => b' = published data b /\ (vm b = None -> res = Ok tt)
  | PatchMmds data => b' = published (merge_json (mmds b) data) b /\ (vm b = None -> res = Ok tt)
  | ConfigureMmds cfg =>
      sets b res b' (fun b' => (forall a, ipv4_address cfg = Some a -> validate_mmds_link_local_addr a = Ok tt) /\
                               b' = set_mmds_config cfg b)
  | ConfigureVsock cfg =>
      sets b res b' (fun b' => 3 <= guest_cid cfg /\ uds_path cfg <> "" /\ b' = set_vsock (Some cfg) b)
  | PutMachineConfig cfg =>
      sets b res b' (fun b' => machine_ok cfg /\ b' = set_machine_config cfg b)
  | PatchMachineConfig u =>
      sets b res b' (fun b' => MachineUpdate.is_empty u = false /\ MachineUpdate.cpu_template u = None /\
                               machine_ok (patched u (machine_config b)) /\
                               b' = set_machine_config (patched u (machine_config b)) b)
  | ConfigureEntropy => sets b res b' (eq b)
  | ConfigureBalloon cfg =>
      sets b res b' (fun b' => Balloon.stats_polling_interval_s cfg = 0 /\ b' = set_balloon (Some cfg) b)
  | UpdateBalloon cfg =>
      (match res with Ok _ => False | Err _ => b' = b end) \/
      exists c, balloon b = Some c /\
        (live b = true -> update_amount_mib cfg < Machine.mem_size_mib (machine_config b)) /\
        b' = set_balloon (Some (with_amount (update_amount_mib cfg) c)) b /\
        (live b = false -> res = Ok tt)
  | SendCtrlAltDel => b' = b /\ (res = Ok tt -> state b = Running)
  | StartMicroVm =>
      match res with
      | Ok _ => ready b /\ balloon_fits b /\ exists m, ticks (metrics b) m /\
          ((exists h, b' = set_metrics m (direct_booted h Running ColdBoot b)) \/
           (exists h slot, b' = set_metrics m (pool_booted h slot b)))
      | Err _ => but_metrics b b'
      end
  | CreateSnapshot params =>
      b' = b /\ (res = Ok tt -> state b = Paused /\ cs_snapshot_type params = Full /\
                               origin b <> None /\ origin b <> Some FromPool)
  | LoadSnapshot params =>
      match res with
      | Ok _ => ready b /\ balloon_fits b /\ exists h m, ticks (metrics b) m /\
          b' = set_metrics m (direct_booted h (if ls_resume_vm params then Running else Paused) SnapshotLoad b)
      | Err _ => b' = b
      end
  | Pause =>
      match res with
      | Ok _ => state b <> NotStarted /\ b' = set_state Paused b
      | Err _ => b' = b
      end
  | Resume =>
      match res with
      | Ok _ => state b <> NotStarted /\ b' = set_state Running b
      | Err _ => b' = b
      end
  | FlushMetrics => res = Ok tt /\ flushed b b'
  | ObserveRequest _ m p st =>
      res = Ok tt /\ flushed (set_metrics (count_request m p st (metrics b)) b) b'
  end.

(** ** The invariant *)

Record wf (b : VzBackend) : Prop := {
  wf_state : state b = NotStarted <-> vm b = None;
  wf_origin : origin b = None <-> vm b = None;
  wf_slot : is_Some (pool_slot b) <-> origin b = Some FromPool;
  wf_one_vm : one_vm b;
  wf_bridge : forall vb, vsock_bridge b = Some vb -> exists c, vsock b = Some c /\ vb_uds_path vb = uds_path c;
  wf_bridge_up : is_Some (vm b) -> is_Some (vsock b) -> is_Some (vsock_bridge b);
  wf_responder_up : is_Some (vm b) -> host_mmds b = true -> origin b <> Some FromPool ->
                    is_Some (vmnet_mmds b);
  wf_machine : machine_ok (machine_config b);
  wf_mem : 0 <= Machine.mem_size_mib (machine_config b) <= usize_max;
  wf_vsock : forall c, vsock b = Some c -> 3 <= guest_cid c /\ uds_path c <> "";
  wf_balloon : forall c, balloon b = Some c ->
    u32_range (Balloon.amount_mib c) /\ Balloon.stats_polling_interval_s c = 0 /\
    (is_Some (vm b) -> Balloon.amount_mib c < Machine.mem_size_mib (machine_config b));
  wf_drives : NoDup (xd_id <$> extra_drives b);
  wf_mmds : wf_value (mmds b) = true;
  wf_shared : mmds_shared b = {| poisoned := false; cell := mmds b |};
  wf_mmds_addr : forall a, ipv4_address (mmds_config b) = Some a -> validate_mmds_link_local_addr a = Ok tt;
  wf_mac_addr : forall i m, iface b = Some i -> Net.guest_mac i = Some m -> wf_mac m;
  wf_logger : lg_module (logger b) <> Some "";
  wf_counts : wf_metrics (metrics b) }.

(** What the types of the wire structures say of a request. *)
Definition wf_request (r : Request) : Prop :=
  match r with
  | InsertNetworkDevice cfg => forall m, Net.guest_mac cfg = Some m -> wf_mac m
  | PutMmds v | PatchMmds v => wf_value v = true
  | PutMachineConfig c =>
      u8_range (Machine.vcpu_count c) /\ 0 <= Machine.mem_size_mib c <= usize_max
  | PatchMachineConfig u =>
      (forall n, MachineUpdate.vcpu_count u = Some n -> u8_range n) /\
      (forall n, MachineUpdate.mem_size_mib u = Some n -> 0 <= n <= usize_max)
  | ConfigureBalloon c => u32_range (Balloon.amount_mib c)
  | UpdateBalloon c => u32_range (update_amount_mib c)
  | _ => True
  end.

Lemma wf_ready b : wf b -> preboot_ready b.
Proof.
  intros Hb Hs. pose proof (proj1 (wf_state _ Hb) Hs) as Hv.
  pose proof (proj2 (wf_origin _ Hb) Hv) as Ho. unfold ready. split_and!; try done.
  - destruct (vmnet_mmds b) eqn:E; [|done]. apply (wf_one_vm _ Hb) in E. congruence.
  - destruct (vsock_bridge b) eqn:E; [|done]. apply (wf_one_vm _ Hb) in E. congruence.
  - destruct (pool_slot b) eqn:E; [|done].
    assert (is_Some (pool_slot b)) as Hs'%(wf_slot _ Hb) by (by rewrite E). congruence.
Qed.

(** ** Drives *)

Lemma no_drive id ds :
  id ∉ xd_id <$> ds -> existsb (fun d => String.eqb (xd_id d) id) ds = false /\
  forall f, (fun d => if String.eqb (xd_id d) id then f d else d) <$> ds = ds.
Proof.
  induction ds as [|d ds IH]; [done|]. rewrite fmap_cons, not_elem_of_cons. intros [Hd Hds].
  destruct (IH Hds) as [He Hm]. simpl. destruct (String.eqb_spec (xd_id d) id) as [<-|]; [done|].
  split; [done|]. intros f. simpl. f_equal. apply Hm.
Qed.

(** Updating the first drive with an id is updating the drive with that id. *)
Lemma update_drive_spec id f ds :
  NoDup (xd_id <$> ds) ->
  update_drive id f ds =
    if existsb (fun d => String.eqb (xd_id d) id) ds
    then Some ((fun d => if String.eqb (xd_id d) id then f d else d) <$> ds) else None.
Proof.
  induction ds as [|d ds IH]; [done|]. rewrite fmap_cons, NoDup_cons. intros [Hd Hds]. simpl.
  destruct (String.eqb_spec (xd_id d) id) as [<-|Hne]; simpl.
  - f_equal. f_equal. symmetry. by apply no_drive.
  - rewrite IH by done. by destruct (existsb _ ds).
Qed.

Lemma find_existsb (f : ExtraDrive -> bool) ds :
  existsb f ds = match find f ds with Some _ => true | None => false end.
Proof. induction ds as [|d ds IH]; [done|]. simpl. by destruct (f d). Qed.

Lemma find_id id ds d : find (fun d => String.eqb (xd_id d) id) ds = Some d -> xd_id d = id.
Proof. intros [_ H]%find_some. by apply String.eqb_eq. Qed.

Lemma drive_set_replace id path ds d :
  NoDup (xd_id <$> ds) -> find (fun d => String.eqb (xd_id d) id) ds = Some d ->
  (fun d => if String.eqb (xd_id d) id then {| xd_id := xd_id d; xd_path := path; xd_read_only := xd_read_only d |}
            else d) <$> ds = drive_set id path (xd_read_only d) ds.
Proof.
  intros Hn Hf. unfold drive_set. rewrite find_existsb, Hf.
  revert d Hf. induction ds as [|d0 ds IH]; intros d Hf; [done|].
  rewrite fmap_cons, NoDup_cons in Hn. destruct Hn as [Hd0 Hn]. rewrite !fmap_cons. simpl in Hf.
  destruct (String.eqb_spec (xd_id d0) id) as [<-|Hne].
  - simplify_eq. f_equal. destruct (no_drive _ _ Hd0) as [_ Hm]. by rewrite !Hm.
  - f_equal. by apply IH.
Qed.

Lemma drive_set_ids id path ro ds :
  xd_id <$> drive_set id path ro ds =
    if existsb (fun d => String.eqb (xd_id d) id) ds then xd_id <$> ds else (xd_id <$> ds) ++ [id].
Proof.
  unfold drive_set. destruct (existsb _ ds); [|by rewrite fmap_app].
  rewrite <- list_fmap_compose. apply list_fmap_ext. intros _ d _. simpl.
  by destruct (String.eqb_spec (xd_id d) id) as [<-|].
Qed.

Lemma drive_set_nodup id path ro ds :
  NoDup (xd_id <$> ds) -> NoDup (xd_id <$> drive_set id path ro ds).
Proof.
  intros Hn. rewrite drive_set_ids. destruct (existsb _ ds) eqn:E; [done|].
  apply NoDup_app. split_and!; [done| |apply NoDup_singleton].
  intros x Hx ->%list_elem_of_singleton. apply list_elem_of_fmap in Hx as (d & -> & Hd).
  apply not_true_iff_false in E. apply E. apply existsb_exists. exists d.
  rewrite <- list_elem_of_In. split; [done|apply String.eqb_refl].
Qed.

(** ** The code refines the specification *)

Section Refines.
Context {W : Type} `{Outside W} `{Serde}.
Implicit Types (b : VzBackend) (w : W).

(** The specification's transition, with nothing created or released. *)
Definition does (r : Request) b (res : Result unit VmmBackendError) b' (t : Trace) : Prop :=
  effect r b res b' /\ quiet t /\ vm b' = vm b /\ pool_slot b' = pool_slot b.

(** The first step of the requests allowed only before boot. *)
Ltac preboot_first :=
  wp_step; (eapply wp_quietly; [apply quietly_require_preboot|]);
  let r := fresh "r" in let w1 := fresh "w1" in let t1 := fresh "t1" in
  intros r w1 t1 ? ?; destruct r as [[]|?]; [|by split_and!].

Ltac does_done := split_and!; simpl; split_and?; auto 10 with heph.

Lemma configure_boot_source_does cfg b w :
  wp (configure_boot_source cfg) (fun res b' _ t => does (ConfigureBootSource cfg) b res b' t) b w.
Proof. unfold configure_boot_source. preboot_first. do 2 wp_step. destruct a; simpl; wp_step; does_done. Qed.

Lemma insert_block_device_does cfg b w :
  NoDup (xd_id <$> extra_drives b) ->
  wp (insert_block_device cfg) (fun res b' _ t => does (InsertBlockDevice cfg) b res b' t) b w.
Proof.
  intros Hn. unfold insert_block_device. preboot_first. do 2 wp_step.
  destruct (Drive.path_on_host cfg) as [path|] eqn:Ep; cbn [ok_or]; [|does_done].
  do 2 wp_step. destruct a; simpl; [|wp_step; does_done].
  destruct (Drive.is_root_device cfg) eqn:Er.
  - do 3 wp_step. does_done. exists path. by rewrite Er.
  - do 2 wp_step. rewrite update_drive_spec by done.
    assert (Heff : forall ds, ds = drive_set (Drive.drive_id cfg) path (default false (Drive.is_read_only cfg))
                                     (extra_drives b) ->
              effect (InsertBlockDevice cfg) b (Ok tt) (set_extra_drives ds b)).
    { intros ds ->. split; [done|]. exists path. by rewrite Er. }
    unfold drive_set in Heff. destruct (existsb _ _); wp_step; does_done; apply Heff; [|done].
    apply list_fmap_ext. intros _ d _. by destruct (String.eqb_spec (xd_id d) (Drive.drive_id cfg)) as [<-|].
Qed.

Lemma update_block_device_does cfg b w :
  NoDup (xd_id <$> extra_drives b) ->
  wp (update_block_device cfg) (fun res b' _ t => does (UpdateBlockDevice cfg) b res b' t) b w.
Proof.
  intros Hn. unfold update_block_device. preboot_first.
  destruct (DriveUpdate.path_on_host cfg) as [path|] eqn:Ep; [|wp_step; does_done; by rewrite Ep].
  do 2 wp_step. destruct a; simpl; [|wp_step; does_done]. do 2 wp_step.
  rewrite update_drive_spec, find_existsb by done.
  destruct (find _ _) as [d|] eqn:Ef; wp_step; does_done; rewrite Ep, Ef; [|done].
  by rewrite (drive_set_replace _ _ _ d).
Qed.

Lemma configure_mmds_does cfg b w :
  wp (configure_mmds cfg) (fun res b' _ t => does (ConfigureMmds cfg) b res b' t) b w.
Proof.
  unfold configure_mmds. preboot_first. wp_step. destruct (ipv4_address cfg) as [a|] eqn:Ea.
  - wp_step. destruct (validate_mmds_link_local_addr a) as [[]|] eqn:Ev; [|does_done].
    wp_step. does_done. intros; congruence.
  - do 2 wp_step. does_done. intros; congruence.
Qed.

Lemma configure_vsock_does cfg b w :
  wp (configure_vsock cfg) (fun res b' _ t => does (ConfigureVsock cfg) b res b' t) b w.
Proof.
  unfold configure_vsock. preboot_first. destruct (Z.ltb_spec (guest_cid cfg) 3); [wp_step; does_done|].
  destruct (uds_path cfg) eqn:Eu; simpl; wp_step; does_done. by rewrite Eu.
Qed.

Lemma put_machine_config_does cfg b w :
  0 <= Machine.vcpu_count cfg ->
  wp (put_machine_config cfg) (fun res b' _ t => does (PutMachineConfig cfg) b res b' t) b w.
Proof.
  intros Hv. unfold put_machine_config. preboot_first.
  destruct (Z.eqb_spec (Machine.vcpu_count cfg) 0); [wp_step; does_done|].
  destruct (Z.ltb_spec MAX_SUPPORTED_VCPUS (Machine.vcpu_count cfg)); [wp_step; does_done|].
  destruct (Z.eqb_spec (Machine.mem_size_mib cfg) 0); [wp_step; does_done|].
  destruct (Machine.cpu_template cfg) eqn:Ec; wp_step; does_done. unfold machine_ok. split_and!; auto; lia.
Qed.

Lemma patch_machine_config_does u b w :
  (forall n, MachineUpdate.vcpu_count u = Some n -> 0 <= n) -> machine_ok (machine_config b) ->
  wp (patch_machine_config u) (fun res b' _ t => does (PatchMachineConfig u) b res b' t) b w.
Proof.
  intros Hn Hok. unfold patch_machine_config. preboot_first.
  destruct (MachineUpdate.is_empty u) eqn:Ee; [wp_step; does_done|]. do 2 wp_step.
  destruct (MachineUpdate.cpu_template u) eqn:Ec; [wp_step; does_done|].
  eapply wp_mono; [apply put_machine_config_does|].
  - simpl. destruct (MachineUpdate.vcpu_count u) eqn:Ev; simpl; [by apply Hn|]. unfold machine_ok in Hok. lia.
  - intros res b' w' t (He & Hq & Hv & Hp). does_done. destruct res; simpl in *; naive_solver.
Qed.

Lemma configure_balloon_does cfg b w :
  wp (configure_balloon cfg) (fun res b' _ t => does (ConfigureBalloon cfg) b res b' t) b w.
Proof.
  unfold configure_balloon. preboot_first.
  destruct (Z.eqb_spec (Balloon.stats_polling_interval_s cfg) 0); simpl; wp_step; does_done.
Qed.

Lemma update_balloon_does cfg b w :
  wp (update_balloon cfg) (fun res b' _ t => does (UpdateBalloon cfg) b res b' t) b w.
Proof.
  unfold update_balloon. do 2 wp_step. destruct (balloon b) as [c|] eqn:Ec; [|wp_step; does_done].
  wp_step. destruct (live b) eqn:El.
  - eapply wp_quietly; [apply quietly_validate_balloon|]. intros r w1 t1 Ht1 Hr.
    destruct r as [[]|e]; [|does_done]. do 2 wp_step.
    eapply wp_quietly; [apply quietly_apply_balloon|]. intros r w2 t2 Ht2 _. does_done.
    right. exists c. split_and!; try done. congruence.
  - do 4 wp_step. does_done. right. exists c. split_and!; try done. congruence.
Qed.

Lemma set_logger_id b : set_logger (logger b) b = b.
Proof. by destruct b. Qed.

Lemma wp_logger_flags cfg Q b w :
  Q (Ok tt) (set_logger (logger_set {| l_log_path := None; l_level := None; l_show_level := l_show_level cfg;
      l_show_log_origin := l_show_log_origin cfg; l_module := l_module cfg |} (lg_level (logger b)) (logger b)) b)
    w [] ->
  wp (logger_flags cfg) Q b w.
Proof.
  intros HQ. unfold logger_flags, set_logger_field, logger_set in *. destruct b. simpl in *.
  destruct (l_show_level cfg), (l_show_log_origin cfg), (l_module cfg), logger; wp_run; exact HQ.
Qed.

Lemma configure_logger_does cfg b w :
  wp (configure_logger cfg) (fun res b' _ t => does (ConfigureLogger cfg) b res b' t) b w.
Proof.
  unfold configure_logger, logger_path, logger_level, set_logger_field. wp_step.
  assert (Hend : forall w1 t1 l1 level,
    quiet t1 -> match l_level cfg with Some s => level_parse s = Ok level | None => level = lg_level (logger b) end ->
    logger_set {| l_log_path := None; l_level := None; l_show_level := l_show_level cfg;
      l_show_log_origin := l_show_log_origin cfg; l_module := l_module cfg |} (lg_level l1) l1
    = logger_set cfg level (logger b) ->
    wp (do! logger_flags cfg in
        log_info "api_server::request::logger" "The logger was configured successfully.")
      (fun res b' _ t => does (ConfigureLogger cfg) b res b' (t1 ++ t)) (set_logger l1 b) w1).
  { intros w1 t1 l1 level Ht1 Hl Hs. wp_step. apply wp_logger_flags.
    eapply wp_quietly; [apply quietly_log_info|]. intros r w2 t2 Ht2 [[] ->]. does_done.
    exists level. split; [done|]. simpl in Hs. by rewrite <- Hs. }
  destruct (l_log_path cfg) as [path|] eqn:Ep.
  - do 4 wp_step. destruct a as [[]|]; cbn [map_err]; [|does_done]. do 2 wp_step.
    destruct (l_level cfg) as [lv|] eqn:El.
    + do 2 wp_step. destruct (level_parse lv) as [level|] eqn:Elv; [|does_done; right; by exists path].
      wp_step. eapply wp_mono; [apply (Hend _ [Ev (OpenAppend path) (Ok tt)] _ level)|]; [done..| |done].
      unfold logger_set. by rewrite Ep.
    + wp_step. eapply wp_mono; [apply (Hend _ [Ev (OpenAppend path) (Ok tt)] _ (lg_level (logger b)))|]; [done..| |done].
      unfold logger_set. by rewrite Ep.
  - do 2 wp_step. destruct (l_level cfg) as [lv|] eqn:El.
    + do 2 wp_step. destruct (level_parse lv) as [level|] eqn:Elv; [|does_done].
      wp_step. eapply wp_mono; [apply (Hend _ [] _ level)|]; [done..| |done].
      unfold logger_set. by rewrite Ep.
    + wp_step. pose proof (Hend w [] (logger b) (lg_level (logger b))) as He.
      rewrite set_logger_id in He. eapply wp_mono; [apply He|]; [done..| |done].
      unfold logger_set. by rewrite Ep.
Qed.

Lemma flush_metrics_does b w Q :
  (forall b' w' t, quiet t -> flushed b b' -> Q (Ok tt) b' w' t) -> wp flush_metrics Q b w.
Proof.
  intros HQ. apply wp_flush_metrics. intros m' w' t Ht [->| ->]; apply HQ; try done; [|by right].
  left. by rewrite set_metrics_id.
Qed.

Lemma configure_metrics_does cfg b w :
  wp (configure_metrics cfg) (fun res b' _ t => does (ConfigureMetrics cfg) b res b' t) b w.
Proof.
  unfold configure_metrics. do 4 wp_step. destruct a as [[]|]; cbn [map_err]; [|does_done].
  do 2 wp_step. apply flush_metrics_does. intros b' w2 t2 Ht Hf. does_done; by destruct Hf as [->| ->].
Qed.

Lemma observe_request_does id m p st b w :
  wp (observe_request id m p st) (fun res b' _ t => does (ObserveRequest id m p st) b res b' t) b w.
Proof.
  unfold observe_request. do 5 wp_step.
  assert (Hend : forall w1 t1, quiet t1 ->
    wp flush_metrics (fun res b' _ t => does (ObserveRequest id m p st) b res b' (t1 ++ t))
      (set_metrics (count_request m p st (metrics b)) b) w1).
  { intros w1 t1 Ht1. apply flush_metrics_does. intros b' w2 t2 Ht Hf.
    does_done; by destruct Hf as [->| ->]. }
  destruct (enabled _ _).
  - eapply wp_quietly; [apply quietly_write_log|]. intros r w1 t1 Ht1 [[] ->]. by apply Hend.
  - wp_step. by apply (Hend w []).
Qed.

(** Storing the document and serving it to the VM. *)
Lemma publish_does v b w Q :
  mmds b = v -> poisoned (mmds_shared b) = false ->
  (forall res w' t, quiet t -> (vm b = None -> res = Ok tt) -> Q res (published v b) w' t) ->
  wp (do! publish_mmds in refresh_mmds_vsock_service) Q b w.
Proof.
  intros Hv Hp HQ. unfold publish_mmds. do 3 wp_step. rewrite Hp. wp_step.
  assert (Hpub : set_mmds_shared {| poisoned := false; cell := mmds b |} b = published v b).
  { destruct b. simpl in *. by subst. }
  rewrite Hpub. destruct (vm b) as [h|] eqn:Evm.
  - eapply wp_quietly; [apply quietly_refresh|]. intros r w' t Ht _. by apply HQ.
  - unfold refresh_mmds_vsock_service. do 2 wp_step. cbn [vm published set_mmds_shared set_mmds].
    rewrite Evm. wp_step. by apply HQ.
Qed.

Lemma put_mmds_does v b w :
  poisoned (mmds_shared b) = false ->
  wp (put_mmds v) (fun res b' _ t => does (PutMmds v) b res b' t) b w.
Proof.
  intros Hp. unfold put_mmds. do 2 wp_step. eapply (publish_does v); [done..|].
  intros res w' t Ht Hr. does_done.
Qed.

Lemma patch_mmds_does v b w :
  poisoned (mmds_shared b) = false ->
  wp (patch_mmds v) (fun res b' _ t => does (PatchMmds v) b res b' t) b w.
Proof.
  intros Hp. unfold patch_mmds. do 2 wp_step. eapply (publish_does (merge_json (mmds b) v)); [done..|].
  intros res w' t Ht Hr. does_done.
Qed.

(** A request that passes the VM one bridge call and then logs. *)
Lemma ffi_then_log {A} (c : Call (FfiReply A)) f o m (Q : Result unit VmmBackendError -> VzBackend -> W -> Trace -> Prop) b w :
  (forall a, quiet [Ev c a]) ->
  (forall w' t, quiet t -> Q (Ok tt) (f b) w' t) -> (forall e w' t, quiet t -> Q (Err e) b w' t) ->
  wp (do! with_err internal (ffi c) in do! modify f in log_info o m) Q b w.
Proof.
  intros Hc HOk HErr. do 2 wp_step. apply wp_ffi; [|intros a e w1 _; by apply HErr].
  intros a w1 _. cbn [map_err]. do 2 wp_step. eapply wp_quietly; [apply quietly_log_info|].
  intros r w2 t2 Ht2 [[] ->]. apply HOk. auto with heph.
Qed.

Lemma set_state_id b st : state b = st -> set_state st b = b.
Proof. destruct b. simpl. by intros ->. Qed.

Lemma pause_does b w : wp pause (fun res b' _ t => does Pause b res b' t) b w.
Proof.
  unfold pause, vm_pause. do 2 wp_step. destruct (state b) eqn:Es; [wp_step; does_done| |].
  - wp_step. does_done; [congruence|]. by rewrite set_state_id.
  - do 2 wp_step. destruct (vm b) as [h|] eqn:Ev; cbn [ok_or]; [|does_done].
    apply ffi_then_log; [done|intros; does_done; congruence|intros; does_done].
Qed.

Lemma resume_does b w : wp resume (fun res b' _ t => does Resume b res b' t) b w.
Proof.
  unfold resume, vm_resume. do 2 wp_step. destruct (state b) eqn:Es; [wp_step; does_done| |].
  - do 2 wp_step. destruct (vm b) as [h|] eqn:Ev; cbn [ok_or]; [|does_done].
    apply ffi_then_log; [done|intros; does_done; congruence|intros; does_done].
  - wp_step. does_done; [congruence|]. by rewrite set_state_id.
Qed.

Lemma send_ctrl_alt_del_does b w :
  wp send_ctrl_alt_del (fun res b' _ t => does SendCtrlAltDel b res b' t) b w.
Proof.
  unfold send_ctrl_alt_del, vm_request_stop. do 2 wp_step.
  destruct (state b) eqn:Es; [wp_step; does_done; congruence..|].
  do 2 wp_step. destruct (vm b) as [h|] eqn:Ev; cbn [ok_or]; [|does_done]. do 2 wp_step.
  apply wp_ffi; [|intros a e w1 _; does_done]. intros a w1 _. cbn [map_err].
  eapply wp_quietly; [apply quietly_log_info|]. intros r w2 t2 Ht2 [[] ->]. does_done.
Qed.

Lemma create_snapshot_does params b w :
  wp (create_snapshot params) (fun res b' _ t => does (CreateSnapshot params) b res b' t) b w.
Proof.
  unfold create_snapshot, vm_save_state. do 2 wp_step.
  destruct (state b) eqn:Es; [wp_step; does_done; congruence| |wp_step; does_done; congruence].
  destruct (cs_snapshot_type params) eqn:Et; [wp_step; does_done; congruence|].
  assert (Hsave : origin b <> None -> origin b <> Some FromPool ->
    wp (let! h := lift (ok_or (vm b) (Internal "Paused state without a VM handle")) in
        do! with_err internal (let! save_c := lift (path_cstring (cs_snapshot_path params) "save") in
                               ffi (HbLongSave h save_c)) in
        let! r := ask (OpenTruncate (cs_mem_file_path params)) in
        lift (map_err (fun e => InvalidConfig ("cannot touch mem_file_path "
                +:+ Utf8.from_utf8_lossy (cs_mem_file_path params) +:+ ": " +:+ e)) r))
      (fun res b' _ t => does (CreateSnapshot params) b res b' t) b w).
  { intros Ho1 Ho2. do 2 wp_step. destruct (vm b) as [h|]; cbn [ok_or]; [|does_done]. do 4 wp_step.
    destruct (path_cstring _ _) as [sc|]; cbn [map_err]; [|does_done].
    apply wp_ffi; [|intros a e w1 _; does_done]. intros a w1 _. cbn [map_err]. do 3 wp_step. does_done. }
  destruct (origin b) as [[]|] eqn:Eo; [by apply Hsave|wp_step; does_done; congruence|by apply Hsave|].
  wp_step; does_done; congruence.
Qed.

(** The specification's transition, and its ledger. *)
Definition refines (r : Request) b (res : Result unit VmmBackendError) b' (t : Trace) : Prop :=
  effect r b res b' /\ balance (vms b) (slot_locks b) t (vms b') (slot_locks b').

Lemma does_refines r b res b' t : does r b res b' t -> refines r b res b' t.
Proof.
  intros (He & Hq & Hv & Hp). split; [done|]. unfold vms, slot_locks. rewrite Hv, Hp.
  by apply balance_quiet.
Qed.

Lemma balance_any V L t : balance [] [] t [] [] -> balance V L t V L.
Proof. apply (balance_frame V L). Qed.

Lemma ready_holds b : ready b -> vms b = [] /\ slot_locks b = [].
Proof. intros (_ & Hv & _ & _ & Hp & _). unfold vms, slot_locks. by rewrite Hv, Hp. Qed.

Lemma start_micro_vm_refines b w :
  wf b -> wp start_micro_vm (fun res b' _ t => refines StartMicroVm b res b' t) b w.
Proof.
  intros Hb. apply wp_start_micro_vm; [by apply wf_ready| | |].
  - intros h b0 w' t Hr Hf (m & -> & Hm) Ht _. destruct (ready_holds _ Hr) as [Hv Hl]. split.
    + simpl. split_and!; [done..|]. exists m. split; [done|]. left. exists h. by destruct b.
    + by rewrite Hv, Hl.
  - intros h slot m w' t Hr Hf Hm Ht _. destruct (ready_holds _ Hr) as [Hv Hl]. split.
    + simpl. split_and!; [done..|]. exists m. split; [done|]. right. by exists h, slot.
    + by rewrite Hv, Hl.
  - intros e b' w' t Hb' Ht. split; [done|]. destruct Hb' as (m & -> & _). by apply balance_any.
Qed.

Lemma load_snapshot_refines params b w :
  wf b -> wp (load_snapshot params) (fun res b' _ t => refines (LoadSnapshot params) b res b' t) b w.
Proof.
  intros Hb. apply wp_load_snapshot; [by apply wf_ready| |].
  - intros h m w' t Hr Hf Hm Ht _. destruct (ready_holds _ Hr) as [Hv Hl]. split.
    + simpl. split_and!; [done..|]. by exists h, m.
    + by rewrite Hv, Hl.
  - intros e w' t Ht. split; [done|]. by apply balance_any.
Qed.

Lemma exec_refines r b w :
  wf b -> wf_request r -> wp (exec r) (fun res b' _ t => refines r b res b' t) b w.
Proof.
  intros Hb Hr. assert (Hp : poisoned (mmds_shared b) = false) by (by rewrite (wf_shared _ Hb)).
  destruct r; cbn [exec]; try (by apply start_micro_vm_refines); try (by apply load_snapshot_refines);
    (eapply wp_mono; [|intros res b' w' t; apply does_refines]).
  - apply configure_boot_source_does.
  - apply insert_block_device_does, Hb.
  - apply update_block_device_does, Hb.
  - unfold insert_network_device. preboot_first. wp_step. does_done.
  - unfold update_network_device. wp_step. does_done.
  - apply configure_logger_does.
  - apply configure_metrics_does.
  - by apply put_mmds_does.
  - by apply patch_mmds_does.
  - apply configure_mmds_does.
  - apply configure_vsock_does.
  - apply put_machine_config_does. destruct Hr as [Hr _]. unfold u8_range in Hr. lia.
  - apply patch_machine_config_does; [|apply Hb]. intros n Hn. pose proof (proj1 Hr n Hn) as Hu.
    unfold u8_range in Hu. lia.
  - eapply wp_quietly; [apply quietly_require_preboot|]. intros res w' t Ht Hp'.
    destruct res as [[]|]; does_done.
  - apply configure_balloon_does.
  - apply update_balloon_does.
  - apply send_ctrl_alt_del_does.
  - apply create_snapshot_does.
  - apply pause_does.
  - apply resume_does.
  - apply flush_metrics_does. intros b' w' t Ht Hf. does_done; by destruct Hf as [->| ->].
  - apply observe_request_does.
Qed.
End Refines.

(** ** The specification preserves the invariant *)

Ltac wf_fields :=
  match goal with Hb : wf _ |- wf _ => destruct Hb; constructor; simpl in *; eauto end.

Lemma wf_set_metrics m b : wf b -> wf_metrics m -> wf (set_metrics m b).
Proof. intros Hb Hm. wf_fields. Qed.

Lemma wf_booted h st o resp br slot b :
  wf b -> ready b -> balloon_fits b -> st <> NotStarted -> (is_Some slot <-> o = FromPool) ->
  br = bridge_of b h -> (resp = responder_of b h \/ o = FromPool /\ resp = None) ->
  wf (booted h st o resp br slot b).
Proof.
  intros Hb Hr Hf Hst Hslot -> Hresp. pose proof (wf_vsock _ Hb) as Hvs. pose proof (wf_balloon _ Hb) as Hbal.
  unfold bridge_of, responder_of in *. destruct Hb. constructor; simpl in *; try done.
  - rewrite Hslot. split; congruence.
  - split; simpl.
    + intros h' Hh. destruct Hresp as [->|[_ ->]]; [|done]. by destruct (host_mmds b); simplify_eq.
    + intros vb. destruct (vsock b); intros; simplify_eq; done.
  - intros vb. destruct (vsock b) as [c|]; intros; simplify_eq. by exists c.
  - intros _ [c Hc]. rewrite Hc. eauto.
  - intros _ Hh Ho. destruct Hresp as [->|[-> _]]; [|done]. rewrite Hh. eauto.
  - intros c Hc. destruct (Hbal c Hc) as (? & ? & _). split_and!; [done..|]. intros _. by apply Hf.
Qed.

Lemma wf_direct_booted h st o b :
  wf b -> ready b -> balloon_fits b -> st <> NotStarted -> o <> FromPool -> wf (direct_booted h st o b).
Proof. intros. apply wf_booted; auto. split; [by intros [? ?]|done]. Qed.

Lemma wf_pool_booted h slot b :
  wf b -> ready b -> balloon_fits b -> wf (pool_booted h slot b).
Proof.
  intros Hb Hr Hf. unfold pool_booted. apply wf_booted; [exact Hb|exact Hr|exact Hf|discriminate| |reflexivity|].
  - split; [reflexivity|eauto].
  - right. split; reflexivity.
Qed.

Lemma wf_published v b : wf b -> wf_value v = true -> wf (published v b).
Proof. intros Hb Hv. wf_fields. Qed.

(** Before boot no VM is there to depend on what is set. *)
Lemma preboot_no_vm b : wf b -> preboot b -> vm b = None.
Proof. intros Hb Hs. by apply (wf_state _ Hb). Qed.

Lemma wf_set_machine cfg b :
  wf b -> preboot b -> machine_ok cfg -> 0 <= Machine.mem_size_mib cfg <= usize_max ->
  wf (set_machine_config cfg b).
Proof.
  intros Hb Hp Hc Hm. pose proof (preboot_no_vm _ Hb Hp) as Hv. pose proof (wf_balloon _ Hb) as Hbal.
  wf_fields. intros c Hc'. destruct (Hbal c Hc') as (? & ? & _). rewrite Hv.
  split_and!; [done..|]. by intros [? ?].
Qed.

Lemma flushed_wf b b' : wf b -> flushed b b' -> wf b'.
Proof.
  intros Hb [->| ->]; [done|]. apply wf_set_metrics; [done|]. apply wf_metrics_step, Hb.
Qed.
Lemma wf_new id now : wf (new id now).
Proof.
  constructor; simpl; try done; try (by intros [? ?]); try (split; intros; simplify_eq; done).
  constructor.
Qed.

(** The invariant is kept by every transition of the specification. *)
Lemma effect_wf r b res b' : wf b -> wf_request r -> effect r b res b' -> wf b'.
Proof.
  intros Hb Hr He.
  assert (Hsets : forall P, sets b res b' P ->
    (preboot b -> vm b = None -> P b' -> wf b') -> wf b').
  { intros P Hs HP. unfold sets in Hs. destruct res; [|by subst].
    destruct Hs as [Hpre HP']. apply HP; [done|by apply preboot_no_vm|done]. }
  destruct r; cbn [effect] in He.
  - apply (Hsets _ He). intros _ _ <-. wf_fields.
  - apply (Hsets _ He). intros _ _ (path & _ & Hp). destruct (Drive.is_root_device cfg); subst b'; wf_fields.
    by apply drive_set_nodup.
  - apply (Hsets _ He). intros _ _ Hp. destruct (DriveUpdate.path_on_host cfg); [|by subst].
    destruct (find _ _); subst b'; wf_fields. by apply drive_set_nodup.
  - apply (Hsets _ He). intros _ _ <-. wf_fields. intros i m Hi Hm. simplify_eq. by apply Hr.
  - by destruct He as [_ ->].
  - pose proof (wf_logger _ Hb) as Hlg. destruct res.
    + destruct He as (level & _ & ->). wf_fields.
      destruct (l_module cfg) as [m|]; [|done]. destruct m; simpl; congruence.
    + destruct He as [->|(l & _ & ->)]; [done|]. wf_fields.
  - destruct res; [|by subst]. eapply flushed_wf; [|exact He].
    apply wf_set_metrics; [done|]. apply wf_metrics_step, Hb.
  - destruct He as [-> _]. by apply wf_published.
  - destruct He as [-> _]. apply wf_published; [done|]. apply merge_json_wf; [apply Hb|done].
  - apply (Hsets _ He). intros _ _ [Ha ->]. wf_fields.
  - apply (Hsets _ He). intros Hp Hv (Hc & Hu & ->).
    pose proof (wf_ready _ Hb Hp) as (_ & _ & _ & Hbr & _). destruct Hb. constructor; simpl in *; try done.
    + intros vb Hvb. congruence.
    + rewrite Hv. by intros [? ?].
    + intros c Hc'. simplify_eq. done.
  - apply (Hsets _ He). intros Hp _ [Hc ->]. apply wf_set_machine; [done..|]. apply Hr.
  - apply (Hsets _ He). intros Hp _ (_ & _ & Hc & ->). apply wf_set_machine; [done..|]. simpl.
    destruct (MachineUpdate.mem_size_mib update) eqn:E; simpl; [by apply Hr|apply Hb].
  - apply (Hsets _ He). by intros _ _ <-.
  - apply (Hsets _ He). intros _ Hv [Hs ->]. wf_fields. intros c Hc. simplify_eq. rewrite Hv.
    split_and!; [done..|]. by intros [? ?].
  - destruct He as [He|(c & Hc & Hl & -> & _)]; [destruct res; [done|by subst]|].
    pose proof (wf_balloon _ Hb c Hc) as (_ & Hs & _). pose proof (wf_state _ Hb) as Hst.
    wf_fields. intros c' Hc'. simplify_eq. simpl. split_and!; [done..|]. intros [h Hh]. apply Hl.
    unfold live. destruct (state b); [|done..]. by rewrite (proj1 Hst eq_refl) in Hh.
  - by destruct He as [-> _].
  - destruct res; [|by destruct He as (m & -> & Hm); apply wf_set_metrics; [done|apply Hm, Hb]].
    destruct He as (Hrd & Hf & m & Hm & [[h ->]|(h & slot & ->)]);
      (apply wf_set_metrics; [|apply Hm, Hb]); [by apply wf_direct_booted|by apply wf_pool_booted].
  - by destruct He as [-> _].
  - destruct res; [|by subst]. destruct He as (Hrd & Hf & h & m & Hm & ->).
    apply wf_set_metrics; [|apply Hm, Hb]. apply wf_direct_booted; try done. by destruct (ls_resume_vm params).
  - destruct res; [|by subst]. destruct He as [Hs ->]. pose proof (wf_state _ Hb) as Hst. wf_fields.
    split; [done|]. intros Hv. by apply Hst in Hv.
  - destruct res; [|by subst]. destruct He as [Hs ->]. pose proof (wf_state _ Hb) as Hst. wf_fields.
    split; [done|]. intros Hv. by apply Hst in Hv.
  - destruct He as [_ He]. by eapply flushed_wf.
  - destruct He as [_ He]. eapply flushed_wf; [|exact He].
    apply wf_set_metrics; [done|]. apply count_request_wf, Hb.
Qed.
