(* ===== verification/BackendProps.v ===== *)
(** * Properties of the backend

    A daemon serves requests one after the other: every handler runs under
    the mutex of the backend, so a history of the daemon is a list of
    requests, whatever connections they came from.  Every run of the code is
    a run of the specification [steps]; the invariant, the ledger of VMs and
    locks, the lifecycle and the document the guest sees follow for whole
    histories, against any outside. *)

From S2P Require Import Prelude RustStr Json World Bridge FcApi Pool Telemetry BackendState Backend Ledger BackendBoot BackendSpec.
Local Open Scope string_scope.
Local Open Scope Z_scope.
Local Open Scope list_scope.

Abbreviation Reply := (Result unit VmmBackendError).

(** The backend as [main] assembles it. *)
Definition assemble (id : string) (now : Z) (vmnet host : bool) (p : option Pool) : VzBackend :=
  let b := with_host_mmds host (with_vmnet_networking vmnet (new id now)) in
  match p with Some p => with_pool p b | None => b end.

(** Requests served in turn; a failed one does not stop the daemon. *)
Section Daemon.
Context {W : Type} `{Outside W} `{Serde}.

Fixpoint serve (rs : list Request) : M W VzBackend VmmBackendError (list Reply) :=
  match rs with
  | [] => ret []
  | r :: rs =>
      let! res := attempt (exec r) in
      let! rest := serve rs in
      ret (res :: rest)
  end.

(** A whole life: the requests, then the drop of the backend. *)
Definition life (rs : list Request) : M W VzBackend VmmBackendError (list Reply) :=
  let! rest := serve rs in
  do! drop_backend in
  ret rest.
End Daemon.

(** ** The specification's runs *)

Inductive steps : list Request -> VzBackend -> list Reply -> VzBackend -> Prop :=
| steps_nil b : steps [] b [] b
| steps_cons r rs b res b1 rest b2 :
    effect r b res b1 -> steps rs b1 rest b2 -> steps (r :: rs) b (res :: rest) b2.

(** The phases of a VM, and what each request does to them. *)
Inductive Phase := Idle | Up (running : bool) (o : RunOrigin).

Definition phase (b : VzBackend) : Phase :=
  match state b, origin b with
  | Running, Some o => Up true o
  | Paused, Some o => Up false o
  | _, _ => Idle
  end.

(** Requests that are served in every phase, and those that configure the
    machine before it starts. *)
Definition anytime (r : Request) : bool :=
  match r with
  | UpdateNetworkDevice _ | ConfigureLogger _ | ConfigureMetrics _ | PutMmds _ | PatchMmds _
  | UpdateBalloon _ | FlushMetrics | ObserveRequest _ _ _ _ => true
  | _ => false
  end.
Definition configures (r : Request) : bool :=
  match r with
  | ConfigureBootSource _ | InsertBlockDevice _ | UpdateBlockDevice _ | InsertNetworkDevice _
  | ConfigureMmds _ | ConfigureVsock _ | PutMachineConfig _ | PatchMachineConfig _ | ConfigureEntropy
  | ConfigureBalloon _ => true
  | _ => false
  end.

Inductive moves : Phase -> Request -> Reply -> Phase -> Prop :=
| moves_start o : o <> SnapshotLoad -> moves Idle StartMicroVm (Ok tt) (Up true o)
| moves_load params : moves Idle (LoadSnapshot params) (Ok tt) (Up (ls_resume_vm params) SnapshotLoad)
| moves_pause running o : moves (Up running o) Pause (Ok tt) (Up false o)
| moves_resume running o : moves (Up running o) Resume (Ok tt) (Up true o)
| moves_snapshot params o :
    o <> FromPool -> cs_snapshot_type params = Full ->
    moves (Up false o) (CreateSnapshot params) (Ok tt) (Up false o)
| moves_ctrl_alt_del o : moves (Up true o) SendCtrlAltDel (Ok tt) (Up true o)
| moves_configure r : configures r = true -> moves Idle r (Ok tt) Idle
| moves_anytime r p : anytime r = true -> moves p r (Ok tt) p
| moves_fail p r e : moves p r (Err e) p.

(** Successful boots of a history. *)
Definition boots_of (r : Request) (res : Reply) : nat :=
  match r, res with
  | StartMicroVm, Ok _ | LoadSnapshot _, Ok _ => 1
  | _, _ => 0
  end.
Fixpoint boots (rs : list Request) (results : list Reply) : nat :=
  match rs, results with
  | r :: rs, res :: results => boots_of r res + boots rs results
  | _, _ => 0
  end.

(** What the requests make of the MMDS document. *)
Definition mmds_after (v : Value) (r : Request) : Value :=
  match r with
  | PutMmds d => d
  | PatchMmds d => merge_json v d
  | _ => v
  end.

(** Failures of these leave everything as it was. *)
Definition all_or_nothing (r : Request) : bool :=
  match r with
  | ConfigureLogger _ | PutMmds _ | PatchMmds _ | UpdateBalloon _ | StartMicroVm => false
  | _ => true
  end.

(** ** Lemmas on the specification *)

Lemma wf_assemble id now vmnet host p : wf (assemble id now vmnet host p).
Proof. pose proof (wf_new id now) as Hb. unfold assemble. destruct p; wf_fields. Qed.

Lemma phase_vm b : wf b -> phase b = Idle <-> vm b = None.
Proof.
  intros Hb. pose proof (wf_state _ Hb) as Hs. pose proof (wf_origin _ Hb) as Ho. unfold phase.
  destruct (state b), (origin b), (vm b); naive_solver.
Qed.

Lemma flushed_phase b b' : flushed b b' -> phase b' = phase b.
Proof. by intros [->| ->]. Qed.

Lemma ready_idle b : ready b -> phase b = Idle.
Proof. intros (Hs & _). unfold phase. by rewrite Hs. Qed.

Lemma sets_moves r b res b' P :
  configures r = true -> sets b res b' P -> (P b' -> phase b' = phase b) -> moves (phase b) r res (phase b').
Proof.
  intros Hr Hs HP. destruct res as [[]|e]; [|rewrite Hs; constructor].
  destruct Hs as [Hp HP']. rewrite (HP HP'). unfold phase. rewrite Hp. by constructor.
Qed.

Lemma up_phase b : wf b -> state b <> NotStarted -> exists running o,
  phase b = Up running o /\ origin b = Some o /\ (running = true <-> state b = Running).
Proof.
  intros Hb Hs. pose proof (wf_state _ Hb) as Hst. pose proof (wf_origin _ Hb) as Ho. unfold phase.
  destruct (state b); [done|..]; destruct (origin b) as [o|] eqn:E; try (naive_solver); eauto 10.
Qed.

Lemma effect_moves r b res b' : wf b -> effect r b res b' -> moves (phase b) r res (phase b').
Proof.
  intros Hb He. destruct r; cbn [effect] in He;
    try (eapply sets_moves; [done|exact He|]; cbv beta; unfold phase; naive_solver).
  - eapply sets_moves; [done|exact He|]. intros (path & _ & Hp). by destruct (Drive.is_root_device cfg); subst.
  - eapply sets_moves; [done|exact He|]. destruct (DriveUpdate.path_on_host cfg); [|by intros ->].
    destruct (find _ _); by intros ->.
  - destruct He as [-> ->]. by constructor.
  - destruct res as [[]|]; [destruct He as (l & _ & ->); by constructor|].
    destruct He as [->|(l & _ & ->)]; constructor.
  - destruct res as [[]|]; [|subst; constructor]. apply flushed_phase in He. rewrite He. by constructor.
  - destruct He as [-> _]. destruct res as [[]|]; by constructor.
  - destruct He as [-> _]. destruct res as [[]|]; by constructor.
  - destruct He as [He|(c & _ & _ & -> & _)]; destruct res as [[]|]; try done; subst; by constructor.
  - destruct He as [-> He]. destruct res as [[]|]; [|constructor]. specialize (He eq_refl).
    destruct (up_phase b Hb) as (running & o & -> & _ & Hr); [congruence|].
    rewrite (proj2 Hr He). constructor.
  - destruct res as [[]|]; [|destruct He as (m & -> & _); constructor].
    destruct He as (Hr & _ & m & _ & [(h & ->)|(h & slot & ->)]); rewrite (ready_idle _ Hr); by constructor.
  - destruct He as [-> He]. destruct res as [[]|]; [|constructor]. destruct (He eq_refl) as (Hs & Ht & _ & Ho).
    destruct (up_phase b Hb) as (running & o & -> & Ho' & Hr); [congruence|].
    destruct running; [by rewrite (proj1 Hr eq_refl) in Hs|]. constructor; [congruence|done].
  - destruct res as [[]|]; [|subst; constructor]. destruct He as (Hr & _ & h & m & _ & ->).
    rewrite (ready_idle _ Hr). pose proof (moves_load params) as Hl. unfold phase; simpl.
    by destruct (ls_resume_vm params).
  - destruct res as [[]|]; [|subst; constructor]. destruct He as [Hs ->].
    destruct (up_phase b Hb Hs) as (running & o & -> & Ho & _). unfold phase; simpl. rewrite Ho. constructor.
  - destruct res as [[]|]; [|subst; constructor]. destruct He as [Hs ->].
    destruct (up_phase b Hb Hs) as (running & o & -> & Ho & _). unfold phase; simpl. rewrite Ho. constructor.
  - destruct He as [-> He]. rewrite (flushed_phase _ _ He). by constructor.
  - destruct He as [-> He]. rewrite (flushed_phase _ _ He). by constructor.
Qed.

Lemma steps_wf rs b results b' : steps rs b results b' -> wf b -> Forall wf_request rs -> wf b'.
Proof.
  induction 1 as [|r rs b res b1 rest b2 He _ IH]; intros Hb Hrs; [done|].
  inversion Hrs; subst. eapply IH; [|done]. by eapply effect_wf.
Qed.

(** A boot leaves the idle phase, and nothing enters it again. *)
Definition up (b : VzBackend) : nat := match phase b with Idle => 0 | Up _ _ => 1 end.

Lemma moves_boots r b res b' :
  moves (phase b) r res (phase b') -> (up b + boots_of r res)%nat = up b'.
Proof.
  unfold up, boots_of. intros Hm. inversion Hm; subst; try done; try (by destruct r);
    destruct (phase b'); try done; by destruct r.
Qed.

Lemma steps_boots rs b results b' :
  steps rs b results b' -> wf b -> Forall wf_request rs -> (up b + boots rs results)%nat = up b'.
Proof.
  induction 1 as [b|r rs b res b1 rest b2 He _ IH]; intros Hb Hrs; simpl; [lia|].
  inversion Hrs; subst. pose proof (effect_moves _ _ _ _ Hb He) as Hm. apply moves_boots in Hm.
  rewrite <- IH; [lia| |done]. by eapply effect_wf.
Qed.

Lemma flushed_mmds b b' : flushed b b' -> mmds b' = mmds b.
Proof. by intros [->| ->]. Qed.

Lemma sets_mmds b res b' P : sets b res b' P -> (P b' -> mmds b' = mmds b) -> mmds b' = mmds b.
Proof. destruct res; [intros [_ HP]; auto|by intros ->]. Qed.

Lemma effect_mmds r b res b' : effect r b res b' -> mmds b' = mmds_after (mmds b) r.
Proof.
  intros He. destruct r; cbn [effect] in He; simpl;
    try (eapply sets_mmds; [exact He|]; cbv beta; naive_solver);
    try (destruct He as [He ?]; by subst); try (by destruct res; naive_solver).
  - eapply sets_mmds; [exact He|]. intros (path & _ & Hp). by destruct (Drive.is_root_device cfg); subst.
  - eapply sets_mmds; [exact He|]. destruct (DriveUpdate.path_on_host cfg); [|by intros ->].
    destruct (find _ _); by intros ->.
  - destruct res; [by apply flushed_mmds in He|by subst].
  - destruct res; [|by destruct He as (m & -> & _)].
    destruct He as (_ & _ & m & _ & [(h & ->)|(h & slot & ->)]); done.
  - destruct He as [_ He]. by apply flushed_mmds in He.
  - destruct He as [_ He]. by apply flushed_mmds in He.
Qed.

Section Runs.
Context {W : Type} `{Outside W} `{Serde}.
Implicit Types (b : VzBackend) (w : W).

(** Every run of the daemon is a run of the specification. *)
Lemma wp_serve rs b w :
  wf b -> Forall wf_request rs ->
  wp (serve rs) (fun out b' _ t => exists results, out = Ok results /\ steps rs b results b' /\
                   balance (vms b) (slot_locks b) t (vms b') (slot_locks b')) b w.
Proof.
  revert b w. induction rs as [|r rs IH]; intros b w Hb Hrs; cbn [serve].
  - wp_step. exists []. split_and!; [done|constructor|auto with heph].
  - inversion Hrs; subst. do 2 wp_step. eapply wp_mono; [by apply exec_refines|].
    intros res b1 w1 t1 [He Ht1]. wp_step.
    eapply wp_mono; [apply IH; [by eapply effect_wf|done]|].
    intros out b2 w2 t2 (results & -> & Hs & Ht2). wp_step.
    exists (res :: results). rewrite app_nil_r. split_and!; [done|by econstructor|by eapply balance_app].
Qed.

Lemma wp_life rs b w :
  wf b -> Forall wf_request rs ->
  wp (life rs) (fun out b' _ t => exists results, out = Ok results /\
                  balance (vms b) (slot_locks b) t [] []) b w.
Proof.
  intros Hb Hrs. unfold life. wp_step. eapply wp_mono; [by apply wp_serve|].
  intros out b1 w1 t1 (results & -> & Hs & Ht1). wp_step.
  apply wp_drop_backend; [by apply (steps_wf _ _ _ _ Hs)|]. intros w2 t2 Ht2. wp_step.
  exists results. rewrite app_nil_r. split; [done|]. eapply balance_app; [exact Ht1|].
  by apply teardown_balance.
Qed.
End Runs.

(** ** Properties *)

Section Properties.
Context {W : Type} `{Outside W} `{Serde}.
Implicit Types (b : VzBackend) (w : W).

(** C1: Every request does what the specification [effect] says and nothing
    else: the fields a success sets, the state a failure leaves, and VMs and
    slot locks that are all accounted for, whatever the operating system and
    the framework answer. *)
Theorem request_refines r b w res b' w' t :
  wf b -> wf_request r -> exec r b w = (res, b', w', t) ->
  effect r b res b' /\ balance (vms b) (slot_locks b) t (vms b') (slot_locks b').
Proof. intros Hb Hr. apply (wp_result _ _ _ _ _ _ _ _ (exec_refines r b w Hb Hr)). Qed.

(** C2: From the backend that [main] assembles, every sequence of requests
    is answered in full and leads to a state in which the invariant holds: a
    VM is there exactly when the state says so, the helper threads hold that
    VM, the limits of the machine are respected, drive ids are unique, and
    the document served to the guest is the one the API stored. *)
Theorem daemon_invariant id now vmnet host p rs w out b' w' t :
  Forall wf_request rs ->
  serve rs (assemble id now vmnet host p) w = (out, b', w', t) ->
  wf b' /\ exists results, out = Ok results /\ length results = length rs.
Proof.
  intros Hrs E. pose proof (wf_assemble id now vmnet host p) as Hb.
  destruct (wp_result _ _ _ _ _ _ _ _ (wp_serve rs _ w Hb Hrs) E) as (results & -> & Hs & _).
  split; [by eapply steps_wf|]. exists results. split; [done|].
  clear E Hb Hrs. induction Hs; simpl; auto.
Qed.

(** C3: No VM and no slot lock is leaked or released twice by the backend: over
    a life of the daemon, from its assembly to its drop, the handles it frees
    are exactly those the framework created, and the locks it releases are
    exactly those granted, also when requests fail halfway.  This counts the
    references that the backend itself holds (its VM, its vsock bridge and
    its metadata responder), so it holds as stated when no client of the
    vsock bridge is in its handshake at the moment the backend lets a VM go;
    such a client keeps the VM for the rest of its handshake, and its thread
    frees it then instead ([vm_outlives_its_users] and [vm_freed_in_the_end]
    model those threads). *)
Theorem daemon_ledger id now vmnet host p rs w out b' w' t :
  Forall wf_request rs ->
  life rs (assemble id now vmnet host p) w = (out, b', w', t) ->
  created t ≡ₚ freed t /\ locked t ≡ₚ unlocked t.
Proof.
  intros Hrs E. pose proof (wf_assemble id now vmnet host p) as Hb.
  destruct (wp_result _ _ _ _ _ _ _ _ (wp_life rs _ w Hb Hrs) E) as (results & _ & Ht).
  unfold balance, vms, slot_locks in Ht. rewrite !app_nil_r in Ht. by destruct p.
Qed.

(** C8: The phases of the VM follow the lifecycle: it starts once, from the
    idle phase, by a boot, a pool slot or a snapshot; pausing and resuming
    move between its two live phases; a snapshot is taken only while paused
    and never of a pool VM; no request stops it, and no failure moves it. *)
Theorem lifecycle r b w res b' w' t :
  wf b -> wf_request r -> exec r b w = (res, b', w', t) -> moves (phase b) r res (phase b').
Proof.
  intros Hb Hr E. destruct (wp_result _ _ _ _ _ _ _ _ (exec_refines r b w Hb Hr) E) as [He _].
  by apply effect_moves.
Qed.

(** In any history a daemon boots at most one VM, and it holds a VM at
    the end exactly when one boot succeeded. *)
Theorem boots_at_most_once id now vmnet host p rs w results b' w' t :
  Forall wf_request rs ->
  serve rs (assemble id now vmnet host p) w = (Ok results, b', w', t) ->
  boots rs results = length (vms b').
Proof.
  intros Hrs E. pose proof (wf_assemble id now vmnet host p) as Hb.
  destruct (wp_result _ _ _ _ _ _ _ _ (wp_serve rs _ w Hb Hrs) E) as (? & [= <-] & Hs & _).
  pose proof (steps_boots _ _ _ _ Hs Hb Hrs) as Hn. pose proof (phase_vm b' (steps_wf _ _ _ _ Hs Hb Hrs)) as Hv.
  replace (up (assemble id now vmnet host p)) with 0%nat in Hn by (by destruct p). simpl in Hn. rewrite Hn.
  unfold up, vms. destruct (phase b'), (vm b'); simpl; naive_solver.
Qed.

Lemma require_preboot_refuses b w :
  state b <> NotStarted ->
  require_preboot b w = (Err (InvalidState "operation not supported post-boot"), b, w, []).
Proof. intros Hs. unfold require_preboot, bind, get. by destruct (state b). Qed.

Lemma bind_refused {A C} (m : M W VzBackend VmmBackendError A) (k : A -> M W VzBackend VmmBackendError C) e b w b' w' t :
  m b w = (Err e, b', w', t) -> bind m k b w = (Err e, b', w', t).
Proof. intros Hm. unfold bind. by rewrite Hm. Qed.

(** Once a VM is there, every request that configures the machine is
    refused before anything is asked of the outside, and changes nothing. *)
Theorem postboot_configuration_refused r b w :
  state b <> NotStarted -> configures r = true ->
  exec r b w = (Err (InvalidState "operation not supported post-boot"), b, w, []).
Proof.
  intros Hs Hr. pose proof (require_preboot_refuses b w Hs) as Hp.
  destruct r; try done; cbn [exec]; try exact Hp; by apply bind_refused.
Qed.

(** C27: A failed request never loses or replaces a running VM, its slot, its
    state or its origin.  Apart from logger, MMDS and balloon updates, which
    store what they were given before they apply it, and from the metrics a
    failed start counts, it changes nothing at all. *)
Theorem failed_request_isolated r b w e b' w' t :
  wf b -> wf_request r -> exec r b w = (Err e, b', w', t) ->
  (all_or_nothing r = true -> b' = b) /\ (r = StartMicroVm -> but_metrics b b') /\
  vm b' = vm b /\ pool_slot b' = pool_slot b /\ state b' = state b /\ origin b' = origin b /\
  machine_config b' = machine_config b.
Proof.
  intros Hb Hr E. destruct (wp_result _ _ _ _ _ _ _ _ (exec_refines r b w Hb Hr) E) as [He _].
  destruct r; cbn [effect sets] in He; subst; try done; try (by destruct He as [-> _]); try (by destruct He).
  - destruct He as [->|(l & _ & ->)]; done.
  - destruct He as [->|(c & _ & _ & -> & _)]; done.
  - split; [done|]. split; [done|]. by destruct He as (m & -> & _).
Qed.


(** C24: A successful InstanceStart runs the machine that was configured.
    Either a VM was built by one call that carries exactly the configured
    kernel, command line, disks, network, address, processors and memory, and
    was started; or it comes from the pool, which is then used only without
    extra drives and vmnet, and has the configured processors and memory. *)
Theorem start_as_configured b w b' w' t :
  wf b -> exec StartMicroVm b w = (Ok tt, b', w', t) ->
  (exists h boot rootfs log, phase b' = Up true ColdBoot /\ vm b' = Some h /\
     boot_source b = Some boot /\ root_drive b = Some rootfs /\
     built (configured_spec b boot rootfs log) h t) \/
  (exists h slot p, phase b' = Up true FromPool /\ vm b' = Some h /\ pool_slot b' = Some slot /\
     pool b = Some p /\ extra_drives b = [] /\ configured_network_mode b <> Vmnet /\
     m_cpus (meta p) = Machine.vcpu_count (machine_config b) /\
     m_memory_mib (meta p) = Machine.mem_size_mib (machine_config b)).
Proof.
  intros Hb E.
  remember (Ok tt) as res eqn:Hres in E. revert res b' w' t E Hres. refine (wp_elim _ _ _ _ _). cbn [exec].
  apply wp_start_micro_vm; [by apply wf_ready| | |done].
  - intros h b0 w1 t1 _ _ _ _ (boot & rootfs & log & Hboot & Hroot & Hbuilt) _. left.
    by exists h, boot, rootfs, log.
  - intros h slot m w1 t1 _ _ _ _ (p & Hp & Hd & Hn & Hc & Hm) _. right. by exists h, slot, p.
Qed.

(** A successful snapshot load restores the given file into the machine
    that was configured, and the VM then runs exactly when the request asked
    to resume it. *)
Theorem load_as_configured params b w b' w' t :
  wf b -> exec (LoadSnapshot params) b w = (Ok tt, b', w', t) ->
  phase b' = Up (ls_resume_vm params) SnapshotLoad /\
  exists boot rootfs log t1 args reply t2, boot_source b = Some boot /\ root_drive b = Some rootfs /\
    t = t1 ++ Ev (HbLongRestore args (ls_snapshot_path params) (ls_resume_vm params)) reply :: t2 /\
    args_of (configured_spec b boot rootfs log) args /\ vm b' = Some (fst (out reply)).
Proof.
  intros Hb E.
  remember (Ok tt) as res eqn:Hres in E. revert res b' w' t E Hres. refine (wp_elim _ _ _ _ _). cbn [exec].
  apply wp_load_snapshot; [by apply wf_ready| |done].
  intros h m w1 t1 _ _ _ _ (boot & rootfs & log & u1 & args & reply & u2 & Hboot & Hroot & -> & Ha & _ & Hh) _.
  split; [by unfold phase; simpl; destruct (ls_resume_vm params)|].
  exists boot, rootfs, log, u1, args, reply, u2. by rewrite Hh.
Qed.

Lemma history_document id now vmnet host p rs w out b' w' t :
  Forall wf_request rs ->
  serve rs (assemble id now vmnet host p) w = (out, b', w', t) ->
  get_mmds b' = foldl mmds_after (Object []) rs /\
  mmds_shared b' = {| poisoned := false; cell := foldl mmds_after (Object []) rs |}.
Proof.
  intros Hrs E. pose proof (wf_assemble id now vmnet host p) as Hb.
  destruct (wp_result _ _ _ _ _ _ _ _ (wp_serve rs _ w Hb Hrs) E) as (results & -> & Hs & _).
  assert (Hm : mmds b' = foldl mmds_after (Object []) rs).
  { replace (Object []) with (mmds (assemble id now vmnet host p)) by (by destruct p).
    clear E Hb Hrs. induction Hs as [|r rs b res b1 rest b2 He _ IH]; [done|].
    rewrite IH, (effect_mmds _ _ _ _ He). done. }
  rewrite <- Hm. split; [done|]. apply (wf_shared _ (steps_wf _ _ _ _ Hs Hb Hrs)).
Qed.

(** The MMDS document after any history is the documents put and the
    patches merged, in the order of the requests, also of those that failed
    to reach the guest; and the copy the responder serves is that document. *)
Theorem mmds_history id now vmnet host p rs w out b' w' t :
  Forall wf_request rs ->
  serve rs (assemble id now vmnet host p) w = (out, b', w', t) ->
  get_mmds b' = foldl mmds_after (Object []) rs /\
  mmds_shared b' = {| poisoned := false; cell := foldl mmds_after (Object []) rs |}.
Proof. apply history_document. Qed.

(** C40: Inflating the balloon of a live VM makes one call, which sets the
    guest's memory to the configured size less the balloon, in bytes and
    without wrapping around, for memory sizes below 2^44 MiB. *)
Theorem balloon_target_exact h n b w res b' w' t :
  wf b -> vm b = Some h -> is_Some (balloon b) ->
  0 <= n < Machine.mem_size_mib (machine_config b) -> Machine.mem_size_mib (machine_config b) < 2 ^ 44 ->
  exec (UpdateBalloon {| update_amount_mib := n |}) b w = (res, b', w', t) ->
  exists reply,
    t = [Ev (HbLongSetBalloonTarget h ((Machine.mem_size_mib (machine_config b) - n) * 2 ^ 20)) reply] /\
    (res = Ok tt <-> status reply = HbOk) /\ Balloon.amount_mib <$> balloon b' = Some n.
Proof.
  intros Hb Hv [c Hc] Hn Hm. revert res b' w' t. refine (wp_elim _ _ _ _ _). cbn [exec].
  assert (Hl : live b = true).
  { unfold live. pose proof (wf_state _ Hb) as Hs. rewrite Hv in Hs. destruct (state b); naive_solver. }
  unfold update_balloon. do 2 wp_step. rewrite Hc, Hl. wp_step.
  unfold validate_balloon_amount. do 2 wp_step. simpl.
  destruct (Z.leb_spec (Machine.mem_size_mib (machine_config b)) n); [lia|]. do 3 wp_step.
  unfold apply_balloon_target. do 2 wp_step. simpl. rewrite Hv. wp_step.
  unfold saturating_sub. rewrite Z.max_r by lia. rewrite (wrap_small 64 ((_ - _) * 1024)) by lia. rewrite wrap_small by lia.
  replace (_ * 1024 * 1024) with ((Machine.mem_size_mib (machine_config b) - n) * 2 ^ 20) by lia.
  apply wp_ffi; [intros reply w2 Hr|intros reply e w2 Hr]; exists reply; (split; [done|split; [|done]]); simpl.
  - by destruct (out reply).
  - done.
Qed.
End Properties.

(** ** Concrete runs *)

Lemma served_wf {W} `{Outside W} `{Serde} rs b (w : W) :
  wf b -> Forall wf_request rs -> wf (snd (fst (fst (serve rs b w)))).
Proof.
  intros Hb Hrs. destruct (serve rs b w) as [[[out b'] w'] t] eqn:E.
  destruct (wp_result _ _ _ _ _ _ _ _ (wp_serve rs b w Hb Hrs) E) as (results & _ & Hs & _). by eapply steps_wf.
Qed.

Module Demo.
Definition serde : Serde := {| json_to_vec := fun _ => Ok "{}"; json_display := fun _ => "{}" |}.

Definition boot : BootSourceConfig :=
  {| BootSource.kernel_image_path := "/vm/Image"; BootSource.initrd_path := None; BootSource.boot_args := None |}.
Definition disk (id path : string) (root : bool) : Drive.BlockDeviceConfig :=
  {| Drive.drive_id := id; Drive.partuuid := None; Drive.is_root_device := root; Drive.cache_type := Unsafe;
     Drive.is_read_only := None; Drive.path_on_host := Some path; Drive.rate_limiter := None;
     Drive.file_engine_type := None; Drive.socket := None |}.
Definition config : list Request :=
  [ConfigureBootSource boot; InsertBlockDevice (disk "rootfs" "/vm/root.img" true);
   InsertBlockDevice (disk "data" "/vm/data.img" false);
   ConfigureVsock {| guest_cid := 3; uds_path := "/vm/v.sock"; vsock_id := None |};
   ConfigureBalloon {| Balloon.amount_mib := 0; Balloon.deflate_on_oom := false;
                       Balloon.stats_polling_interval_s := 0 |};
   PutMmds (Object [("role", Str "db")])].
Definition snapshot : CreateSnapshotParams :=
  {| cs_snapshot_path := "/vm/snap"; cs_mem_file_path := "/vm/mem"; cs_snapshot_type := Full; cs_version := None |}.
Definition load : LoadSnapshotConfig :=
  {| ls_snapshot_path := "/vm/snap"; ls_mem_file_path := None; ls_mem_backend := None;
     ls_enable_diff_snapshots := false; ls_track_dirty_pages := false; ls_resume_vm := true |}.
Definition history : list Request :=
  config ++ [StartMicroVm; Pause; CreateSnapshot snapshot; PatchMmds (Object [("role", Null)]); ConfigureEntropy].

Definition fresh : VzBackend := assemble "demo" 0 false false None.
Definition after (rs : list Request) : VzBackend := snd (fst (fst (@serve unit calm serde rs fresh tt))).

Lemma config_wf : Forall wf_request config.
Proof. repeat constructor; vm_compute; congruence. Qed.
Lemma history_wf : Forall wf_request history.
Proof. repeat constructor; vm_compute; congruence. Qed.
Lemma fresh_wf : wf fresh.
Proof. apply wf_assemble. Qed.
Lemma configured_wf : wf (after config).
Proof. apply served_wf; [apply fresh_wf|apply config_wf]. Qed.
Lemma running_wf : wf (after (config ++ [StartMicroVm])).
Proof.
  apply served_wf; [apply fresh_wf|]. apply Forall_app. split; [apply config_wf|by repeat constructor].
Qed.
End Demo.

Lemma request_refines_witness :
  exists b' t, @exec unit calm Demo.serde StartMicroVm (Demo.after Demo.config) tt = (Ok tt, b', tt, t) /\
    effect StartMicroVm (Demo.after Demo.config) (Ok tt) b' /\
    balance (vms (Demo.after Demo.config)) (slot_locks (Demo.after Demo.config)) t (vms b') (slot_locks b').
Proof.
  eexists _, _. split; [vm_compute; reflexivity|].
  eapply (@request_refines unit calm Demo.serde StartMicroVm _ tt);
    [apply Demo.configured_wf|exact I|vm_compute; reflexivity].
Defined.

Lemma daemon_invariant_witness :
  exists out b' t, @serve unit calm Demo.serde Demo.history Demo.fresh tt = (out, b', tt, t) /\ wf b'.
Proof.
  eexists _, _, _. split; [vm_compute; reflexivity|].
  eapply (@daemon_invariant unit calm Demo.serde "demo" 0 false false None Demo.history tt);
    [apply Demo.history_wf|vm_compute; reflexivity].
Defined.

Lemma daemon_ledger_witness :
  exists out b' t, @life unit calm Demo.serde Demo.history Demo.fresh tt = (out, b', tt, t) /\
    created t = [1] /\ created t ≡ₚ freed t /\ locked t ≡ₚ unlocked t.
Proof.
  eexists _, _, _. split; [vm_compute; reflexivity|]. split; [reflexivity|].
  eapply (@daemon_ledger unit calm Demo.serde "demo" 0 false false None Demo.history tt);
    [apply Demo.history_wf|vm_compute; reflexivity].
Defined.

Lemma lifecycle_witness :
  exists b' t,
    @exec unit calm Demo.serde Pause (Demo.after (Demo.config ++ [StartMicroVm])) tt = (Ok tt, b', tt, t) /\
    moves (phase (Demo.after (Demo.config ++ [StartMicroVm]))) Pause (Ok tt) (phase b').
Proof.
  eexists _, _. split; [vm_compute; reflexivity|].
  eapply (@lifecycle unit calm Demo.serde Pause _ tt);
    [apply Demo.running_wf|exact I|vm_compute; reflexivity].
Defined.

Lemma boots_at_most_once_witness :
  exists results b' t, @serve unit calm Demo.serde Demo.history Demo.fresh tt = (Ok results, b', tt, t) /\
    vm b' = Some 1 /\ boots Demo.history results = length (vms b').
Proof.
  eexists _, _, _. split; [vm_compute; reflexivity|]. split; [reflexivity|].
  eapply (@boots_at_most_once unit calm Demo.serde "demo" 0 false false None Demo.history tt);
    [apply Demo.history_wf|vm_compute; reflexivity].
Defined.

Lemma postboot_configuration_refused_witness :
  @exec unit calm Demo.serde ConfigureEntropy (Demo.after Demo.history) tt =
    (Err (InvalidState "operation not supported post-boot"), Demo.after Demo.history, tt, []).
Proof. apply postboot_configuration_refused; [vm_compute; congruence|reflexivity]. Defined.

Lemma failed_request_isolated_witness :
  exists e b' t, @exec unit calm Demo.serde StartMicroVm (Demo.after Demo.history) tt = (Err e, b', tt, t) /\
    vm b' = vm (Demo.after Demo.history).
Proof.
  eexists _, _, _. split; [vm_compute; reflexivity|].
  eapply (@failed_request_isolated unit calm Demo.serde StartMicroVm _ tt);
    [apply served_wf; [apply Demo.fresh_wf|apply Demo.history_wf]|exact I|vm_compute; reflexivity].
Defined.


Lemma start_as_configured_witness :
  exists b' t h boot rootfs log,
    @exec unit calm Demo.serde StartMicroVm (Demo.after Demo.config) tt = (Ok tt, b', tt, t) /\
    phase b' = Up true ColdBoot /\ vm b' = Some h /\
    built (configured_spec (Demo.after Demo.config) boot rootfs log) h t.
Proof.
  destruct (@exec unit calm Demo.serde StartMicroVm (Demo.after Demo.config) tt) as [[[res b'] []] t] eqn:E.
  assert (res = Ok tt) as -> by (vm_compute in E; by injection E).
  destruct (@start_as_configured unit calm Demo.serde _ tt _ _ _ Demo.configured_wf E)
    as [(h & boot & rootfs & log & Hp & Hv & _ & _ & Hbuilt)|(h & slot & p & _ & _ & _ & Hp & _)].
  - by exists b', t, h, boot, rootfs, log.
  - vm_compute in Hp. discriminate Hp.
Defined.

Lemma load_as_configured_witness :
  exists b' t, @exec unit calm Demo.serde (LoadSnapshot Demo.load) (Demo.after Demo.config) tt = (Ok tt, b', tt, t) /\
    phase b' = Up true SnapshotLoad.
Proof.
  eexists _, _. split; [vm_compute; reflexivity|].
  eapply (@load_as_configured unit calm Demo.serde Demo.load _ tt);
    [apply Demo.configured_wf|vm_compute; reflexivity].
Defined.

Lemma mmds_history_witness :
  exists out b' t, @serve unit calm Demo.serde Demo.history Demo.fresh tt = (out, b', tt, t) /\
    get_mmds b' = foldl mmds_after (Object []) Demo.history.
Proof.
  eexists _, _, _. split; [vm_compute; reflexivity|].
  eapply (@mmds_history unit calm Demo.serde "demo" 0 false false None Demo.history tt);
    [apply Demo.history_wf|vm_compute; reflexivity].
Defined.

Lemma balloon_target_exact_witness :
  exists res b' t reply,
    @exec unit calm Demo.serde (UpdateBalloon {| update_amount_mib := 64 |})
      (Demo.after (Demo.config ++ [StartMicroVm])) tt = (res, b', tt, t) /\
    t = [Ev (HbLongSetBalloonTarget 1 (64 * 2 ^ 20)) reply].
Proof.
  destruct (@exec unit calm Demo.serde (UpdateBalloon {| update_amount_mib := 64 |})
      (Demo.after (Demo.config ++ [StartMicroVm])) tt) as [[[res b'] []] t] eqn:E.
  destruct (@balloon_target_exact unit calm Demo.serde 1 64 _ tt _ _ _ _ Demo.running_wf eq_refl
    ltac:(vm_compute; eauto) ltac:(vm_compute; split; congruence) ltac:(vm_compute; congruence) E)
    as (reply & Ht & _).
  exists res, b', t, reply. split; [reflexivity|]. rewrite Ht. do 2 f_equal.
Defined.
