(* ===== verification/Vsock.v ===== *)
(** * The vsock bridge's connections (hephaestus-firecracker/src/backend.rs)

    What one client of the bridge's socket goes through: the [CONNECT] line
    is read byte by byte under a timeout, the guest's port is connected, the
    thread lets go of the VM, and two threads copy.  The socket belongs to
    the outside; [HostStream] says what reading from it means. *)

From S2P Require Import Prelude RustStr Utf8 World Bridge.
Local Open Scope string_scope.
Local Open Scope Z_scope.
Local Open Scope list_scope.

Definition CONNECT_LIMIT : nat := 64.
Definition ERR_INVALID : string := "ERR invalid CONNECT line" +:+ nl.
Definition ERR_CONNECT : string := "ERR connect failed" +:+ nl.

Definition line_end (a : Ascii.ascii) : bool := Ascii.eqb a CR || Ascii.eqb a NL.

Definition parse_connect_line (line : string) : option Z :=
  match strip_prefix "CONNECT " (trim_end_by line_end line) with
  | None => None
  | Some rest =>
      match parse_uint u32_max rest with
      | Err _ => None
      | Ok port => if 0 <? port then Some port else None
      end
  end.

Section Connection.
Context {W : Type} `{Outside W} {S : Type}.
Abbreviation V := (M W S unit).

(** The loop of [read_connect_line]; the count is what is left of the limit. *)
Fixpoint read_loop (n : nat) (out : string) : V (option string) :=
  match n with
  | O => ret None
  | Datatypes.S n' =>
      let! byte := ask HostReadByte in
      match byte with
      | None => ret None
      | Some b =>
          let out := out +:+ String (ch (Z.to_nat b)) "" in
          if b =? 10 then ret (if utf8_valid out then Some out else None)
          else read_loop n' out
      end
  end.
Definition read_connect_line : V (option string) := read_loop CONNECT_LIMIT "".

(** The byte copies in both directions, until both end. *)
Definition copy_both : V unit :=
  do! ask (SpawnCopy true) in
  do! ask (SpawnCopy false) in
  do! ask (JoinCopy true) in
  ask (JoinCopy false).

Definition refuse (vm : Handle) (text : string) : V unit :=
  do! ask (HostWriteAll text) in
  ask (ReleaseVm vm).

Definition bridge_connection (vm : Handle) : V unit :=
  do! ask (HostReadTimeout (Some 5)) in
  let! line := read_connect_line in
  match line with
  | None => refuse vm ERR_INVALID
  | Some line =>
      match parse_connect_line line with
      | None => refuse vm ERR_INVALID
      | Some port =>
          let! guest := attempt (vm_connect_vsock vm port) in
          match guest with
          | Err _ => refuse vm ERR_CONNECT
          | Ok _ =>
              do! ask (ReleaseVm vm) in
              do! ask (HostReadTimeout None) in
              let! host := ask HostTryClone in
              match host with
              | Err _ => ret tt
              | Ok _ =>
                  let! guest := ask GuestTryClone in
                  match guest with
                  | Err _ => ret tt
                  | Ok _ => copy_both
                  end
              end
          end
      end
  end.
End Connection.

(** The accept loop: each accepted connection is read together with the
    flag [running] as it is after the accept.  The result is the connections
    handed to threads, and whether the loop ended. *)
Fixpoint accept_loop (incoming : list (Result Z string * bool)) : list Z * bool :=
  match incoming with
  | [] => ([], false)
  | (stream, running) :: rest =>
      if negb running then ([], true)
      else let '(served, ended) := accept_loop rest in
           match stream with
           | Err _ => (served, ended)
           | Ok host => (host :: served, ended)
           end
  end.

(** ** What a socket is *)

Definition reads_host {A} (c : Call A) : bool := match c with HostReadByte => true | _ => false end.

(** The bytes still to come from the client, and that only reading takes
    them. *)
Class HostStream (W : Type) `{Outside W} := {
  pending : W -> string;
  pending_read : forall w a s, pending w = String a s ->
    fst (call HostReadByte w) = Some (byte_of a) /\ pending (snd (call HostReadByte w)) = s;
  pending_other : forall A (c : Call A) w, reads_host c = false -> pending (snd (call c w)) = pending w }.

(** ** The line *)

Lemma trim_end_by_clean f s : str_forall (fun a => negb (f a)) s = true -> trim_end_by f s = s.
Proof.
  induction s as [|a s IH]; [done|]. cbn [str_forall trim_end_by]. rewrite andb_true_iff, negb_true_iff.
  intros [Ha Hs]. rewrite (IH Hs), Ha. by destruct s.
Qed.

Lemma trim_end_by_app f s e :
  str_forall f e = true -> str_forall (fun a => negb (f a)) s = true -> trim_end_by f (s +:+ e) = s.
Proof.
  intros He Hs. induction s as [|a s IH].
  - simpl. induction e as [|a e IHe]; [done|]. cbn [str_forall] in He. apply andb_true_iff in He as [Ha He].
    cbn [trim_end_by]. by rewrite (IHe He), Ha.
  - cbn [str_forall] in Hs. apply andb_true_iff in Hs as [Ha Hs]. apply negb_true_iff in Ha.
    simpl. rewrite (IH Hs), Ha. by destruct s.
Qed.

Lemma ch_byte_of a : ch (Z.to_nat (byte_of a)) = a.
Proof.
  unfold ch, byte_of. rewrite <- N_nat_Z, Nat2Z.id. fold (Ascii.nat_of_ascii a).
  apply Ascii.ascii_nat_embedding.
Qed.

Lemma byte_of_NL a : (byte_of a =? 10) = Ascii.eqb a NL.
Proof.
  destruct (Ascii.eqb_spec a NL) as [->|Hne]; [done|]. apply Z.eqb_neq. intros Hb. apply Hne.
  rewrite <- (ch_byte_of a), Hb. done.
Qed.

Lemma digit_clean a : is_ascii_digit a = true ->
  negb (line_end a) = true /\ negb (Ascii.eqb a NL) = true /\ (byte_of a <? 128) = true.
Proof.
  unfold is_ascii_digit, char_in_range, line_end. rewrite andb_true_iff, !Z.leb_le. intros Ha.
  destruct (Ascii.eqb_spec a CR) as [->|]; [by destruct Ha as [[] _]|].
  destruct (Ascii.eqb_spec a NL) as [->|]; [by destruct Ha as [[] _]|]. split_and!; [done..|]. apply Z.ltb_lt. lia.
Qed.

(** A client's request line, and what it parses to. *)
Definition connect_line (port : Z) (eol : string) : string := "CONNECT " +:+ to_dec port +:+ eol.

Lemma connect_line_parses port eol :
  1 <= port <= u32_max -> str_forall line_end eol = true -> parse_connect_line (connect_line port eol) = Some port.
Proof.
  intros Hp He. unfold parse_connect_line, connect_line.
  rewrite <- app_assoc_s, trim_end_by_app; [|done|].
  - rewrite strip_prefix_app, parse_to_dec by lia. by destruct (Z.ltb_spec 0 port); [|lia].
  - rewrite str_forall_app. apply andb_true_iff. split; [done|].
    eapply str_forall_impl; [|apply to_dec_digits; lia]. intros a Ha. by apply digit_clean.
Qed.

Lemma parse_connect_range line port : parse_connect_line line = Some port -> 1 <= port <= u32_max.
Proof.
  unfold parse_connect_line. intros Hl. destruct (strip_prefix _ _); [|done].
  destruct (parse_uint u32_max s) as [p|] eqn:E; [|done]. apply parse_uint_range in E; [|done].
  destruct (Z.ltb_spec 0 p); [|done]. simplify_eq. lia.
Qed.

Section Reading.
Context {W : Type} `{HostStream W} {S : Type}.
Implicit Types (w : W) (s : S).

(** A line is read up to its newline, and nothing after it. *)
Lemma wp_read_loop n out line data Q s w :
  str_forall (fun a => negb (Ascii.eqb a NL)) line = true -> (String.length line < n)%nat ->
  pending w = line +:+ nl +:+ data -> utf8_valid (out +:+ line +:+ nl) = true ->
  (forall w' t, pending w' = data -> Q (Ok (Some (out +:+ line +:+ nl))) s w' t) ->
  wp (read_loop n out) Q s w.
Proof.
  revert n out w Q. induction line as [|a line IH]; intros n out w Q Hl Hn Hp Hu HQ;
    (destruct n as [|n]; [simpl in Hn; lia|]); cbn [read_loop]; wp_step; apply wp_ask; intros b w' E;
    destruct (pending_read _ _ _ Hp) as [Hb Hw]; rewrite E in Hb, Hw; simpl in Hb, Hw; subst b;
    rewrite byte_of_NL, ch_byte_of.
  - cbn [Ascii.eqb]. change (Ascii.eqb NL NL) with true. cbv iota. wp_step. simpl in Hu.
    change (String NL "") with nl. rewrite Hu. by apply HQ.
  - cbn [str_forall] in Hl. apply andb_true_iff in Hl as [Ha Hl]. apply negb_true_iff in Ha. rewrite Ha.
    assert (Hout : (out +:+ String a "") +:+ line +:+ nl = out +:+ String a line +:+ nl)
      by (by rewrite app_assoc_s).
    apply IH; [done|simpl in Hn; lia|done|by rewrite Hout|]. intros w2 t Hw2. rewrite Hout. by apply HQ.
Qed.
End Reading.

(** ** Properties *)

Abbreviation the c := (existT _ c : {A : Type & Call A}).

(** What follows the reading of the line, as the calls of a connection. *)
Inductive session (vm : Handle) : list {A : Type & Call A} -> Prop :=
| session_invalid : session vm [the (HostWriteAll ERR_INVALID); the (ReleaseVm vm)]
| session_unreachable port :
    1 <= port <= u32_max ->
    session vm [the (HbLongConnect vm port); the (HostWriteAll ERR_CONNECT); the (ReleaseVm vm)]
| session_open port copies :
    1 <= port <= u32_max ->
    copies ∈ [[]; [the GuestTryClone];
              [the GuestTryClone; the (SpawnCopy true); the (SpawnCopy false);
               the (JoinCopy true); the (JoinCopy false)]] ->
    session vm (the (HbLongConnect vm port) :: the (ReleaseVm vm) :: the (HostReadTimeout None) ::
                the HostTryClone :: copies).

Section Sessions.
Context {W : Type} `{Outside W} {S : Type}.
Implicit Types (w : W) (s : S).

Lemma wp_read_any n out Q s w :
  (forall k line w' t, (k <= n)%nat -> calls t = repeat (the HostReadByte) k -> Q (Ok line) s w' t) ->
  wp (read_loop n out) Q s w.
Proof.
  revert out w Q. induction n as [|n IH]; intros out w Q HQ; cbn [read_loop].
  - wp_step. by apply (HQ 0%nat).
  - do 2 wp_step. destruct a as [b|]; [|wp_step; apply (HQ 1%nat); [lia|done]].
    destruct (b =? 10); [wp_step; apply (HQ 1%nat); [lia|done]|].
    apply IH. intros k line w2 t Hk Ht. apply (HQ (Datatypes.S k)); [lia|].
    change (calls ([Ev HostReadByte (Some b)] ++ t) = the HostReadByte :: repeat (the HostReadByte) k).
    by rewrite calls_app, Ht.
Qed.

Lemma wp_connect_vsock vm port (Q : Result Z VmError -> S -> W -> Trace -> Prop) s w :
  (forall r w' reply, Q r s w' [Ev (HbLongConnect vm port) reply]) -> wp (vm_connect_vsock vm port) Q s w.
Proof.
  intros HQ. unfold vm_connect_vsock, ffi. do 5 wp_step.
  destruct (into_result (status a) (out_err a)); [|apply HQ].
  wp_step. destruct (out a <? 0); wp_step; apply HQ.
Qed.

Lemma bridge_sessions vm s w :
  wp (bridge_connection vm)
    (fun r s' _ t => r = Ok tt /\ s' = s /\ exists k tail, (k <= CONNECT_LIMIT)%nat /\ session vm tail /\
       calls t = the (HostReadTimeout (Some 5)) :: repeat (the HostReadByte) k ++ tail) s w.
Proof.
  unfold bridge_connection, read_connect_line. do 3 wp_step.
  apply wp_read_any. intros k line w1 t1 Hk Ht1.
  assert (Hdone : forall tail t, calls t = tail -> session vm tail ->
    exists k tail, (k <= CONNECT_LIMIT)%nat /\ session vm tail /\
      calls ([Ev (HostReadTimeout (Some 5)) a] ++ t1 ++ t) =
      the (HostReadTimeout (Some 5)) :: repeat (the HostReadByte) k ++ tail).
  { intros tail t Ht Hs. exists k, tail. split_and!; [done..|]. by rewrite !calls_app, Ht1, Ht. }
  destruct line as [line|]; [|unfold refuse; do 3 wp_step; destruct a1; split_and!; [done..|];
    eapply Hdone; [reflexivity|constructor]].
  destruct (parse_connect_line line) as [port|] eqn:Ep;
    [apply parse_connect_range in Ep|unfold refuse; do 3 wp_step; destruct a1; split_and!; [done..|];
     eapply Hdone; [reflexivity|constructor]].
  do 2 wp_step. apply wp_connect_vsock. intros r w2 reply. destruct r as [fd|].
  - do 7 wp_step; [|wp_step; split_and!; [done..|]; eapply Hdone;
      [reflexivity|by apply (session_open _ _ []); [|set_solver]]].
    do 3 wp_step; [|wp_step; split_and!; [done..|]; eapply Hdone;
      [reflexivity|by apply session_open; [|set_solver]]].
    unfold copy_both. wp_run. split_and!; [by match goal with |- Ok ?u = _ => destruct u end|done|].
    eapply Hdone; [reflexivity|by apply session_open; [|set_solver]].
  - unfold refuse. do 3 wp_step. destruct a1. split_and!; [done..|].
    eapply Hdone; [reflexivity|by constructor].
Qed.

(** Every connection to the bridge ends, after reading at most 64
    bytes, in one of these ways: a malformed line or a port of 0 or beyond
    32 bits is answered with an error and nothing is connected; a port that
    cannot be reached is answered with an error; else the reference to the
    VM is released before the first byte is copied.  On every path the VM is
    released exactly once, and not used afterwards. *)
Theorem bridge_connection_protocol vm s w :
  wp (bridge_connection vm)
    (fun r s' _ t => r = Ok tt /\ s' = s /\ exists k tail, (k <= CONNECT_LIMIT)%nat /\ session vm tail /\
       calls t = the (HostReadTimeout (Some 5)) :: repeat (the HostReadByte) k ++ tail) s w.
Proof. apply bridge_sessions. Qed.
End Sessions.

Section Handshake.
Context {W : Type} `{HostStream W} {S : Type}.
Implicit Types (w : W) (s : S).

(** A call that is not a read leaves what the client sent. *)
Lemma wp_ask_other {E A} (c : Call A) (Q : Result A E -> S -> W -> Trace -> Prop) s w :
  reads_host c = false -> (forall a w', pending w' = pending w -> Q (Ok a) s w' [Ev c a]) ->
  wp (ask c) Q s w.
Proof.
  intros Hc HQ. apply wp_ask. intros a w' E0. apply HQ.
  pose proof (pending_other A c w Hc) as Hp. by rewrite E0 in Hp.
Qed.

Lemma connect_line_valid port :
  0 <= port -> str_forall (fun a => negb (Ascii.eqb a NL)) ("CONNECT " +:+ to_dec port) = true /\
  str_forall (fun a => byte_of a <? 128) ("CONNECT " +:+ to_dec port) = true.
Proof.
  intros Hp. rewrite !str_forall_app, !andb_true_iff. split; (split; [done|]);
    (eapply str_forall_impl; [|apply to_dec_digits; lia]); intros a Ha; by apply digit_clean.
Qed.

Lemma port_length port : 1 <= port <= u32_max -> (String.length (to_dec port) <= 32)%nat.
Proof.
  intros Hp. pose proof (to_dec_length port) as Hl.
  assert (Z.log2 port <= 31) by (apply (Z.log2_le_mono port u32_max); unfold u32_max in *; lia). lia.
Qed.

Lemma connect_line_body port eol :
  1 <= port <= u32_max -> eol ∈ [nl; String CR nl] ->
  exists body, connect_line port eol = body +:+ nl /\
    str_forall (fun a => negb (Ascii.eqb a NL)) body = true /\ (String.length body < CONNECT_LIMIT)%nat /\
    utf8_valid (connect_line port eol) = true.
Proof.
  intros Hp He. destruct (connect_line_valid port) as [Hnl Hascii]; [lia|]. pose proof (port_length port Hp) as Hlen.
  rewrite elem_of_cons, list_elem_of_singleton in He. unfold CONNECT_LIMIT.
  exists (("CONNECT " +:+ to_dec port) +:+ (if String.eqb eol nl then "" else String CR "")).
  unfold connect_line. split_and!.
  - rewrite !app_assoc_s. by destruct He as [->| ->].
  - rewrite str_forall_app, Hnl. by destruct He as [->| ->].
  - rewrite !length_app_s. destruct He as [->| ->]; simpl; lia.
  - apply ascii_valid. rewrite <- app_assoc_s, str_forall_app, Hascii. by destruct He as [->| ->].
Qed.

(** Steps that leave what the client sent. *)
Ltac stream_step :=
  lazymatch goal with
  | |- wp (ask _) _ _ _ => apply wp_ask_other; [done|intros ? ? ?]
  | _ => wp_step
  end.

(** A client that sends [CONNECT <port>], ended by a newline or by a
    carriage return and a newline, for any valid port, is connected to that
    port of the VM's guest, and every byte it sends after the line is left
    to be copied to the guest. *)
Theorem connect_handshake vm port eol data s w :
  1 <= port <= u32_max -> eol ∈ [nl; String CR nl] -> pending w = connect_line port eol +:+ data ->
  wp (bridge_connection vm)
    (fun r _ w' t => pending w' = data /\ exists reply, Ev (HbLongConnect vm port) reply ∈ t) s w.
Proof.
  intros Hp He Hw. destruct (connect_line_body port eol Hp He) as (body & Hbody & Hnonl & Hshort & Hutf).
  assert (Heol : str_forall line_end eol = true)
    by (rewrite elem_of_cons, list_elem_of_singleton in He; by destruct He as [->| ->]).
  unfold bridge_connection, read_connect_line. do 2 stream_step. stream_step.
  rewrite Hbody, app_assoc_s in Hw.
  apply (wp_read_loop _ _ body data); [done|done|congruence|simpl; by rewrite <- Hbody|].
  intros w2 t Hw2. simpl String.append. rewrite <- Hbody, connect_line_parses by done.
  unfold vm_connect_vsock, ffi, refuse, copy_both. do 4 stream_step. stream_step.
  assert (Hin : forall t1 t2, exists reply, Ev (HbLongConnect vm port) reply ∈
    t1 ++ t ++ [Ev (HbLongConnect vm port) a0] ++ t2).
  { intros. exists a0. rewrite !elem_of_app, list_elem_of_singleton. tauto. }
  repeat stream_step; (split; [congruence|apply Hin]).
Qed.
End Handshake.

(** A world that is what one client still has to send. *)
Definition client : Outside string := fun A c w =>
  match c in Call A return A * string with
  | HostReadByte => match w with "" => (None, "") | String a s => (Some (byte_of a), s) end
  | c => (calm_answer c, w)
  end.

Definition client_stream : @HostStream string client.
Proof.
  refine {| pending := fun w => w |}.
  - by intros w a s ->.
  - by intros A [].
Defined.

Lemma connect_handshake_witness :
  @wp string unit unit unit (@bridge_connection string client unit 1)
    (fun _ _ w' t => w' = "hello" /\ exists reply, Ev (HbLongConnect 1 1234) reply ∈ t) tt
    (connect_line 1234 nl +:+ "hello").
Proof.
  apply (@connect_handshake string client client_stream unit 1 1234 nl "hello" tt);
    [vm_compute; split; congruence|set_solver|reflexivity].
Defined.

(** The accept loop serves exactly the connections accepted while the flag
    was up, in order, and ends at the first accept after it went down. *)
Lemma accept_loop_spec before self rest :
  Forall (fun e => snd e = true) before ->
  accept_loop (before ++ (self, false) :: rest) = (before ≫= (fun e => option_list (result_ok (fst e))), true).
Proof.
  induction 1 as [|[stream running] before Hr _ IH]; [done|]. simpl in Hr. subst running.
  cbn [app accept_loop]. rewrite IH. by destruct stream.
Qed.
