(* ===== verification/Lifetime.v ===== *)
(** * The VM's handle among threads (hephaestus-firecracker/src/backend.rs)

    [Arc<dyn VzVmHandle>]: the backend, the responder's thread, the accept loop
    of the vsock bridge and each of its clients hold a reference to the VM, and
    whoever drops the last one frees it.  The backend tears down ([Backend]),
    the accept loop hands connections to threads, each client runs
    [Vsock.bridge_connection]; the file interleaves them in every way. *)

From S2P Require Import Prelude RustStr Utf8 World Bridge FcApi Pool BackendState Backend Ledger BackendSpec BackendProps Vsock.
Local Open Scope string_scope.
Local Open Scope Z_scope.
Local Open Scope list_scope.

Abbreviation AnyCall := {A : Type & Call A}.

(** ** Programs as the calls they make *)

(** One client of the bridge, in some world. *)
Definition client_calls (h : Handle) (l : list AnyCall) : Prop :=
  exists (W : Type) (O : Outside W) (w : W) r s' w' t, @bridge_connection W O unit h tt w = (r, s', w', t) /\ calls t = l.
(** The backend as it lets go of everything, at its end or after a failed start. *)
Definition teardown_run (b : VzBackend) (l : list AnyCall) : Prop :=
  exists (W : Type) (O : Outside W) (w : W) r b' w' t,
    (@drop_backend W O b w = (r, b', w', t) \/ @abort_boot W O b w = (r, b', w', t)) /\ calls t = l.

(** A call that needs the VM, and the drop of a thread's reference. *)
Definition uses (h : Handle) (c : AnyCall) : bool :=
  match projT2 c with
  | HbLongStart v | HbLongPause v | HbLongResume v | HbLongRequestStop v | HbLongStop v | HbLongSetBalloonTarget v _
  | HbLongServeMmds v _ _ | HbLongConnect v _ | HbLongSave v _ | HbLongVmnetRead v _ | HbLongVmnetWrite v _ => v =? h
  | _ => false
  end.
Definition releases (h : Handle) (c : AnyCall) : bool := match projT2 c with ReleaseVm v => v =? h | _ => false end.

(** ** The threads together *)

Inductive Happening := Made (c : AnyCall) | FreedVm.

(** [owner] is what the backend has still to do, [field] whether it holds the
    VM; [flag] is [running] of the bridge, [loop] the accept loop's thread,
    [responder] that of the metadata responder; a client holds its reference
    or not and has calls to make. *)
Record Life := {
  owner : list AnyCall; field : bool; flag : bool; loop : bool; responder : bool;
  clients : list (bool * list AnyCall); happened : list Happening }.

Definition count_held (l : list (bool * list AnyCall)) : nat := length (filter (fun c => fst c = true) l).
(** [Arc::strong_count] *)
Definition strong_count (s : Life) : nat :=
  Nat.b2n (field s) + Nat.b2n (loop s) + Nat.b2n (responder s) + count_held (clients s).

(** After a reference was dropped: the last one frees. *)
Definition dropped_ref (s : Life) : Life :=
  if (strong_count s =? 0)%nat
  then {| owner := owner s; field := field s; flag := flag s; loop := loop s; responder := responder s; clients := clients s;
          happened := happened s ++ [FreedVm] |}
  else s.

Definition note (c : AnyCall) (s : Life) : Life :=
  {| owner := owner s; field := field s; flag := flag s; loop := loop s; responder := responder s; clients := clients s;
     happened := happened s ++ [Made c] |}.

(** The backend makes its next call.  The flag is cleared before the call that
    wakes the accept loop; a join waits for its thread; the call that frees the
    VM is the drop of the field's reference. *)
Definition owner_moves (c : AnyCall) (rest : list AnyCall) (s : Life) (s' : Life) : Prop :=
  match projT2 c with
  | UdsConnect _ => s' = note c {| owner := rest; field := field s; flag := false; loop := loop s; responder := responder s;
                                   clients := clients s; happened := happened s |}
  | JoinThread name =>
      (if String.eqb name "vsock accept loop" then loop s = false else responder s = false) /\
      s' = note c {| owner := rest; field := field s; flag := flag s; loop := loop s; responder := responder s;
                     clients := clients s; happened := happened s |}
  | HbLongFree _ => s' = dropped_ref {| owner := rest; field := false; flag := flag s; loop := loop s; responder := responder s;
                                        clients := clients s; happened := happened s |}
  | _ => s' = note c {| owner := rest; field := field s; flag := flag s; loop := loop s; responder := responder s;
                        clients := clients s; happened := happened s |}
  end.

Definition with_clients (l : list (bool * list AnyCall)) (s : Life) : Life :=
  {| owner := owner s; field := field s; flag := flag s; loop := loop s; responder := responder s; clients := l; happened := happened s |}.
Definition with_loop (b : bool) (s : Life) : Life :=
  {| owner := owner s; field := field s; flag := flag s; loop := b; responder := responder s; clients := clients s; happened := happened s |}.
Definition with_responder (b : bool) (s : Life) : Life :=
  {| owner := owner s; field := field s; flag := flag s; loop := loop s; responder := b; clients := clients s; happened := happened s |}.

Section System.
Variable h : Handle.

Inductive life_step : Life -> Life -> Prop :=
| owner_step s c rest s' : owner s = c :: rest -> owner_moves c rest s s' -> life_step s s'
| accepts_client s l : loop s = true -> flag s = true -> client_calls h l ->
    life_step s (with_clients (clients s ++ [(true, l)]) s)
| loop_ends s : loop s = true -> flag s = false -> life_step s (dropped_ref (with_loop false s))
| backend_calls s c : field s = true -> uses h c = true -> life_step s (note c s)
| responder_calls s c : responder s = true -> uses h c = true -> life_step s (note c s)
| responder_ends s : responder s = true -> life_step s (dropped_ref (with_responder false s))
| client_step s i held c rest : clients s !! i = Some (held, c :: rest) ->
    life_step s (if releases h c
                 then dropped_ref (with_clients (<[i := (false, rest)]> (clients s)) s)
                 else note c (with_clients (<[i := (held, rest)]> (clients s)) s)).

Definition at_teardown (b : VzBackend) (l : list AnyCall) : Life :=
  {| owner := l; field := true; flag := true;
     loop := match vsock_bridge b with Some _ => true | None => false end;
     responder := match vmnet_mmds b with Some _ => true | None => false end; clients := []; happened := [] |}.

Inductive life_reached (b : VzBackend) : Life -> Prop :=
| life_init l : teardown_run b l -> life_reached b (at_teardown b l)
| life_next s s' : life_reached b s -> life_step s s' -> life_reached b s'.

(** ** Tidy programs *)

Definition unlocks (c : AnyCall) : bool := match projT2 c with Unlock _ => true | _ => false end.
(** A client drops its reference once, does not need the VM afterwards, and
    has no lock to release. *)
Fixpoint tidy (held : bool) (l : list AnyCall) : Prop :=
  match l with
  | [] => held = false
  | c :: rest => if releases h c then held = true /\ tidy false rest else unlocks c = false /\ (uses h c = true -> held = true) /\ tidy held rest
  end.

Lemma tidy_app held l1 l2 : forallb (fun c => negb (uses h c) && negb (releases h c) && negb (unlocks c)) l1 = true -> tidy held l2 -> tidy held (l1 ++ l2).
Proof.
  induction l1 as [|c l1 IH]; [done|]. cbn. intros [[[Hu Hr]%andb_true_iff Hk]%andb_true_iff Hl]%andb_true_iff Ht. apply negb_true_iff in Hu, Hr, Hk.
  rewrite Hr. split; [done|]. split; [congruence|by apply IH].
Qed.

(** Every client is tidy, and makes at most 74 calls. *)
Lemma client_tidy l : client_calls h l -> tidy true l /\ (length l <= 74)%nat.
Proof.
  intros (W & O & w & r & s' & w' & t & Hr & <-).
  destruct (wp_result _ _ _ _ _ _ _ _ (bridge_sessions h tt w) Hr) as (_ & _ & k & tail & Hk & Hs & ->). clear Hr. split.
  - change (the (HostReadTimeout (Some 5)) :: repeat (the HostReadByte) k ++ tail) with (([the (HostReadTimeout (Some 5))] ++ repeat (the HostReadByte) k) ++ tail).
    apply tidy_app; [clear; cbn; induction k as [|k IH]; [done|exact IH]|]. destruct Hs as [|port _|port copies _ Hc]; cbn [tidy releases uses unlocks projT2]; rewrite ?Z.eqb_refl; [tauto..|].
    do 4 (split; [tauto|]). repeat (apply elem_of_cons in Hc as [->|Hc]; [cbn [tidy releases uses unlocks projT2]; tauto|]). by apply elem_of_nil in Hc.
  - cbn [length]. rewrite length_app, repeat_length. unfold CONNECT_LIMIT in Hk.
    destruct Hs as [|port _|port copies _ Hc]; cbn [length]; [lia..|].
    repeat (apply elem_of_cons in Hc as [->|Hc]; [cbn [length]; lia|]). by apply elem_of_nil in Hc.
Qed.

(** What is left of a teardown: [lp] and [rs] are the threads not yet joined. *)
Fixpoint teardown_ok (ref lp rs : bool) (l : list AnyCall) : Prop :=
  match l with
  | [] => ref = false /\ lp = false /\ rs = false
  | c :: rest =>
      uses h c = false /\
      match projT2 c with
      | JoinThread name => if String.eqb name "vsock accept loop" then teardown_ok ref false rs rest else teardown_ok ref lp false rest
      | HbLongFree _ => ref = true /\ teardown_ok false lp rs rest
      | Unlock _ => ref = false /\ lp = false /\ rs = false /\ teardown_ok ref lp rs rest
      | _ => teardown_ok ref lp rs rest
      end
  end.

Lemma teardown_tidy b l : wf b -> vm b = Some h -> teardown_run b l ->
  teardown_ok true (match vsock_bridge b with Some _ => true | None => false end)
    (match vmnet_mmds b with Some _ => true | None => false end) l.
Proof.
  intros Hb Hv (W & O & w & r & b' & w' & t & Hr & <-).
  assert (calls t = teardown_calls b) as ->.
  { set (Q := fun (_ : Result unit FcApi.VmmBackendError) (_ : VzBackend) (_ : W) t => calls t = teardown_calls b).
    destruct Hr as [Hr|Hr].
    - exact (wp_result _ Q _ _ _ _ _ _ (wp_drop_backend Q b w (wf_one_vm _ Hb) (fun _ _ E => E)) Hr).
    - exact (wp_result _ Q _ _ _ _ _ _ (wp_abort_boot Q b w (wf_one_vm _ Hb) (fun _ _ E => E)) Hr). }
  clear Hr. unfold teardown_calls. rewrite Hv. clear. destruct (vmnet_mmds b), (vsock_bridge b), (pool_slot b); cbn; tauto.
Qed.

(** ** The invariant *)

Fixpoint frees (l : list Happening) : nat :=
  match l with [] => 0 | FreedVm :: l' => S (frees l') | Made _ :: l' => frees l' end.
Lemma frees_app l1 l2 : frees (l1 ++ l2) = (frees l1 + frees l2)%nat.
Proof. induction l1 as [|[] l1 IH]; cbn; lia. Qed.

(** What has happened, with [n] references left. *)
Record Log (n : nat) (l : list Happening) : Prop := {
  log_freed : frees l = if (n =? 0)%nat then 1%nat else 0%nat;
  log_used : forall l1 c l2, l = l1 ++ Made c :: l2 -> uses h c = true -> frees l1 = 0%nat }.

Lemma snoc_split {A} (l l1 l2 : list A) x y : l ++ [x] = l1 ++ y :: l2 ->
  (l2 = [] /\ l1 = l /\ y = x) \/ exists l2', l2 = l2' ++ [x] /\ l = l1 ++ y :: l2'.
Proof.
  destruct l2 as [|z l2 _] using rev_ind; intros He.
  - left. by apply app_inj_tail in He as [-> ->].
  - right. exists l2. rewrite app_comm_cons, app_assoc in He. by apply app_inj_tail in He as [-> ->].
Qed.
Lemma log_note n l c : Log n l -> (uses h c = true -> n <> 0%nat) -> Log n (l ++ [Made c]).
Proof.
  intros [Hf Hu] Hc. split; [by rewrite frees_app, Hf; cbn; rewrite Nat.add_0_r|].
  intros l1 c' l2 [(-> & -> & [= ->])|(l2' & -> & ->)]%snoc_split Hc'; [|by eapply Hu].
  rewrite Hf. destruct (Nat.eqb_spec n 0); [by destruct (Hc Hc')|done].
Qed.
Lemma log_drop n m l : Log (S n) l -> Log m (if (m =? 0)%nat then l ++ [FreedVm] else l).
Proof.
  intros [Hf Hu]. cbn in Hf. destruct (m =? 0)%nat eqn:Em; split; rewrite ?Em, ?frees_app, ?Hf; try done.
  intros l1 c l2 [(_ & _ & [=])|(l2' & -> & ->)]%snoc_split Hc. by eapply Hu.
Qed.
Lemma log_grow n m l : Log (S n) l -> Log (S m) l.
Proof. intros [Hf Hu]. by split. Qed.

Record Inv (s : Life) : Prop := {
  inv_owner : exists lp rs, teardown_ok (field s) lp rs (owner s) /\ (loop s = true -> lp = true) /\ (responder s = true -> rs = true);
  inv_clients : Forall (fun c => tidy c.1 c.2 /\ (length c.2 <= 74)%nat) (clients s);
  inv_log : Log (strong_count s) (happened s);
  inv_slot : forall p, Made (the (Unlock p)) ∈ happened s -> field s = false /\ loop s = false /\ responder s = false }.

Lemma count_held_insert l i a x b y : l !! i = Some (a, x) ->
  (count_held (<[i := (b, y)]> l) + Nat.b2n a = count_held l + Nat.b2n b)%nat.
Proof.
  unfold count_held. revert i. induction l as [|[c z] l IH]; intros [|i]; cbn [lookup list_lookup insert list_insert]; try done.
  - intros [= -> ->]. rewrite !filter_cons. cbn [fst]. destruct a, b; repeat case_decide; cbn; congruence || lia.
  - intros Hi%IH. rewrite !filter_cons. cbn [fst]. case_decide; cbn [length Nat.add]; [f_equal|]; exact Hi.
Qed.

Ltac fields := cbn [owner field flag loop responder clients happened with_clients with_loop with_responder fst snd Nat.b2n].

(** A drop: one reference fewer. *)
Lemma inv_dropped s s0 : Inv s -> strong_count s = S (strong_count s0) -> happened s0 = happened s -> 
  (exists lp rs, teardown_ok (field s0) lp rs (owner s0) /\ (loop s0 = true -> lp = true) /\ (responder s0 = true -> rs = true)) ->
  Forall (fun c => tidy c.1 c.2 /\ (length c.2 <= 74)%nat) (clients s0) ->
  (field s = false -> field s0 = false) -> (loop s = false -> loop s0 = false) -> (responder s = false -> responder s0 = false) ->
  Inv (dropped_ref s0).
Proof.
  intros [_ _ Hlog Hsl] Hn Hh Ho Hc Hf Hl Hr. rewrite Hn in Hlog. apply (log_drop _ (strong_count s0)) in Hlog. rewrite <- Hh in Hlog.
  assert (Hs0 : forall p, Made (the (Unlock p)) ∈ happened s0 -> field s0 = false /\ loop s0 = false /\ responder s0 = false).
  { intros p Hp. rewrite Hh in Hp. destruct (Hsl p Hp) as (? & ? & ?). auto. }
  unfold dropped_ref. destruct (strong_count s0 =? 0)%nat eqn:En; [|by split]. split; cbn; try done.
  intros p [Hp|Hp%list_elem_of_singleton]%elem_of_app; [by eapply Hs0|done].
Qed.

(** A call is noted: it may need the VM only while a reference is held. *)
Lemma inv_noted s c : Inv s -> (uses h c = true -> strong_count s <> 0%nat) ->
  (match projT2 c with Unlock _ => field s = false /\ loop s = false /\ responder s = false | _ => True end) -> Inv (note c s).
Proof.
  intros [Ho Hc Hlog Hsl] Hu Hk. split; cbn; [done|done|by apply log_note|].
  intros p [Hp|Hp%list_elem_of_singleton]%elem_of_app; [by eapply Hsl|]. injection Hp as <-. exact Hk.
Qed.

Lemma inv_owner_step s c rest s' : Inv s -> owner s = c :: rest -> owner_moves c rest s s' -> Inv s'.
Proof.
  intros HI Ho. pose proof HI as [(lp & rs & Ht & Hlp & Hrs) Hc Hlog Hsl]. rewrite Ho in Ht. cbn [teardown_ok] in Ht. destruct Ht as [Hu Ht].
  (* the backend's program and flag move on *)
  assert (Hon : forall f lp' rs', teardown_ok (field s) lp' rs' rest -> (loop s = true -> lp' = true) -> (responder s = true -> rs' = true) ->
    Inv {| owner := rest; field := field s; flag := f; loop := loop s; responder := responder s; clients := clients s; happened := happened s |}).
  { intros f lp' rs' H1 H2 H3. split; cbn; [by exists lp', rs'|done..]. }
  unfold owner_moves. destruct c as [A c]. cbn [projT2] in *.
  assert (Hnote : forall f lp' rs', teardown_ok (field s) lp' rs' rest -> (loop s = true -> lp' = true) -> (responder s = true -> rs' = true) ->
    (match c with Unlock _ => field s = false /\ loop s = false /\ responder s = false | _ => True end) ->
    Inv (note (the c) {| owner := rest; field := field s; flag := f; loop := loop s; responder := responder s; clients := clients s; happened := happened s |})).
  { intros f lp' rs' H1 H2 H3 H4. apply inv_noted; [by eapply Hon|congruence|exact H4]. }
  destruct c; try (by intros ->; eapply Hnote).
  - intros ->. destruct Ht as (Hf & -> & -> & Ht). eapply Hnote; try done.
    split_and!; [done|by destruct (loop s); [specialize (Hlp eq_refl)|]|by destruct (responder s); [specialize (Hrs eq_refl)|]].
  - intros [Hj ->]. destruct (String.eqb name "vsock accept loop"); by eapply Hnote; try done; rewrite Hj.
  - intros ->. destruct Ht as [Hf Ht]. apply (inv_dropped s); fields; try done; [|by exists lp, rs].
    unfold strong_count. fields. rewrite Hf. cbn [Nat.b2n]. lia.
Qed.

Lemma held_counts s i rest : clients s !! i = Some (true, rest) -> strong_count s <> 0%nat.
Proof. intros Hi. pose proof (count_held_insert _ _ _ _ false rest Hi). unfold strong_count. cbn [Nat.b2n] in *. lia. Qed.

Lemma inv_client_step s i held c rest : Inv s -> clients s !! i = Some (held, c :: rest) ->
  Inv (if releases h c then dropped_ref (with_clients (<[i := (false, rest)]> (clients s)) s)
       else note c (with_clients (<[i := (held, rest)]> (clients s)) s)).
Proof.
  intros HI Hi. pose proof HI as [Ho Hc Hlog Hsl]. pose proof (proj1 (Forall_forall _ _) Hc _ (list_elem_of_lookup_2 _ _ _ Hi)) as [Ht Hl].
  cbn in Ht, Hl. destruct (releases h c) eqn:Er.
  - destruct Ht as [-> Ht]. pose proof (count_held_insert _ _ _ _ false rest Hi) as Hn. cbn in Hn.
    apply (inv_dropped s); fields; try done; [unfold strong_count; fields; lia|]. apply Forall_insert; [done|]. fields. cbn [length] in Hl. split; [done|lia].
  - destruct Ht as (Hk & Hu & Ht). pose proof (count_held_insert _ _ _ _ held rest Hi) as Hn.
    assert (Heq : strong_count (with_clients (<[i:=(held, rest)]> (clients s)) s) = strong_count s) by (unfold strong_count; fields; lia).
    apply inv_noted.
    + split; cbn; [done| |by rewrite Heq|done]. apply Forall_insert; [done|]. fields. cbn [length] in Hl. split; [done|lia].
    + intros Hc'. rewrite Heq. specialize (Hu Hc'). subst held. by eapply held_counts.
    + clear - Hk. by destruct c as [A []].
Qed.

Lemma inv_step s s' : Inv s -> life_step s s' -> Inv s'.
Proof.
  intros HI Hst. destruct Hst as [s c rest s' Ho Hm|s l Hl Hf Hc|s Hl Hf|s c Hf Hu|s c Hr Hu|s Hr|s i held c rest Hi].
  - by eapply inv_owner_step.
  - pose proof HI as [Ho Hcl Hlog Hsl]. apply client_tidy in Hc as [Ht Hn].
    split; fields; [done|apply Forall_app; split; [done|by apply Forall_singleton]| |done].
    assert (Hone : forall s1, loop s1 = true -> exists n, strong_count s1 = S n).
    { intros s1 H1. unfold strong_count. rewrite H1.
      exists (Nat.b2n (field s1) + Nat.b2n (responder s1) + count_held (clients s1))%nat. cbn [Nat.b2n]. lia. }
    destruct (Hone s Hl) as [n En]. destruct (Hone (with_clients (clients s ++ [(true, l)]) s) Hl) as [m ->].
    rewrite En in Hlog. by eapply log_grow.
  - pose proof HI as [(lp & rs & Ho & Hlp & Hrs) Hcl Hlog Hsl]. apply (inv_dropped s); fields; try done; [|by exists lp, rs].
    unfold strong_count. fields. rewrite Hl. cbn [Nat.b2n]. lia.
  - apply inv_noted; [done| |by destruct c as [A []]]. intros _. unfold strong_count. rewrite Hf. cbn [Nat.b2n]. lia.
  - apply inv_noted; [done| |by destruct c as [A []]]. intros _. unfold strong_count. rewrite Hr. cbn [Nat.b2n]. lia.
  - pose proof HI as [(lp & rs & Ho & Hlp & Hrs) Hcl Hlog Hsl]. apply (inv_dropped s); fields; try done; [|by exists lp, rs].
    unfold strong_count. fields. rewrite Hr. cbn [Nat.b2n]. lia.
  - by apply inv_client_step.
Qed.

Lemma inv_reached b s : wf b -> vm b = Some h -> life_reached b s -> Inv s.
Proof.
  intros Hb Hv. induction 1 as [l Hl|s s' _ IH Hst]; [|by eapply inv_step].
  split; cbn; [|constructor| |by intros p ?%elem_of_nil].
  - eexists _, _. split; [by apply (teardown_tidy b l)|done].
  - split; [done|]. intros l1 c l2 He. by destruct l1.
Qed.
End System.

Lemma frees_none l : frees l = 0%nat <-> FreedVm ∉ l.
Proof.
  induction l as [|[c|] l IH]; cbn.
  - split; [by intros _ ?%elem_of_nil|done].
  - rewrite IH, not_elem_of_cons. naive_solver.
  - split; [done|]. intros Hn. destruct Hn. left.
Qed.

(** C7: The VM is freed once, by the last that holds it, and nobody uses it
    afterwards.  In every interleaving of the backend's requests and its
    teardown with the responder, the accept loop and any number of bridge
    clients: a call that needs the VM comes before it is freed; it has been
    freed exactly once if no reference is left, and not if one is; and a pool
    slot is unlocked while the VM still runs only if a client of the bridge
    holds the VM, having not yet finished its handshake. *)
Theorem vm_outlives_its_users h b s : wf b -> vm b = Some h -> life_reached h b s ->
  (forall l1 c l2, happened s = l1 ++ Made c :: l2 -> uses h c = true -> FreedVm ∉ l1) /\
  frees (happened s) = (if (strong_count s =? 0)%nat then 1 else 0)%nat /\
  (forall p, Made (the (Unlock p)) ∈ happened s -> FreedVm ∉ happened s -> exists i rest, clients s !! i = Some (true, rest)).
Proof.
  intros Hb Hv [Ho Hc [Hf Hu] Hsl]%inv_reached; [|done..]. split_and!; [|done|].
  - intros l1 c l2 He Hc'. apply frees_none. by eapply Hu.
  - intros p (Hfd & Hl & Hr)%Hsl Hn%frees_none. rewrite Hn in Hf. destruct (Nat.eqb_spec (strong_count s) 0) as [|Hz]; [done|].
    unfold strong_count in Hz. rewrite Hfd, Hl, Hr in Hz. cbn [Nat.b2n Nat.add] in Hz. unfold count_held in Hz.
    destruct (filter _ (clients s)) as [|[held rest] l] eqn:E; [done|].
    assert (Hin : (held, rest) ∈ filter (fun c => fst c = true) (clients s)) by (rewrite E; left).
    apply list_elem_of_filter in Hin as [Hh Hin]. cbn in Hh. subst held. apply list_elem_of_lookup_1 in Hin as [i Hi]. eauto.
Qed.

(** ** The end *)

Definition to_do (s : Life) : nat := sum_list_with (fun c => length (snd c)) (clients s).

Lemma calls_left_insert l i a x y : l !! i = Some (a, x) ->
  (sum_list_with (fun c : bool * list AnyCall => length (snd c)) (<[i := y]> l) + length x =
   sum_list_with (fun c => length (snd c)) l + length (snd y))%nat.
Proof.
  set (size := fun c : bool * list AnyCall => length (snd c)).
  revert i. induction l as [|[c z] l IH]; intros [|i]; try done.
  - intros [= -> ->]. cbn. unfold size. cbn. lia.
  - intros Hi%IH. change ((length z + sum_list_with size (<[i := y]> l)) + length x = (length z + sum_list_with size l) + length (snd y))%nat. lia.
Qed.

(** Once the backend has let go, only clients move, and each move is one fewer. *)
Lemma end_step h s s' : Inv h s -> owner s = [] -> life_step h s s' -> owner s' = [] /\ to_do s = S (to_do s').
Proof.
  intros [(lp & rs & Ht & Hlp & Hrs) _ _ _] Ho Hst. rewrite Ho in Ht. destruct Ht as (Hf & -> & ->).
  destruct Hst as [s c rest s' Ho'|s l Hl|s Hl|s c Hf'|s c Hr|s Hr|s i held c rest Hi]; try congruence; try (by specialize (Hlp Hl)); try (by specialize (Hrs Hr)).
  assert (Hs : forall b, to_do s = S (to_do (with_clients (<[i := (b, rest)]> (clients s)) s))).
  { intros b. pose proof (calls_left_insert _ _ _ _ (b, rest) Hi) as Hn. unfold to_do. cbn [clients with_clients]. cbn [snd length] in Hn. lia. }
  destruct (releases h c); [|by split; [|apply Hs]]. unfold dropped_ref. destruct (_ =? 0)%nat; (split; [done|apply Hs]).
Qed.

Lemma end_steps h n s s' : Inv h s -> owner s = [] -> nsteps (life_step h) n s s' -> Inv h s' /\ owner s' = [] /\ (to_do s = n + to_do s')%nat.
Proof.
  intros HI Ho Hn. induction Hn as [s|n s s1 s' Hst _ IH]; [done|].
  destruct (end_step h s s1 HI Ho Hst) as [Ho1 Hd]. destruct IH as (HI' & Ho' & Hd'); [by eapply inv_step|done|]. split_and!; [done..|lia].
Qed.

Lemma to_do_bound h s : Inv h s -> (to_do s <= 74 * length (clients s))%nat.
Proof.
  intros [_ Hc _ _]. unfold to_do. induction Hc as [|[a x] l [_ Hx] _ IH]; cbn in *; lia.
Qed.

(** C33: The VM is freed in the end.  Once the backend has let go of everything,
    whatever its clients do, the threads make at most 74 more calls each, and
    when none of them can move any more the VM has been freed, once. *)
Theorem vm_freed_in_the_end h b s : wf b -> vm b = Some h -> life_reached h b s -> owner s = [] ->
  (forall n s', nsteps (life_step h) n s s' -> (n <= 74 * length (clients s))%nat) /\
  (forall s', rtc (life_step h) s s' -> (forall s2, ~ life_step h s' s2) -> frees (happened s') = 1%nat).
Proof.
  intros Hb Hv HI%inv_reached Ho; [|done..]. split.
  - intros n s' (_ & _ & Hd)%end_steps; [|done..]. pose proof (to_do_bound h s HI). lia.
  - intros s' [n Hn]%rtc_nsteps_1 Hstuck. destruct (end_steps h n s s' HI Ho Hn) as ([(lp & rs & Ht & Hlp & Hrs) Hc [Hf _] _] & Ho' & _).
    rewrite Ho' in Ht. destruct Ht as (Hfd & -> & ->). rewrite Hf.
    enough (strong_count s' = 0%nat) as -> by done. unfold strong_count. rewrite Hfd.
    destruct (loop s'); [by specialize (Hlp eq_refl)|]. destruct (responder s'); [by specialize (Hrs eq_refl)|]. cbn [Nat.b2n Nat.add].
    unfold count_held. destruct (filter _ (clients s')) as [|[held rest] l] eqn:E; [done|].
    assert (Hin : (held, rest) ∈ filter (fun c => fst c = true) (clients s')) by (rewrite E; left).
    apply list_elem_of_filter in Hin as [Hh Hin]. cbn in Hh. subst held. pose proof (proj1 (Forall_forall _ _) Hc _ Hin) as [Ht _].
    apply list_elem_of_lookup_1 in Hin as [i Hi]. destruct rest as [|c rest]; [done|]. destruct (Hstuck _ (client_step h s' i true c rest Hi)).
Qed.

(** ** A pool VM with a client in its handshake *)

Module DemoLife.
Definition pool : Pool :=
  {| Pool.dir := "/pool"; meta := {| m_kernel := "/vm/Image"; m_initramfs := Some "/vm/initramfs"; m_pristine := "/pool/pristine.ext4";
     m_save := "/pool/save"; m_slots := 1; m_cpus := 1; m_memory_mib := 128; m_flavor := Agent |} |}.
Definition requests : list Request :=
  [ConfigureBootSource Demo.boot; InsertBlockDevice (Demo.disk "rootfs" "/pool/pristine.ext4" true);
   ConfigureVsock {| guest_cid := 3; uds_path := "/vm/v.sock"; vsock_id := None |}; StartMicroVm].
Definition running : VzBackend :=
  snd (fst (fst (@serve unit calm Demo.serde requests (assemble "demo" 0 false false (Some pool)) tt))).
Lemma pool_running_wf : wf running.
Proof. apply served_wf; [apply wf_assemble|]. repeat constructor; vm_compute; congruence. Qed.

(** A client that connects and sends nothing. *)
Definition silent : list AnyCall :=
  [the (HostReadTimeout (Some 5)); the HostReadByte; the (HostWriteAll ERR_INVALID); the (ReleaseVm 1)].
Lemma silent_client : client_calls 1 silent.
Proof. eexists unit, calm, tt, _, _, _, _. split; [vm_compute; reflexivity|reflexivity]. Qed.

(** The backend's teardown, around the moment it lets go of the VM. *)
Definition closing : list AnyCall :=
  [the (UdsConnect "/vm/v.sock"); the (JoinThread "vsock accept loop"); the (RemoveFile "/vm/v.sock")].
Definition freeing_slot : list AnyCall := [the (RemoveFile "/pool/slot-0/rootfs.ext4"); the (Unlock "/pool/slot-0/lock")].
Lemma teardown_runs : teardown_run running (closing ++ [the (HbLongFree 1)] ++ freeing_slot).
Proof. eexists unit, calm, tt, _, _, _, _. split; [left; vm_compute; reflexivity|reflexivity]. Qed.

(** The backend is done, its slot is unlocked, and the client holds the VM. *)
Definition handshake : Life :=
  {| owner := []; field := false; flag := false; loop := false; responder := false; clients := [(true, silent)];
     happened := Made <$> closing ++ freeing_slot |}.
Lemma handshake_reached : life_reached 1 running handshake.
Proof.
  pose proof (life_init 1 running _ teardown_runs) as H0.
  replace (at_teardown _ _) with {| owner := closing ++ [the (HbLongFree 1)] ++ freeing_slot; field := true; flag := true; loop := true;
    responder := false; clients := []; happened := [] |} in H0 by (vm_compute; reflexivity).
  generalize running as b, H0. clear H0. intros b H0.
  eapply life_next in H0; [|eapply (accepts_client 1 _ silent); [done|done|apply silent_client]].
  do 7 (eapply life_next in H0;
    [|first [eapply owner_step; [reflexivity|cbn; first [reflexivity|split; reflexivity]]|eapply loop_ends; [reflexivity|reflexivity]]]).
  exact H0.
Qed.
End DemoLife.

(** A pool slot can be unlocked under a running VM.  The VM of the demo was
    restored from a pool; a client connects to its vsock and sends nothing; the
    backend is dropped.  Teardown waits for the accept loop and not for the
    client's thread, which keeps the VM until its read times out: the slot's
    disk is removed and its lock released, and the VM has not been freed. *)
Example slot_unlocked_under_running_vm :
  wf DemoLife.running /\ vm DemoLife.running = Some 1 /\
  exists s, life_reached 1 DemoLife.running s /\ owner s = [] /\
    Made (the (RemoveFile "/pool/slot-0/rootfs.ext4")) ∈ happened s /\ Made (the (Unlock "/pool/slot-0/lock")) ∈ happened s /\
    FreedVm ∉ happened s.
Proof.
  split; [apply DemoLife.pool_running_wf|]. split; [vm_compute; reflexivity|].
  exists DemoLife.handshake. split; [apply DemoLife.handshake_reached|].
  rewrite <- frees_none. split_and!; [reflexivity| | |reflexivity]; cbn [happened DemoLife.handshake]; apply list_elem_of_fmap_2;
    unfold DemoLife.closing, DemoLife.freeing_slot; cbn [app]; set_solver.
Qed.

Lemma vm_outlives_its_users_witness : wf DemoLife.running /\ vm DemoLife.running = Some 1 /\
  exists i rest, clients DemoLife.handshake !! i = Some (true, rest).
Proof.
  assert (Hb : wf DemoLife.running) by apply DemoLife.pool_running_wf.
  assert (Hv : vm DemoLife.running = Some 1) by (vm_compute; reflexivity).
  split; [exact Hb|]. split; [exact Hv|].
  destruct (vm_outlives_its_users 1 _ _ Hb Hv DemoLife.handshake_reached) as (_ & _ & Hc).
  apply (Hc "/pool/slot-0/lock").
  - cbn [happened DemoLife.handshake]. apply list_elem_of_fmap_2. unfold DemoLife.closing, DemoLife.freeing_slot. cbn [app]. set_solver.
  - apply frees_none. reflexivity.
Defined.

Lemma vm_freed_in_the_end_witness : owner DemoLife.handshake = [] /\ (forall n s', nsteps (life_step 1) n DemoLife.handshake s' -> (n <= 74)%nat).
Proof.
  split; [reflexivity|].
  destruct (vm_freed_in_the_end 1 DemoLife.running DemoLife.handshake) as [Hn _];
    [apply DemoLife.pool_running_wf|vm_compute; reflexivity|apply DemoLife.handshake_reached|reflexivity|].
  exact Hn.
Defined.
