(* ===== verification/Server.v ===== *)
(** * The HTTP API (hephaestus-firecracker/src/server.rs)

    [route] turns an HTTP request into an operation of the backend and its
    result into a response.  A request takes the mutex of the backend twice,
    once for its operation and once to be counted, so the requests of
    several connections interleave between the two; [server_step] is every
    such interleaving, a step per stretch under the mutex.  ServerLock has
    the mutex itself, and shows that its runs are these.  Decoding of bodies
    is serde's and a parameter. *)

From S2P Require Import Prelude RustStr Json World Bridge FcApi Pool Telemetry BackendState Backend Ledger BackendBoot BackendSpec BackendProps.
Local Open Scope string_scope.
Local Open Scope Z_scope.
Local Open Scope list_scope.

(** ** Requests and responses *)

(** A body as it arrives: the bytes delivered, and the error that ended it
    if one did. *)
Record Incoming := { delivered : string; failure : option string }.

Record HttpRequest := { method : string; path : string; body : Incoming }.

Inductive Body :=
| Empty
| JInstanceInfo (i : InstanceInfo)
| JVersion (v : string)
| JMachineConfig (c : MachineConfig)
| JValue (v : Value)
| JBalloon (c : BalloonDeviceConfig)
| JFault (fault_message : string).

Record Response := { code : Z; content : Body }.

Definition OK : Z := 200.
Definition NO_CONTENT : Z := 204.
Definition BAD_REQUEST : Z := 400.
Definition NOT_FOUND : Z := 404.
Definition INTERNAL_SERVER_ERROR : Z := 500.

Definition json_response (status : Z) (b : Body) : Response := {| code := status; content := b |}.
Definition fault (status : Z) (msg : string) : Response := json_response status (JFault msg).

Definition to_response (result : Reply) : Response :=
  match result with
  | Ok _ => {| code := NO_CONTENT; content := Empty |}
  | Err err =>
      let status := match err with
                    | InvalidState _ | InvalidConfig _ | NotSupported _ => BAD_REQUEST
                    | Internal _ => INTERNAL_SERVER_ERROR
                    end in
      fault status (backend_error_display err)
  end.

Definition unsupported (feature : string) : Response := to_response (Err (NotSupported feature)).

Inductive ActionType := InstanceStart | FlushMetricsAction | SendCtrlAltDelAction.

(** ** Bodies *)

Definition MAX_BODY_BYTES : Z := 51200.

(** [serde_json::from_slice] at the type of each body. *)
Class Decoders := {
  de_machine : string -> Result MachineConfig string;
  de_machine_update : string -> Result MachineUpdate.MachineConfigUpdate string;
  de_boot_source : string -> Result BootSourceConfig string;
  de_drive : string -> Result Drive.BlockDeviceConfig string;
  de_drive_update : string -> Result DriveUpdate.BlockDeviceUpdateConfig string;
  de_vm : string -> Result UpdatedVm string;
  de_logger : string -> Result LoggerConfig string;
  de_net : string -> Result NetworkInterfaceConfig string;
  de_metrics : string -> Result MetricsConfig string;
  de_value : string -> Result Value string;
  de_mmds_config : string -> Result MmdsConfig string;
  de_create_snapshot : string -> Result CreateSnapshotParams string;
  de_load_snapshot : string -> Result LoadSnapshotConfig string;
  de_action : string -> Result ActionType string;
  de_balloon : string -> Result BalloonDeviceConfig string;
  de_balloon_update : string -> Result BalloonUpdateConfig string;
  de_vsock : string -> Result VsockConfig string }.

(** [Limited::new(body, MAX_BODY_BYTES).collect()], then the decoder. *)
Definition parse_body {T} (de : string -> Result T string) (b : Incoming) : Result T Response :=
  if MAX_BODY_BYTES <? len (delivered b) then
    Err (fault BAD_REQUEST ("request body exceeds the " +:+ to_dec MAX_BODY_BYTES +:+ "-byte limit"))
  else match failure b with
       | Some err => Err (fault BAD_REQUEST ("failed to read body: " +:+ err))
       | None => map_err (fun err => fault BAD_REQUEST ("failed to parse JSON body: " +:+ err))
                   (de (delivered b))
       end.

(** ** Routing *)

(** What a route does: answer at once without being counted, answer without
    the backend, read the backend, or run one of its operations. *)
Inductive Plan :=
| Uncounted (r : Response)
| Answer (r : Response)
| Query (q : VzBackend -> Response)
| Operate (op : Backend.Request) (k : Reply -> Response).

Definition decoded {T} (r : Result T Response) (k : T -> Plan) : Plan :=
  match r with Ok x => k x | Err resp => Answer resp end.

(** The id that ends a path, when it is one. *)
Definition path_id (prefix p : string) : option string :=
  let id := trim_start_matches prefix p in
  if str_is_empty id || contains_char (ch 47) id then None else Some id.

Section Route.
Context `{Decoders}.

Definition by_id {T} (prefix p what mismatch : string) (de : string -> Result T string) (b : Incoming)
  (id_of : T -> string) (k : T -> Plan) : Plan :=
  match path_id prefix p with
  | None => Uncounted (fault BAD_REQUEST ("invalid " +:+ what))
  | Some id =>
      decoded (parse_body de b) (fun cfg =>
        if negb (String.eqb (id_of cfg) id) then Answer (fault BAD_REQUEST mismatch) else k cfg)
  end.

Definition op (r : Backend.Request) : Plan := Operate r to_response.
Definition refuse_with_body (feature : string) (b : Incoming) : Plan :=
  decoded (parse_body de_value b) (fun _ => Answer (unsupported feature)).

(** The arms of [route], in its order. *)
Definition plan (req : HttpRequest) : Plan :=
  let m := method req in
  let p := path req in
  let b := body req in
  let at_ (m' p' : string) := String.eqb m m' && String.eqb p p' in
  let under (m' prefix : string) := String.eqb m m' && starts_with prefix p in
  if at_ "GET" "/" then Query (fun s => json_response OK (JInstanceInfo (instance_info s)))
  else if at_ "GET" "/version" then Answer (json_response OK (JVersion FIRECRACKER_COMPAT_VERSION))
  else if at_ "GET" "/machine-config" then
    Query (fun s => json_response OK (JMachineConfig (get_machine_config s)))
  else if at_ "PUT" "/machine-config" then decoded (parse_body de_machine b) (fun c => op (PutMachineConfig c))
  else if at_ "PATCH" "/machine-config" then
    decoded (parse_body de_machine_update b) (fun u => op (PatchMachineConfig u))
  else if at_ "PUT" "/boot-source" then decoded (parse_body de_boot_source b) (fun c => op (ConfigureBootSource c))
  else if under "PUT" "/drives/" then
    by_id "/drives/" p "drive id" "drive_id in body does not match URL" de_drive b Drive.drive_id
      (fun c => op (InsertBlockDevice c))
  else if under "PATCH" "/drives/" then
    by_id "/drives/" p "drive id" "drive_id in body does not match URL" de_drive_update b DriveUpdate.drive_id
      (fun c => op (UpdateBlockDevice c))
  else if at_ "PATCH" "/vm" then
    decoded (parse_body de_vm b) (fun u =>
      match updated_state u with ToPaused => op Pause | ToResumed => op Resume end)
  else if at_ "PUT" "/logger" then decoded (parse_body de_logger b) (fun c => op (ConfigureLogger c))
  else if under "PUT" "/network-interfaces/" then
    by_id "/network-interfaces/" p "iface id" "iface_id in body does not match URL" de_net b Net.iface_id
      (fun c => op (InsertNetworkDevice c))
  else if under "PATCH" "/network-interfaces/" then
    by_id "/network-interfaces/" p "iface id" "iface_id in body does not match URL" de_net b Net.iface_id
      (fun c => op (UpdateNetworkDevice c))
  else if at_ "PUT" "/metrics" then decoded (parse_body de_metrics b) (fun c => op (ConfigureMetrics c))
  else if at_ "GET" "/mmds" then Query (fun s => json_response OK (JValue (get_mmds s)))
  else if at_ "PUT" "/mmds" then decoded (parse_body de_value b) (fun v => op (PutMmds v))
  else if at_ "PATCH" "/mmds" then decoded (parse_body de_value b) (fun v => op (PatchMmds v))
  else if at_ "PUT" "/mmds/config" then decoded (parse_body de_mmds_config b) (fun c => op (ConfigureMmds c))
  else if at_ "PUT" "/snapshot/create" then
    decoded (parse_body de_create_snapshot b) (fun c => op (CreateSnapshot c))
  else if at_ "PUT" "/snapshot/load" then decoded (parse_body de_load_snapshot b) (fun c => op (LoadSnapshot c))
  else if at_ "PUT" "/actions" then
    decoded (parse_body de_action b) (fun a =>
      match a with
      | InstanceStart => op StartMicroVm
      | FlushMetricsAction => Operate FlushMetrics (fun _ => to_response (Ok tt))
      | SendCtrlAltDelAction => op SendCtrlAltDel
      end)
  else if at_ "PUT" "/cpu-config" || at_ "PATCH" "/cpu-config" then refuse_with_body "cpu-config" b
  else if at_ "PUT" "/balloon" then decoded (parse_body de_balloon b) (fun c => op (ConfigureBalloon c))
  else if at_ "PATCH" "/balloon" then decoded (parse_body de_balloon_update b) (fun c => op (UpdateBalloon c))
  else if at_ "GET" "/balloon" then
    Query (fun s => match get_balloon s with
                    | Ok c => json_response OK (JBalloon c)
                    | Err err => to_response (Err err)
                    end)
  else if at_ "GET" "/balloon/statistics" then Answer (unsupported "balloon/statistics")
  else if at_ "PATCH" "/balloon/statistics" then refuse_with_body "balloon/statistics" b
  else if at_ "PATCH" "/balloon/hinting/start" then refuse_with_body "balloon/hinting/start" b
  else if at_ "GET" "/balloon/hinting/status" then Answer (unsupported "balloon/hinting/status")
  else if at_ "PATCH" "/balloon/hinting/stop" then refuse_with_body "balloon/hinting/stop" b
  else if at_ "PUT" "/entropy" then decoded (parse_body de_value b) (fun _ => op ConfigureEntropy)
  else if under "PUT" "/pmem/" then
    match path_id "/pmem/" p with
    | None => Uncounted (fault BAD_REQUEST "invalid pmem id")
    | Some _ => refuse_with_body "pmem" b
    end
  else if at_ "PUT" "/serial" then refuse_with_body "serial" b
  else if at_ "GET" "/hotplug/memory" then Answer (unsupported "hotplug/memory")
  else if at_ "PUT" "/hotplug/memory" || at_ "PATCH" "/hotplug/memory" then refuse_with_body "hotplug/memory" b
  else if at_ "GET" "/vm/config" then Answer (unsupported "vm/config")
  else if at_ "PUT" "/vsock" then decoded (parse_body de_vsock b) (fun c => op (ConfigureVsock c))
  else Answer (fault NOT_FOUND ("no handler for " +:+ m +:+ " " +:+ p)).

(** ** Serving a request *)

Context {W : Type} `{Outside W} `{Serde}.
Abbreviation B := (M W VzBackend VmmBackendError).

(** The part of [route] up to its response, under the first lock. *)
Definition answer (pl : Plan) : B Response :=
  match pl with
  | Uncounted r | Answer r => ret r
  | Query q => let! b := get in ret (q b)
  | Operate r k => let! res := attempt (exec r) in ret (k res)
  end.

(** The part after it, under the second lock. *)
Definition observe (id : Z) (req : HttpRequest) (resp : Response) : B unit :=
  exec (ObserveRequest id (method req) (path req) (code resp)).

Definition counted (pl : Plan) : bool := match pl with Uncounted _ => false | _ => true end.

Definition route (id : Z) (req : HttpRequest) : B Response :=
  let pl := plan req in
  let! resp := answer pl in
  do! (if counted pl then observe id req resp else ret tt) in
  ret resp.

(** ** Connections *)

(** Where the task of a request is: before its operation, before it is
    counted, answered. *)
Inductive Task :=
| Waiting (id : Z) (req : HttpRequest)
| Answered (id : Z) (req : HttpRequest) (resp : Response)
| Done (req : HttpRequest) (resp : Response).

Record Server := { backend : VzBackend; next_request_id : Z; tasks : list Task }.

Definition listening (b : VzBackend) : Server := {| backend := b; next_request_id := 1; tasks := [] |}.

Definition task_update (i : nat) (b : VzBackend) (x : Task) (srv : Server) : Server :=
  {| backend := b; next_request_id := next_request_id srv; tasks := <[i := x]> (tasks srv) |}.

Inductive server_step : Server -> W -> Trace -> Server -> W -> Prop :=
| step_arrive srv w req :
    server_step srv w []
      {| backend := backend srv; next_request_id := wrap 64 (next_request_id srv + 1);
         tasks := tasks srv ++ [Waiting (next_request_id srv) req] |} w
| step_answer srv w i id req resp b' w' t :
    tasks srv !! i = Some (Waiting id req) ->
    answer (plan req) (backend srv) w = (Ok resp, b', w', t) ->
    server_step srv w t
      (task_update i b' (if counted (plan req) then Answered id req resp else Done req resp) srv) w'
| step_observe srv w i id req resp u b' w' t :
    tasks srv !! i = Some (Answered id req resp) ->
    observe id req resp (backend srv) w = (u, b', w', t) ->
    server_step srv w t (task_update i b' (Done req resp) srv) w'
| step_tick srv w u b' w' t :
    exec FlushMetrics (backend srv) w = (u, b', w', t) ->
    server_step srv w t {| backend := b'; next_request_id := next_request_id srv; tasks := tasks srv |} w'.

Inductive server_run : Server -> W -> Trace -> Server -> W -> Prop :=
| run_nil srv w : server_run srv w [] srv w
| run_cons srv w t srv1 w1 t1 srv2 w2 :
    server_step srv w t srv1 w1 -> server_run srv1 w1 t1 srv2 w2 -> server_run srv w (t ++ t1) srv2 w2.
End Route.

(** ** What the types of the bodies say *)

Class TypedDecoders `{Decoders} := {
  td_machine : forall s c, de_machine s = Ok c -> wf_request (PutMachineConfig c);
  td_machine_update : forall s u, de_machine_update s = Ok u -> wf_request (PatchMachineConfig u);
  td_net : forall s c, de_net s = Ok c -> wf_request (InsertNetworkDevice c);
  td_value : forall s v, de_value s = Ok v -> wf_value v = true;
  td_balloon : forall s c, de_balloon s = Ok c -> wf_request (ConfigureBalloon c);
  td_balloon_update : forall s c, de_balloon_update s = Ok c -> wf_request (UpdateBalloon c) }.

(** An id that names one path segment. *)
Definition id_ok (id : string) : Prop := str_is_empty id = false /\ contains_char (ch 47) id = false.

Lemma path_id_Some prefix p id : path_id prefix p = Some id -> id_ok id /\ id = trim_start_matches prefix p.
Proof.
  unfold path_id, id_ok. destruct (_ || _) eqn:E; [done|]. apply orb_false_iff in E. by intros [= <-].
Qed.

Lemma parse_body_Ok {T} (de : string -> Result T string) b x :
  parse_body de b = Ok x -> de (delivered b) = Ok x /\ len (delivered b) <= MAX_BODY_BYTES /\ failure b = None.
Proof.
  unfold parse_body. destruct (Z.ltb_spec MAX_BODY_BYTES (len (delivered b))); [done|].
  destruct (failure b); [done|]. destruct (de (delivered b)); [|done]. simpl. by intros [= <-].
Qed.

Lemma decoded_Operate {T} de b (k : T -> Plan) r kk :
  decoded (parse_body de b) k = Operate r kk ->
  exists x, de (delivered b) = Ok x /\ len (delivered b) <= MAX_BODY_BYTES /\ k x = Operate r kk.
Proof.
  unfold decoded. destruct (parse_body de b) as [x|] eqn:E; [|done]. intros Hk.
  apply parse_body_Ok in E as (? & ? & _). eauto.
Qed.

Lemma by_id_Operate `{Decoders} {T} prefix p what mismatch de b (id_of : T -> string) k r kk :
  by_id prefix p what mismatch de b id_of k = Operate r kk ->
  exists x, de (delivered b) = Ok x /\ len (delivered b) <= MAX_BODY_BYTES /\
    id_ok (id_of x) /\ id_of x = trim_start_matches prefix p /\ k x = Operate r kk.
Proof.
  unfold by_id. destruct (path_id prefix p) as [id|] eqn:Ei; [|done].
  intros (x & Hx & Hl & Hk)%decoded_Operate. apply path_id_Some in Ei as [Hok Hid].
  destruct (String.eqb_spec (id_of x) id) as [Heq|]; [|done]. subst. simpl in Hk.
  exists x. by rewrite Heq.
Qed.

(** Case analysis along the arms of [plan]. *)
Ltac arms H :=
  unfold plan in H; cbv zeta in H;
  repeat match type of H with (if ?c then _ else _) = _ => destruct c eqn:? end.

Ltac decoded_arm H :=
  first
  [ discriminate H
  | apply by_id_Operate in H as (? & Hde & Hlen & Hid & Hpath & Hk); injection Hk as <- <-
  | apply decoded_Operate in H as (? & Hde & Hlen & Hk); first [discriminate Hk|injection Hk as <- <-|idtac] ].

(** An operation a route asks for has the ranges of its types, and a drive
    is only ever inserted under an id that is one path segment. *)
Lemma plan_Operate `{TypedDecoders} req r k :
  plan req = Operate r k ->
  wf_request r /\ (forall cfg, r = InsertBlockDevice cfg -> id_ok (Drive.drive_id cfg)).
Proof.
  intros Hp. arms Hp; try decoded_arm Hp; try (split; [done|]; intros ? [= <-]; done);
    try (split; [|done]; first [by eapply td_machine|by eapply td_machine_update|by eapply td_net
                               |by eapply td_value|by eapply td_balloon|by eapply td_balloon_update]).
  - by destruct (updated_state _); injection Hk as <- <-.
  - by destruct x; injection Hk as <- <-.
Qed.

(** ** The invariant of the server *)

Definition ids_ok (b : VzBackend) : Prop := Forall id_ok (xd_id <$> extra_drives b).

Lemma drive_set_ok id path ro ds :
  Forall id_ok (xd_id <$> ds) -> id_ok id \/ is_Some (find (fun d => String.eqb (xd_id d) id) ds) ->
  Forall id_ok (xd_id <$> drive_set id path ro ds).
Proof.
  intros Hds Hid. rewrite drive_set_ids, find_existsb.
  destruct (find _ ds) eqn:E; [done|]. destruct Hid as [Hid|[? ?]]; [|done].
  apply Forall_app. split; [done|by constructor].
Qed.

Lemma flushed_drives b b' : flushed b b' -> extra_drives b' = extra_drives b.
Proof. by intros [->| ->]. Qed.

Lemma effect_ids r b res b' :
  effect r b res b' -> (forall cfg, r = InsertBlockDevice cfg -> id_ok (Drive.drive_id cfg)) ->
  ids_ok b -> ids_ok b'.
Proof.
  intros He Hr Hb. unfold ids_ok in *.
  assert (Hsets : forall P, sets b res b' P -> (P b' -> Forall id_ok (xd_id <$> extra_drives b')) ->
    Forall id_ok (xd_id <$> extra_drives b')).
  { intros P Hs HP. destruct res; [apply HP, Hs|by rewrite Hs]. }
  assert (Hkeep : extra_drives b' = extra_drives b -> Forall id_ok (xd_id <$> extra_drives b'))
    by (by intros ->).
  destruct r; cbn [effect] in He;
    try (apply (Hsets _ He); cbv beta; intros; apply Hkeep; by destruct_and?; subst);
    try (destruct He as [He ?]; apply Hkeep; by subst); try (by apply Hkeep; destruct res; subst).
  - apply (Hsets _ He). intros (path & _ & Hp).
    destruct (Drive.is_root_device cfg); subst b'; [done|]. apply drive_set_ok; auto.
  - apply (Hsets _ He). destruct (DriveUpdate.path_on_host cfg); [|by intros ->].
    destruct (find _ _) as [d|] eqn:E; intros ->; [|done]. simpl. apply drive_set_ok; [done|]. right. by rewrite E.
  - apply Hkeep. destruct res; [by destruct He as (l & _ & ->)|by destruct He as [->|(l & _ & ->)]].
  - apply Hkeep. destruct res; [by apply flushed_drives in He|by subst].
  - apply Hkeep. destruct He as [He|(c & _ & _ & -> & _)]; [|done]. destruct res; [done|by subst].
  - apply Hkeep. destruct res; [|by destruct He as (m & -> & _)].
    destruct He as (_ & _ & m & _ & [(h & ->)|(h & slot & ->)]); done.
  - apply Hkeep. destruct res; [|by subst]. by destruct He as (_ & _ & h & m & _ & ->).
  - apply Hkeep. destruct res; [by destruct He as [_ ->]|by subst].
  - apply Hkeep. destruct res; [by destruct He as [_ ->]|by subst].
  - apply Hkeep. destruct He as [_ He]. by apply flushed_drives in He.
  - apply Hkeep. destruct He as [_ He]. by apply flushed_drives in He.
Qed.

(** What a plan's operation must be for the backend's theorems to apply. *)
Definition sound (pl : Plan) : Prop :=
  forall r k, pl = Operate r k -> wf_request r /\ (forall cfg, r = InsertBlockDevice cfg -> id_ok (Drive.drive_id cfg)).

(** The counts of requests a request of the backend makes. *)
Definition requests_after (r : Backend.Request) (m : MetricsState) : Z * Z * ApiCounters :=
  match r with
  | ObserveRequest _ me p st => requests_of (count_request me p st m)
  | _ => requests_of m
  end.

Lemma flushed_requests b b' : flushed b b' -> requests_of (metrics b') = requests_of (metrics b).
Proof. by intros [->| ->]. Qed.

Lemma effect_requests r b res b' : effect r b res b' -> requests_of (metrics b') = requests_after r (metrics b).
Proof.
  intros He.
  assert (Hsets : forall P, sets b res b' P -> (P b' -> metrics b' = metrics b) ->
    requests_of (metrics b') = requests_of (metrics b)).
  { intros P Hs HP. destruct res; [by rewrite HP; [|apply Hs]|by rewrite Hs]. }
  destruct r; cbn [effect requests_after] in *;
    try (apply (Hsets _ He); cbv beta; intros; by destruct_and?; subst);
    try (destruct He as [He ?]; by subst); try (by destruct res; subst).
  - apply (Hsets _ He). intros (path & _ & Hp). by destruct (Drive.is_root_device cfg); subst b'.
  - apply (Hsets _ He). destruct (DriveUpdate.path_on_host cfg); [|by intros ->].
    by destruct (find _ _); intros ->.
  - destruct res; [by destruct He as (l & _ & ->)|by destruct He as [->|(l & _ & ->)]].
  - destruct res; [by rewrite (flushed_requests _ _ He)|by subst].
  - destruct He as [He|(c & _ & _ & -> & _)]; [|done]. destruct res; [done|by subst].
  - destruct res; [|by destruct He as (m & -> & _ & Hm)].
    destruct He as (_ & _ & m & [_ Hm] & [(h & ->)|(h & slot & ->)]); done.
  - destruct res; [|by subst]. by destruct He as (_ & _ & h & m & [_ Hm] & ->).
  - destruct res; [by destruct He as [_ ->]|by subst].
  - destruct res; [by destruct He as [_ ->]|by subst].
  - destruct He as [_ He]. by rewrite (flushed_requests _ _ He).
  - destruct He as [_ He]. by rewrite (flushed_requests _ _ He).
Qed.

Section Serving.
Context `{TypedDecoders} {W : Type} `{Outside W} `{Serde}.
Implicit Types (b : VzBackend) (w : W).

(** One step of the backend on behalf of the server. *)
Definition serves b b' (t : Trace) (reqs : Z * Z * ApiCounters) : Prop :=
  wf b' /\ ids_ok b' /\ balance (vms b) (slot_locks b) t (vms b') (slot_locks b') /\
  requests_of (metrics b') = reqs.

Lemma wp_exec_serves r b w :
  wf b -> ids_ok b -> wf_request r -> (forall cfg, r = InsertBlockDevice cfg -> id_ok (Drive.drive_id cfg)) ->
  wp (exec r) (fun _ b' _ t => serves b b' t (requests_after r (metrics b))) b w.
Proof.
  intros Hb Hi Hr Hid. eapply wp_mono; [by apply exec_refines|]. intros res b' w' t [He Ht].
  split_and!; [by eapply effect_wf|by eapply effect_ids|done|by eapply effect_requests].
Qed.

Lemma plan_sound req : sound (plan req).
Proof. intros r k. apply plan_Operate. Qed.

Lemma plan_no_observe req r k m : plan req = Operate r k -> requests_after r m = requests_of m.
Proof.
  intros Hp. arms Hp; try decoded_arm Hp; try done.
  - by destruct (updated_state _); injection Hk as <- <-.
  - by destruct x; injection Hk as <- <-.
Qed.

Lemma wp_answer req b w :
  wf b -> ids_ok b ->
  wp (answer (plan req)) (fun r b' _ t => (exists resp, r = Ok resp) /\ serves b b' t (requests_of (metrics b))) b w.
Proof.
  intros Hb Hi. assert (Hid : serves b b [] (requests_of (metrics b))) by (split_and!; auto with heph).
  destruct (plan req) as [r|r|q|r k] eqn:Ep; cbn [answer].
  - wp_step. eauto.
  - wp_step. eauto.
  - do 3 wp_step. eauto.
  - destruct (plan_sound req r k Ep) as [Hr Hdrive]. do 2 wp_step.
    eapply wp_mono; [by apply wp_exec_serves|]. intros res b' w' t Hs. wp_step.
    rewrite app_nil_r. rewrite (plan_no_observe _ _ _ _ Ep) in Hs. eauto.
Qed.

Lemma wp_observe id req resp b w :
  wf b -> ids_ok b ->
  wp (observe id req resp)
    (fun _ b' _ t => serves b b' t (requests_of (count_request (method req) (path req) (code resp) (metrics b)))) b w.
Proof. intros Hb Hi. by apply wp_exec_serves. Qed.

(** ** Whole runs *)

(** How many requests were answered and counted, of those that satisfy [P]. *)
Definition weight (P : HttpRequest -> Response -> bool) (x : Task) : nat :=
  match x with
  | Done req resp => if counted (plan req) && P req resp then 1 else 0
  | _ => 0
  end.
Definition tally (P : HttpRequest -> Response -> bool) (l : list Task) : Z := Z.of_nat (sum_list_with (weight P) l).
Definition sat (n : Z) : Z := Z.min u64_max n.

Definition failed (_ : HttpRequest) (resp : Response) : bool := 400 <=? code resp.
Definition counts_as (k : Counter) (req : HttpRequest) (_ : Response) : bool :=
  bool_decide (counter_of (method req) (path req) = Some k).

Definition tallied (srv : Server) : Prop :=
  let m := metrics (backend srv) in
  mt_api_requests m = sat (tally (fun _ _ => true) (tasks srv)) /\
  mt_api_request_fails m = sat (tally failed (tasks srv)) /\
  forall k, mt_counters m k = sat (tally (counts_as k) (tasks srv)).

Lemma inc_sat n : 0 <= n -> inc (sat n) = sat (n + 1).
Proof. unfold inc, saturating_add, sat. lia. Qed.

Lemma sum_insert {A} (f : A -> nat) l i x y :
  l !! i = Some x -> (sum_list_with f (<[i := y]> l) + f x = sum_list_with f l + f y)%nat.
Proof.
  revert i. induction l as [|z l IH]; intros [|i] Hi; simpl in *; simplify_eq; [lia|]. specialize (IH i Hi). lia.
Qed.

Lemma tally_insert P l i x y :
  l !! i = Some x -> weight P x = 0%nat -> tally P (<[i := y]> l) = tally P l + Z.of_nat (weight P y).
Proof. intros Hi Hx. pose proof (sum_insert (weight P) l i x y Hi). unfold tally. lia. Qed.

Lemma tally_app P l x : weight P x = 0%nat -> tally P (l ++ [x]) = tally P l.
Proof. intros Hx. unfold tally. rewrite sum_list_with_app. simpl. lia. Qed.

Lemma tallied_same srv b' l :
  requests_of (metrics b') = requests_of (metrics (backend srv)) ->
  (forall P, tally P l = tally P (tasks srv)) -> tallied srv ->
  tallied {| backend := b'; next_request_id := next_request_id srv; tasks := l |}.
Proof.
  unfold tallied, requests_of; simpl. intros [= -> -> ->] Hl (Ha & Hf & Hc').
  split_and!; intros; by rewrite Hl.
Qed.

Lemma tallied_observe srv i id req resp b' :
  tasks srv !! i = Some (Answered id req resp) -> counted (plan req) = true ->
  requests_of (metrics b') =
    requests_of (count_request (method req) (path req) (code resp) (metrics (backend srv))) ->
  tallied srv -> tallied (task_update i b' (Done req resp) srv).
Proof.
  unfold tallied, requests_of; simpl. intros Hi Hc [= -> -> ->] (Ha & Hf & Hc').
  assert (Hw : forall P, tally P (<[i := Done req resp]> (tasks srv)) =
                         tally P (tasks srv) + (if P req resp then 1 else 0)).
  { intros P. rewrite (tally_insert P _ _ _ _ Hi) by done. simpl. rewrite Hc. by destruct (P req resp). }
  assert (Hp : forall P, 0 <= tally P (tasks srv)) by (unfold tally; lia).
  split_and!.
  - by rewrite Hw, Ha, inc_sat.
  - rewrite Hw. change (failed req resp) with (400 <=? code resp). destruct (400 <=? code resp); rewrite Hf; [by rewrite inc_sat|].
    by rewrite Z.add_0_r.
  - intros k. rewrite Hw, record_one, Hc'. change (counts_as k req resp) with (bool_decide (counter_of (method req) (path req) = Some k)).
    case_bool_decide; [by rewrite inc_sat|by rewrite Z.add_0_r].
Qed.

(** Tasks that wait to be counted will be counted. *)
Definition tasks_ok (srv : Server) : Prop :=
  Forall (fun x => match x with Answered _ req _ => counted (plan req) = true | _ => True end) (tasks srv).

Definition server_ok (srv : Server) : Prop :=
  wf (backend srv) /\ ids_ok (backend srv) /\ tallied srv /\ tasks_ok srv.

Definition holds_ledger (srv : Server) (t : Trace) (srv' : Server) : Prop :=
  balance (vms (backend srv)) (slot_locks (backend srv)) t (vms (backend srv')) (slot_locks (backend srv')).

Lemma server_step_ok srv w t srv' w' :
  server_step srv w t srv' w' -> server_ok srv -> server_ok srv' /\ holds_ledger srv t srv'.
Proof.
  intros Hs (Hb & Hi & Ht & Hk). destruct Hs as [srv w req|srv w i id req resp b' w' t Hl E
    |srv w i id req resp u b' w' t Hl E|srv w u b' w' t E].
  - split; [|by apply balance_quiet]. refine (conj _ (conj _ (conj _ _))); [done..| |].
    + apply (tallied_same srv); [done| |done]. intros P. by apply tally_app.
    + apply Forall_app. split; [done|]. by constructor.
  - destruct (wp_result _ _ _ _ _ _ _ _ (wp_answer req _ w Hb Hi) E) as (_ & Hb' & Hi' & Hbal & Hr).
    split; [|done]. refine (conj _ (conj _ (conj _ _))); [done..| |].
    + apply tallied_same; [done| |done]. intros P. rewrite (tally_insert P _ _ _ _ Hl) by done.
      destruct (counted (plan req)) eqn:Ec; simpl; [lia|]. rewrite Ec. simpl. lia.
    + apply Forall_insert; [done|]. destruct (counted (plan req)) eqn:Ec; [exact Ec|exact I].
  - destruct (wp_result _ _ _ _ _ _ _ _ (wp_observe id req resp _ w Hb Hi) E) as (Hb' & Hi' & Hbal & Hr).
    split; [|done]. refine (conj _ (conj _ (conj _ _))); [done..| |by apply Forall_insert].
    apply (tallied_observe _ _ id); [done| |done|done].
    apply (Forall_lookup_1 _ _ _ _ Hk Hl).
  - destruct (wp_result _ _ _ _ _ _ _ _ (wp_exec_serves FlushMetrics _ w Hb Hi I ltac:(done)) E)
      as (Hb' & Hi' & Hbal & Hr).
    split; [|done]. refine (conj _ (conj _ (conj _ _))); [done..| |done]. by apply tallied_same.
Qed.

Lemma server_run_ok srv w t srv' w' :
  server_run srv w t srv' w' -> server_ok srv -> server_ok srv' /\ holds_ledger srv t srv'.
Proof.
  induction 1 as [srv w|srv w t srv1 w1 t1 srv2 w2 Hs _ IH]; intros Hok.
  - split; [done|]. by apply balance_quiet.
  - destruct (server_step_ok _ _ _ _ _ Hs Hok) as [Hok1 Hl1]. destruct (IH Hok1) as [Hok2 Hl2].
    split; [done|]. by eapply balance_app.
Qed.

Lemma listening_ok id now vmnet host p : server_ok (listening (assemble id now vmnet host p)).
Proof.
  refine (conj _ (conj _ (conj _ _))); [apply wf_assemble|destruct p; constructor| |constructor]. by destruct p.
Qed.
End Serving.

(** ** The table of routes *)

Definition exact_routes : list (string * string) :=
  [("GET", "/"); ("GET", "/version");
   ("GET", "/machine-config"); ("PUT", "/machine-config"); ("PATCH", "/machine-config");
   ("PUT", "/boot-source"); ("PATCH", "/vm"); ("PUT", "/logger"); ("PUT", "/metrics");
   ("GET", "/mmds"); ("PUT", "/mmds"); ("PATCH", "/mmds"); ("PUT", "/mmds/config");
   ("PUT", "/snapshot/create"); ("PUT", "/snapshot/load"); ("PUT", "/actions");
   ("PUT", "/cpu-config"); ("PATCH", "/cpu-config");
   ("PUT", "/balloon"); ("PATCH", "/balloon"); ("GET", "/balloon");
   ("GET", "/balloon/statistics"); ("PATCH", "/balloon/statistics");
   ("PATCH", "/balloon/hinting/start"); ("GET", "/balloon/hinting/status"); ("PATCH", "/balloon/hinting/stop");
   ("PUT", "/entropy"); ("PUT", "/serial");
   ("GET", "/hotplug/memory"); ("PUT", "/hotplug/memory"); ("PATCH", "/hotplug/memory");
   ("GET", "/vm/config"); ("PUT", "/vsock")].
Definition prefix_routes : list (string * string) :=
  [("PUT", "/drives/"); ("PATCH", "/drives/"); ("PUT", "/network-interfaces/");
   ("PATCH", "/network-interfaces/"); ("PUT", "/pmem/")].

Definition known (m p : string) : bool :=
  existsb (fun r => String.eqb m (fst r) && String.eqb p (snd r)) exact_routes
  || existsb (fun r => String.eqb m (fst r) && starts_with (snd r) p) prefix_routes.

Definition not_found (pl : Plan) : Prop := exists msg, pl = Answer (fault NOT_FOUND msg).

Lemma decoded_found {T} (de : string -> Result T string) b k :
  (forall x, ~ not_found (k x)) -> ~ not_found (decoded (parse_body de b) k).
Proof.
  intros Hk [msg Hm]. unfold decoded, parse_body in Hm.
  destruct (MAX_BODY_BYTES <? len (delivered b)); [done|]. destruct (failure b); [done|].
  destruct (de (delivered b)) as [x|]; [|done]. apply (Hk x). by exists msg.
Qed.

Lemma by_id_found `{Decoders} {T} prefix p what mismatch (de : string -> Result T string) b id_of k :
  (forall x, ~ not_found (k x)) -> ~ not_found (by_id prefix p what mismatch de b id_of k).
Proof.
  intros Hk. unfold by_id. destruct (path_id prefix p) as [id|]; [|by intros [? ?]].
  apply decoded_found. intros x. destruct (negb _); [by intros [? ?]|apply Hk].
Qed.

Lemma found_op r k : ~ not_found (Operate r k).
Proof. by intros [? ?]. Qed.
Lemma found_answer resp : code resp <> NOT_FOUND -> ~ not_found (Answer resp).
Proof. intros Hc [msg [= ->]]. by apply Hc. Qed.

Section Answers.
Context `{Decoders}.

(** The router answers 404 to exactly the requests outside its table:
    no route of the table is shadowed by an earlier one, and no other method
    or path reaches the backend. *)
Theorem not_found_iff req :
  not_found (plan req) <-> known (method req) (path req) = false.
Proof.
  split.
  - intros Hn. destruct (known (method req) (path req)) eqn:Ek; [exfalso|done]. revert Hn.
    unfold plan; cbv zeta.
    repeat match goal with |- not_found (if ?c then _ else _) -> _ => destruct c eqn:? end;
      try (by intros [? ?]); try (apply found_answer; done);
      try (apply by_id_found; intros; apply found_op);
      try (unfold refuse_with_body; apply decoded_found; intros; first [apply found_op|by apply found_answer]).
    + apply decoded_found. intros u. destruct (updated_state u); apply found_op.
    + apply decoded_found. intros []; apply found_op.
    + intros _. unfold known in Ek. simpl in Ek. revert Ek.
      repeat match goal with Hc : _ || _ = false |- _ => apply orb_false_iff in Hc as [? ?] end.
      repeat match goal with Hc : _ && _ = false |- _ => rewrite Hc; clear Hc end. done.
  - intros Hk. unfold known in Hk. simpl in Hk. repeat match goal with Hc : _ || _ = false |- _ => apply orb_false_iff in Hc as [? ?] end.
    unfold plan; cbv zeta. repeat match goal with Hc : _ && _ = false |- _ => rewrite Hc; clear Hc end.
    by eexists.
Qed.
(** A response of the API: one of five codes, no body exactly with 204, and
    a fault exactly with an error. *)
Definition proper (resp : Response) : Prop :=
  code resp ∈ [OK; NO_CONTENT; BAD_REQUEST; NOT_FOUND; INTERNAL_SERVER_ERROR] /\
  (content resp = Empty <-> code resp = NO_CONTENT) /\
  ((exists msg, content resp = JFault msg) <-> 400 <= code resp).

Definition proper_plan (pl : Plan) : Prop :=
  match pl with
  | Uncounted r | Answer r => proper r
  | Query q => forall b, proper (q b)
  | Operate _ k => forall res, proper (k res)
  end.

Lemma proper_fault status msg : status ∈ [BAD_REQUEST; NOT_FOUND; INTERNAL_SERVER_ERROR] -> proper (fault status msg).
Proof.
  unfold proper, fault, BAD_REQUEST, NOT_FOUND, INTERNAL_SERVER_ERROR, OK, NO_CONTENT; simpl.
  rewrite !elem_of_cons. intros Hs. split_and!; [tauto|split; [done|]|split; [|eauto]]; intros;
    destruct_or!; try lia; by apply elem_of_nil in Hs.
Qed.

Lemma proper_json body :
  body <> Empty -> (forall msg, body <> JFault msg) -> proper (json_response OK body).
Proof.
  intros He Hf. split_and!; simpl; [set_solver|done|]. split; [|done]. intros [msg Hm]. by destruct (Hf msg).
Qed.

Lemma proper_to_response res : proper (to_response res).
Proof.
  destruct res as [[]|e]; [|destruct e; apply proper_fault; set_solver].
  split_and!; simpl; [set_solver|done|]. split; [by intros [? ?]|done].
Qed.

Lemma decoded_proper {T} (de : string -> Result T string) b k :
  (forall x, proper_plan (k x)) -> proper_plan (decoded (parse_body de b) k).
Proof.
  intros Hk. unfold decoded, parse_body.
  destruct (MAX_BODY_BYTES <? len (delivered b)); [apply proper_fault; set_solver|].
  destruct (failure b); [apply proper_fault; set_solver|].
  destruct (de (delivered b)) as [x|]; [apply Hk|apply proper_fault; set_solver].
Qed.

Lemma by_id_proper {T} prefix p what mismatch (de : string -> Result T string) b id_of k :
  (forall x, proper_plan (k x)) -> proper_plan (by_id prefix p what mismatch de b id_of k).
Proof.
  intros Hk. unfold by_id. destruct (path_id prefix p) as [id|]; [|apply proper_fault; set_solver].
  apply decoded_proper. intros x. destruct (negb _); [apply proper_fault; set_solver|apply Hk].
Qed.

Lemma op_proper r : proper_plan (op r).
Proof. intros res. apply proper_to_response. Qed.

Lemma plan_proper req : proper_plan (plan req).
Proof.
  unfold plan; cbv zeta.
  repeat match goal with |- proper_plan (if ?c then _ else _) => destruct c end;
    try (apply by_id_proper; intros; apply op_proper);
    try (unfold refuse_with_body; apply decoded_proper; intros; first [apply proper_to_response|apply op_proper]);
    try apply proper_to_response; try (apply proper_fault; set_solver);
    try (intros b; apply proper_json; done).
  - by apply proper_json.
  - apply decoded_proper. intros u. destruct (updated_state u); apply op_proper.
  - apply decoded_proper. intros []; [apply op_proper| |apply op_proper]. intros res. apply proper_to_response.
  - intros b. destruct (get_balloon b); [by apply proper_json|apply proper_to_response].
Qed.

Context {W : Type} `{Outside W} `{Serde}.

(** Every request gets a response, whatever the backend and the outside
    do: one of the codes 200, 204, 400, 404 and 500, a fault message exactly
    with an error code, no body exactly with 204. *)
Theorem responses_proper id req b (w : W) :
  wp (route id req) (fun r _ _ _ => exists resp, r = Ok resp /\ proper resp) b w.
Proof.
  pose proof (plan_proper req) as Hp. unfold route. wp_step.
  assert (Hk : forall resp b' w', proper resp ->
    wp (do! (if counted (plan req) then observe id req resp else ret tt) in ret resp)
      (fun r _ _ _ => exists resp, r = Ok resp /\ proper resp) b' w').
  { intros resp b' w' Hr. wp_step. destruct (counted (plan req)); [|do 2 wp_step; eauto].
    unfold observe. cbn [exec]. unfold observe_request. do 4 wp_step. wp_step.
    destruct (enabled _ _).
    - eapply wp_quietly; [apply quietly_write_log|]. intros r w1 t1 _ [[] ->].
      apply wp_flush_metrics. intros. wp_step. eauto.
    - wp_step. apply wp_flush_metrics. intros. wp_step. eauto. }
  destruct (plan req) as [r|r|q|r k]; cbn [answer proper_plan] in *.
  - wp_step. by apply Hk.
  - wp_step. by apply Hk.
  - do 3 wp_step. apply Hk, Hp.
  - do 2 wp_step. apply wp_intro. intros res b' w' t _. wp_step. apply Hk, Hp.
Qed.
End Answers.

(** ** Properties of the server *)

Section Claims.
Context `{TypedDecoders} {W : Type} `{Outside W} `{Serde}.

(** C9: However the requests of any number of connections interleave, and
    whenever the periodic flush runs, the backend keeps its invariant, every
    drive of it has an id that is one path segment, and each VM created and
    each lock granted is still held or was released once. *)
Theorem server_safe id now vmnet host p (w : W) t srv w' :
  server_run (listening (assemble id now vmnet host p)) w t srv w' ->
  wf (backend srv) /\ Forall (fun d => id_ok (xd_id d)) (extra_drives (backend srv)) /\
  created t ≡ₚ freed t ++ vms (backend srv) /\ locked t ≡ₚ unlocked t ++ slot_locks (backend srv).
Proof.
  intros Hr. destruct (server_run_ok _ _ _ _ _ Hr (listening_ok id now vmnet host p)) as [(Hb & Hi & _) Hl].
  split; [done|]. split; [exact (proj1 (Forall_fmap _ _ _) Hi)|].
  unfold holds_ledger, balance, vms, slot_locks in Hl. by destruct p.
Qed.

(** C10: In every interleaving each request that was answered and counted
    counts exactly once: in the total, in the failures exactly when its
    status is an error, and in the counter of its endpoint and no other.
    The counters stop at their maximum instead of wrapping around. *)
Theorem requests_counted_once id now vmnet host p (w : W) t srv w' :
  server_run (listening (assemble id now vmnet host p)) w t srv w' ->
  let m := metrics (backend srv) in
  mt_api_requests m = sat (tally (fun _ _ => true) (tasks srv)) /\
  mt_api_request_fails m = sat (tally failed (tasks srv)) /\
  forall k, mt_counters m k = sat (tally (counts_as k) (tasks srv)).
Proof.
  intros Hr. by destruct (server_run_ok _ _ _ _ _ Hr (listening_ok id now vmnet host p)) as [(_ & _ & Ht & _) _].
Qed.

(** A response reports what the backend did: 204 exactly when the
    operation succeeded, 500 exactly when it failed inside the framework,
    400 when it was refused, with the error's text as the fault message. *)
Theorem response_reports_result req r k b (w : W) res b' w' t :
  plan req = Operate r k -> exec r b w = (res, b', w', t) ->
  exists resp, answer (plan req) b w = (Ok resp, b', w', t) /\
    match res with
    | Ok _ => code resp = NO_CONTENT
    | Err e => content resp = JFault (backend_error_display e) /\
        code resp = match e with Internal _ => INTERNAL_SERVER_ERROR | _ => BAD_REQUEST end
    end.
Proof.
  intros Hp E. rewrite Hp. cbn [answer]. unfold bind, attempt. rewrite E. simpl. rewrite app_nil_r.
  eexists. split; [done|].
  assert (Hk : k = to_response \/ r = FlushMetrics /\ k = fun _ => to_response (Ok tt)).
  { clear E. arms Hp; try decoded_arm Hp; auto.
    - destruct (updated_state _); injection Hk as <- <-; auto.
    - destruct x; injection Hk as <- <-; auto. }
  destruct Hk as [->|[-> ->]].
  - destruct res as [|[]]; auto.
  - revert res b' w' t E. refine (wp_elim _ _ _ _ _). apply wp_flush_metrics. done.
Qed.
End Claims.

Section Bodies.
Context `{Decoders} {W : Type} `{Outside W} `{Serde}.

Lemma contains_prefix_slash p id : contains_char (ch 47) id = false -> starts_with (String (ch 47) p) id = false.
Proof.
  intros Hc. destruct (starts_with _ id) eqn:E; [|done]. apply starts_with_spec in E as [r ->].
  by vm_compute in Hc.
Qed.

Lemma path_id_prefix p id : id_ok id -> path_id (String (ch 47) p) (String (ch 47) p +:+ id) = Some id.
Proof.
  intros [He Hs]. unfold path_id. rewrite trim_start_matches_once by (done || by apply contains_prefix_slash).
  by rewrite He, Hs.
Qed.

(** An operation of the backend runs only on a body that arrived in
    full and within the limit of 51200 bytes.  Any other body is answered
    without a change of the backend or a call to the outside. *)
Theorem bad_body_harmless req b (w : W) :
  MAX_BODY_BYTES < len (delivered (body req)) \/ is_Some (failure (body req)) ->
  exists resp, answer (plan req) b w = (Ok resp, b, w, []).
Proof.
  intros Hbad.
  assert (Hb : forall T (de : string -> Result T string), is_ok (parse_body de (body req)) = false).
  { intros T de. unfold parse_body. destruct (Z.ltb_spec MAX_BODY_BYTES (len (delivered (body req)))); [done|].
    destruct Hbad as [?|[e ->]]; [lia|done]. }
  destruct (plan req) as [r|r|q|r k] eqn:Hp; cbn [answer]; [by exists r..|by exists (q b)|exfalso].
  arms Hp; try discriminate Hp; try unfold by_id in Hp; try unfold refuse_with_body in Hp;
    repeat match type of Hp with match path_id ?a ?p with _ => _ end = _ => destruct (path_id a p); [|discriminate Hp] end;
    match type of Hp with decoded (parse_body ?de _) _ = _ =>
      pose proof (Hb _ de) as Hd; unfold decoded in Hp; destruct (parse_body de (body req)); done end.
Qed.

(** A drive is reached under its id: for every id that is one path
    segment, PUT on the path of that id with a body of the same id is the
    insertion of that drive, and with a body of another id it is refused. *)
Theorem drive_put_route id cfg bd :
  id_ok id -> de_drive (delivered bd) = Ok cfg -> len (delivered bd) <= MAX_BODY_BYTES -> failure bd = None ->
  plan {| method := "PUT"; path := "/drives/" +:+ id; body := bd |} =
    if String.eqb (Drive.drive_id cfg) id then Operate (InsertBlockDevice cfg) to_response
    else Answer (fault BAD_REQUEST "drive_id in body does not match URL").
Proof.
  intros Hid Hde Hlen Hf. unfold plan; cbv zeta. cbn [method path body].
  assert (Hu : starts_with "/drives/" ("/drives/" +:+ id) = true) by (apply starts_with_spec; eauto).
  assert (Hp : path_id "/drives/" ("/drives/" +:+ id) = Some id) by apply (path_id_prefix "drives/" id Hid).
  rewrite Hu. simpl in *. unfold by_id. rewrite Hp.
  unfold parse_body. destruct (Z.ltb_spec MAX_BODY_BYTES (len (delivered bd))); [lia|].
  rewrite Hf, Hde. simpl. by destruct (String.eqb (Drive.drive_id cfg) id).
Qed.

(** A path that ends without an id is answered with 400 but, unlike
    every other request, neither logged nor counted in the metrics. *)
Theorem invalid_id_uncounted n bd b (w : W) :
  route n {| method := "PUT"; path := "/drives/"; body := bd |} b w =
    (Ok (fault BAD_REQUEST "invalid drive id"), b, w, []).
Proof. reflexivity. Qed.
End Bodies.

(** ** A concrete server *)

Module DemoServer.
Definition no {T} : string -> Result T string := fun _ => Err "EOF while parsing a value at line 1 column 0".

(** A decoder for the few bodies of the example. *)
#[export] Instance decoders : Decoders := {|
  de_machine := no; de_machine_update := no; de_boot_source := no;
  de_drive := fun s => if String.eqb s "data" then Ok (Demo.disk "data" "/vm/data.img" false) else no s;
  de_drive_update := no; de_vm := no; de_logger := no; de_net := no; de_metrics := no;
  de_value := fun s => if String.eqb s "{}" then Ok (Object []) else no s;
  de_mmds_config := no; de_create_snapshot := no; de_load_snapshot := no;
  de_action := fun s => if String.eqb s "start" then Ok InstanceStart else no s;
  de_balloon := no; de_balloon_update := no; de_vsock := no |}.

#[export] Instance typed : @TypedDecoders decoders.
Proof.
  split; try done. intros s v. simpl. destruct (String.eqb s "{}"); [|done]. by intros [= <-].
Defined.

Definition bytes (s : string) : Incoming := {| delivered := s; failure := None |}.
Definition put_drive : HttpRequest := {| method := "PUT"; path := "/drives/data"; body := bytes "data" |}.
Definition start : HttpRequest := {| method := "PUT"; path := "/actions"; body := bytes "start" |}.

(** Two connections: the start is answered between the two locks of the
    drive's request, and refused because no boot source is configured. *)
Lemma run : exists t srv,
  @server_run decoders unit calm Demo.serde (listening Demo.fresh) tt t srv tt /\
  tally (fun _ _ => true) (tasks srv) = 1 /\ tasks srv !! 1%nat =
    Some (Answered 2 start (fault BAD_REQUEST
      "Operation not permitted in the current VM state: boot-source not configured")).
Proof.
  eexists _, _. split_and!; [eapply run_cons; [apply (step_arrive _ _ put_drive)|]|..].
  - eapply run_cons; [apply (step_arrive _ _ start)|].
    eapply run_cons; [eapply (step_answer _ _ 0); [reflexivity|vm_compute; reflexivity]|].
    eapply run_cons; [eapply (step_answer _ _ 1); [reflexivity|vm_compute; reflexivity]|].
    eapply run_cons; [eapply (step_observe _ _ 0); [reflexivity|vm_compute; reflexivity]|].
    apply run_nil.
  - reflexivity.
  - reflexivity.
Qed.
End DemoServer.
Import DemoServer.

Lemma server_safe_witness :
  exists t srv, @server_run decoders unit calm Demo.serde (listening Demo.fresh) tt t srv tt /\ wf (backend srv).
Proof.
  destruct run as (t & srv & Hr & _). exists t, srv. split; [exact Hr|].
  exact (proj1 (@server_safe _ typed _ _ _ "demo" 0 false false None tt t srv tt Hr)).
Defined.

Lemma requests_counted_once_witness :
  exists t srv, @server_run decoders unit calm Demo.serde (listening Demo.fresh) tt t srv tt /\
    mt_api_requests (metrics (backend srv)) = 1.
Proof.
  destruct run as (t & srv & Hr & Ht & _). exists t, srv. split; [exact Hr|].
  destruct (@requests_counted_once _ typed _ _ _ "demo" 0 false false None tt t srv tt Hr) as [Ha _].
  rewrite Ha, Ht. reflexivity.
Defined.

Lemma response_reports_result_witness :
  exists resp b' t, @answer unit calm Demo.serde (plan put_drive) Demo.fresh tt = (Ok resp, b', tt, t) /\ code resp = NO_CONTENT.
Proof.
  destruct (@response_reports_result decoders unit calm Demo.serde put_drive
    (InsertBlockDevice (Demo.disk "data" "/vm/data.img" false)) to_response Demo.fresh tt (Ok tt)
    _ tt _ eq_refl eq_refl) as (resp & Ha & Hc).
  eexists resp, _, _. split; [exact Ha|exact Hc].
Defined.

Lemma bad_body_harmless_witness :
  exists resp, @answer unit calm Demo.serde
    (plan {| method := "PUT"; path := "/mmds"; body := {| delivered := "{"; failure := Some "reset" |} |})
    Demo.fresh tt = (Ok resp, Demo.fresh, tt, []).
Proof.
  apply (@bad_body_harmless decoders unit calm Demo.serde). right. exists "reset". reflexivity.
Defined.

Lemma drive_put_route_witness :
  plan put_drive = Operate (InsertBlockDevice (Demo.disk "data" "/vm/data.img" false)) to_response.
Proof.
  exact (@drive_put_route decoders "data" (Demo.disk "data" "/vm/data.img" false) (bytes "data")
    ltac:(split; reflexivity) ltac:(reflexivity) ltac:(vm_compute; congruence) ltac:(reflexivity)).
Defined.
