(* ===== verification/ServerLock.v ===== *)
(** * The mutex of the backend (hephaestus-firecracker/src/server.rs, main.rs)

    [serve_connection] runs one task per request and [main] one that flushes
    the metrics; all of them reach the backend through one
    [tokio::sync::Mutex].  [lock_step] has that mutex: who holds the guard,
    who waits for it and in which order, and where each task is between the
    arrival of its request and its response.  The mutex is fair, as tokio
    documents it: the guard goes to the task that asked first.

    The theorems: every run with the mutex is one of [Server.server_run], so
    what is proved there holds of it, at most one task has the backend at a
    time, and the server never stops with a request in hand. *)

From S2P Require Import Prelude RustStr Json World Bridge FcApi Pool Telemetry BackendState Backend Ledger BackendBoot BackendSpec BackendProps Server.
Local Open Scope string_scope.
Local Open Scope Z_scope.
Local Open Scope list_scope.

(** ** Tasks *)

(** The task that flushes the metrics, or the one of the [i]-th request. *)
Inductive Who := Ticker | Request (i : nat).

#[export] Instance who_eq : EqDecision Who.
Proof. solve_decision. Defined.

(** Where the task of a request is: awaiting the body, about to ask for the
    guard, in the queue of the mutex or given the guard and not resumed yet,
    past the operation with the guard, past it without the guard, the same
    three again for [observe_request], answered.  hyper drops the future of a
    request when its connection ends; the task is then where it was left. *)
Inductive Phase :=
| Receiving (id : Z) (req : HttpRequest)
| Asking (id : Z) (req : HttpRequest)
| Queued (id : Z) (req : HttpRequest)
| Operated (id : Z) (req : HttpRequest) (resp : Response)
| Replied (id : Z) (req : HttpRequest) (resp : Response)
| Requeued (id : Z) (req : HttpRequest) (resp : Response)
| Observed (req : HttpRequest) (resp : Response)
| Finished (req : HttpRequest) (resp : Response)
| Dropped (left_at : Task).

(** [interval.tick().await], [backend.lock().await], and the guard held past
    [flush_metrics]. *)
Inductive Tick := Sleeping | Locking | Flushed.

Record Shared := {
  sh_backend : VzBackend; sh_next_id : Z; phases : list Phase; tick : Tick;
  guard : option Who; waiters : list Who }.

Local Open Scope fields_scope.
#[export] Instance eta_shared : Eta Shared := fun r =>
  ((fun _ => Build_Shared) <+> sh_backend <+> sh_next_id <+> phases <+> tick <+> guard <+> waiters) r.
Local Close Scope fields_scope.

Definition spawned (b : VzBackend) : Shared :=
  {| sh_backend := b; sh_next_id := 1; phases := []; tick := Sleeping; guard := None; waiters := [] |}.

Definition at_phase (i : nat) (ph : Phase) (s : Shared) : Shared := s <| phases := <[i := ph]> (phases s) |>.

(** [backend.lock()]: the call joins the queue. *)
Definition asks (ph : Phase) : option Phase :=
  match ph with
  | Asking id req => Some (Queued id req)
  | Replied id req resp => Some (Requeued id req resp)
  | _ => None
  end.

(** The end of the expression that holds the guard. *)
Definition unlocks (ph : Phase) : option Phase :=
  match ph with
  | Operated id req resp => Some (Replied id req resp)
  | Observed req resp => Some (Finished req resp)
  | _ => None
  end.

(** Tasks suspended at an await or not resumed yet, which a connection that
    ends drops, and how far they were. *)
Definition abandoned (ph : Phase) : option Task :=
  match ph with
  | Receiving id req | Asking id req | Queued id req => Some (Waiting id req)
  | Replied id req resp | Requeued id req resp => Some (Answered id req resp)
  | _ => None
  end.

(** Dropping the future leaves the queue, and gives back a guard that it was
    handed and never used. *)
Definition leave (i : nat) (x : Task) (s : Shared) : Shared :=
  at_phase i (Dropped x) s
    <| guard := if decide (guard s = Some (Request i)) then None else guard s |>
    <| waiters := filter (fun q => q <> Request i) (waiters s) |>.

(** ** Bodies *)

(** Whether the arm of a request awaits its body: every arm of a method other
    than GET does, those with an id in the path once the id is checked. *)
Definition awaits_body (req : HttpRequest) : bool :=
  existsb (fun r => negb (String.eqb (fst r) "GET") && String.eqb (method req) (fst r) && String.eqb (path req) (snd r))
    exact_routes
  || existsb (fun r => String.eqb (method req) (fst r) && starts_with (snd r) (path req)
                       && match path_id (snd r) (path req) with Some _ => true | None => false end) prefix_routes.

(** The other arms do not look at it. *)
Lemma bodiless `{Decoders} m p b b' : awaits_body {| method := m; path := p; body := b |} = false ->
  plan {| method := m; path := p; body := b |} = plan {| method := m; path := p; body := b' |}.
Proof.
  intros Ha. unfold plan; cbn [method path body].
  repeat match goal with |- (if ?c then _ else _) = _ => destruct c eqn:? end; try reflexivity.
  all: unfold by_id; try (destruct (path_id _ p) eqn:Ei; [|reflexivity]).
  all: exfalso.
  all: repeat match goal with
    | E : _ || _ = true |- _ => apply orb_true_iff in E as [E|E]
    | E : String.eqb ?x _ && _ = true |- _ => is_var x; apply andb_true_iff in E as [->%String.eqb_eq E]
    | E : String.eqb ?x _ = true |- _ => is_var x; apply String.eqb_eq in E as ->
    end; try discriminate Ha.
  all: apply orb_false_iff in Ha as [_ Ha]; cbn [existsb prefix_routes fst snd method path] in Ha.
  all: match goal with E : starts_with _ _ = true, E' : path_id _ _ = Some _ |- _ => rewrite E, E' in Ha end.
  all: rewrite ?orb_false_iff in Ha; destruct_and!; discriminate.
Qed.

Section Locks.
Context `{Decoders} {W : Type} `{Outside W} `{Serde}.

(** The body arrived, or the arm awaits none: what is left to do is known. *)
Definition received (id : Z) (req : HttpRequest) : Phase :=
  match plan req with
  | Uncounted r => Finished req r
  | Answer r => Replied id req r
  | Query _ | Operate _ _ => Asking id req
  end.

(** [route] runs up to its first await. *)
Definition begun (id : Z) (req : HttpRequest) : Phase :=
  if awaits_body req then Receiving id req else received id req.

(** A step is the server's own ([true]), or something that happens to it: a
    connection sends a request, the body of one arrives, a connection ends,
    the interval elapses. *)
Inductive lock_step : bool -> Shared -> W -> Trace -> Shared -> W -> Prop :=
| lock_arrive s w req :
    lock_step false s w [] (s <| sh_next_id := wrap 64 (sh_next_id s + 1) |>
      <| phases := phases s ++ [begun (sh_next_id s) req] |>) w
| lock_receive s w i id req :
    phases s !! i = Some (Receiving id req) -> lock_step false s w [] (at_phase i (received id req) s) w
| lock_leave s w i ph x :
    phases s !! i = Some ph -> abandoned ph = Some x -> lock_step false s w [] (leave i x s) w
| lock_due s w :
    tick s = Sleeping -> lock_step false s w [] (s <| tick := Locking |> <| waiters := waiters s ++ [Ticker] |>) w
| lock_ask s w i ph ph' :
    phases s !! i = Some ph -> asks ph = Some ph' ->
    lock_step true s w [] (at_phase i ph' s <| waiters := waiters s ++ [Request i] |>) w
| lock_grant s w who rest :
    guard s = None -> waiters s = who :: rest ->
    lock_step true s w [] (s <| guard := Some who |> <| waiters := rest |>) w
| lock_operate s w i id req resp b' w' t :
    guard s = Some (Request i) -> phases s !! i = Some (Queued id req) ->
    answer (plan req) (sh_backend s) w = (Ok resp, b', w', t) ->
    lock_step true s w t (at_phase i (Operated id req resp) s <| sh_backend := b' |>) w'
| lock_observe s w i id req resp u b' w' t :
    guard s = Some (Request i) -> phases s !! i = Some (Requeued id req resp) ->
    observe id req resp (sh_backend s) w = (u, b', w', t) ->
    lock_step true s w t (at_phase i (Observed req resp) s <| sh_backend := b' |>) w'
| lock_unlock s w i ph ph' :
    guard s = Some (Request i) -> phases s !! i = Some ph -> unlocks ph = Some ph' ->
    lock_step true s w [] (at_phase i ph' s <| guard := None |>) w
| lock_flush s w u b' w' t :
    guard s = Some Ticker -> tick s = Locking -> exec FlushMetrics (sh_backend s) w = (u, b', w', t) ->
    lock_step true s w t (s <| tick := Flushed |> <| sh_backend := b' |>) w'
| lock_sleep s w :
    guard s = Some Ticker -> tick s = Flushed ->
    lock_step true s w [] (s <| tick := Sleeping |> <| guard := None |>) w.

Inductive lock_run : Shared -> W -> Trace -> Shared -> W -> Prop :=
| lock_nil s w : lock_run s w [] s w
| lock_cons own s w t s1 w1 t1 s2 w2 :
    lock_step own s w t s1 w1 -> lock_run s1 w1 t1 s2 w2 -> lock_run s w (t ++ t1) s2 w2.

(** [n] steps of the server's own. *)
Inductive own_steps : nat -> Shared -> W -> Shared -> W -> Prop :=
| own_nil s w : own_steps 0 s w s w
| own_cons n s w t s1 w1 s2 w2 :
    lock_step true s w t s1 w1 -> own_steps n s1 w1 s2 w2 -> own_steps (S n) s w s2 w2.

(** ** Refinement *)

Definition task_of (ph : Phase) : Task :=
  match ph with
  | Receiving id req | Asking id req | Queued id req => Waiting id req
  | Operated id req resp | Replied id req resp | Requeued id req resp => Answered id req resp
  | Observed req resp | Finished req resp => Done req resp
  | Dropped x => x
  end.

Definition server_of (s : Shared) : Server :=
  {| backend := sh_backend s; next_request_id := sh_next_id s; tasks := task_of <$> phases s |}.

(** A request that wants the guard for its operation has one, and a request
    that waits for its body reads it. *)
Definition purposeful (ph : Phase) : Prop :=
  match ph with
  | Receiving _ req => awaits_body req = true
  | Asking _ req | Queued _ req => counted (plan req) = true
  | _ => True
  end.

Lemma received_purposeful id req : purposeful (received id req).
Proof. unfold received. destruct (plan req) eqn:E; simpl; rewrite ?E; done. Qed.

Lemma begun_purposeful id req : purposeful (begun id req).
Proof. unfold begun. destruct (awaits_body req) eqn:E; [exact E|apply received_purposeful]. Qed.

Lemma at_phase_same i ph ph' s : phases s !! i = Some ph -> task_of ph' = task_of ph ->
  task_of <$> <[i := ph']> (phases s) = task_of <$> phases s.
Proof.
  intros Hi Ht. rewrite list_fmap_insert, Ht. apply list_insert_id. by rewrite list_lookup_fmap, Hi.
Qed.

Lemma task_lookup s i ph : phases s !! i = Some ph -> tasks (server_of s) !! i = Some (task_of ph).
Proof. intros Hi. simpl. by rewrite list_lookup_fmap, Hi. Qed.

Lemma run_one srv w t srv' w' : server_step srv w t srv' w' -> server_run srv w t srv' w'.
Proof. intros Hs. rewrite <- (app_nil_r t). eapply run_cons; [done|apply run_nil]. Qed.

Lemma run_still srv srv' w : srv = srv' -> server_run srv w [] srv' w.
Proof. intros ->. apply run_nil. Qed.

Lemma run_app srv w t srv1 w1 t1 srv2 w2 :
  server_run srv w t srv1 w1 -> server_run srv1 w1 t1 srv2 w2 -> server_run srv w (t ++ t1) srv2 w2.
Proof.
  induction 1 as [|srv w t srv1 w1 t' srv2' w2' Hs _ IH]; [done|]. intros Hr. rewrite <- app_assoc.
  eapply run_cons; [done|]. by apply IH.
Qed.

Lemma server_of_at i ph s : server_of (at_phase i ph s) =
  {| backend := sh_backend s; next_request_id := sh_next_id s; tasks := <[i := task_of ph]> (task_of <$> phases s) |}.
Proof. unfold server_of; simpl. by rewrite list_fmap_insert. Qed.

Lemma received_run s w i id req : phases s !! i = Some (Receiving id req) ->
  server_run (server_of s) w [] (server_of (at_phase i (received id req) s)) w.
Proof.
  intros Hi. pose proof (task_lookup _ _ _ Hi) as Ht. rewrite server_of_at. unfold received.
  assert (Hstep : forall r, answer (plan req) (sh_backend s) w = (Ok r, sh_backend s, w, []) ->
    server_run (server_of s) w [] (task_update i (sh_backend s)
      (if counted (plan req) then Answered id req r else Done req r) (server_of s)) w)
    by (intros r Ha; by apply run_one; eapply step_answer).
  destruct (plan req); [apply (Hstep r eq_refl)..| |];
    (apply run_still; unfold server_of; f_equal; symmetry; by apply list_insert_id).
Qed.

Lemma insert_snoc {A} (l : list A) x y : <[length l := y]> (l ++ [x]) = l ++ [y].
Proof. induction l as [|z l IH]; simpl; [done|]. by f_equal. Qed.

Lemma begun_run s w req : server_run (server_of s) w []
  (server_of (s <| sh_next_id := wrap 64 (sh_next_id s + 1) |> <| phases := phases s ++ [begun (sh_next_id s) req] |>)) w.
Proof.
  set (s1 := s <| sh_next_id := wrap 64 (sh_next_id s + 1) |> <| phases := phases s ++ [Receiving (sh_next_id s) req] |>).
  assert (Harr : server_run (server_of s) w [] (server_of s1) w)
    by (unfold s1, server_of; simpl; rewrite fmap_app; apply run_one, step_arrive).
  unfold begun. destruct (awaits_body req); [done|]. eapply (run_app _ _ [] _ _ []); [exact Harr|].
  pose proof (received_run s1 w (length (phases s)) (sh_next_id s) req) as Hr.
  unfold at_phase, s1 in Hr; simpl in Hr. rewrite insert_snoc in Hr. apply Hr.
  rewrite lookup_app_r, Nat.sub_diag; done.
Qed.

Lemma lock_step_refines own s w t s' w' : lock_step own s w t s' w' -> Forall purposeful (phases s) ->
  server_run (server_of s) w t (server_of s') w' /\ Forall purposeful (phases s').
Proof.
  assert (Hins : forall i ph, purposeful ph -> Forall purposeful (phases s) -> Forall purposeful (<[i := ph]> (phases s)))
    by (intros; by apply Forall_insert).
  intros Hs Hp. destruct Hs as [s w req|s w i id req Hi|s w i ph x Hi Hx|s w Hk|s w i ph ph' Hi Ha|s w who rest Hg Hq
    |s w i id req resp b' w' t Hg Hi E|s w i id req resp u b' w' t Hg Hi E|s w i ph ph' Hg Hi Hu
    |s w u b' w' t Hg Hk E|s w Hg Hk]; try (assert (Hpi := Forall_lookup_1 _ _ _ _ Hp Hi)).
  - split; [apply begun_run|]. apply Forall_app. split; [done|]. repeat constructor. apply begun_purposeful.
  - split; [by apply received_run|]. apply Hins; [apply received_purposeful|done].
  - split; [|by apply Hins]. apply run_still. unfold server_of; simpl. f_equal. symmetry.
    apply (at_phase_same _ ph); [done|]. by destruct ph; simplify_eq/=.
  - split; [apply run_nil|done].
  - split; [|apply Hins; [by destruct ph; simplify_eq/=|done]]. apply run_still. unfold server_of; simpl. f_equal.
    symmetry. apply (at_phase_same _ ph); [done|]. by destruct ph; simplify_eq/=.
  - split; [apply run_nil|done].
  - split; [|by apply Hins]. apply run_one. unfold server_of; simpl. rewrite list_fmap_insert. simpl.
    pose proof (step_answer (server_of s) w i id req resp b' w' t (task_lookup _ _ _ Hi) E) as Hst.
    simpl in Hpi. by rewrite Hpi in Hst.
  - split; [|by apply Hins]. apply run_one. unfold server_of; simpl. rewrite list_fmap_insert.
    apply (step_observe (server_of s) w i id req resp u b' w' t); [exact (task_lookup _ _ _ Hi)|done].
  - split; [|apply Hins; [by destruct ph; simplify_eq/=|done]]. apply run_still. unfold server_of; simpl. f_equal.
    symmetry. apply (at_phase_same _ ph); [done|]. by destruct ph; simplify_eq/=.
  - split; [|done]. apply run_one. by apply (step_tick (server_of s) w u b' w' t).
  - split; [apply run_nil|done].
Qed.

Lemma lock_run_refines s w t s' w' : lock_run s w t s' w' -> Forall purposeful (phases s) ->
  server_run (server_of s) w t (server_of s') w' /\ Forall purposeful (phases s').
Proof.
  induction 1 as [|own s w t s1 w1 t1 s2 w2 Hs _ IH]; intros Hp; [split; [apply run_nil|done]|].
  destruct (lock_step_refines _ _ _ _ _ _ Hs Hp) as [Hr Hp']. destruct (IH Hp') as [Hr' Hp2].
  split; [by eapply run_app|done].
Qed.

Lemma lock_run_app s w t s1 w1 t1 s2 w2 :
  lock_run s w t s1 w1 -> lock_run s1 w1 t1 s2 w2 -> lock_run s w (t ++ t1) s2 w2.
Proof.
  induction 1 as [|own s w t s1 w1 t' s2' w2' Hs _ IH]; [done|]. intros Hr. rewrite <- app_assoc.
  eapply lock_cons; [done|]. by apply IH.
Qed.

(** ** The queue *)

(** What a task is to the mutex: nothing, one that waits for the guard or
    was just given it, one that is using the backend. *)
Inductive Stance := Away | Wanting | Using.

Definition stance_of (ph : Phase) : Stance :=
  match ph with
  | Queued _ _ | Requeued _ _ _ => Wanting
  | Operated _ _ _ | Observed _ _ => Using
  | _ => Away
  end.

Definition stance (s : Shared) (who : Who) : Stance :=
  match who with
  | Ticker => match tick s with Sleeping => Away | Locking => Wanting | Flushed => Using end
  | Request i => from_option stance_of Away (phases s !! i)
  end.

(** The queue holds those who wait, each once; who uses the backend has the
    guard; the guard is with somebody who wants or uses it. *)
Record orderly (s : Shared) : Prop := {
  o_queue : forall who, who ∈ waiters s -> stance s who = Wanting;
  o_wanting : forall who, stance s who = Wanting -> who ∈ waiters s \/ guard s = Some who;
  o_using : forall who, stance s who = Using -> guard s = Some who;
  o_guard : forall who, guard s = Some who -> stance s who <> Away /\ who ∉ waiters s;
  o_nodup : NoDup (waiters s) }.

Lemma stance_at i ph ph' s who : phases s !! i = Some ph ->
  stance (at_phase i ph' s) who = if decide (who = Request i) then stance_of ph' else stance s who.
Proof.
  intros Hi. destruct who as [|j]; [done|]. unfold stance, at_phase; cbn [phases set_field].
  destruct (decide (Request j = Request i)) as [[= ->]|Hn].
  - rewrite list_lookup_insert_eq; [done|]. by eapply lookup_lt_Some.
  - rewrite list_lookup_insert_ne; [done|congruence].
Qed.

Lemma stance_here i ph s : phases s !! i = Some ph -> stance s (Request i) = stance_of ph.
Proof. simpl. by intros ->. Qed.

(** One task changes its stance, and the mutex follows it. *)
Definition moves (who : Who) (st : Stance) (s s' : Shared) : Prop :=
  forall q, stance s' q = if decide (q = who) then st else stance s q.

Lemma moves_still who s s' : (forall q, stance s' q = stance s q) -> moves who (stance s who) s s'.
Proof. intros Hq q. rewrite Hq. by destruct (decide (q = who)) as [->|]. Qed.

Section Mutex.
Variables (s s' : Shared) (who : Who).
Hypothesis Ho : orderly s.

Lemma orderly_same st : moves who st s s' -> st = stance s who -> guard s' = guard s -> waiters s' = waiters s -> orderly s'.
Proof.
  intros Hm -> Hg Hq. assert (Heq : forall q, stance s' q = stance s q) by (intros q; rewrite Hm; by destruct (decide (q = who)) as [->|]).
  destruct Ho. split; intros *; rewrite ?Heq, ?Hg, ?Hq; auto.
Qed.

Lemma orderly_ask : moves who Wanting s s' -> stance s who = Away -> guard s' = guard s -> waiters s' = waiters s ++ [who] -> orderly s'.
Proof.
  intros Hm Ha Hg Hq. destruct Ho as [Q1 Q2 Q3 Q4 Q5].
  assert (Hout : who ∉ waiters s) by (intros Hin; specialize (Q1 _ Hin); congruence).
  split; intros *; rewrite ?Hm, ?Hg, ?Hq.
  - destruct (decide (_ = who)); [done|]. intros [?|?%list_elem_of_singleton]%elem_of_app; [auto|done].
  - rewrite elem_of_app, list_elem_of_singleton. destruct (decide (_ = who)) as [->|]; [auto|]. intros [?|?]%Q2; auto.
  - destruct (decide (_ = who)); [done|]. auto.
  - intros Hg'. destruct (Q4 _ Hg') as [Hs Hn]. assert (who0 <> who) by congruence. rewrite decide_False by done.
    split; [done|]. rewrite elem_of_app, list_elem_of_singleton. tauto.
  - apply NoDup_app. split; [done|]. split; [|apply NoDup_singleton]. intros q Hin ->%list_elem_of_singleton. done.
Qed.

Lemma orderly_grant rest : (forall q, stance s' q = stance s q) -> guard s = None -> waiters s = who :: rest ->
  guard s' = Some who -> waiters s' = rest -> orderly s'.
Proof.
  intros Hm Hg Hq Hg' Hq'. destruct Ho as [Q1 Q2 Q3 Q4 Q5]. rewrite Hq in *.
  apply NoDup_cons in Q5 as [Hn Hd]. assert (Hw : stance s who = Wanting) by (apply Q1; left).
  split; intros *; rewrite ?Hm, ?Hg', ?Hq'.
  - intros Hin. apply Q1. by right.
  - intros [[->|?]%elem_of_cons|?]%Q2; [auto..|congruence].
  - intros ?%Q3. congruence.
  - intros [= <-]. by rewrite Hw.
  - done.
Qed.

Lemma orderly_use : moves who Using s s' -> guard s = Some who -> guard s' = guard s -> waiters s' = waiters s -> orderly s'.
Proof.
  intros Hm Hg Hg' Hq. destruct Ho as [Q1 Q2 Q3 Q4 Q5]. destruct (Q4 _ Hg) as [_ Hn].
  split; intros *; rewrite ?Hm, ?Hg', ?Hq.
  - intros Hin. rewrite decide_False by congruence. auto.
  - destruct (decide (_ = who)); [done|]. auto.
  - destruct (decide (_ = who)) as [->|]; auto.
  - intros Hw. rewrite Hg in Hw. simplify_eq. by rewrite decide_True.
  - done.
Qed.

Lemma orderly_release : moves who Away s s' -> guard s = Some who -> guard s' = None -> waiters s' = waiters s -> orderly s'.
Proof.
  intros Hm Hg Hg' Hq. destruct Ho as [Q1 Q2 Q3 Q4 Q5]. destruct (Q4 _ Hg) as [_ Hn].
  split; intros *; rewrite ?Hm, ?Hg', ?Hq.
  - intros Hin. rewrite decide_False by congruence. auto.
  - destruct (decide (_ = who)); [done|]. intros [?|?]%Q2; [auto|congruence].
  - destruct (decide (_ = who)); [done|]. intros ?%Q3. congruence.
  - done.
  - done.
Qed.

Lemma orderly_leave : moves who Away s s' -> guard s' = (if decide (guard s = Some who) then None else guard s) ->
  waiters s' = filter (fun q => q <> who) (waiters s) -> orderly s'.
Proof.
  intros Hm Hg' Hq. destruct Ho as [Q1 Q2 Q3 Q4 Q5].
  assert (Hgs : forall q, guard s' = Some q <-> guard s = Some q /\ q <> who)
    by (intros q; rewrite Hg'; destruct (decide (guard s = Some who)); split; [done|intros []; congruence|split; congruence|tauto]).
  split; intros *; rewrite ?Hm, ?Hgs, ?Hq.
  - intros [? ?]%list_elem_of_filter. rewrite decide_False by done. auto.
  - destruct (decide (_ = who)); [done|]. rewrite list_elem_of_filter. intros [?|?]%Q2; auto.
  - destruct (decide (_ = who)); [done|]. auto.
  - intros [? ?]. rewrite decide_False by done. destruct (Q4 who0); [done|]. rewrite list_elem_of_filter. tauto.
  - by apply NoDup_filter.
Qed.
End Mutex.

Lemma moves_at i ph ph' s s' : phases s !! i = Some ph -> (forall q, stance s' q = stance (at_phase i ph' s) q) ->
  moves (Request i) (stance_of ph') s s'.
Proof. intros Hi Hs q. rewrite Hs. by eapply stance_at. Qed.

Lemma stance_received id req : stance_of (received id req) = Away.
Proof. unfold received. by destruct (plan req). Qed.

Lemma stance_begun id req : stance_of (begun id req) = Away.
Proof. unfold begun. destruct (awaits_body req); [done|apply stance_received]. Qed.

Lemma stance_arrive s n ph q : stance_of ph = Away ->
  stance (s <| sh_next_id := n |> <| phases := phases s ++ [ph] |>) q = stance s q.
Proof.
  intros Ha. destruct q as [|j]; simpl; [done|]. destruct (phases s !! j) as [x|] eqn:E.
  - by erewrite lookup_app_l_Some.
  - rewrite lookup_app, E. by destruct (j - length (phases s))%nat as [|[|]].
Qed.

Lemma moves_tick k s s' : phases s' = phases s -> tick s' = k -> moves Ticker (stance s' Ticker) s s'.
Proof. intros Hp Hk [|j]; [done|]. simpl. by rewrite Hp. Qed.

Lemma lock_step_orderly own s w t s' w' : lock_step own s w t s' w' -> orderly s -> orderly s'.
Proof.
  intros Hs Ho. destruct Hs as [s w req|s w i id req Hi|s w i ph x Hi Hx|s w Hk|s w i ph ph' Hi Ha|s w who rest Hg Hq
    |s w i id req resp b' w' t Hg Hi E|s w i id req resp u b' w' t Hg Hi E|s w i ph ph' Hg Hi Hu
    |s w u b' w' t Hg Hk E|s w Hg Hk].
  - eapply (orderly_same s _ Ticker Ho); [apply moves_still|done..]. intros q. apply stance_arrive, stance_begun.
  - eapply (orderly_same s _ (Request i) Ho); [by eapply moves_at|..]; [|done..].
    by rewrite stance_received, (stance_here _ _ _ Hi).
  - eapply (orderly_leave s _ (Request i) Ho); [|done..]. by apply (moves_at _ ph (Dropped x)).
  - eapply (orderly_ask s _ Ticker Ho); [by eapply moves_tick|simpl; by rewrite Hk|done..].
  - eapply (orderly_ask s _ (Request i) Ho); [|rewrite (stance_here _ _ _ Hi); by destruct ph|done..].
    replace Wanting with (stance_of ph') by (by destruct ph; simplify_eq/=). by apply (moves_at _ ph).
  - by eapply (orderly_grant s _ who Ho rest).
  - eapply (orderly_use s _ (Request i) Ho); [|done..]. by apply (moves_at _ _ (Operated id req resp) _ _ Hi).
  - eapply (orderly_use s _ (Request i) Ho); [|done..]. by apply (moves_at _ _ (Observed req resp) _ _ Hi).
  - eapply (orderly_release s _ (Request i) Ho); [|done..].
    replace Away with (stance_of ph') by (by destruct ph; simplify_eq/=). by apply (moves_at _ ph).
  - eapply (orderly_use s _ Ticker Ho); [by eapply moves_tick|done..].
  - eapply (orderly_release s _ Ticker Ho); [by eapply moves_tick|done..].
Qed.

Lemma lock_run_orderly s w t s' w' : lock_run s w t s' w' -> orderly s -> orderly s'.
Proof. induction 1; eauto using lock_step_orderly. Qed.

Lemma spawned_orderly b : orderly (spawned b).
Proof. split; simpl; [set_solver|intros [|i]; done|intros [|i]; done|done|constructor]. Qed.

(** ** Progress *)

(** How many steps the task of a request still takes. *)
Definition effort (ph : Phase) : nat :=
  match ph with
  | Receiving _ _ | Finished _ _ | Dropped _ => 0
  | Asking _ _ => 8
  | Queued _ _ => 7
  | Operated _ _ _ => 6
  | Replied _ _ _ => 4
  | Requeued _ _ _ => 3
  | Observed _ _ => 2
  end.

Definition remaining (s : Shared) : nat :=
  sum_list_with effort (phases s) + match tick s with Sleeping => 0 | Locking => 3 | Flushed => 2 end
    + match guard s with Some _ => 0 | None => 1 end.

Lemma effort_bound l : (sum_list_with effort l <= 8 * length l)%nat.
Proof. induction l as [|ph l IH]; simpl; [done|]. destruct ph; simpl; lia. Qed.

Lemma remaining_bound s : (remaining s <= 8 * length (phases s) + 4)%nat.
Proof. unfold remaining. pose proof (effort_bound (phases s)). destruct (tick s), (guard s); lia. Qed.

Lemma own_step_effort s w t s' w' : lock_step true s w t s' w' -> (remaining s' < remaining s)%nat.
Proof.
  intros Hs. inversion Hs as [| | | |? ? i ph ph' Hi Ha|? ? who rest Hg Hq
    |? ? i id req resp b' ? ? Hg Hi E|? ? i id req resp u b' ? ? Hg Hi E|? ? i ph ph' Hg Hi Hu
    |? ? u b' ? ? Hg Hk E|? ? Hg Hk]; subst; unfold remaining; simpl; rewrite ?Hg, ?Hk; try lia.
  - pose proof (sum_insert effort _ _ _ ph' Hi). destruct ph; simplify_eq/=; lia.
  - pose proof (sum_insert effort _ _ _ (Operated id req resp) Hi). simpl in *; lia.
  - pose proof (sum_insert effort _ _ _ (Observed req resp) Hi). simpl in *; lia.
  - pose proof (sum_insert effort _ _ _ ph' Hi). destruct ph; simplify_eq/=; lia.
Qed.

Lemma own_steps_bound n s w s' w' : own_steps n s w s' w' -> (n + remaining s' <= remaining s)%nat.
Proof.
  induction 1 as [|n s w t s1 w1 s2 w2 Hs _ IH]; [done|]. apply own_step_effort in Hs. lia.
Qed.

(** What the server makes of a request when nothing else happens: it leaves
    one whose body has not come, and answers the others, with the response
    they have if they have one. *)
Definition settles (ph ph' : Phase) : Prop :=
  match ph with
  | Receiving _ _ | Dropped _ => ph' = ph
  | Asking _ req | Queued _ req => exists resp, ph' = Finished req resp
  | Operated _ req resp | Replied _ req resp | Requeued _ req resp | Observed req resp | Finished req resp =>
      ph' = Finished req resp
  end.

Definition towards (ph ph' : Phase) : Prop := forall x, settles ph' x -> settles ph x.

Definition onward (l l' : list Phase) : Prop :=
  forall i ph, l !! i = Some ph -> exists ph', l' !! i = Some ph' /\ towards ph ph'.

Lemma onward_refl l : onward l l.
Proof. intros i ph Hi. exists ph. split; [done|]. by intros x. Qed.

Lemma onward_trans l1 l2 l3 : onward l1 l2 -> onward l2 l3 -> onward l1 l3.
Proof.
  intros H12 H23 i ph Hi. destruct (H12 _ _ Hi) as (ph2 & Hi2 & Ht). destruct (H23 _ _ Hi2) as (ph3 & Hi3 & Ht').
  exists ph3. split; [done|]. intros x Hx. by apply Ht, Ht'.
Qed.

Lemma onward_insert l i ph ph' : l !! i = Some ph -> towards ph ph' -> onward l (<[i := ph']> l).
Proof.
  intros Hi Ht j x Hj. destruct (decide (j = i)) as [->|Hn].
  - simplify_eq. exists ph'. rewrite list_lookup_insert_eq by (by eapply lookup_lt_Some). done.
  - exists x. rewrite list_lookup_insert_ne by done. split; [done|]. by intros y.
Qed.

Lemma own_step_onward s w t s' w' : lock_step true s w t s' w' -> onward (phases s) (phases s').
Proof.
  intros Hs. inversion Hs as [| | | |? ? i ph ph' Hi Ha|? ? who rest Hg Hq
    |? ? i id req resp b' ? ? Hg Hi E|? ? i id req resp u b' ? ? Hg Hi E|? ? i ph ph' Hg Hi Hu
    |? ? u b' ? ? Hg Hk E|? ? Hg Hk]; subst; simpl; try apply onward_refl;
    (eapply onward_insert; [exact Hi|]).
  - intros x Hx. destruct ph; try discriminate Ha; injection Ha as <-; exact Hx.
  - intros x Hx. by exists resp.
  - intros x Hx. exact Hx.
  - intros x Hx. destruct ph; try discriminate Hu; injection Hu as <-; exact Hx.
Qed.

Lemma own_steps_run n s w s' w' : own_steps n s w s' w' ->
  onward (phases s) (phases s') /\ exists t, lock_run s w t s' w'.
Proof.
  induction 1 as [|n s w t s1 w1 s2 w2 Hs _ (Ho & t1 & Hr)]; [split; [apply onward_refl|eexists; apply lock_nil]|].
  split; [by eapply onward_trans; [eapply own_step_onward|]|]. eexists. by eapply lock_cons.
Qed.

(** Nobody has the mutex or waits for it, and no request is in hand. *)
Definition idle (s : Shared) : Prop :=
  guard s = None /\ waiters s = [] /\ tick s = Sleeping /\ Forall (fun ph => settles ph ph) (phases s).

Definition can_step (s : Shared) (w : W) : Prop := exists t s' w', lock_step true s w t s' w'.

Lemma settled_or_not ph : settles ph ph \/ asks ph <> None \/ stance_of ph <> Away.
Proof. destruct ph; simpl; auto. Qed.
End Locks.

Section Progress.
Context `{TypedDecoders} {W : Type} `{Outside W} `{Serde}.

Lemma holder_steps s (w : W) who : server_ok (server_of s) -> orderly s -> guard s = Some who -> can_step s w.
Proof.
  intros (Hb & Hi & _) Ho Hg. destruct (o_guard _ Ho _ Hg) as [Hst _]. destruct who as [|i]; simpl in Hst.
  - destruct (tick s) eqn:Hk; [done|..].
    + destruct (exec FlushMetrics (sh_backend s) w) as [[[u b'] w2] t'] eqn:E.
      eexists _, _, _. by eapply lock_flush.
    + eexists _, _, _. by eapply lock_sleep.
  - destruct (phases s !! i) as [ph|] eqn:Hp; [|done].
    destruct ph as [| |id req|id req resp| |id req resp|req resp| |]; try (by destruct Hst).
    + destruct (answer (plan req) (sh_backend s) w) as [[[r b'] w2] t'] eqn:E.
      destruct (wp_result _ _ _ _ _ _ _ _ (wp_answer req _ w Hb Hi) E) as [[resp ->] _].
      eexists _, _, _. by eapply lock_operate.
    + eexists _, _, _. by eapply lock_unlock.
    + destruct (observe id req resp (sh_backend s) w) as [[[u b'] w2] t'] eqn:E.
      eexists _, _, _. by eapply lock_observe.
    + eexists _, _, _. by eapply lock_unlock.
Qed.

Lemma free_steps s (w : W) : orderly s -> guard s = None -> can_step s w \/ idle s.
Proof.
  intros Ho Hg. destruct (waiters s) as [|who rest] eqn:Hq; [|left; eexists _, _, _; by eapply lock_grant].
  assert (Haway : forall who, stance s who = Away).
  { intros who. destruct (stance s who) eqn:Hs; [done|..].
    - destruct (o_wanting _ Ho _ Hs) as [Hin|Hin]; [rewrite Hq in Hin; by apply not_elem_of_nil in Hin|congruence].
    - apply (o_using _ Ho) in Hs. congruence. }
  assert (Hk : tick s = Sleeping) by (pose proof (Haway Ticker) as Ht; simpl in Ht; by destruct (tick s)).
  destruct (decide (Forall (fun ph => asks ph = None) (phases s))) as [Hno|(ph & Hin & Ha)%not_Forall_Exists%list.Exists_exists]; [|..|apply _].
  - right. split_and!; [done..|]. apply Forall_lookup. intros i ph Hi.
    destruct (settled_or_not ph) as [?|[Ha|Hs]]; [done|..]; exfalso.
    + by apply Ha, (Forall_lookup_1 _ _ _ _ Hno Hi).
    + apply Hs. rewrite <- (stance_here _ _ _ Hi). apply Haway.
  - left. apply list_elem_of_lookup in Hin as [i Hi]. destruct (asks ph) as [ph'|] eqn:E; [|by destruct Ha].
    eexists _, _, _. by eapply lock_ask.
Qed.

Lemma steps_or_idle s (w : W) : server_ok (server_of s) -> orderly s -> can_step s w \/ idle s.
Proof.
  intros Hok Ho. destruct (guard s) as [who|] eqn:Hg; [left; by eapply holder_steps|by apply free_steps].
Qed.

Lemma idle_answers s l : idle s -> onward l (phases s) ->
  forall i ph, l !! i = Some ph -> exists ph', phases s !! i = Some ph' /\ settles ph ph'.
Proof.
  intros (_ & _ & _ & Hall) Ho i ph Hi. destruct (Ho _ _ Hi) as (ph' & Hi' & Ht). exists ph'. split; [done|].
  apply Ht. by apply (Forall_lookup_1 _ _ _ _ Hall Hi').
Qed.

(** C11: Every run of the daemon's tasks over the mutex, with requests that
    arrive, wait, are abandoned by their connection and are flushed around in
    any order, is a run of [server_run] with the same calls and the same
    backend, and no two tasks are inside the backend at once: what a task
    that uses it holds is the guard. *)
Theorem mutex_refines_server id now vmnet host p (w : W) t s w' :
  lock_run (spawned (assemble id now vmnet host p)) w t s w' ->
  server_run (listening (assemble id now vmnet host p)) w t (server_of s) w' /\
  (forall who, stance s who = Using -> guard s = Some who) /\
  (forall who, who ∈ waiters s -> guard s <> Some who).
Proof.
  intros Hr. pose proof (lock_run_orderly _ _ _ _ _ Hr (spawned_orderly _)) as Ho.
  split; [exact (proj1 (lock_run_refines _ _ _ _ _ Hr ltac:(constructor)))|]. split; [apply (o_using _ Ho)|].
  intros who Hin Hg. by destruct (o_guard _ Ho _ Hg).
Qed.

(** C32: The server always gets to an answer.  From every state that a run
    reaches, whatever its own tasks do next, in whatever order they are
    scheduled, ends after at most eight steps per request and four for the
    flush; and where it ends, nobody holds the mutex or waits for it and
    every request whose body has arrived and whose connection is still there
    has its response, the one it was going to get if the operation was
    already done.  A client that never sends its body holds up no other, and
    no task waits for a guard that it has itself. *)
Theorem requests_answered id now vmnet host p (w : W) t s w' n s2 w2 :
  lock_run (spawned (assemble id now vmnet host p)) w t s w' -> own_steps n s w' s2 w2 ->
  (n <= 8 * length (phases s) + 4)%nat /\
  (can_step s2 w2 \/
   idle s2 /\ forall i ph, phases s !! i = Some ph -> exists ph', phases s2 !! i = Some ph' /\ settles ph ph') /\
  (forall i id req, phases s2 !! i = Some (Receiving id req) -> awaits_body req = true).
Proof.
  intros Hr Hn. destruct (own_steps_run _ _ _ _ _ Hn) as (Hon & t2 & Hr2).
  assert (Ho2 : orderly s2) by (eapply lock_run_orderly; [done|]; eapply lock_run_orderly; [done|]; apply spawned_orderly).
  destruct (lock_run_refines _ _ _ _ _ (lock_run_app _ _ _ _ _ _ _ _ Hr Hr2) ltac:(constructor)) as [Hsr Hp].
  destruct (server_run_ok _ _ _ _ _ Hsr (listening_ok id now vmnet host p)) as [Hok _].
  split; [pose proof (own_steps_bound _ _ _ _ _ Hn); pose proof (remaining_bound s); lia|].
  split; [|intros i n' req Hi; exact (Forall_lookup_1 _ _ _ _ Hp Hi)].
  destruct (steps_or_idle s2 w2 Hok Ho2) as [?|Hidle]; [by left|right]. split; [done|]. by apply idle_answers.
Qed.
End Progress.

(** ** An example *)

Module DemoLock.
Import DemoServer.

(** The second connection asks for the mutex while the first has it. *)
Lemma contended : exists t s,
  @lock_run decoders unit calm Demo.serde (spawned Demo.fresh) tt t s tt /\
  guard s = Some (Request 0) /\ waiters s = [Request 1] /\ phases s !! 1%nat = Some (Queued 2 start) /\
  exists s2 resp, @own_steps decoders unit calm Demo.serde 12 s tt s2 tt /\
    phases s2 !! 1%nat = Some (Finished start resp) /\ code resp = BAD_REQUEST /\ idle s2.
Proof.
  eexists _, _. split_and!; [eapply lock_cons; [apply (lock_arrive _ _ put_drive)|]|..].
  - eapply lock_cons; [by eapply (lock_receive _ _ 0)|].
    eapply lock_cons; [by eapply (lock_ask _ _ 0)|].
    eapply lock_cons; [by eapply lock_grant|].
    eapply lock_cons; [eapply (lock_operate _ _ 0); [reflexivity..|vm_compute; reflexivity]|].
    eapply lock_cons; [apply (lock_arrive _ _ start)|].
    eapply lock_cons; [by eapply (lock_receive _ _ 1)|].
    eapply lock_cons; [by eapply (lock_ask _ _ 1)|].
    apply lock_nil.
  - reflexivity.
  - reflexivity.
  - reflexivity.
  - eexists _, _. split_and!.
    + eapply own_cons; [by eapply (lock_unlock _ _ 0)|].
      eapply own_cons; [by eapply (lock_ask _ _ 0)|].
      eapply own_cons; [by eapply lock_grant|].
      eapply own_cons; [eapply (lock_operate _ _ 1); [reflexivity..|vm_compute; reflexivity]|].
      eapply own_cons; [by eapply (lock_unlock _ _ 1)|].
      eapply own_cons; [by eapply (lock_ask _ _ 1)|].
      eapply own_cons; [by eapply lock_grant|].
      eapply own_cons; [eapply (lock_observe _ _ 0); [reflexivity..|vm_compute; reflexivity]|].
      eapply own_cons; [by eapply (lock_unlock _ _ 0)|].
      eapply own_cons; [by eapply lock_grant|].
      eapply own_cons; [eapply (lock_observe _ _ 1); [reflexivity..|vm_compute; reflexivity]|].
      eapply own_cons; [by eapply (lock_unlock _ _ 1)|].
      apply own_nil.
    + reflexivity.
    + reflexivity.
    + split_and!; [reflexivity..|by repeat constructor].
Qed.
End DemoLock.

Lemma mutex_refines_server_witness : exists t s,
  @lock_run DemoServer.decoders unit calm Demo.serde (spawned Demo.fresh) tt t s tt /\ waiters s = [Request 1] /\
  @server_run DemoServer.decoders unit calm Demo.serde (listening Demo.fresh) tt t (server_of s) tt.
Proof.
  destruct DemoLock.contended as (t & s & Hr & _ & Hw & _). exists t, s. split; [exact Hr|]. split; [exact Hw|].
  exact (proj1 (@mutex_refines_server _ _ _ _ "demo" 0 false false None tt t s tt Hr)).
Defined.

Lemma requests_answered_witness : exists t s s2,
  @lock_run DemoServer.decoders unit calm Demo.serde (spawned Demo.fresh) tt t s tt /\
  @own_steps DemoServer.decoders unit calm Demo.serde 12 s tt s2 tt /\ idle s2 /\
  (12 <= 8 * length (phases s) + 4)%nat.
Proof.
  destruct DemoLock.contended as (t & s & Hr & _ & _ & _ & s2 & resp & Hn & _ & _ & Hi). exists t, s, s2.
  split; [exact Hr|]. split; [exact Hn|]. split; [exact Hi|].
  exact (proj1 (@requests_answered _ DemoServer.typed _ _ _ "demo" 0 false false None tt t s tt 12 s2 tt Hr Hn)).
Defined.
