(* ===== verification/HostMmds.v ===== *)
(** * The metadata service's documents (hephaestus-firecracker/src/host_mmds.rs)

    The HTTP side of the metadata responder: resolving a path in the stored
    document, listing an object, and rendering the response to the bytes of
    a request. *)

From stdpp Require Import sorting.
From S2P Require Import Prelude RustStr Utf8 Json Backend.
Local Open Scope string_scope.
Local Open Scope Z_scope.
Local Open Scope list_scope.

Definition SLASH : Ascii.ascii := ch 47.

(** [while sanitized.contains("//")]: every round shortens the path. *)
Fixpoint collapse (n : nat) (s : string) : string :=
  match n with
  | O => s
  | S n' => if contains "//" s then collapse n' (replace "//" "/" s) else s
  end.

Definition sanitize_path (p : string) : string :=
  let raw := match split_once (ch 63) p with Some (l, _) => l | None => p end in
  let sanitized := if str_is_empty raw then "/" else raw in
  collapse (String.length sanitized) sanitized.

(** The key a segment of a path stands for. *)
Definition segment_key (segment : string) : string := replace "~0" "~" (replace "~1" "/" segment).

(** One step down, and a walk along keys. *)
Definition child (v : Value) (key : string) : option Value :=
  match v with
  | Object m => map_get key m
  | Array l =>
      match parse_uint usize_max key with
      | Ok i => l !! Z.to_nat i
      | Err _ => None
      end
  | _ => None
  end.
Fixpoint descend (v : Value) (keys : list string) : option Value :=
  match keys with
  | [] => Some v
  | k :: keys' => match child v k with Some v' => descend v' keys' | None => None end
  end.

Definition lookup (root : Value) (path : string) : option Value :=
  let trimmed := trim_end_char SLASH (trim_start_char SLASH path) in
  if str_is_empty trimmed then Some root
  else descend root (segment_key <$> split_char SLASH trimmed).

Definition imds_keys (m : list (string * Value)) : list string :=
  (fun e => if is_object (snd e) then fst e +:+ "/" else fst e) <$> m.
Definition format_imds (v : Value) : string :=
  match v with
  | Object m => join nl (merge_sort str_le (imds_keys m))
  | _ => ""
  end.

(** [str::split_whitespace]. *)
Fixpoint split_ws (n : nat) (word s : string) : list string :=
  let flush := if str_is_empty word then [] else [word] in
  match n with
  | O => flush
  | S n' =>
      match s with
      | "" => flush
      | String a s' =>
          match strip_any white_space s with
          | Some r => flush ++ split_ws n' "" r
          | None => split_ws n' (word +:+ String a "") s'
          end
      end
  end.
Definition split_whitespace (s : string) : list string := split_ws (S (String.length s)) "" s.

Definition accepts_json (text : string) : bool :=
  existsb (fun line => starts_with "accept:" (to_ascii_lowercase line)
                       && contains "application/json" (to_ascii_lowercase line)) (lines text).

Definition crlf : string := String CR nl.

Section Render.
Context `{Serde}.

Definition json_bytes (v : Value) : string := match json_to_vec v with Ok s => s | Err _ => "null" end.

(** The status, type and body of a response. *)
Definition answer_for (method path : string) (json : bool) (root : Value) : Z * string * string :=
  if negb (String.eqb method "GET") then (405, "text/plain", "Method not allowed")
  else match lookup root path with
       | Some v =>
           if json then (200, "application/json", json_bytes v)
           else match v with
                | Str s => (200, "text/plain", s)
                | Object _ => (200, "text/plain", format_imds v)
                | _ => (200, "application/json", json_bytes v)
                end
       | None => (404, "text/plain", "The MMDS resource does not exist: " +:+ path)
       end.

Definition reason (status : Z) : string :=
  if status =? 200 then "OK" else if status =? 404 then "Not Found"
  else if status =? 405 then "Method Not Allowed" else "Error".

Definition http_response (r : Z * string * string) : string :=
  let '(status, content_type, body) := r in
  "HTTP/1.1 " +:+ to_dec status +:+ " " +:+ reason status +:+ crlf +:+
  "Content-Type: " +:+ content_type +:+ crlf +:+
  "Content-Length: " +:+ to_dec (len body) +:+ crlf +:+
  "Connection: close" +:+ crlf +:+ crlf +:+ body.

Definition render_raw_http (request : string) (root : Value) : string :=
  let text := from_utf8_lossy request in
  let first := default "" (head (lines text)) in
  let parts := split_whitespace first in
  let method := default "" (head parts) in
  let path := sanitize_path (default "/" (head (tail parts))) in
  http_response (answer_for method path (accepts_json text) root).
End Render.

(** ** Replacing *)

Lemma replace_fuel_enough p t s n :
  p <> "" -> (String.length s <= n)%nat -> replace_fuel n p t s = replace p t s.
Proof.
  intros Hp. unfold replace. remember (String.length s) as k eqn:Hk.
  assert (Hgen : forall k s n, String.length s = k -> (k <= n)%nat -> replace_fuel n p t s = replace_fuel k p t s).
  { clear s n k Hk. induction k as [k IH] using lt_wf_ind. intros s n Hk Hn.
    destruct n as [|n]; [by replace k with 0%nat by lia|].
    destruct k as [|k]; [by destruct s; destruct p|]. cbn [replace_fuel].
    destruct (strip_prefix p s) as [r|] eqn:E.
    - apply strip_prefix_Some in E. subst s. rewrite length_app_s in Hk. destruct p; [done|]. simpl in Hk.
      assert (Hr : (String.length r <= k)%nat) by lia.
      rewrite (IH (String.length r)) by lia. f_equal. symmetry. by apply IH; [lia| |].
    - destruct s as [|a s]; [done|]. simpl in Hk. f_equal.
      rewrite (IH (String.length s)) by lia. f_equal. lia. }
  intros Hn. by apply Hgen.
Qed.

Lemma replace_match p t r : p <> "" -> replace p t (p +:+ r) = t +:+ replace p t r.
Proof.
  intros Hp. unfold replace at 1. rewrite length_app_s. destruct p as [|a p]; [done|].
  cbn [String.length Nat.add replace_fuel]. rewrite strip_prefix_app.
  f_equal. apply replace_fuel_enough; [done|lia].
Qed.

Lemma replace_skip p t a s :
  p <> "" -> strip_prefix p (String a s) = None -> replace p t (String a s) = String a (replace p t s).
Proof. intros Hp Hs. unfold replace at 1. cbn [String.length replace_fuel]. by rewrite Hs. Qed.

(** ** Sanitizing *)

(** Induction along the matches of [//]. *)
Lemma slashes_ind (P : string -> Prop) :
  P "" -> (forall r, P r -> P ("//" +:+ r)) ->
  (forall a s, strip_prefix "//" (String a s) = None -> P s -> P (String a s)) -> forall s, P s.
Proof.
  intros H0 Hm Hs s. remember (String.length s) as k eqn:Hk. revert s Hk.
  induction k as [k IH] using lt_wf_ind. intros s ->.
  destruct (strip_prefix "//" s) as [r|] eqn:E.
  - apply strip_prefix_Some in E. subst s. apply Hm. eapply IH; [|done]. rewrite length_app_s. simpl. lia.
  - destruct s as [|a s]; [done|]. apply Hs; [done|]. eapply IH; [|done]. simpl. lia.
Qed.

Lemma contains_match r : contains "//" ("//" +:+ r) = true.
Proof. reflexivity. Qed.
Lemma contains_skip a s :
  strip_prefix "//" (String a s) = None -> contains "//" (String a s) = contains "//" s.
Proof. intros Hs. cbn [contains]. unfold starts_with. by rewrite Hs. Qed.

Lemma replace_slashes_length s :
  (String.length (replace "//" "/" s) <= String.length s)%nat /\
  (contains "//" s = true -> (String.length (replace "//" "/" s) < String.length s)%nat).
Proof.
  induction s as [|r [IH _]|a s Hs [IH1 IH2]] using slashes_ind; [done| |].
  - rewrite replace_match by done. rewrite !length_app_s. simpl. lia.
  - rewrite replace_skip by done. rewrite contains_skip by done. simpl. split; [lia|]. intros Hc. specialize (IH2 Hc). lia.
Qed.

Lemma collapse_clean n s : (String.length s <= n)%nat -> contains "//" (collapse n s) = false.
Proof.
  revert s. induction n as [|n IH]; intros s Hn; simpl.
  - destruct s; [done|simpl in Hn; lia].
  - destruct (contains "//" s) eqn:E; [|done]. apply IH. pose proof (proj2 (replace_slashes_length s) E). lia.
Qed.

(** What collapsing keeps. *)
Lemma collapse_keeps (P : string -> Prop) n s :
  (forall s, P s -> P (replace "//" "/" s)) -> P s -> P (collapse n s).
Proof.
  intros Hr. revert s. induction n as [|n IH]; intros s Hs; simpl; [done|].
  destruct (contains "//" s); [|done]. by apply IH, Hr.
Qed.

Lemma split_cons a s : exists h t, split_char SLASH s = h :: t /\
  split_char SLASH (String a s) = if Ascii.eqb a SLASH then "" :: h :: t else String a h :: t.
Proof.
  simpl. destruct (split_char SLASH s) as [|h t] eqn:E; [|by exists h, t].
  exfalso. destruct s; simpl in E; [done|]. destruct (Ascii.eqb _ _); [done|]. by destruct (split_char SLASH s).
Qed.

Definition segments (s : string) : list string := filter (fun x => str_is_empty x = false) (split_char SLASH s).

Lemma replace_segments s : segments (replace "//" "/" s) = segments s.
Proof.
  cut (exists h t t', split_char SLASH s = h :: t /\ split_char SLASH (replace "//" "/" s) = h :: t' /\
       filter (fun x => str_is_empty x = false) t' = filter (fun x => str_is_empty x = false) t).
  { intros (h & t & t' & E1 & E2 & E). unfold segments. rewrite E1, E2, !filter_cons. by rewrite E. }
  induction s as [|r (h & t & t' & E1 & E2 & E)|a s Hs (h & t & t' & E1 & E2 & E)] using slashes_ind.
  - by exists "", [], [].
  - exists "", ("" :: h :: t), (h :: t'). rewrite replace_match by done. simpl. rewrite E1, E2.
    split_and!; [done..|]. rewrite !filter_cons. by rewrite E.
  - rewrite replace_skip by done. destruct (split_cons a s) as (h1 & t1 & F1 & ->).
    destruct (split_cons a (replace "//" "/" s)) as (h2 & t2 & F2 & ->). simplify_eq.
    rewrite E1 in F1. rewrite E2 in F2. simplify_eq.
    destruct (Ascii.eqb a SLASH); eexists _, _, _; split_and!; try done. rewrite !filter_cons. by rewrite E.
Qed.

Lemma replace_nonempty s : s <> "" -> replace "//" "/" s <> "".
Proof.
  destruct s as [|r _|a s Hs _] using slashes_ind; [done| |].
  - by rewrite replace_match.
  - by rewrite replace_skip.
Qed.

Lemma split_once_clean c s l r : split_once c s = Some (l, r) -> contains_char c l = false.
Proof.
  revert l. induction s as [|a s IH]; intros l; simpl; [done|]. destruct (Ascii.eqb a c) eqn:Ea; [by intros [= <- _]|].
  destruct (split_once c s) as [[l' r']|]; [|done]. intros [= <- <-]. simpl. by rewrite Ea, (IH l').
Qed.
Lemma split_once_none c s : split_once c s = None <-> contains_char c s = false.
Proof.
  induction s as [|a s IH]; simpl; [done|]. destruct (Ascii.eqb a c); [done|]. simpl. rewrite <- IH.
  by destruct (split_once c s) as [[]|].
Qed.

(** The path before the query. *)
Definition before_query (p : string) : string := match split_once (ch 63) p with Some (l, _) => l | None => p end.

(** Sanitizing a request path ends for every path, and what it returns
    is not empty, has no doubled slash, and has the same segments in the same
    order as the path before its query; a path that is already so is not
    changed. *)
Theorem sanitize_path_segments p :
  contains "//" (sanitize_path p) = false /\ sanitize_path p <> "" /\
  segments (sanitize_path p) = segments (before_query p) /\
  (p <> "" -> contains_char (ch 63) p = false -> contains "//" p = false -> sanitize_path p = p).
Proof.
  unfold sanitize_path. fold (before_query p). set (raw := if str_is_empty (before_query p) then _ else _).
  assert (Hraw : raw <> "" /\ segments raw = segments (before_query p)).
  { unfold raw. destruct (before_query p) eqn:E; simpl; split; done. }
  split_and!.
  - apply collapse_clean. lia.
  - apply collapse_keeps; [apply replace_nonempty|apply Hraw].
  - rewrite <- (proj2 Hraw). apply (collapse_keeps (fun s => segments s = segments raw)); [|done].
    intros s. by rewrite replace_segments.
  - intros Hne Hq Hs. assert (raw = p) as ->.
    { unfold raw, before_query. rewrite (proj2 (split_once_none _ _) Hq). by destruct p. }
    destruct p as [|a p]; [done|]. cbn [String.length collapse]. by rewrite Hs.
Qed.

(** ** Paths as pointers *)

(** The escapes of a JSON pointer (RFC 6901), which the lookup undoes. *)
Fixpoint pointer_escape (s : string) : string :=
  match s with
  | "" => ""
  | String a s' =>
      (if Ascii.eqb a (ch 126) then "~0" else if Ascii.eqb a SLASH then "~1" else String a "")
      +:+ pointer_escape s'
  end.
Definition pointer (keys : list string) : string := "/" +:+ join "/" (pointer_escape <$> keys).

Fixpoint tilde_escape (s : string) : string :=
  match s with
  | "" => ""
  | String a s' => (if Ascii.eqb a (ch 126) then "~0" else String a "") +:+ tilde_escape s'
  end.

Lemma strip_tilde a c s : Ascii.eqb a (ch 126) = false -> strip_prefix (String (ch 126) (String c "")) (String a s) = None.
Proof. intros Ha. cbn [strip_prefix]. by rewrite Ascii.eqb_sym, Ha. Qed.

Lemma unescape_slash s : replace "~1" "/" (pointer_escape s) = tilde_escape s.
Proof.
  induction s as [|a s IH]; [done|]. cbn [pointer_escape tilde_escape].
  destruct (Ascii.eqb a (ch 126)) eqn:Ea; [|destruct (Ascii.eqb_spec a SLASH) as [->|]].
  - simpl. rewrite replace_skip by done. rewrite replace_skip by done. by rewrite IH.
  - rewrite replace_match by done. by rewrite IH.
  - simpl. rewrite replace_skip by (done || by apply (strip_tilde a (ch 49))). by rewrite IH.
Qed.

Lemma unescape_tilde s : replace "~0" "~" (tilde_escape s) = s.
Proof.
  induction s as [|a s IH]; [done|]. cbn [tilde_escape]. destruct (Ascii.eqb_spec a (ch 126)) as [->|Ha].
  - rewrite replace_match by done. by rewrite IH.
  - simpl. rewrite replace_skip; [by rewrite IH|done|]. apply (strip_tilde a (ch 48)). by apply Ascii.eqb_neq.
Qed.

Lemma segment_key_escape s : segment_key (pointer_escape s) = s.
Proof. unfold segment_key. by rewrite unescape_slash, unescape_tilde. Qed.

Lemma pointer_escape_clean s : contains_char SLASH (pointer_escape s) = false.
Proof.
  induction s as [|a s IH]; [done|]. cbn [pointer_escape]. rewrite contains_char_app, IH, orb_false_r.
  destruct (Ascii.eqb a (ch 126)); [done|]. destruct (Ascii.eqb a SLASH) eqn:E; [done|]. simpl. by rewrite E.
Qed.

Lemma pointer_escape_nonempty s : s <> "" -> pointer_escape s <> "".
Proof. destruct s; [done|]. simpl. by destruct (Ascii.eqb _ _); [|destruct (Ascii.eqb _ _)]. Qed.

Lemma trim_start_keep s : contains_char SLASH s = false -> s <> "" -> forall r, trim_start_char SLASH (s +:+ r) = s +:+ r.
Proof.
  intros Hc Hne r. destruct s as [|a s]; [done|]. simpl in *. apply orb_false_iff in Hc as [Ha _]. by rewrite Ha.
Qed.

Lemma trim_end_keep e s : contains_char SLASH e = false -> e <> "" -> trim_end_char SLASH (s +:+ e) = s +:+ e.
Proof.
  intros Hc Hne. assert (He : trim_end_char SLASH e = e).
  { clear s. unfold trim_end_char. revert Hne. induction e as [|a e IH]; [done|]. intros _. simpl in *.
    apply orb_false_iff in Hc as [Ha Hc]. rewrite Ha. destruct e as [|b e]; [done|]. by rewrite IH. }
  unfold trim_end_char in *. induction s as [|a s IH]; simpl; [done|]. rewrite IH. by destruct s; destruct e.
Qed.

Lemma trim_pointer keys :
  keys <> [] -> Forall (fun k => k <> "") keys ->
  trim_end_char SLASH (trim_start_char SLASH (pointer keys)) = join "/" (pointer_escape <$> keys) /\
  join "/" (pointer_escape <$> keys) <> "".
Proof.
  intros Hne Hk. unfold pointer. set (es := pointer_escape <$> keys).
  assert (He : Forall (fun e => contains_char SLASH e = false /\ e <> "") es).
  { apply Forall_fmap, (Forall_impl _ _ _ Hk). intros k Hk'. split; [apply pointer_escape_clean|by apply pointer_escape_nonempty]. }
  assert (Hes : es <> []) by (unfold es; by destruct keys).
  assert (Hstart : exists e r, join "/" es = e +:+ r /\ contains_char SLASH e = false /\ e <> "").
  { destruct He as [|e es' [Hc Hn] _]; [done|]. destruct es'; [exists e, ""; by rewrite app_empty_r|by eexists e, _]. }
  assert (Hend : exists e s, join "/" es = s +:+ e /\ contains_char SLASH e = false /\ e <> "").
  { clear Hstart. clearbody es. clear -He Hes. induction He as [|e es' [Hc Hn] He IH]; [done|].
    destruct es' as [|e' es']; [by exists e, ""|]. destruct IH as (e2 & s & E & Hc2 & Hn2); [done|].
    exists e2, (e +:+ "/" +:+ s). split; [|done]. change (e +:+ "/" +:+ join "/" (e' :: es') = (e +:+ "/" +:+ s) +:+ e2).
    rewrite E. by rewrite !app_assoc_s. }
  destruct Hstart as (e & r & Es & Hc & Hn). destruct Hend as (e2 & s & Ee & Hc2 & Hn2).
  change (trim_start_char SLASH ("/" +:+ join "/" es)) with (trim_start_char SLASH (join "/" es)).
  rewrite Es at 1. rewrite trim_start_keep by done. rewrite <- Es, Ee, trim_end_keep by done.
  split; [done|]. intros E0. destruct s; simpl in E0; congruence.
Qed.

(** A path resolves to the value its segments lead to: for any
    non-empty keys, also ones with slashes and tildes in them, the path of
    the escaped keys finds exactly the member reached key by key, and finds
    nothing when a key is missing. *)
Theorem lookup_pointer root keys :
  keys <> [] -> Forall (fun k => k <> "") keys -> lookup root (pointer keys) = descend root keys.
Proof.
  intros Hne Hk. unfold lookup. destruct (trim_pointer keys Hne Hk) as [-> Hj].
  destruct (str_is_empty (join "/" (pointer_escape <$> keys))) eqn:E; [by destruct (join _ _)|].
  change "/" with (String SLASH ""). rewrite split_join.
  - rewrite <- list_fmap_compose. f_equal. rewrite <- (list_fmap_id keys) at 2.
    apply list_fmap_ext. intros _ k _. apply segment_key_escape.
  - by destruct keys.
  - apply Forall_fmap, Forall_true. intros k. apply pointer_escape_clean.
Qed.

Lemma lookup_pointer_witness :
  lookup (Object [("a/b", Object [("tilde~key", Str "ok")])]) (pointer ["a/b"; "tilde~key"]) = Some (Str "ok").
Proof. refine (lookup_pointer _ ["a/b"; "tilde~key"] _ _); [done|by repeat constructor]. Defined.

(** ** A path leads along its segments *)

Lemma segments_start s : segments (trim_start_char SLASH s) = segments s.
Proof.
  induction s as [|a s IH]; [done|]. cbn [trim_start_char]. destruct (Ascii.eqb a SLASH) eqn:E; [|done].
  rewrite IH. unfold segments. cbn [split_char]. rewrite E. by rewrite filter_cons.
Qed.
Lemma segments_end s : segments (trim_end_char SLASH s) = segments s.
Proof.
  cut (match split_char SLASH s, split_char SLASH (trim_end_char SLASH s) with
       | h :: t, h' :: t' => h = h' /\ filter (fun x => str_is_empty x = false) t' = filter (fun x => str_is_empty x = false) t
       | _, _ => True end).
  { unfold segments. pose proof (split_char_nonempty SLASH s). pose proof (split_char_nonempty SLASH (trim_end_char SLASH s)).
    destruct (split_char SLASH s) as [|h t], (split_char SLASH (trim_end_char SLASH s)) as [|h' t']; try done.
    intros [-> Ht]. rewrite !filter_cons. by rewrite Ht. }
  unfold trim_end_char. induction s as [|a s IH]; [done|]. cbn [trim_end_by].
  destruct (split_cons a s) as (h & t & E & ->). rewrite E in IH. destruct (trim_end_by _ s) as [|b r] eqn:Et.
  - cbn in IH. destruct IH as [-> Ht]. cbn in Ht. destruct (Ascii.eqb a SLASH) eqn:Ea; cbn; [|by rewrite Ea]. split; [done|]. by rewrite decide_False by done.
  - destruct (split_cons a (String b r)) as (h' & t' & E' & ->). rewrite E' in IH. destruct IH as [-> Ht].
    destruct (Ascii.eqb a SLASH); [|done]. split; [done|]. rewrite !filter_cons. by rewrite Ht.
Qed.
Lemma segments_slash r : segments (r +:+ "/") = segments r.
Proof. rewrite <- segments_end, <- (segments_end r). unfold trim_end_char. by rewrite trim_end_snoc. Qed.
(** Without doubled slashes only the first and the last part can be empty. *)
Lemma clean_parts s : contains "//" s = false -> trim_end_char SLASH s = s ->
  Forall (fun x => str_is_empty x = false) (tail (split_char SLASH s)).
Proof.
  unfold trim_end_char. induction s as [|a s IH]; intros Hc Ht; [constructor|]. destruct s as [|b s].
  { cbn in *. destruct (Ascii.eqb a SLASH); [done|constructor]. }
  apply trim_end_tail in Ht; [|done]. destruct (split_cons a (String b s)) as (h & t & E & ->). rewrite E in IH. cbn [tail] in IH.
  assert (Hc' : contains "//" (String b s) = false) by (cbn in Hc |- *; by apply orb_false_iff in Hc as [_ Hc]).
  specialize (IH Hc' Ht). destruct (Ascii.eqb a SLASH) eqn:Ea; cbn [tail]; [|done]. constructor; [|done].
  apply Ascii.eqb_eq in Ea. subst a. destruct (Ascii.eqb b SLASH) eqn:Eb; [apply Ascii.eqb_eq in Eb; by subst b|].
  destruct (split_cons b s) as (h' & t' & _ & E'). rewrite Eb in E'. rewrite E' in E. by injection E as <- _.
Qed.
Lemma trim_start_contains s : contains "//" s = false -> contains "//" (trim_start_char SLASH s) = false.
Proof.
  induction s as [|a s IH]; [done|]. intros Hc. cbn [trim_start_char]. destruct (Ascii.eqb a SLASH); [|done].
  apply IH. cbn in Hc. by apply orb_false_iff in Hc as [_ Hc].
Qed.
Lemma trim_start_head s : match trim_start_char SLASH s with String a _ => Ascii.eqb a SLASH = false | "" => True end.
Proof. induction s as [|a s IH]; [done|]. cbn [trim_start_char]. by destruct (Ascii.eqb a SLASH) eqn:E. Qed.

(** A path without doubled slashes leads along its segments. *)
Lemma lookup_segments root p : contains "//" p = false -> lookup root p = descend root (segment_key <$> segments p).
Proof.
  intros Hc. unfold lookup. rewrite <- (segments_start p), <- segments_end. set (s := trim_start_char SLASH p).
  pose proof (trim_start_head p) as Hh. fold s in Hh. destruct (trim_end_prefix (fun a => Ascii.eqb a SLASH) s) as [r Hr].
  change (trim_end_by _ s) with (trim_end_char SLASH s) in Hr.
  assert (Hc' : contains "//" (trim_end_char SLASH s) = false) by (eapply contains_prefix; rewrite <- Hr; by apply trim_start_contains).
  pose proof (clean_parts _ Hc' (trim_end_idem _ s)) as Hp. destruct (trim_end_char SLASH s) as [|a q] eqn:E; [done|].
  cbn [str_is_empty]. f_equal. f_equal. unfold segments. symmetry.
  rewrite Hr in Hh. cbn in Hh. destruct (split_cons a q) as (h & t & _ & Hs). rewrite Hh in Hs. rewrite Hs in *. cbn [tail] in Hp.
  rewrite filter_cons_True by done. f_equal. clear Hs. by induction Hp; [|rewrite filter_cons_True by done; f_equal].
Qed.

(** ** Listings *)

#[export] Instance str_le_total : Total str_le.
Proof.
  intros a b. unfold str_le. destruct (str_ltb b a) eqn:E; [right; by apply str_ltb_asym|by left].
Qed.

(** The listing of an object names each of its members once, in byte
    order, objects with a trailing slash. *)
Theorem listing_sorted m :
  exists l, format_imds (Object m) = join nl l /\ l ≡ₚ imds_keys m /\ Sorted str_le l /\
    length l = length m.
Proof.
  exists (merge_sort str_le (imds_keys m)). split_and!; [done|apply merge_sort_Permutation|by apply Sorted_merge_sort; apply _|].
  rewrite (Permutation_length (merge_sort_Permutation _ _)). apply length_fmap.
Qed.

(** ** Requests as a guest sends them *)

Definition graphic (a : Ascii.ascii) : bool := (33 <=? byte_of a) && (byte_of a <=? 126).

(** The lines of a request for a path, with any headers. *)
Definition request_lines (p : string) (headers : list string) : list string :=
  ("GET " +:+ p +:+ " HTTP/1.1") :: headers ++ [""].
Definition get_request (p : string) (headers : list string) : string :=
  unlines ((fun l => l +:+ String CR "") <$> request_lines p headers).

(** A header is one line of printable characters. *)
Definition printable (a : Ascii.ascii) : bool := (32 <=? byte_of a) && (byte_of a <=? 126).
Definition header_line (h : string) : bool := negb (str_is_empty h) && str_forall printable h.
Definition accepts_header (h : string) : bool :=
  starts_with "accept:" (to_ascii_lowercase h) && contains "application/json" (to_ascii_lowercase h).

Lemma strip_cr_line s : strip_cr (s +:+ String CR "") = s.
Proof.
  induction s as [|a s IH]; [done|]. simpl in *. rewrite IH. by destruct s.
Qed.

Lemma graphic_no_lead a : graphic a = true -> ws_lead a = false.
Proof.
  intros Ha. destruct (ws_lead a) eqn:E; [|done]. exfalso. unfold ws_lead in E.
  apply existsb_exists in E as (p & Hp & E). destruct p as [|b p]; [done|]. apply Ascii.eqb_eq in E. subst b.
  simpl in Hp. by repeat (destruct Hp as [Hp|Hp]; [injection Hp as <- _; vm_compute in Ha|]).
Qed.

Lemma split_ws_word n w word s :
  str_forall graphic w = true -> (String.length w <= n)%nat ->
  split_ws n word (w +:+ s) = split_ws (n - String.length w) (word +:+ w) s.
Proof.
  revert n word. induction w as [|a w IH]; intros n word Hw Hn; simpl.
  - by rewrite app_empty_r, Nat.sub_0_r.
  - cbn [str_forall] in Hw. apply andb_true_iff in Hw as [Ha Hw]. destruct n as [|n]; [simpl in Hn; lia|].
    cbn [split_ws]. rewrite (strip_any_lead a _ _ (graphic_no_lead a Ha) white_space_nonempty).
    rewrite IH; [|done|simpl in Hn; lia]. simpl. by rewrite app_assoc_s.
Qed.

Lemma split_ws_space n word s : split_ws (S n) word (String (ch 32) s) =
  (if str_is_empty word then [] else [word]) ++ split_ws n "" s.
Proof. reflexivity. Qed.

Lemma split_request_line p :
  str_forall graphic p = true -> p <> "" ->
  split_whitespace ("GET " +:+ p +:+ " HTTP/1.1") = ["GET"; p; "HTTP/1.1"].
Proof.
  intros Hp Hne. unfold split_whitespace.
  change ("GET " +:+ p +:+ " HTTP/1.1") with ("GET" +:+ String (ch 32) (p +:+ String (ch 32) "HTTP/1.1")).
  rewrite split_ws_word by (done || rewrite length_app_s; lia). rewrite length_app_s. simpl String.length.
  replace (S (3 + S (String.length (p +:+ String (ch 32) "HTTP/1.1"))) - 3)%nat
    with (S (S (String.length (p +:+ String (ch 32) "HTTP/1.1")))) by lia.
  rewrite split_ws_space, length_app_s.
  rewrite (split_ws_word (S (String.length p + _)) p) by (done || lia).
  replace (S (String.length p + String.length (String (ch 32) "HTTP/1.1")) - String.length p)%nat
    with 10%nat by (simpl String.length; lia).
  rewrite split_ws_space. by destruct p.
Qed.

Lemma graphic_ascii a : graphic a = true -> (byte_of a <? 128) = true /\ negb (Ascii.eqb a NL) = true.
Proof.
  unfold graphic. rewrite andb_true_iff, !Z.leb_le. intros Ha. split; [apply Z.ltb_lt; lia|].
  destruct (Ascii.eqb_spec a NL) as [->|]; [|done]. by destruct Ha as [[] _].
Qed.

Lemma printable_ascii a : printable a = true ->
  (byte_of a <? 128) = true /\ Ascii.eqb a NL = false /\ Ascii.eqb a CR = false.
Proof.
  unfold printable. rewrite andb_true_iff, !Z.leb_le. intros Ha. split; [apply Z.ltb_lt; lia|].
  split; match goal with |- Ascii.eqb a ?c = false => destruct (Ascii.eqb_spec a c) as [->|]; [|done]; by destruct Ha as [[] _] end.
Qed.
Lemma graphic_printable a : graphic a = true -> printable a = true.
Proof. unfold graphic, printable. rewrite !andb_true_iff, !Z.leb_le. lia. Qed.
Lemma request_line_printable p : str_forall graphic p = true -> str_forall printable ("GET " +:+ p +:+ " HTTP/1.1") = true.
Proof. intros Hp. rewrite !str_forall_app, (str_forall_impl _ _ p graphic_printable Hp). reflexivity. Qed.

(** Every line of a request is printable, so it is ASCII and one line. *)
Lemma request_lines_printable p hs : str_forall graphic p = true -> forallb header_line hs = true ->
  Forall (fun l => str_forall printable l = true) (request_lines p hs).
Proof.
  intros Hp Hh. constructor; [by apply request_line_printable|]. apply Forall_app. split; [|by repeat constructor].
  apply Forall_forall. intros h Hi%list_elem_of_In. pose proof (proj1 (forallb_forall _ _) Hh h Hi) as He. by apply andb_true_iff in He as [_ He].
Qed.
Lemma printable_no_nl l : str_forall printable l = true -> contains_char NL l = false /\ contains_char CR l = false.
Proof. intros Hl. split; by apply (contains_char_forall _ printable). Qed.
Lemma unlines_ascii ls : Forall (fun l => str_forall printable l = true) ls ->
  str_forall (fun a => byte_of a <? 128) (unlines ((fun l => l +:+ String CR "") <$> ls)) = true.
Proof.
  induction 1 as [|l ls Hl _ IH]; [done|]. cbn [fmap list_fmap unlines]. rewrite !str_forall_app.
  rewrite (str_forall_impl printable _ l) by (done || by intros a Ha; apply printable_ascii). cbn [str_forall andb]. by rewrite IH.
Qed.
Lemma with_cr_no_nl ls : Forall (fun l => str_forall printable l = true) ls ->
  Forall (fun l => contains_char NL l = false) ((fun l => l +:+ String CR "") <$> ls).
Proof.
  intros Hl. apply Forall_fmap. eapply Forall_impl; [exact Hl|]. intros l Hp. cbn. by rewrite contains_char_app, (proj1 (printable_no_nl l Hp)).
Qed.

Lemma get_request_text p hs :
  str_forall graphic p = true -> forallb header_line hs = true ->
  from_utf8_lossy (get_request p hs) = get_request p hs /\ lines (get_request p hs) = request_lines p hs.
Proof.
  intros Hp Hh. pose proof (request_lines_printable p hs Hp Hh) as Hl. split.
  - apply lossy_valid, ascii_valid. by apply unlines_ascii.
  - unfold get_request. rewrite lines_unlines by by apply with_cr_no_nl.
    rewrite <- list_fmap_compose. rewrite <- (list_fmap_id (request_lines p hs)) at 2.
    apply list_fmap_ext. intros _ l _. apply strip_cr_line.
Qed.

Lemma accepts_json_get p hs : str_forall graphic p = true -> forallb header_line hs = true ->
  accepts_json (get_request p hs) = existsb accepts_header hs.
Proof.
  intros Hp Hh. unfold accepts_json. rewrite (proj2 (get_request_text p hs Hp Hh)). unfold request_lines.
  cbn [existsb]. rewrite existsb_app. cbn [existsb]. by rewrite orb_false_r.
Qed.

(** What a GET is answered with: the value at its path, as the client accepts it. *)
Lemma render_get `{Serde} t hs root :
  str_forall graphic t = true -> t <> "" -> forallb header_line hs = true ->
  render_raw_http (get_request t hs) root = http_response (answer_for "GET" (sanitize_path t) (existsb accepts_header hs) root).
Proof.
  intros Hg Hne Hh. unfold render_raw_http. destruct (get_request_text t hs Hg Hh) as [-> Hl]. rewrite accepts_json_get, Hl by done.
  replace (default "" (head (request_lines t hs))) with ("GET " +:+ t +:+ " HTTP/1.1") by reflexivity.
  by rewrite split_request_line.
Qed.

(** A path as guests write them: visible characters, no query, no doubled
    slash. *)
Definition plain_path (p : string) : Prop :=
  p <> "" /\ str_forall graphic p = true /\ contains_char (ch 63) p = false /\ contains "//" p = false.

Lemma plain_sanitized p : plain_path p -> sanitize_path p = p.
Proof.
  intros (Hne & _ & Hq & Hs). unfold sanitize_path, before_query.
  rewrite (proj2 (split_once_none _ _) Hq). destruct p as [|a p]; [done|].
  cbn [str_is_empty String.length collapse]. by rewrite Hs.
Qed.

(** A guest's GET for a path, as any HTTP client sends it, is answered
    with the value at that path: a string as its text, an object as its
    listing, anything else, or everything when the client accepts JSON, as
    JSON; and with 404 when there is nothing at the path.  The length
    announced is the length of the body. *)
Theorem mmds_get `{Serde} p hs root :
  plain_path p -> forallb header_line hs = true ->
  render_raw_http (get_request p hs) root = http_response (answer_for "GET" p (existsb accepts_header hs) root).
Proof. intros Hp Hh. pose proof Hp as (Hne & Hg & _ & _). by rewrite render_get, plain_sanitized. Qed.

Lemma mmds_get_witness :
  @render_raw_http {| json_to_vec := fun _ => Err ""; json_display := fun _ => "" |}
    (get_request "/latest/role" ["Host: 169.254.169.254"]) (Object [("latest", Object [("role", Str "db")])]) =
  http_response (200, "text/plain", "db").
Proof.
  rewrite (@mmds_get _ "/latest/role" ["Host: 169.254.169.254"]); [reflexivity| |reflexivity]. repeat split; try done.
Defined.

(** ** The size of a response *)

Abbreviation slen := String.length.

Lemma lossy_length s : (slen (from_utf8_lossy s) <= 3 * slen s)%nat.
Proof.
  unfold from_utf8_lossy. generalize (slen s) at 1 as n. intros n. revert s.
  induction n as [|n IH]; intros [|a s]; cbn [lossy_fuel]; [simpl; lia..|].
  destruct (utf8_step a s) as [[t ok] r] eqn:E. apply utf8_step_app in E. subst s.
  specialize (IH r). rewrite length_app_s. cbn [String.length]. rewrite length_app_s.
  destruct ok; cbn [String.length]; [lia|]. change (slen replacement) with 3%nat. lia.
Qed.

Lemma split_char_length c s : Forall (fun w => slen w <= slen s)%nat (split_char c s).
Proof.
  induction s as [|a s IH]; simpl; [by repeat constructor|]. destruct (Ascii.eqb a c).
  - constructor; [simpl; lia|]. eapply Forall_impl; [exact IH|]. simpl. lia.
  - destruct (split_char c s) as [|h t]; [by apply Forall_singleton; simpl; lia|].
    apply Forall_cons in IH as [Hh Ht]. apply Forall_cons. split; [simpl; lia|]. eapply Forall_impl; [exact Ht|]. simpl. lia.
Qed.

Lemma strip_cr_length s : (slen (strip_cr s) <= slen s)%nat.
Proof. induction s as [|a [|b s] IH]; simpl in *; [done|by destruct (Ascii.eqb a CR); simpl; lia|lia]. Qed.

Lemma lines_length s : Forall (fun w => slen w <= slen s)%nat (lines s).
Proof.
  unfold lines. induction (split_char_length NL s) as [|p ps Hp Hps IH]; cbn [lines_of]; [done|].
  destruct ps as [|p' ps]; [destruct (str_is_empty p); by repeat constructor|].
  constructor; [|done]. pose proof (strip_cr_length p). lia.
Qed.

Lemma split_ws_length n word s : Forall (fun w => slen w <= slen word + slen s)%nat (split_ws n word s).
Proof.
  assert (Hflush : forall word s, Forall (fun w => slen w <= slen word + slen s)%nat (if str_is_empty word then [] else [word])).
  { intros word' s'. destruct (str_is_empty word'); repeat constructor. lia. }
  revert word s. induction n as [|n IH]; intros word [|a s]; cbn [split_ws]; [apply Hflush..|].
  destruct (strip_any white_space (String a s)) as [r|] eqn:E.
  - apply strip_any_suffix in E as (p & _ & Hp). apply Forall_app_2; [apply Hflush|].
    eapply Forall_impl; [apply IH|]. intros w. rewrite Hp, length_app_s. simpl. lia.
  - eapply Forall_impl; [apply IH|]. intros w. rewrite length_app_s. simpl. lia.
Qed.

Lemma split_once_length c s l r : split_once c s = Some (l, r) -> (slen l <= slen s)%nat.
Proof.
  revert l. induction s as [|a s IH]; intros l; simpl; [done|]. destruct (Ascii.eqb a c); [intros [= <- _]; simpl; lia|].
  destruct (split_once c s) as [[l' r']|]; [|done]. intros [= <- <-]. specialize (IH l' eq_refl). simpl. lia.
Qed.

Lemma sanitize_path_length p : (slen (sanitize_path p) <= S (slen p))%nat.
Proof.
  unfold sanitize_path. fold (before_query p). set (raw := before_query p).
  assert (Hraw : (slen raw <= slen p)%nat).
  { unfold raw, before_query. destruct (split_once (ch 63) p) as [[l r]|] eqn:E; [|done].
    by apply split_once_length in E. }
  apply (collapse_keeps (fun s => slen s <= S (slen p))%nat).
  - intros s Hs. pose proof (proj1 (replace_slashes_length s)). lia.
  - destruct raw; simpl in *; lia.
Qed.

Section Size.
Context `{Serde}.

(** A document each of whose values is rendered in less than 2 GiB. *)
Definition modest (root : Value) : Prop :=
  forall path json v, lookup root path = Some v -> len (snd (answer_for "GET" path json root)) <= 2 ^ 31.

Lemma http_response_length st ct body :
  len ct <= 20 -> len body < 2 ^ 32 - 1000 -> 0 <= st < 1000 ->
  0 < len (http_response (st, ct, body)) <= u32_max.
Proof.
  intros Hct Hb Hst. unfold http_response, len, u32_max in *. rewrite !length_app_s.
  pose proof (to_dec_length st) as H1. pose proof (to_dec_length (Z.of_nat (slen body))) as H2.
  assert (H3 : Z.log2 st <= Z.log2 1000) by (apply Z.log2_le_mono; lia). change (Z.log2 1000) with 9 in H3.
  assert (H4 : Z.log2 (Z.of_nat (slen body)) <= Z.log2 (2 ^ 32)) by (apply Z.log2_le_mono; lia).
  change (Z.log2 (2 ^ 32)) with 32 in H4.
  assert (H5 : (slen (reason st) <= 20)%nat) by (unfold reason; repeat case_match; simpl; lia).
  change (slen crlf) with 2%nat. change (slen "HTTP/1.1 ") with 9%nat. change (slen " ") with 1%nat.
  change (slen "Content-Type: ") with 14%nat. change (slen "Content-Length: ") with 16%nat.
  change (slen "Connection: close") with 17%nat. lia.
Qed.

Lemma answer_for_small method path json root :
  modest root -> len path <= 2 ^ 20 ->
  let '(st, ct, body) := answer_for method path json root in
  len ct <= 20 /\ len body < 2 ^ 32 - 1000 /\ 0 <= st < 1000.
Proof.
  intros Hm Hp. specialize (Hm path json). unfold answer_for in *. change (String.eqb "GET" "GET") with true in Hm. cbn [negb] in Hm.
  destruct (String.eqb method "GET"); cbn [negb]; [|unfold len; simpl; lia].
  destruct (lookup root path) as [v|]; [specialize (Hm v eq_refl)|].
  - destruct json; [|destruct v]; cbn [snd] in Hm; (split_and!; [by vm_compute|lia|lia..]).
  - unfold len in *. rewrite length_app_s. simpl. lia.
Qed.

Lemma default_length (d : string) (l : list string) (n : nat) :
  (slen d <= n)%nat -> Forall (fun w => slen w <= n)%nat l -> (slen (default d (head l)) <= n)%nat.
Proof. intros Hd Hl. by destruct Hl. Qed.

(** The response to a request the service accepts fits the sequence space. *)
Lemma render_raw_http_length request root :
  modest root -> len request <= 65536 -> 0 < len (render_raw_http request root) <= u32_max.
Proof.
  intros Hm Hr. unfold render_raw_http. set (text := from_utf8_lossy request).
  set (first := default "" (head (lines text))). set (path := sanitize_path _). set (method := default "" (head (split_whitespace first))).
  assert (Hp : len path <= 2 ^ 20).
  { assert (Ht : (slen text <= 3 * slen request)%nat) by apply lossy_length.
    assert (Hf : (slen first <= slen text)%nat) by (apply default_length; [simpl; lia|apply lines_length]).
    pose proof (split_ws_length (S (slen first)) "" first) as Hw. fold (split_whitespace first) in Hw. simpl in Hw.
    pose proof (sanitize_path_length (default "/" (head (tail (split_whitespace first))))) as Hs. fold path in Hs.
    assert (slen (default "/" (head (tail (split_whitespace first)))) <= S (slen first))%nat.
    { apply default_length; [simpl; lia|]. eapply Forall_impl; [|intros w Hw'; exact (Nat.le_le_succ_r _ _ Hw')].
      destruct Hw; [done|done]. }
    unfold len in *. lia. }
  pose proof (answer_for_small method path (accepts_json text) root Hm Hp) as Ha.
  destruct (answer_for method path _ root) as [[st ct] body]. apply http_response_length; apply Ha.
Qed.
End Size.
