(* ===== verification/Packet.v ===== *)
(** * The metadata service's packets (hephaestus-firecracker/src/host_mmds.rs)

    The responder on the guest's network: it answers ARP for the metadata
    address and speaks the part of TCP a GET needs, on raw Ethernet frames.
    Frames are lists of bytes.  Indexing and slicing out of range, and a
    failed [expect], are [None]: the theorems show that no frame a guest can
    send leads there. *)

From S2P Require Import Prelude RustStr Json Backend BackendState HostMmds.
Local Open Scope string_scope.
Local Open Scope Z_scope.
Local Open Scope list_scope.

Definition MMDS_LINK_LOCAL_ADDR : list Z := [169; 254; 169; 254].
Definition MMDS_LINK_LOCAL_PORT : Z := 80.
Definition SERVICE_MAC : list Z := [2; 72; 80; 77; 68; 83].
Definition ETHERTYPE_IPV4 : Z := 2048.
Definition ETHERTYPE_ARP : Z := 2054.
Definition TCP_FLAG_FIN : Z := 1.
Definition TCP_FLAG_SYN : Z := 2.
Definition TCP_FLAG_PSH : Z := 8.
Definition TCP_FLAG_ACK : Z := 16.
Definition MAX_TCP_PAYLOAD : nat := 1200.
Definition MAX_CONNECTIONS : nat := 1024.
Definition MAX_REQUEST : Z := 65536.
Definition IDLE_NANOS : Z := 30 * 1000000000.

(** ** Bytes *)

(** [&l[a..b]] and [l[a..b].copy_from_slice(src)]. *)
Definition slice (a b : nat) (l : list Z) : option (list Z) :=
  if (a <=? b)%nat && (b <=? length l)%nat then Some (take (b - a) (drop a l)) else None.
Definition put (a b : nat) (src l : list Z) : option (list Z) :=
  if (a <=? b)%nat && (b <=? length l)%nat && (length src =? b - a)%nat
  then Some (take a l ++ src ++ drop b l) else None.
(** [l[i] = v]. *)
Definition set_byte (i : nat) (v : Z) (l : list Z) : option (list Z) := put i (i + 1) [v] l.

Definition be16 (v : Z) : list Z := [v / 256; v mod 256].
Definition be32 (v : Z) : list Z := [v / 16777216; v / 65536 mod 256; v / 256 mod 256; v mod 256].

Definition read_u16 (l : list Z) (i : nat) : option Z :=
  match l !! i, l !! (i + 1)%nat with
  | Some a, Some b => Some (a * 256 + b)
  | _, _ => None
  end.
Definition read_u32 (l : list Z) (i : nat) : option Z :=
  match l !! i, l !! (i + 1)%nat, l !! (i + 2)%nat, l !! (i + 3)%nat with
  | Some a, Some b, Some c, Some d => Some (a * 16777216 + b * 65536 + c * 256 + d)
  | _, _, _, _ => None
  end.
Definition write_u16 (i : nat) (v : Z) (l : list Z) : option (list Z) := put i (i + 2) (be16 v) l.
Definition write_u32 (i : nat) (v : Z) (l : list Z) : option (list Z) := put i (i + 4) (be32 v) l.

Definition len_u16 (n : nat) : option Z := if Z.of_nat n <=? u16_max then Some (Z.of_nat n) else None.
Definition len_u32 (n : nat) : option Z := if Z.of_nat n <=? u32_max then Some (Z.of_nat n) else None.

(** ** The Internet checksum *)

(** The loop over [chunks(2)], on an accumulator of 32 bits. *)
Fixpoint sum_words (sum : Z) (l : list Z) : Z :=
  match l with
  | a :: b :: l' => sum_words (wrap 32 (sum + (a * 256 + b))) l'
  | [a] => wrap 32 (sum + a * 256)
  | [] => sum
  end.
(** [while sum >> 16 != 0]: of a 32-bit sum two rounds leave 16 bits. *)
Fixpoint fold_carry (n : nat) (sum : Z) : Z :=
  match n with
  | O => sum
  | S n' => if Z.shiftr sum 16 =? 0 then sum
            else fold_carry n' (Z.land sum 65535 + Z.shiftr sum 16)
  end.
Definition checksum (l : list Z) : option Z :=
  let sum := fold_carry 2 (sum_words 0 l) in
  if sum <=? u16_max then Some (u16_max - sum) else None.

(** ** Connections *)

(** [ClientKey]: the hardware address, the address and the port. *)
Definition ClientKey : Type := list Z * list Z * Z.
Definition k_mac (k : ClientKey) : list Z := fst (fst k).
Definition k_ip (k : ClientKey) : list Z := snd (fst k).
Definition k_port (k : ClientKey) : Z := snd k.

Record Connection := {
  client_next : Z; server_first : Z; request : list Z; response : option (list Z); last_seen : Z }.

Record PacketResponder := { shared : RwLock Value; connections : gmap ClientKey Connection }.

(** The clocks one call reads: the monotonic clock when each connection is
    checked for age and when the packet is noted, and the nanoseconds of the
    wall clock. *)
Record Clocks := { at_check : ClientKey -> Z; at_seen : Z; subsec_nanos : Z }.

Definition initial_sequence (c : Clocks) (key : ClientKey) : Z :=
  let ip := match k_ip key with
            | [a; b; c; d] => a * 16777216 + b * 65536 + c * 256 + d
            | _ => 0
            end in
  Z.lxor (Z.lxor (subsec_nanos c) ip) (k_port key).

Definition build_tcp_frame (key : ClientKey) (seq ack flags : Z) (payload : list Z) : option (list Z) :=
  let ip_len := (20 + 20 + length payload)%nat in
  let frame := replicate (14 + ip_len) 0 in
  frame ← put 0 6 (k_mac key) frame;
  frame ← put 6 12 SERVICE_MAC frame;
  frame ← write_u16 12 ETHERTYPE_IPV4 frame;
  frame ← set_byte 14 69 frame;
  total ← len_u16 ip_len;
  frame ← write_u16 16 total frame;
  frame ← write_u16 20 16384 frame;
  frame ← set_byte 22 64 frame;
  frame ← set_byte 23 6 frame;
  frame ← put 26 30 MMDS_LINK_LOCAL_ADDR frame;
  frame ← put 30 34 (k_ip key) frame;
  header ← slice 14 34 frame;
  ip_checksum ← checksum header;
  frame ← write_u16 24 ip_checksum frame;
  frame ← write_u16 34 MMDS_LINK_LOCAL_PORT frame;
  frame ← write_u16 36 (k_port key) frame;
  frame ← write_u32 38 seq frame;
  frame ← write_u32 42 ack frame;
  frame ← set_byte 46 80 frame;
  frame ← set_byte 47 flags frame;
  frame ← write_u16 48 64240 frame;
  frame ← put 54 (length frame) payload frame;
  tcp_len ← len_u16 (20 + length payload);
  segment ← slice 34 (length frame) frame;
  let pseudo := MMDS_LINK_LOCAL_ADDR ++ k_ip key ++ [0; 6] ++ be16 tcp_len ++ segment in
  tcp_checksum ← checksum pseudo;
  write_u16 50 tcp_checksum frame.

(** [response.chunks(MAX_TCP_PAYLOAD)]. *)
Fixpoint chunks_fuel (n : nat) (size : nat) (l : list Z) : list (list Z) :=
  match n with
  | O => []
  | S n' => match l with [] => [] | _ => take size l :: chunks_fuel n' size (drop size l) end
  end.
Definition chunks (size : nat) (l : list Z) : list (list Z) := chunks_fuel (length l) size l.

Fixpoint frames_of (key : ClientKey) (seq ack : Z) (cs : list (list Z)) : option (list (list Z)) :=
  match cs with
  | [] => Some []
  | chunk :: rest =>
      let flags := Z.lor (Z.lor TCP_FLAG_ACK TCP_FLAG_PSH) (match rest with [] => TCP_FLAG_FIN | _ => 0 end) in
      frame ← build_tcp_frame key seq ack flags chunk;
      n ← len_u32 (length chunk);
      frames ← frames_of key (wrap 32 (seq + n)) ack rest;
      Some (frame :: frames)
  end.
Definition response_frames (key : ClientKey) (first_seq ack : Z) (resp : list Z) : option (list (list Z)) :=
  frames_of key first_seq ack (chunks MAX_TCP_PAYLOAD resp).

(** ** ARP *)

Definition process_arp (frame : list Z) : option (option (list Z)) :=
  if (length frame <? 42)%nat then Some None
  else if negb (bool_decide (read_u16 frame 14 = Some 1)) then Some None
  else if negb (bool_decide (read_u16 frame 16 = Some ETHERTYPE_IPV4)) then Some None else
  hlen ← frame !! 18%nat;
  if negb (hlen =? 6) then Some None else
  plen ← frame !! 19%nat;
  if negb (plen =? 4) then Some None
  else if negb (bool_decide (read_u16 frame 20 = Some 1)) then Some None else
  target ← slice 38 42 frame;
  if negb (bool_decide (target = MMDS_LINK_LOCAL_ADDR)) then Some None else
  client_mac ← slice 22 28 frame;
  client_ip ← slice 28 32 frame;
  let reply := replicate 42 0 in
  reply ← put 0 6 client_mac reply;
  reply ← put 6 12 SERVICE_MAC reply;
  reply ← write_u16 12 ETHERTYPE_ARP reply;
  reply ← write_u16 14 1 reply;
  reply ← write_u16 16 ETHERTYPE_IPV4 reply;
  reply ← set_byte 18 6 reply;
  reply ← set_byte 19 4 reply;
  reply ← write_u16 20 2 reply;
  reply ← put 22 28 SERVICE_MAC reply;
  reply ← put 28 32 MMDS_LINK_LOCAL_ADDR reply;
  reply ← put 32 38 client_mac reply;
  reply ← put 38 42 client_ip reply;
  Some (Some reply).

(** ** TCP *)

(** What [process_ipv4] reads of a frame addressed to the service. *)
Record Segment := { seg_key : ClientKey; seg_seq : Z; seg_flags : Z; seg_payload : list Z }.

Definition parse_segment (frame : list Z) : option (option Segment) :=
  if (length frame <? 54)%nat then Some None else
  version ← frame !! 14%nat;
  if negb (Z.shiftr version 4 =? 4) then Some None else
  protocol ← frame !! 23%nat;
  if negb (protocol =? 6) then Some None else
  let ip_header_len := (Z.to_nat (Z.land version 15) * 4)%nat in
  if (ip_header_len <? 20)%nat || (length frame <? 14 + ip_header_len + 20)%nat then Some None else
  let total_len := Z.to_nat (default 0 (read_u16 frame 16)) in
  if (total_len <? ip_header_len + 20)%nat || (length frame <? 14 + total_len)%nat then Some None else
  client_ip ← slice 26 30 frame;
  dst ← slice 30 34 frame;
  if negb (bool_decide (dst = MMDS_LINK_LOCAL_ADDR)) then Some None else
  let tcp := (14 + ip_header_len)%nat in
  let client_port := default 0 (read_u16 frame tcp) in
  if negb (bool_decide (read_u16 frame (tcp + 2) = Some MMDS_LINK_LOCAL_PORT)) then Some None else
  offset ← frame !! (tcp + 12)%nat;
  let tcp_header_len := (Z.to_nat (Z.shiftr offset 4) * 4)%nat in
  if (tcp_header_len <? 20)%nat || (14 + total_len <? tcp + tcp_header_len)%nat then Some None else
  let seq := default 0 (read_u32 frame (tcp + 4)) in
  flags ← frame !! (tcp + 13)%nat;
  payload ← slice (tcp + tcp_header_len) (14 + total_len) frame;
  mac ← slice 6 12 frame;
  Some (Some {| seg_key := (mac, client_ip, client_port); seg_seq := seq; seg_flags := flags;
                seg_payload := payload |}).

Definition has_flag (flags f : Z) : bool := negb (Z.land flags f =? 0).

Fixpoint has_blank_line (l : list Z) : bool :=
  match l with
  | a :: (b :: c :: d :: _) as l' =>
      (a =? 13) && (b =? 10) && (c =? 13) && (d =? 10) || has_blank_line l'
  | _ => false
  end.

Definition with_connections (m : gmap ClientKey Connection) (r : PacketResponder) : PacketResponder :=
  {| shared := shared r; connections := m |}.
Definition store (key : ClientKey) (c : Connection) (r : PacketResponder) : PacketResponder :=
  with_connections (<[key := c]> (connections r)) r.

(** [elapsed() < Duration::from_secs(30)]. *)
Definition fresh (clk : Clocks) (e : ClientKey * Connection) : Prop :=
  Z.max 0 (at_check clk (fst e) - last_seen (snd e)) < IDLE_NANOS.
#[export] Instance fresh_dec clk e : Decision (fresh clk e).
Proof. unfold fresh. apply _. Defined.

Definition string_of_bytes (l : list Z) : string :=
  String.string_of_list_ascii ((fun b => ch (Z.to_nat b)) <$> l).

Definition document (l : RwLock Value) : Value := if poisoned l then Null else cell l.

Section Responder.
Context `{Serde}.

Definition render (l : list Z) (doc : Value) : list Z := bytes (render_raw_http (string_of_bytes l) doc).

(** A connection request: the handshake's second half. *)
Definition on_syn (clk : Clocks) (s : Segment) (r : PacketResponder) : option (list (list Z) * PacketResponder) :=
  let key := seg_key s in
  if negb (bool_decide (is_Some (connections r !! key))) && (MAX_CONNECTIONS <=? size (connections r))%nat
  then Some ([], r) else
  let first := initial_sequence clk key in
  let next := wrap 32 (seg_seq s + 1) in
  let r := store key {| client_next := next; server_first := first; request := []; response := None;
                        last_seen := at_seen clk |} r in
  frame ← build_tcp_frame key first next (Z.lor TCP_FLAG_SYN TCP_FLAG_ACK) [];
  Some ([frame], r).

(** What a connection takes of a segment: data in order, up to the limit,
    and the end of the stream.  [None] inside is the limit. *)
Definition accept (s : Segment) (c : Connection) : option (option Connection) :=
  let payload := seg_payload s in
  c ← (if negb (bool_decide (payload = [])) && (seg_seq s =? client_next c) then
         if MAX_REQUEST <? Z.of_nat (length (request c)) + Z.of_nat (length payload) then Some None
         else n ← len_u32 (length payload);
              Some (Some {| client_next := wrap 32 (client_next c + n); server_first := server_first c;
                            request := request c ++ payload; response := response c; last_seen := last_seen c |})
       else Some (Some c));
  match c with
  | None => Some None
  | Some c =>
      if has_flag (seg_flags s) TCP_FLAG_FIN then
        n ← len_u32 (length payload);
        Some (Some (if wrap 32 (seg_seq s + n) =? client_next c
                    then {| client_next := wrap 32 (client_next c + 1); server_first := server_first c;
                            request := request c; response := response c; last_seen := last_seen c |}
                    else c))
      else Some (Some c)
  end.

(** What the service sends for the connection as it is then. *)
Definition reply (s : Segment) (c : Connection) (doc : Value) : option (list (list Z) * Connection) :=
  let key := seg_key s in
  let first := wrap 32 (server_first c + 1) in
  match response c with
  | Some resp =>
      if negb (bool_decide (seg_payload s = [])) then
        frames ← response_frames key first (client_next c) resp; Some (frames, c)
      else if has_flag (seg_flags s) TCP_FLAG_FIN then
        n ← len_u32 (length resp);
        frame ← build_tcp_frame key (wrap 32 (wrap 32 (first + n) + 1)) (client_next c) TCP_FLAG_ACK [];
        Some ([frame], c)
      else Some ([], c)
  | None =>
      if has_blank_line (request c) then
        let resp := render (request c) doc in
        frames ← response_frames key first (client_next c) resp;
        Some (frames, {| client_next := client_next c; server_first := server_first c; request := request c;
                         response := Some resp; last_seen := last_seen c |})
      else
        frame ← build_tcp_frame key first (client_next c) TCP_FLAG_ACK [];
        Some ([frame], c)
  end.

Definition seen (now : Z) (c : Connection) : Connection :=
  {| client_next := client_next c; server_first := server_first c; request := request c;
     response := response c; last_seen := now |}.

Definition on_segment (clk : Clocks) (s : Segment) (r : PacketResponder) : option (list (list Z) * PacketResponder) :=
  let key := seg_key s in
  let r := with_connections (filter (fresh clk) (connections r)) r in
  if has_flag (seg_flags s) TCP_FLAG_SYN then on_syn clk s r else
  match connections r !! key with
  | None => Some ([], r)
  | Some c =>
      let c := seen (at_seen clk) c in
      accepted ← accept s c;
      match accepted with
      | None => Some ([], store key c r)
      | Some c =>
          '(frames, c) ← reply s c (document (shared r));
          Some (frames, store key c r)
      end
  end.

Definition process_ipv4 (clk : Clocks) (frame : list Z) (r : PacketResponder) : option (list (list Z) * PacketResponder) :=
  seg ← parse_segment frame;
  match seg with
  | None => Some ([], r)
  | Some s => on_segment clk s r
  end.

Definition process (clk : Clocks) (frame : list Z) (r : PacketResponder) : option (list (list Z) * PacketResponder) :=
  if (length frame <? 14)%nat then Some ([], r)
  else if bool_decide (read_u16 frame 12 = Some ETHERTYPE_ARP) then
    reply ← process_arp frame;
    Some (option_list reply, r)
  else if bool_decide (read_u16 frame 12 = Some ETHERTYPE_IPV4) then process_ipv4 clk frame r
  else Some ([], r).
End Responder.

(** ** Bytes and words *)

(** [lia] with division and remainder by constants. *)
Ltac div_lia := Z.to_euclidean_division_equations; lia.

Definition byte (b : Z) : Prop := 0 <= b < 256.
Abbreviation bytes_ok := (Forall byte).
Abbreviation zlen l := (Z.of_nat (length l)).

Lemma be16_word v : 0 <= v <= u16_max -> bytes_ok (be16 v) /\ v / 256 * 256 + v mod 256 = v.
Proof.
  unfold u16_max, be16, byte. intros Hv. split; [|div_lia]. repeat constructor; div_lia.
Qed.

Lemma be32_word v :
  u32_range v -> bytes_ok (be32 v) /\
  v / 16777216 * 16777216 + v / 65536 mod 256 * 65536 + v / 256 mod 256 * 256 + v mod 256 = v.
Proof.
  unfold u32_range, u32_max, be32, byte. intros Hv. split; [|div_lia]. repeat constructor; div_lia.
Qed.

(** The sum of the words, without a width. *)
Fixpoint word_sum (l : list Z) : Z :=
  match l with
  | a :: b :: l' => a * 256 + b + word_sum l'
  | [a] => a * 256
  | [] => 0
  end.

(** Induction two bytes at a time. *)
Lemma pairs_ind (P : list Z -> Prop) :
  P [] -> (forall a, P [a]) -> (forall a b l, P l -> P (a :: b :: l)) -> forall l, P l.
Proof.
  intros H0 H1 H2. fix IH 1. intros [|a [|b l]]; [exact H0|apply H1|apply H2, IH].
Qed.

Lemma word_sum_range l : bytes_ok l -> 0 <= word_sum l <= 65535 * ((Z.of_nat (length l) + 1) / 2).
Proof.
  induction l as [|a|a b l IH] using pairs_ind; intros Hl; cbn [word_sum].
  - done.
  - apply Forall_cons in Hl as [Hl _]. unfold byte in Hl. cbn [length]. div_lia.
  - apply Forall_cons in Hl as [Ha Hl]. apply Forall_cons in Hl as [Hb Hl]. specialize (IH Hl).
    unfold byte in *. cbn [length]. div_lia.
Qed.

Lemma sum_words_exact s l : 0 <= s -> bytes_ok l -> s + word_sum l < 2 ^ 32 -> sum_words s l = s + word_sum l.
Proof.
  revert s. induction l as [|a|a b l IH] using pairs_ind; intros s Hs Hl Hlt; cbn [word_sum sum_words] in *.
  - lia.
  - apply Forall_cons in Hl as [Hl _]. unfold byte in Hl. rewrite wrap_small by lia. done.
  - apply Forall_cons in Hl as [Ha Hl]. apply Forall_cons in Hl as [Hb Hl].
    pose proof (word_sum_range l Hl). unfold byte in *. rewrite wrap_small by lia. rewrite IH by (done || lia). lia.
Qed.

Lemma word_sum_app l1 l2 : Nat.even (length l1) = true -> word_sum (l1 ++ l2) = word_sum l1 + word_sum l2.
Proof.
  induction l1 as [|a|a b l1 IH] using pairs_ind; [done|done|]. intros He. cbn [app word_sum].
  rewrite IH by done. lia.
Qed.

(** ** The checksum *)

Lemma carry_round s : 0 <= s -> Z.land s 65535 + Z.shiftr s 16 = s mod 65536 + s / 65536.
Proof.
  intros Hs. change 65535 with (Z.ones 16). rewrite Z.land_ones, Z.shiftr_div_pow2 by lia. done.
Qed.

(** Folding keeps the sum modulo 65535 and makes it a word; only 0 folds to
    0. *)
Lemma fold_carry_spec s :
  0 <= s < 2 ^ 32 -> exists k, 0 <= k /\ fold_carry 2 s = s - 65535 * k /\ 0 <= fold_carry 2 s <= 65535 /\
    (fold_carry 2 s = 0 -> s = 0).
Proof.
  intros Hs. cbn [fold_carry]. rewrite Z.shiftr_div_pow2 by lia.
  destruct (Z.eqb_spec (s / 2 ^ 16) 0) as [E|E]; [exists 0; div_lia|]. rewrite <- Z.shiftr_div_pow2 by lia.
  rewrite carry_round by lia. set (s1 := s mod 65536 + s / 65536). rewrite Z.shiftr_div_pow2 by lia.
  destruct (Z.eqb_spec (s1 / 2 ^ 16) 0) as [E1|E1].
  - exists (s / 65536). unfold s1 in *. div_lia.
  - rewrite <- Z.shiftr_div_pow2, carry_round by (unfold s1; div_lia). exists (s / 65536 + s1 / 65536). unfold s1 in *. div_lia.
Qed.

Definition short (l : list Z) : Prop := Z.of_nat (length l) <= 65600.

Lemma checksum_word l : bytes_ok l -> short l -> exists c, checksum l = Some c /\ 0 <= c <= u16_max.
Proof.
  intros Hl Hs. unfold checksum, short in *. pose proof (word_sum_range l Hl) as Hw.
  rewrite sum_words_exact by (done || div_lia). rewrite Z.add_0_l.
  destruct (fold_carry_spec (word_sum l)) as (k & _ & _ & Hr & _); [div_lia|].
  unfold u16_max. destruct (Z.leb_spec (fold_carry 2 (word_sum l)) 65535); [|lia]. eexists. split; [done|lia].
Qed.

(** Bytes whose checksum has been filled in have checksum 0. *)
Lemma checksum_filled l l' c :
  bytes_ok l -> short l -> bytes_ok l' -> short l' -> checksum l = Some c -> word_sum l' = word_sum l + c ->
  checksum l' = Some 0.
Proof.
  intros Hl Hs Hl' Hs' Hc Hsum. unfold checksum, short, u16_max in *.
  pose proof (word_sum_range l Hl) as Hw. pose proof (word_sum_range l' Hl') as Hw'.
  rewrite sum_words_exact in Hc by (done || div_lia). rewrite sum_words_exact by (done || div_lia).
  rewrite Z.add_0_l in *.
  destruct (fold_carry_spec (word_sum l)) as (k & Hk0 & Hk & Hr & _); [div_lia|].
  destruct (fold_carry_spec (word_sum l')) as (k' & _ & Hk' & Hr' & H0'); [div_lia|].
  destruct (fold_carry 2 (word_sum l) <=? 65535); [|done].
  assert (Hc' : 65535 - fold_carry 2 (word_sum l) = c) by congruence. clear Hc.
  destruct (Z.leb_spec (fold_carry 2 (word_sum l')) 65535); [|lia]. f_equal. lia.
Qed.

(** ** Frames *)

Definition key_ok (k : ClientKey) : Prop :=
  length (k_mac k) = 6%nat /\ bytes_ok (k_mac k) /\ length (k_ip k) = 4%nat /\ bytes_ok (k_ip k) /\
  0 <= k_port k <= u16_max.

(** The parts of a frame, with their checksums. *)
Definition ip_header (ip : list Z) (total c : Z) : list Z :=
  [69; 0] ++ be16 total ++ [0; 0; 64; 0; 64; 6] ++ be16 c ++ MMDS_LINK_LOCAL_ADDR ++ ip.
Definition tcp_header (port seq ack flags c : Z) : list Z :=
  be16 MMDS_LINK_LOCAL_PORT ++ be16 port ++ be32 seq ++ be32 ack ++ [80; flags] ++ be16 64240 ++ be16 c ++ [0; 0].
Definition pseudo_header (ip : list Z) (tcp_len : Z) : list Z :=
  MMDS_LINK_LOCAL_ADDR ++ ip ++ [0; 6] ++ be16 tcp_len.
Definition tcp_frame (key : ClientKey) (seq ack flags : Z) (payload : list Z) (c1 c2 : Z) : list Z :=
  k_mac key ++ SERVICE_MAC ++ be16 ETHERTYPE_IPV4 ++
  ip_header (k_ip key) (Z.of_nat (40 + length payload)) c1 ++ tcp_header (k_port key) seq ack flags c2 ++ payload.


Lemma len_u16_small n : Z.of_nat n <= u16_max -> len_u16 n = Some (Z.of_nat n).
Proof. intros Hn. unfold len_u16. by destruct (Z.leb_spec (Z.of_nat n) u16_max); [|lia]. Qed.

Lemma literal_bytes l : forallb (fun b => (0 <=? b) && (b <? 256)) l = true -> bytes_ok l.
Proof.
  induction l as [|b l IH]; cbn [forallb]; [done|]. intros [Hb Hl]%andb_prop. constructor; [unfold byte; lia|by apply IH].
Qed.

Create HintDb wire.
#[export] Hint Resolve be16_word be32_word Forall_app_2 : wire.
#[export] Hint Extern 2 (Forall byte _) => (by apply literal_bytes) : wire.

Lemma ip_header_ok ip total c :
  bytes_ok ip -> 0 <= total <= u16_max -> 0 <= c <= u16_max -> bytes_ok (ip_header ip total c).
Proof.
  intros Hi [Ht _]%be16_word [Hc _]%be16_word. unfold ip_header, MMDS_LINK_LOCAL_ADDR. auto 10 with wire.
Qed.

Lemma tcp_header_ok port seq ack flags c :
  0 <= port <= u16_max -> u32_range seq -> u32_range ack -> byte flags -> 0 <= c <= u16_max ->
  bytes_ok (tcp_header port seq ack flags c).
Proof.
  intros [Hp _]%be16_word [Hs _]%be32_word [Ha _]%be32_word Hf [Hc _]%be16_word. unfold tcp_header.
  assert (bytes_ok [80; flags]) by (repeat constructor; done || apply Hf).
  repeat apply Forall_app_2; auto with wire.
Qed.

Lemma pseudo_header_ok ip n : bytes_ok ip -> 0 <= n <= u16_max -> bytes_ok (pseudo_header ip n).
Proof. intros Hi [Hn _]%be16_word. unfold pseudo_header, MMDS_LINK_LOCAL_ADDR. auto 10 with wire. Qed.

(** Writes and reads inside the headers do not depend on the payload. *)
Lemma put_head a b src h t : (b <= length h)%nat -> put a b src (h ++ t) = (fun h' => h' ++ t) <$> put a b src h.
Proof.
  intros Hb. unfold put. rewrite length_app.
  destruct (Nat.leb_spec a b); [|done]. destruct (Nat.leb_spec b (length h)); [|lia].
  destruct (Nat.leb_spec b (length h + length t)); [|lia]. destruct (_ =? _)%nat; [|done]. cbn.
  rewrite take_app_le, drop_app_le by lia. by rewrite <- !(assoc_L (++)).
Qed.

Lemma put_tail a b src h t :
  length h = a -> b = (a + length t)%nat -> length src = length t -> put a b src (h ++ t) = Some (h ++ src).
Proof.
  intros <- -> Hs. unfold put. rewrite length_app, Hs.
  destruct (Nat.leb_spec (length h) (length h + length t)); [|lia].
  destruct (Nat.leb_spec (length h + length t) (length h + length t)); [|lia].
  destruct (Nat.eqb_spec (length t) (length h + length t - length h)); [|lia]. cbn.
  rewrite take_app_length, drop_ge by (rewrite length_app; lia). by rewrite app_nil_r.
Qed.

Lemma slice_head a b h t : (b <= length h)%nat -> slice a b (h ++ t) = slice a b h.
Proof.
  intros Hb. unfold slice. rewrite length_app. destruct (Nat.leb_spec a b); [|done].
  destruct (Nat.leb_spec b (length h)); [|lia]. destruct (Nat.leb_spec b (length h + length t)); [|lia]. cbn.
  f_equal. rewrite drop_app_le by lia. rewrite take_app_le; [done|]. rewrite length_drop. lia.
Qed.

Lemma slice_tail a b h t : (a <= length h)%nat -> b = length (h ++ t) -> slice a b (h ++ t) = Some (drop a h ++ t).
Proof.
  intros Ha ->. unfold slice. destruct (Nat.leb_spec a (length (h ++ t))); [|rewrite length_app in *; lia].
  rewrite Nat.leb_refl. cbn. f_equal. rewrite take_ge by (rewrite length_drop; lia). by rewrite drop_app_le by lia.
Qed.

Lemma bind_Some {A B} (k : A -> option B) o x : o = Some x -> (o ≫= k) = k x.
Proof. by intros ->. Qed.

(** One write of a frame whose first bytes are given one by one. *)
Lemma put_bind {B} (k : list Z -> option B) a b src h h' t :
  put a b src h = Some h' -> (b <=? length h)%nat = true -> (put a b src (h ++ t) ≫= k) = k (h' ++ t).
Proof. intros Hp Hb%Nat.leb_le. rewrite put_head by done. by rewrite Hp. Qed.

Ltac put_step :=
  match goal with
  | |- (put ?a ?b ?s (?h ++ ?t) ≫= _) = _ =>
      let r := eval lazy [put length take drop app Nat.leb Nat.sub Nat.eqb Nat.add andb] in (put a b s h) in
      match r with Some ?h' => rewrite (put_bind _ a b s h h' t); [cbv beta|reflexivity|reflexivity] end
  end.

Lemma build_tcp_frame_eq key seq ack flags payload :
  key_ok key -> u32_range seq -> u32_range ack -> byte flags -> bytes_ok payload ->
  Z.of_nat (length payload) <= 65495 ->
  exists c1 c2,
    checksum (ip_header (k_ip key) (Z.of_nat (40 + length payload)) 0) = Some c1 /\ 0 <= c1 <= u16_max /\
    checksum (pseudo_header (k_ip key) (Z.of_nat (20 + length payload)) ++
              tcp_header (k_port key) seq ack flags 0 ++ payload) = Some c2 /\ 0 <= c2 <= u16_max /\
    build_tcp_frame key seq ack flags payload = Some (tcp_frame key seq ack flags payload c1 c2).
Proof.
  intros Hk Hseq Hack Hf Hp Hlen.
  destruct (checksum_word (ip_header (k_ip key) (Z.of_nat (40 + length payload)) 0)) as (c1 & E1 & R1).
  { apply ip_header_ok; [apply Hk|unfold u16_max; lia..]. }
  { unfold short, ip_header. rewrite !length_app. destruct Hk as (_ & _ & -> & _). done. }
  destruct (checksum_word (pseudo_header (k_ip key) (Z.of_nat (20 + length payload)) ++
              tcp_header (k_port key) seq ack flags 0 ++ payload)) as (c2 & E2 & R2).
  { apply Forall_app_2; [apply pseudo_header_ok|apply Forall_app_2; [apply tcp_header_ok|]]; unfold u16_max; try done; try lia; apply Hk. }
  { unfold short, pseudo_header, tcp_header. rewrite !length_app. destruct Hk as (_ & _ & -> & _). cbn [length be16 be32 MMDS_LINK_LOCAL_ADDR]. lia. }
  exists c1, c2. refine (conj E1 (conj R1 (conj E2 (conj R2 _)))).
  destruct key as [[mac ip] port]. unfold key_ok, k_mac, k_ip, k_port in *; cbn [fst snd] in *.
  destruct Hk as (Hm & _ & Hi & _).
  destruct mac as [|m0 [|m1 [|m2 [|m3 [|m4 [|m5 [|]]]]]]]; try discriminate Hm.
  destruct ip as [|i0 [|i1 [|i2 [|i3 [|]]]]]; try discriminate Hi.
  unfold build_tcp_frame, set_byte, write_u16, write_u32, k_mac, k_ip, k_port, be16, be32, SERVICE_MAC, MMDS_LINK_LOCAL_ADDR.
  replace (replicate _ 0) with (replicate 54 0 ++ replicate (length payload) 0) by (by rewrite <- replicate_add).
  cbn [fst snd]. let h := eval cbn in (replicate 54 0) in change (replicate 54 0) with h.
  do 4 put_step. rewrite (bind_Some _ _ (Z.of_nat (40 + length payload))) by (apply len_u16_small; unfold u16_max; lia).
  do 6 put_step.
  rewrite (bind_Some _ _ (ip_header [i0; i1; i2; i3] (Z.of_nat (40 + length payload)) 0))
    by (rewrite slice_head by (cbn [length]; lia); reflexivity).
  rewrite (bind_Some _ _ c1 E1). do 8 put_step.
  erewrite bind_Some by (apply put_tail; rewrite ?length_app, ?length_replicate; cbn [length]; lia).
  rewrite (bind_Some _ _ (Z.of_nat (20 + length payload))) by (apply len_u16_small; unfold u16_max; lia).
  erewrite bind_Some by (apply slice_tail; [cbn [length]; lia|reflexivity]).
  rewrite (bind_Some _ _ c2 E2), put_head by (cbn [length]; lia). reflexivity.
Qed.

(** What a guest's TCP/IP stack reads of a frame: the link, network and
    transport headers checked, both checksums verified, and the fields. *)
Definition decode_frame (f : list Z) : option (ClientKey * Z * Z * Z * list Z) :=
  mac ← slice 0 6 f; source ← slice 26 30 f; ip ← slice 30 34 f;
  header ← slice 14 34 f; total ← read_u16 f 16;
  segment ← slice 34 (14 + Z.to_nat total) f;
  c1 ← checksum header;
  c2 ← checksum (source ++ ip ++ [0; 6] ++ be16 (Z.of_nat (length segment)) ++ segment);
  port ← read_u16 f 36; seq ← read_u32 f 38; ack ← read_u32 f 42; flags ← f !! 47%nat;
  if bool_decide (read_u16 f 12 = Some ETHERTYPE_IPV4) && bool_decide (f !! 14%nat = Some 69) &&
     bool_decide (f !! 23%nat = Some 6) && bool_decide (source = MMDS_LINK_LOCAL_ADDR) &&
     bool_decide (read_u16 f 34 = Some MMDS_LINK_LOCAL_PORT) && bool_decide (f !! 46%nat = Some 80) &&
     (c1 =? 0) && (c2 =? 0)
  then Some (mac, ip, port, seq, ack, flags, drop 20 segment) else None.

Lemma ip_header_filled ip total c :
  length ip = 4%nat -> bytes_ok ip -> 0 <= total <= u16_max -> checksum (ip_header ip total 0) = Some c ->
  0 <= c <= u16_max -> checksum (ip_header ip total c) = Some 0.
Proof.
  intros Hl Hi Ht Hc Hr. assert (Hs : forall c, short (ip_header ip total c)).
  { intros c'. unfold short, ip_header. rewrite !length_app, Hl. done. }
  apply (checksum_filled (ip_header ip total 0) _ c); auto.
  1, 2: by apply ip_header_ok; [| |unfold u16_max in *; lia].
  destruct (be16_word c Hr) as [_ Ew]. unfold ip_header, be16. cbn [app word_sum]. change (0 / 256) with 0. change (0 mod 256) with 0. lia.
Qed.

Lemma tcp_header_filled ip n port seq ack flags payload c :
  length ip = 4%nat -> bytes_ok (pseudo_header ip n ++ tcp_header port seq ack flags 0 ++ payload) ->
  Z.of_nat (length payload) <= 65495 ->
  checksum (pseudo_header ip n ++ tcp_header port seq ack flags 0 ++ payload) = Some c -> 0 <= c <= u16_max ->
  bytes_ok (tcp_header port seq ack flags c) ->
  checksum (pseudo_header ip n ++ tcp_header port seq ack flags c ++ payload) = Some 0.
Proof.
  intros Hl Hok Hp Hc Hr Hok'. assert (Hs : forall c, short (pseudo_header ip n ++ tcp_header port seq ack flags c ++ payload)).
  { intros c'. unfold short, pseudo_header, tcp_header. rewrite !length_app, Hl. cbn [length be16 be32 MMDS_LINK_LOCAL_ADDR]. lia. }
  apply (checksum_filled _ _ c Hok (Hs 0)); auto.
  { rewrite !Forall_app in *. naive_solver. }
  destruct (be16_word c Hr) as [_ Ew]. destruct ip as [|i0 [|i1 [|i2 [|i3 [|]]]]]; try discriminate Hl.
  unfold pseudo_header, tcp_header, be16, be32, MMDS_LINK_LOCAL_ADDR. cbn [app word_sum].
  change (0 / 256) with 0. change (0 mod 256) with 0. lia.
Qed.

Lemma tcp_frame_ok key seq ack flags payload c1 c2 :
  key_ok key -> u32_range seq -> u32_range ack -> byte flags -> bytes_ok payload ->
  Z.of_nat (length payload) <= 65495 -> 0 <= c1 <= u16_max -> 0 <= c2 <= u16_max ->
  length (tcp_frame key seq ack flags payload c1 c2) = (54 + length payload)%nat /\
  bytes_ok (tcp_frame key seq ack flags payload c1 c2).
Proof.
  intros (Hm & Hmb & Hi & Hib & Hport) Hseq Hack Hf Hp Hlen R1 R2. unfold tcp_frame. split.
  - unfold ip_header, tcp_header. rewrite !length_app, Hm, Hi. done.
  - assert (bytes_ok SERVICE_MAC /\ bytes_ok (be16 ETHERTYPE_IPV4)) as [? ?] by (split; by apply literal_bytes).
    assert (bytes_ok (ip_header (k_ip key) (Z.of_nat (40 + length payload)) c1)).
    { apply ip_header_ok; [done| |done]. unfold u16_max; lia. }
    assert (bytes_ok (tcp_header (k_port key) seq ack flags c2)) by (by apply tcp_header_ok).
    rewrite !Forall_app. naive_solver.
Qed.

Lemma tcp_frame_decodes key seq ack flags payload c1 c2 :
  key_ok key -> u32_range seq -> u32_range ack -> Z.of_nat (length payload) <= 65495 ->
  checksum (ip_header (k_ip key) (Z.of_nat (40 + length payload)) c1) = Some 0 ->
  checksum (pseudo_header (k_ip key) (Z.of_nat (20 + length payload)) ++
            tcp_header (k_port key) seq ack flags c2 ++ payload) = Some 0 ->
  decode_frame (tcp_frame key seq ack flags payload c1 c2) = Some (key, seq, ack, flags, payload).
Proof.
  intros Hk Hseq Hack Hlen E1 E2. destruct key as [[mac ip] port].
  destruct Hk as (Hm & _ & Hi & _ & Hport). unfold k_mac, k_ip, k_port in *; cbn [fst snd] in *.
  destruct mac as [|m0 [|m1 [|m2 [|m3 [|m4 [|m5 [|]]]]]]]; try discriminate Hm.
  destruct ip as [|i0 [|i1 [|i2 [|i3 [|]]]]]; try discriminate Hi.
  destruct (be16_word (Z.of_nat (40 + length payload))) as [_ Et]; [unfold u16_max; lia|].
  apply be16_word in Hport as [_ Ep]. apply be32_word in Hseq as [_ Es]. apply be32_word in Hack as [_ Ea].
  pose (h := [m0; m1; m2; m3; m4; m5] ++ SERVICE_MAC ++ be16 ETHERTYPE_IPV4 ++
             ip_header [i0; i1; i2; i3] (Z.of_nat (40 + length payload)) c1 ++ tcp_header port seq ack flags c2).
  change (tcp_frame _ _ _ _ _ _ _) with (h ++ payload). unfold decode_frame.
  assert (Hh : length h = 54%nat) by reflexivity.
  rewrite (bind_Some _ _ [m0; m1; m2; m3; m4; m5]) by (by rewrite slice_head by (rewrite Hh; lia)).
  rewrite (bind_Some _ _ MMDS_LINK_LOCAL_ADDR) by (by rewrite slice_head by (rewrite Hh; lia)).
  rewrite (bind_Some _ _ [i0; i1; i2; i3]) by (by rewrite slice_head by (rewrite Hh; lia)).
  rewrite (bind_Some _ _ (ip_header [i0; i1; i2; i3] (Z.of_nat (40 + length payload)) c1))
    by (by rewrite slice_head by (rewrite Hh; lia)).
  rewrite (bind_Some _ _ (Z.of_nat (40 + length payload))) by exact (f_equal Some Et).
  rewrite (bind_Some _ _ (tcp_header port seq ack flags c2 ++ payload)).
  2: { rewrite slice_tail; [done|rewrite Hh; lia|rewrite length_app, Hh; lia]. }
  rewrite (bind_Some _ _ 0 E1), (bind_Some _ _ 0).
  2: { rewrite <- E2, length_app. reflexivity. }
  rewrite (bind_Some _ _ port) by exact (f_equal Some Ep).
  rewrite (bind_Some _ _ seq) by exact (f_equal Some Es).
  rewrite (bind_Some _ _ ack) by exact (f_equal Some Ea).
  rewrite (bind_Some _ _ flags) by reflexivity. reflexivity.
Qed.

Lemma frame_decodes key seq ack flags payload :
  key_ok key -> u32_range seq -> u32_range ack -> byte flags -> bytes_ok payload ->
  Z.of_nat (length payload) <= 65495 ->
  exists frame, build_tcp_frame key seq ack flags payload = Some frame /\
    length frame = (54 + length payload)%nat /\ bytes_ok frame /\
    decode_frame frame = Some (key, seq, ack, flags, payload).
Proof.
  intros Hk Hseq Hack Hf Hp Hlen.
  destruct (build_tcp_frame_eq key seq ack flags payload) as (c1 & c2 & E1 & R1 & E2 & R2 & E); try done.
  exists (tcp_frame key seq ack flags payload c1 c2). split; [done|].
  destruct (tcp_frame_ok key seq ack flags payload c1 c2) as [Hl Hb]; try done. split; [done|]. split; [done|].
  pose proof Hk as (_ & _ & Hi & Hib & Hport). apply tcp_frame_decodes; try done.
  - apply ip_header_filled; try done. unfold u16_max; lia.
  - assert (Ht : forall c, 0 <= c <= u16_max -> bytes_ok (tcp_header (k_port key) seq ack flags c)) by (intros; by apply tcp_header_ok).
    apply tcp_header_filled; auto. apply Forall_app_2; [apply pseudo_header_ok; [done|unfold u16_max; lia]|].
    apply Forall_app_2; [apply Ht; unfold u16_max; lia|done].
Qed.

(** ** A stream of frames *)

(** A guest reading the frames of a response: each addressed to it, in
    sequence, acknowledging what it sent, and the last one, and only it,
    ending the stream. *)
Fixpoint reassemble (key : ClientKey) (seq ack : Z) (frames : list (list Z)) : option (list Z) :=
  match frames with
  | [] => None
  | f :: rest =>
      '(k, s, a, flags, data) ← decode_frame f;
      if bool_decide (k = key) && (s =? seq) && (a =? ack) && has_flag flags TCP_FLAG_ACK then
        if has_flag flags TCP_FLAG_FIN then match rest with [] => Some data | _ => None end
        else tl ← reassemble key (wrap 32 (seq + Z.of_nat (length data))) ack rest; Some (data ++ tl)
      else None
  end.

Definition chunk_ok (c : list Z) : Prop := bytes_ok c /\ (length c <= MAX_TCP_PAYLOAD)%nat.

Lemma chunk_small c : chunk_ok c -> Z.of_nat (length c) <= 1200.
Proof. unfold chunk_ok, MAX_TCP_PAYLOAD. lia. Qed.

Definition frame_small (f : list Z) : Prop := (length f <= 54 + MAX_TCP_PAYLOAD)%nat /\ bytes_ok f.

Lemma len_u32_small n : Z.of_nat n <= u32_max -> len_u32 n = Some (Z.of_nat n).
Proof. intros Hn. unfold len_u32. by destruct (Z.leb_spec (Z.of_nat n) u32_max); [|lia]. Qed.

Lemma wrap32_range z : u32_range (wrap 32 z).
Proof. unfold u32_range, u32_max, wrap. pose proof (Z.mod_pos_bound z (2 ^ 32)). lia. Qed.

Lemma frames_of_reassemble key seq ack cs :
  key_ok key -> u32_range seq -> u32_range ack -> Forall chunk_ok cs -> cs <> [] ->
  exists frames, frames_of key seq ack cs = Some frames /\ Forall frame_small frames /\
    length frames = length cs /\ reassemble key seq ack frames = Some (concat cs).
Proof.
  intros Hk Hseq Hack Hcs Hne. revert seq Hseq. induction Hcs as [|c cs Hc Hcs IH]; intros seq Hseq; [done|]. clear Hne.
  pose proof (chunk_small c Hc) as Hl. destruct Hc as [Hb Hs]. cbn [frames_of].
  set (flags := Z.lor _ _). assert (Hf : byte flags) by (unfold flags; destruct cs; split; by vm_compute).
  destruct (frame_decodes key seq ack flags c) as (f & Ef & Hfl & Hfb & Ed); try done; [lia|].
  rewrite (bind_Some _ _ _ Ef), (bind_Some _ _ _ (len_u32_small (length c) ltac:(unfold u32_max; lia))).
  assert (Hsm : frame_small f) by (split; [rewrite Hfl; unfold MAX_TCP_PAYLOAD in *; lia|done]).
  assert (Hack' : has_flag flags TCP_FLAG_ACK = true) by (unfold flags; by destruct cs).
  destruct cs as [|c' cs].
  - exists [f]. cbn. rewrite Ed. cbn. rewrite bool_decide_eq_true_2, !Z.eqb_refl by done. cbn. rewrite app_nil_r. auto.
  - destruct (IH ltac:(done) (wrap 32 (seq + Z.of_nat (length c))) (wrap32_range _)) as (fs & -> & Hfs & Hlen & Hr).
    exists (f :: fs). cbn [mbind option_bind]. split_and!; [done|by constructor|cbn; by rewrite Hlen|].
    cbn [reassemble]. rewrite (bind_Some _ _ _ Ed). rewrite bool_decide_eq_true_2, !Z.eqb_refl, Hack' by done. cbn [andb].
    change (has_flag flags TCP_FLAG_FIN) with false. cbn iota. by rewrite Hr.
Qed.

Lemma chunks_fuel_spec n size l :
  (0 < size)%nat -> (length l <= n)%nat ->
  concat (chunks_fuel n size l) = l /\ Forall (fun c => length c <= size)%nat (chunks_fuel n size l) /\
  (l <> [] -> chunks_fuel n size l <> []).
Proof.
  intros Hs. revert l. induction n as [|n IH]; intros l Hn; simpl.
  - destruct l; [done|simpl in Hn; lia].
  - destruct l as [|b l]; [done|]. destruct (IH (drop size (b :: l))) as (Hc & Hl & _).
    { rewrite length_drop. simpl in *. lia. }
    split_and!; [|constructor; [rewrite length_take; lia|done]|done].
    cbn [concat]. rewrite Hc. apply take_drop.
Qed.

Lemma chunks_ok l : bytes_ok l -> Forall chunk_ok (chunks MAX_TCP_PAYLOAD l).
Proof.
  intros Hl. destruct (chunks_fuel_spec (length l) MAX_TCP_PAYLOAD l) as (Hc & Hs & _); [unfold MAX_TCP_PAYLOAD; lia|lia|].
  fold (chunks MAX_TCP_PAYLOAD l) in Hc, Hs. rewrite <- Hc in Hl. rewrite Forall_concat in Hl.
  apply Forall_and. done.
Qed.

Lemma response_frames_spec key seq ack resp :
  key_ok key -> u32_range seq -> u32_range ack -> bytes_ok resp -> resp <> [] ->
  exists frames, response_frames key seq ack resp = Some frames /\ Forall frame_small frames /\
    reassemble key seq ack frames = Some resp.
Proof.
  intros Hk Hseq Hack Hr Hne.
  destruct (chunks_fuel_spec (length resp) MAX_TCP_PAYLOAD resp) as (Hc & _ & Hn); [unfold MAX_TCP_PAYLOAD; lia|lia|].
  destruct (frames_of_reassemble key seq ack (chunks MAX_TCP_PAYLOAD resp)) as (fs & E & Hs & _ & Hf); auto using chunks_ok.
  exists fs. split_and!; [done..|]. rewrite Hf. exact (f_equal Some Hc).
Qed.

(** ** The responder's invariant *)

Definition resp_ok (resp : list Z) : Prop := bytes_ok resp /\ resp <> [] /\ Z.of_nat (length resp) <= u32_max.

Definition conn_ok (c : Connection) : Prop :=
  u32_range (client_next c) /\ u32_range (server_first c) /\ bytes_ok (request c) /\
  Z.of_nat (length (request c)) <= MAX_REQUEST /\ (forall resp, response c = Some resp -> resp_ok resp).

Definition responder_ok (r : PacketResponder) : Prop :=
  (size (connections r) <= MAX_CONNECTIONS)%nat /\ map_Forall (fun k c => key_ok k /\ conn_ok c) (connections r).

Definition clocks_ok (clk : Clocks) : Prop := 0 <= subsec_nanos clk < 1000000000.

Definition segment_ok (s : Segment) : Prop :=
  key_ok (seg_key s) /\ u32_range (seg_seq s) /\ byte (seg_flags s) /\ bytes_ok (seg_payload s) /\
  Z.of_nat (length (seg_payload s)) <= u16_max.

(** A step that ends without a panic, in [Q]. *)
Definition ends {A} (o : option A) (Q : A -> Prop) : Prop := exists a, o = Some a /\ Q a.

Lemma ends_ret {A} (a : A) (Q : A -> Prop) : Q a -> ends (Some a) Q.
Proof. by exists a. Qed.
Lemma ends_bind {A B} (o : option A) (k : A -> option B) (P : A -> Prop) (Q : B -> Prop) :
  ends o P -> (forall a, P a -> ends (k a) Q) -> ends (o ≫= k) Q.
Proof. intros (a & -> & Ha) Hk. by apply Hk. Qed.
Lemma ends_mono {A} (o : option A) (P Q : A -> Prop) : ends o P -> (forall a, P a -> Q a) -> ends o Q.
Proof. intros (a & -> & Ha) HPQ. exists a. auto. Qed.

Lemma ends_slice a b l : bytes_ok l -> (a <= b)%nat -> (b <= length l)%nat ->
  ends (slice a b l) (fun s => length s = (b - a)%nat /\ bytes_ok s).
Proof.
  intros Hl Hab Hb. unfold slice. destruct (Nat.leb_spec a b); [|lia]. destruct (Nat.leb_spec b (length l)); [|lia].
  apply ends_ret. rewrite length_take, length_drop. split; [lia|]. by apply Forall_take, Forall_drop.
Qed.
Lemma ends_byte l i : bytes_ok l -> (i < length l)%nat -> ends (l !! i) byte.
Proof.
  intros Hl Hi. destruct (lookup_lt_is_Some_2 l i Hi) as [b Hb]. exists b. split; [done|]. by eapply Forall_lookup_1.
Qed.
Lemma ends_put a b src l :
  bytes_ok src -> bytes_ok l -> (a <= b)%nat -> (b <= length l)%nat -> length src = (b - a)%nat ->
  ends (put a b src l) (fun l' => length l' = length l /\ bytes_ok l').
Proof.
  intros Hs Hl Hab Hb He. unfold put. destruct (Nat.leb_spec a b); [|lia]. destruct (Nat.leb_spec b (length l)); [|lia].
  rewrite He, Nat.eqb_refl. apply ends_ret. split; [rewrite !length_app, length_take, length_drop; lia|].
  repeat apply Forall_app_2; [by apply Forall_take|done|by apply Forall_drop].
Qed.
Lemma ends_frame key seq ack flags payload :
  key_ok key -> u32_range seq -> u32_range ack -> byte flags -> bytes_ok payload ->
  (length payload <= MAX_TCP_PAYLOAD)%nat -> ends (build_tcp_frame key seq ack flags payload) frame_small.
Proof.
  intros Hk Hs Ha Hf Hp Hl. destruct (frame_decodes key seq ack flags payload) as (f & E & Hfl & Hfb & _); try done.
  { unfold MAX_TCP_PAYLOAD in Hl. lia. }
  exists f. split; [done|]. split; [lia|done].
Qed.

Lemma read_u16_range l i : bytes_ok l -> 0 <= default 0 (read_u16 l i) <= u16_max.
Proof.
  intros Hl. unfold read_u16, u16_max. destruct (l !! i) as [a|] eqn:Ea; [|simpl; lia].
  destruct (l !! (i + 1)%nat) as [b|] eqn:Eb; [|simpl; lia].
  apply (Forall_lookup_1 _ _ _ _ Hl) in Ea. apply (Forall_lookup_1 _ _ _ _ Hl) in Eb. unfold byte in *. simpl. lia.
Qed.
Lemma read_u32_range l i : bytes_ok l -> u32_range (default 0 (read_u32 l i)).
Proof.
  intros Hl. unfold read_u32, u32_range, u32_max. repeat case_match; simpl; try lia.
  repeat match goal with E : l !! _ = Some _ |- _ => apply (Forall_lookup_1 _ _ _ _ Hl) in E end. unfold byte in *. lia.
Qed.

(** A guard that drops the frame. *)
Lemma ends_guard {A} (b : bool) (a : A) (o : option A) (Q : A -> Prop) :
  Q a -> (b = false -> ends o Q) -> ends (if b then Some a else o) Q.
Proof. intros Ha Ho. destruct b; [by apply ends_ret|by apply Ho]. Qed.

Ltac end_put :=
  eapply ends_bind; [apply ends_put; [by auto with wire|done|lia|lia|done]|]; intros ? [? ?].

Lemma ends_arp frame :
  bytes_ok frame -> ends (process_arp frame) (fun o => forall reply, o = Some reply -> frame_small reply).
Proof.
  intros Hb. unfold process_arp. apply ends_guard; [done|]. intros Hl%Nat.ltb_ge.
  do 2 (apply ends_guard; [done|]; intros _).
  eapply ends_bind; [apply ends_byte; [done|lia]|]; intros hlen _. apply ends_guard; [done|]; intros _.
  eapply ends_bind; [apply ends_byte; [done|lia]|]; intros plen _. do 2 (apply ends_guard; [done|]; intros _).
  eapply ends_bind; [apply ends_slice; [done|lia|lia]|]; intros target _. apply ends_guard; [done|]; intros _.
  eapply ends_bind; [apply ends_slice; [done|lia|lia]|]; intros mac [Hmac Hmb].
  eapply ends_bind; [apply ends_slice; [done|lia|lia]|]; intros ip [Hip Hib].
  assert (H42 : length (replicate 42 0) = 42%nat) by done. assert (Hz : bytes_ok (replicate 42 0)) by (by apply literal_bytes).
  generalize dependent (replicate 42 0). intros l0 Hl0 Hz. unfold set_byte, write_u16.
  do 12 end_put. apply ends_ret. intros reply [= <-]. split; [unfold MAX_TCP_PAYLOAD; lia|done].
Qed.

Lemma ends_parse frame :
  bytes_ok frame -> ends (parse_segment frame) (fun o => forall s, o = Some s -> segment_ok s).
Proof.
  intros Hb. unfold parse_segment. apply ends_guard; [done|]. intros Hl%Nat.ltb_ge.
  eapply ends_bind; [apply ends_byte; [done|lia]|]; intros version _. apply ends_guard; [done|]; intros _.
  eapply ends_bind; [apply ends_byte; [done|lia]|]; intros protocol _. apply ends_guard; [done|]; intros _.
  set (ihl := (Z.to_nat (Z.land version 15) * 4)%nat). apply ends_guard; [done|]. intros [H1 H2]%orb_false_iff.
  apply Nat.ltb_ge in H1, H2. set (total := Z.to_nat _). apply ends_guard; [done|]. intros [H3 H4]%orb_false_iff.
  apply Nat.ltb_ge in H3, H4.
  eapply ends_bind; [apply ends_slice; [done|lia|lia]|]; intros ip [Hip Hib].
  eapply ends_bind; [apply ends_slice; [done|lia|lia]|]; intros dst _. do 2 (apply ends_guard; [done|]; intros _).
  eapply ends_bind; [apply ends_byte; [done|lia]|]; intros offset _.
  set (thl := (Z.to_nat (Z.shiftr offset 4) * 4)%nat). apply ends_guard; [done|]. intros [H5 H6]%orb_false_iff.
  apply Nat.ltb_ge in H5, H6.
  eapply ends_bind; [apply ends_byte; [done|lia]|]; intros flags Hf.
  eapply ends_bind; [apply ends_slice; [done|lia|lia]|]; intros payload [Hpl Hpb].
  eapply ends_bind; [apply ends_slice; [done|lia|lia]|]; intros mac [Hmac Hmb].
  apply ends_ret. intros s [= <-]. pose proof (read_u16_range frame 16 Hb) as Ht.
  split; [split_and!; try done; by apply read_u16_range|]. refine (conj _ (conj Hf (conj Hpb _))); cbn [seg_seq seg_payload].
  - by apply read_u32_range.
  - unfold total in Hpl. lia.
Qed.

Lemma lxor_range a b : u32_range a -> u32_range b -> u32_range (Z.lxor a b).
Proof.
  unfold u32_range, u32_max. intros Ha Hb. assert (H0 : 0 <= Z.lxor a b) by (apply Z.lxor_nonneg; lia).
  split; [done|]. destruct (Z.eq_dec (Z.lxor a b) 0) as [->|Hne]; [lia|]. cut (Z.lxor a b < 2 ^ 32); [lia|].
  apply Z.log2_lt_pow2; [lia|]. eapply Z.le_lt_trans; [apply Z.log2_lxor; lia|].
  assert (Hlog : forall z, 0 <= z <= 4294967295 -> Z.log2 z < 32).
  { intros z Hz. pose proof (Z.log2_le_mono z 4294967295 ltac:(lia)) as Hm. change (Z.log2 4294967295) with 31 in Hm. lia. }
  apply Z.max_lub_lt; by apply Hlog.
Qed.

Lemma initial_sequence_range clk key : clocks_ok clk -> key_ok key -> u32_range (initial_sequence clk key).
Proof.
  unfold clocks_ok. intros Hc (_ & _ & Hi & Hib & Hp). unfold initial_sequence.
  repeat apply lxor_range; [unfold u32_range, u32_max; lia| |unfold u32_range, u32_max, u16_max in *; lia].
  destruct (k_ip key) as [|a [|b [|c [|d [|]]]]]; try discriminate Hi.
  rewrite !Forall_cons in Hib. unfold byte, u32_range, u32_max in *. lia.
Qed.

Section ResponderLemmas.
Context `{Serde}.

Lemma byte_of_ok a : byte (byte_of a).
Proof. unfold byte, byte_of. pose proof (Ascii.N_ascii_bounded a). lia. Qed.
Lemma bytes_of_ok s : bytes_ok (bytes s).
Proof. induction s as [|a s IH]; [done|]. constructor; [apply byte_of_ok|done]. Qed.
Lemma bytes_length s : length (bytes s) = String.length s.
Proof. induction s as [|a s IH]; [done|]. simpl. by rewrite IH. Qed.
Lemma string_of_bytes_length l : String.length (string_of_bytes l) = length l.
Proof. induction l as [|b l IH]; [done|]. exact (f_equal S IH). Qed.

Lemma render_ok l doc : modest doc -> Z.of_nat (length l) <= MAX_REQUEST -> resp_ok (render l doc).
Proof.
  intros Hm Hl. destruct (render_raw_http_length (string_of_bytes l) doc Hm) as [H0 H1].
  { unfold len. by rewrite string_of_bytes_length. }
  unfold render. split; [apply bytes_of_ok|]. unfold len in *. rewrite bytes_length. split; [|lia].
  intros E. apply (f_equal length) in E. rewrite bytes_length in E. simpl in E. lia.
Qed.

Lemma store_ok key c r :
  key_ok key -> conn_ok c -> responder_ok r ->
  is_Some (connections r !! key) \/ (size (connections r) < MAX_CONNECTIONS)%nat -> responder_ok (store key c r).
Proof.
  intros Hk Hc [Hs Hm] Hor. split; cbn [store with_connections connections].
  - destruct (connections r !! key) eqn:E; [by rewrite map_size_insert_Some|].
    rewrite map_size_insert_None by done. destruct Hor as [[? ?]|?]; [done|lia].
  - apply map_Forall_insert_2; [done|done].
Qed.

Lemma fresh_ok clk r : responder_ok r -> responder_ok (with_connections (filter (fresh clk) (connections r)) r).
Proof.
  intros [Hs Hm]. split; cbn [with_connections connections].
  - etransitivity; [|exact Hs]. apply map_subseteq_size, map_filter_subseteq.
  - intros k c Hkc. apply map_lookup_filter_Some in Hkc as [Hkc _]. by apply Hm.
Qed.

(** What the service sends, and the responder it leaves. *)
Definition served (doc : RwLock Value) (p : list (list Z) * PacketResponder) : Prop :=
  Forall frame_small (fst p) /\ responder_ok (snd p) /\ shared (snd p) = doc.

Ltac send_frame :=
  apply ends_frame; try done; first [apply wrap32_range|split; by vm_compute|unfold MAX_TCP_PAYLOAD; simpl; lia].

Lemma ends_syn clk s r :
  clocks_ok clk -> segment_ok s -> responder_ok r -> ends (on_syn clk s r) (served (shared r)).
Proof.
  intros Hclk (Hk & Hseq & _) Hr. unfold on_syn. apply ends_guard; [by split_and!; [constructor|..]|]. intros Hg.
  pose proof (initial_sequence_range clk (seg_key s) Hclk Hk) as Hi.
  eapply ends_bind; [send_frame|].
  intros f Hf. apply ends_ret. split; [by constructor|]. split; [|done]. apply store_ok; try done.
  - split_and!; cbn; try done; apply wrap32_range.
  - apply andb_false_iff in Hg as [Hg|Hg]; [left|right; by apply Nat.leb_gt in Hg].
    apply negb_false_iff in Hg. by apply bool_decide_eq_true in Hg.
Qed.

Lemma ends_accept s c :
  segment_ok s -> conn_ok c ->
  ends (accept s c) (fun o => forall c', o = Some c' -> conn_ok c').
Proof.
  intros (Hk & Hseq & Hf & Hp & Hl) Hc. unfold accept.
  assert (Hlen : len_u32 (length (seg_payload s)) = Some (Z.of_nat (length (seg_payload s)))).
  { apply len_u32_small. unfold u32_max, u16_max in *. lia. }
  apply (ends_bind _ _ (fun o => forall c', o = Some c' -> conn_ok c')).
  - destruct (_ && _); [|by apply ends_ret; intros c' [= <-]].
    destruct (Z.ltb_spec MAX_REQUEST (Z.of_nat (length (request c)) + Z.of_nat (length (seg_payload s)))); [by apply ends_ret|].
    rewrite (bind_Some _ _ _ Hlen). apply ends_ret. intros c' [= <-]. destruct Hc as (? & ? & ? & ? & ?).
    split_and!; cbn; try done; [apply wrap32_range|by apply Forall_app_2|rewrite length_app; lia].
  - intros [c'|] Hc'; [|by apply ends_ret]. specialize (Hc' c' eq_refl).
    destruct (has_flag _ _); [|by apply ends_ret; intros ? [= <-]]. rewrite (bind_Some _ _ _ Hlen). apply ends_ret.
    intros ? [= <-]. destruct (_ =? _); [|done]. destruct Hc' as (? & ? & ? & ? & ?). split_and!; cbn; try done; apply wrap32_range.
Qed.

Lemma ends_stream s c resp :
  segment_ok s -> conn_ok c -> resp_ok resp ->
  ends (response_frames (seg_key s) (wrap 32 (server_first c + 1)) (client_next c) resp) (Forall frame_small).
Proof.
  intros (Hk & _) (Hn & _) (Hb & Hne & _).
  destruct (response_frames_spec (seg_key s) (wrap 32 (server_first c + 1)) (client_next c) resp) as (fs & E & Hf & _);
    auto using wrap32_range. by exists fs.
Qed.

Lemma ends_reply s c doc :
  segment_ok s -> conn_ok c -> modest doc ->
  ends (reply s c doc) (fun p => Forall frame_small (fst p) /\ conn_ok (snd p)).
Proof.
  intros Hs Hc Hm. pose proof Hs as (Hk & _). pose proof Hc as (Hn & Hf & Hreq & Hlen & Hresp). unfold reply.
  destruct (response c) as [resp|].
  - specialize (Hresp resp eq_refl). destruct (negb _).
    { eapply ends_bind; [by apply ends_stream|]. intros fs Hfs. by apply ends_ret. }
    destruct (has_flag _ _); [|apply ends_ret; split; [constructor|done]].
    rewrite (bind_Some _ _ _ (len_u32_small _ (proj2 (proj2 Hresp)))).
    eapply ends_bind; [send_frame|]. intros f Hfr. apply ends_ret. split; [by constructor|done].
  - destruct (has_blank_line (request c)).
    + pose proof (render_ok (request c) doc Hm Hlen) as Hr. eapply ends_bind; [by apply ends_stream|]. intros fs Hfs. apply ends_ret.
      split; [done|]. refine (conj Hn (conj Hf (conj Hreq (conj Hlen _)))). by intros resp [= <-].
    + eapply ends_bind; [send_frame|]. intros f Hfr. apply ends_ret. split; [by constructor|done].
Qed.

Lemma seen_ok now c : conn_ok c -> conn_ok (seen now c).
Proof. done. Qed.

Lemma ends_segment clk s r :
  clocks_ok clk -> segment_ok s -> responder_ok r -> modest (document (shared r)) ->
  ends (on_segment clk s r) (served (shared r)).
Proof.
  intros Hclk Hs Hr Hm. unfold on_segment. apply (fresh_ok clk) in Hr. set (r0 := with_connections _ r) in *.
  change (shared r) with (shared r0) in *. destruct (has_flag _ _); [by apply ends_syn|].
  destruct (connections r0 !! seg_key s) as [c|] eqn:E; [|apply ends_ret; by split_and!; [constructor|..]].
  destruct (proj2 Hr _ _ E) as [Hk Hc]. apply (seen_ok (at_seen clk)) in Hc.
  assert (Hst : forall c', conn_ok c' -> responder_ok (store (seg_key s) c' r0)) by (intros; apply store_ok; eauto).
  eapply ends_bind; [by apply ends_accept|]. intros [c'|] Hc'.
  - eapply ends_bind; [apply ends_reply; eauto|]. intros [fs c2] [Hfs Hc2]. apply ends_ret. split; [done|]. by split; [apply Hst|].
  - apply ends_ret. split; [constructor|]. by split; [apply Hst|].
Qed.

(** ** Conversations *)

(** What reaches the responder: a frame, at some time, while the lock holds
    some document (the API writes it between frames). *)
Record Input := { in_clocks : Clocks; in_document : RwLock Value; in_frame : list Z }.

Definition with_document (d : RwLock Value) (r : PacketResponder) : PacketResponder :=
  {| shared := d; connections := connections r |}.

(** The answers to a sequence of frames. *)
Fixpoint exchange (inputs : list Input) (r : PacketResponder) : option (list (list (list Z)) * PacketResponder) :=
  match inputs with
  | [] => Some ([], r)
  | i :: inputs' =>
      '(frames, r1) ← process (in_clocks i) (in_frame i) (with_document (in_document i) r);
      '(answers, r2) ← exchange inputs' r1;
      Some (frames :: answers, r2)
  end.

Definition input_ok (i : Input) : Prop :=
  clocks_ok (in_clocks i) /\ bytes_ok (in_frame i) /\ modest (document (in_document i)).

Lemma ends_process clk frame r :
  clocks_ok clk -> bytes_ok frame -> responder_ok r -> modest (document (shared r)) ->
  ends (process clk frame r) (served (shared r)).
Proof.
  intros Hclk Hb Hr Hm. assert (Hsilent : served (shared r) ([], r)) by (split_and!; [constructor|apply Hr..|done]).
  unfold process. apply ends_guard; [done|]. intros _. destruct (bool_decide _).
  { eapply ends_bind; [by apply ends_arp|]. intros o Ho. apply ends_ret.
    split; [|by split]. destruct o; simpl; constructor; [by apply Ho|constructor]. }
  destruct (bool_decide _); [|by apply ends_ret]. unfold process_ipv4.
  eapply ends_bind; [by apply ends_parse|]. intros [s|] Hs; [|by apply ends_ret]. apply ends_segment; auto.
Qed.

(** C26: Whatever bytes a guest sends, in whatever order, the responder does
    not panic: no index, slice or conversion in it is out of range.  It never
    holds more than 1024 connections nor more than 64 KiB of a request, every
    frame it answers with fits an Ethernet frame.  The documents it serves
    may change between frames; none renders to more than 2 GiB. *)
Theorem responder_never_panics inputs d :
  Forall input_ok inputs ->
  exists answers r', exchange inputs {| shared := d; connections := ∅ |} = Some (answers, r') /\
    responder_ok r' /\ Forall (Forall frame_small) answers.
Proof.
  intros His. assert (Hgen : forall r, responder_ok r -> ends (exchange inputs r)
      (fun p => Forall (Forall frame_small) (fst p) /\ responder_ok (snd p))).
  { induction His as [|i l (Hc & Hb & Hm) His IH]; intros r Hr; cbn [exchange]; [by apply ends_ret|].
    eapply ends_bind; [by apply (ends_process _ _ (with_document (in_document i) r))|]. intros [fs r1] (Hfs & Hr1 & _).
    eapply ends_bind; [by apply IH|]. intros [as' r2] [Has Hr2]. apply ends_ret. by split; [constructor|]. }
  destruct (Hgen {| shared := d; connections := ∅ |}) as ([as' r'] & E & Has & Hr').
  { split; cbn; [rewrite map_size_empty; lia|apply map_Forall_empty]. }
  exists as', r'. auto.
Qed.

(** ** A GET over TCP *)

(** A frame as a guest sends one: without options, with any checksums and
    any padding. *)
Definition guest_frame (key : ClientKey) (seq ack flags : Z) (payload sums pad : list Z) : list Z :=
  SERVICE_MAC ++ k_mac key ++ be16 ETHERTYPE_IPV4 ++
  [69; 0] ++ be16 (Z.of_nat (40 + length payload)) ++ [0; 0; 64; 0; 64; 6] ++ take 2 sums ++
  k_ip key ++ MMDS_LINK_LOCAL_ADDR ++
  be16 (k_port key) ++ be16 MMDS_LINK_LOCAL_PORT ++ be32 seq ++ be32 ack ++ [80; flags] ++ be16 64240 ++
  drop 2 sums ++ [0; 0] ++ payload ++ pad.

Lemma guard_false {A} (b : bool) (x y : A) : b = false -> (if b then x else y) = y.
Proof. by intros ->. Qed.

Lemma guest_frame_parses key seq ack flags payload sums pad :
  key_ok key -> u32_range seq -> Z.of_nat (length payload) <= 65495 -> length sums = 4%nat ->
  parse_segment (guest_frame key seq ack flags payload sums pad) =
  Some (Some {| seg_key := key; seg_seq := seq; seg_flags := flags; seg_payload := payload |}).
Proof.
  intros (Hm & _ & Hi & _ & Hport) Hseq Hlen Hsums. destruct key as [[mac ip] port].
  unfold k_mac, k_ip, k_port in *; cbn [fst snd] in *.
  destruct mac as [|m0 [|m1 [|m2 [|m3 [|m4 [|m5 [|]]]]]]]; try discriminate Hm.
  destruct ip as [|i0 [|i1 [|i2 [|i3 [|]]]]]; try discriminate Hi.
  destruct sums as [|s0 [|s1 [|s2 [|s3 [|]]]]]; try discriminate Hsums.
  destruct (be16_word (Z.of_nat (40 + length payload))) as [_ Et]; [unfold u16_max; lia|].
  apply be16_word in Hport as [_ Ep]. apply be32_word in Hseq as [_ Es].
  unfold guest_frame. set (f := SERVICE_MAC ++ _).
  assert (Hf : length f = (54 + length payload + length pad)%nat).
  { unfold f. rewrite !length_app. cbn. lia. }
  unfold parse_segment. rewrite (guard_false (length f <? 54)%nat) by (apply Nat.ltb_ge; lia).
  rewrite (bind_Some _ _ 69), guard_false, (bind_Some _ _ 6), guard_false by reflexivity.
  change (Z.to_nat (Z.land 69 15) * 4)%nat with 20%nat.
  rewrite (guard_false (_ || (length f <? 14 + 20 + 20)%nat)) by (apply orb_false_iff; split; apply Nat.ltb_ge; lia).
  assert (Etotal : read_u16 f 16 = Some (Z.of_nat (40 + length payload))) by exact (f_equal Some Et).
  rewrite Etotal.
  change (default 0 (Some (Z.of_nat (40 + length payload)))) with (Z.of_nat (40 + length payload)). rewrite Nat2Z.id.
  rewrite guard_false by (apply orb_false_iff; split; apply Nat.ltb_ge; lia).
  rewrite (bind_Some _ _ [i0; i1; i2; i3]) by reflexivity.
  rewrite (bind_Some _ _ MMDS_LINK_LOCAL_ADDR), guard_false, guard_false by reflexivity.
  rewrite (bind_Some _ _ 80) by reflexivity. change (Z.to_nat (Z.shiftr 80 4) * 4)%nat with 20%nat.
  rewrite guard_false by (apply orb_false_iff; split; apply Nat.ltb_ge; lia).
  rewrite (bind_Some _ _ flags) by reflexivity.
  rewrite (bind_Some _ _ payload).
  2: { unfold slice. rewrite (proj2 (Nat.leb_le _ _)), (proj2 (Nat.leb_le _ _)) by lia. cbn [andb]. f_equal.
       replace (14 + (40 + length payload) - (14 + 20 + 20))%nat with (length payload) by lia.
       change (take (length payload) (payload ++ pad) = payload). apply take_app_length. }
  rewrite (bind_Some _ _ [m0; m1; m2; m3; m4; m5]) by reflexivity.
  do 3 f_equal; [f_equal; exact Ep|exact Es].
Qed.

Lemma guest_frame_process clk key seq ack flags payload sums pad r :
  key_ok key -> u32_range seq -> Z.of_nat (length payload) <= 65495 -> length sums = 4%nat ->
  process clk (guest_frame key seq ack flags payload sums pad) r =
  on_segment clk {| seg_key := key; seg_seq := seq; seg_flags := flags; seg_payload := payload |} r.
Proof.
  intros Hk Hseq Hlen Hsums.
  pose proof (guest_frame_parses key seq ack flags payload sums pad Hk Hseq Hlen Hsums) as Hp.
  assert (He : read_u16 (guest_frame key seq ack flags payload sums pad) 12 = Some ETHERTYPE_IPV4).
  { destruct key as [[mac ip] port], Hk as (Hm & _). unfold k_mac in Hm. cbn [fst snd] in Hm.
    destruct mac as [|m0 [|m1 [|m2 [|m3 [|m4 [|m5 [|]]]]]]]; try discriminate Hm. reflexivity. }
  unfold process. rewrite guard_false.
  2: { apply Nat.ltb_ge. unfold guest_frame. rewrite !length_app. destruct Hk as (-> & _). simpl. lia. }
  rewrite He, guard_false by reflexivity. rewrite bool_decide_eq_true_2 by done.
  unfold process_ipv4. by rewrite (bind_Some _ _ _ Hp).
Qed.

(** The guest's data segments, in sequence. *)
Fixpoint data_inputs (d : RwLock Value) (key : ClientKey) (seq ack : Z) (data : list (Clocks * list Z)) : list Input :=
  match data with
  | [] => []
  | (clk, c) :: data' =>
      {| in_clocks := clk; in_document := d;
         in_frame := guest_frame key seq ack (Z.lor TCP_FLAG_ACK TCP_FLAG_PSH) c [0; 0; 0; 0] [] |} ::
      data_inputs d key (wrap 32 (seq + Z.of_nat (length c))) ack data'
  end.

(** None of them comes more than 30 seconds after the one before. *)
Fixpoint prompt (key : ClientKey) (last : Z) (data : list (Clocks * list Z)) : Prop :=
  match data with
  | [] => True
  | (clk, _) :: data' => at_check clk key - last < IDLE_NANOS /\ prompt key (at_seen clk) data'
  end.

Definition request_of (data : list (Clocks * list Z)) : list Z := concat (snd <$> data).

Definition piece_ok (p : Clocks * list Z) : Prop := snd p <> [] /\ bytes_ok (snd p) /\ Z.of_nat (length (snd p)) <= 65495.

(** The connection after a piece of the request. *)
Definition advance (now : Z) (payload : list Z) (c : Connection) : Connection :=
  {| client_next := wrap 32 (client_next c + Z.of_nat (length payload)); server_first := server_first c;
     request := request c ++ payload; response := response c; last_seen := now |}.

Lemma data_segment clk key flags payload c r :
  has_flag flags TCP_FLAG_SYN = false -> has_flag flags TCP_FLAG_FIN = false ->
  connections r !! key = Some c -> at_check clk key - last_seen c < IDLE_NANOS ->
  payload <> [] -> Z.of_nat (length payload) <= 65495 ->
  Z.of_nat (length (request c)) + Z.of_nat (length payload) <= MAX_REQUEST ->
  let s := {| seg_key := key; seg_seq := client_next c; seg_flags := flags; seg_payload := payload |} in
  exists r0, connections r0 = filter (fresh clk) (connections r) /\ shared r0 = shared r /\
  on_segment clk s r =
  '(frames, c') ← reply s (advance (at_seen clk) payload c) (document (shared r)); Some (frames, store key c' r0).
Proof.
  intros Hsyn Hfin Hc Hfresh Hne Hlen Hmax s. unfold on_segment, s. cbn [seg_flags seg_key].
  set (r0 := with_connections (filter (fresh clk) (connections r)) r). exists r0. split; [done|]. split; [done|].
  rewrite Hsyn. assert (E : connections r0 !! key = Some c).
  { unfold r0. cbn. apply map_lookup_filter_Some. split; [done|]. unfold fresh, IDLE_NANOS in *. cbn. lia. }
  rewrite E. unfold accept. cbn [seg_payload seg_seq seg_flags seen client_next request].
  rewrite bool_decide_eq_false_2, Z.eqb_refl, (proj2 (Z.ltb_ge _ _) Hmax) by done. cbn [negb andb].
  rewrite (bind_Some _ _ _ (len_u32_small (length payload) ltac:(unfold u32_max; lia))). cbn [mbind option_bind].
  rewrite Hfin. reflexivity.
Qed.

Lemma has_blank_line_app l1 l2 : has_blank_line (l1 ++ l2) = false -> has_blank_line l1 = false.
Proof.
  induction l1 as [|a l1 IH]; [done|]. destruct l1 as [|b [|c [|d l1]]]; [done..|].
  change (has_blank_line ((a :: b :: c :: d :: l1) ++ l2)) with
    ((a =? 13) && (b =? 10) && (c =? 13) && (d =? 10) || has_blank_line ((b :: c :: d :: l1) ++ l2)).
  change (has_blank_line (a :: b :: c :: d :: l1)) with
    ((a =? 13) && (b =? 10) && (c =? 13) && (d =? 10) || has_blank_line (b :: c :: d :: l1)).
  rewrite !orb_false_iff. intros [-> Hl]. split; [done|by apply IH].
Qed.

Definition acked (key : ClientKey) (first next : Z) (data : list (Clocks * list Z)) (acks : list (list Z)) : Prop :=
  length acks = length data /\
  forall i a, acks !! i = Some a ->
    decode_frame a = Some (key, first, wrap 32 (next + zlen (request_of (take (S i) data))), TCP_FLAG_ACK, []).

Lemma acked_cons key first next clk p data a acks :
  decode_frame a = Some (key, first, wrap 32 (next + zlen p), TCP_FLAG_ACK, []) ->
  acked key first (wrap 32 (next + zlen p)) data acks -> acked key first next ((clk, p) :: data) (a :: acks).
Proof.
  intros Ha [Hl Has]. split; [simpl; by rewrite Hl|]. intros [|i] b Hb; cbn in Hb.
  - simplify_eq. rewrite Ha. unfold request_of. cbn. by rewrite take_0, app_nil_r.
  - rewrite (Has i b Hb). unfold request_of. rewrite wrap_add_l. cbn [take fmap list_fmap snd concat].
    by rewrite length_app, Nat2Z.inj_add, Z.add_assoc.
Qed.

Lemma advance_ok now p c :
  bytes_ok p -> zlen (request c) + zlen p <= MAX_REQUEST -> conn_ok c -> conn_ok (advance now p c).
Proof.
  intros Hp Hl (H1 & H2 & H3 & H4 & H5). split; [apply wrap32_range|]. split; [done|].
  split; [by apply Forall_app_2|]. split; [cbn; rewrite length_app; lia|done].
Qed.

(** A piece of the request before its end: it is acknowledged. *)
Lemma piece_acked d key ack clk p c r :
  key_ok key -> conn_ok c -> response c = None -> connections r !! key = Some c -> piece_ok (clk, p) ->
  at_check clk key - last_seen c < IDLE_NANOS -> zlen (request c) + zlen p <= MAX_REQUEST ->
  has_blank_line (request c ++ p) = false ->
  exists a r', process clk (guest_frame key (client_next c) ack (Z.lor TCP_FLAG_ACK TCP_FLAG_PSH) p [0; 0; 0; 0] [])
                 (with_document d r) = Some ([a], r') /\
    connections r' !! key = Some (advance (at_seen clk) p c) /\
    decode_frame a = Some (key, wrap 32 (server_first c + 1), wrap 32 (client_next c + zlen p), TCP_FLAG_ACK, []).
Proof.
  intros Hk Hc Hresp Hlook (Hne & Hpb & Hpl) Hfresh Hmax Hblank. cbn [snd] in *.
  rewrite guest_frame_process by (done || apply Hc).
  destruct (data_segment clk key (Z.lor TCP_FLAG_ACK TCP_FLAG_PSH) p c (with_document d r)) as (r0 & _ & _ & ->); try done.
  unfold reply. cbn [response advance request]. rewrite Hresp, Hblank. cbn [seg_key server_first client_next].
  destruct (frame_decodes key (wrap 32 (server_first c + 1)) (wrap 32 (client_next c + zlen p)) TCP_FLAG_ACK [])
    as (a & Ea & _ & _ & Hd); try done; try apply wrap32_range.
  cbn [advance server_first client_next]. rewrite Ea. cbn [mbind option_bind]. eexists a, _. split; [done|]. split; [|done].
  apply lookup_insert_eq.
Qed.

(** The piece that ends the request: the response is sent. *)
Lemma piece_answered d key ack clk p c r :
  key_ok key -> conn_ok c -> response c = None -> connections r !! key = Some c -> piece_ok (clk, p) ->
  at_check clk key - last_seen c < IDLE_NANOS -> zlen (request c) + zlen p <= MAX_REQUEST ->
  has_blank_line (request c ++ p) = true -> modest (document d) ->
  exists frames r', process clk (guest_frame key (client_next c) ack (Z.lor TCP_FLAG_ACK TCP_FLAG_PSH) p [0; 0; 0; 0] [])
                 (with_document d r) = Some (frames, r') /\
    reassemble key (wrap 32 (server_first c + 1)) (wrap 32 (client_next c + zlen p)) frames =
      Some (render (request c ++ p) (document d)).
Proof.
  intros Hk Hc Hresp Hlook (Hne & Hpb & Hpl) Hfresh Hmax Hblank Hm. cbn [snd] in *.
  rewrite guest_frame_process by (done || apply Hc).
  destruct (data_segment clk key (Z.lor TCP_FLAG_ACK TCP_FLAG_PSH) p c (with_document d r)) as (r0 & _ & _ & ->); try done.
  unfold reply. cbn [response advance request]. rewrite Hresp, Hblank. cbn [seg_key server_first client_next].
  destruct (render_ok (request c ++ p) (document d) Hm) as (Hrb & Hrn & _); [rewrite length_app; lia|].
  destruct (response_frames_spec key (wrap 32 (server_first c + 1)) (wrap 32 (client_next c + zlen p))
              (render (request c ++ p) (document d))) as (fs & Ef & _ & Hf); auto using wrap32_range.
  cbn [with_document shared advance server_first client_next]. rewrite Ef. cbn [mbind option_bind]. eauto.
Qed.

Lemma request_of_cons clk p data : request_of ((clk, p) :: data) = p ++ request_of data.
Proof. done. Qed.

Lemma data_exchange d key ack clk p data c r :
  key_ok key -> conn_ok c -> response c = None -> connections r !! key = Some c ->
  Forall piece_ok (data ++ [(clk, p)]) -> prompt key (last_seen c) (data ++ [(clk, p)]) ->
  zlen (request c ++ request_of (data ++ [(clk, p)])) <= MAX_REQUEST ->
  has_blank_line (request c ++ request_of data) = false ->
  has_blank_line (request c ++ request_of (data ++ [(clk, p)])) = true -> modest (document d) ->
  exists acks frames r',
    exchange (data_inputs d key (client_next c) ack (data ++ [(clk, p)])) r =
      Some (((fun a => [a]) <$> acks) ++ [frames], r') /\
    acked key (wrap 32 (server_first c + 1)) (client_next c) data acks /\
    reassemble key (wrap 32 (server_first c + 1))
      (wrap 32 (client_next c + zlen (request_of (data ++ [(clk, p)])))) frames =
      Some (render (request c ++ request_of (data ++ [(clk, p)])) (document d)).
Proof.
  intros Hk. revert c r. induction data as [|[clk' p'] data IH]; intros c r Hc Hresp Hlook Hps Hpr Hlen Hb1 Hb2 Hm; cbn [app] in *.
  - apply Forall_cons in Hps as [Hp _]. destruct Hpr as [Hf _]. rewrite request_of_cons in *.
    change (request_of []) with (@nil Z) in *. rewrite app_nil_r in *. rewrite length_app in Hlen.
    destruct (piece_answered d key ack clk p c r) as (fs & r' & E & Hr); try done; [lia|].
    exists [], fs, r'. cbn [data_inputs exchange in_clocks in_document in_frame]. rewrite E. by cbn; split_and!.
  - apply Forall_cons in Hps as [Hp Hps]. destruct Hpr as [Hf Hpr]. rewrite !request_of_cons in *. rewrite !(assoc_L (++)) in *.
    pose proof Hlen as Hlen'. rewrite !length_app in Hlen'. pose proof Hp as (_ & Hpb & _). cbn [snd] in Hpb.
    destruct (piece_acked d key ack clk' p' c r) as (a & r1 & E & Hl1 & Hd); try done; [lia|by eapply has_blank_line_app|].
    destruct (IH (advance (at_seen clk') p' c) r1) as (acks & fs & r' & E' & Ha & Hr); try done.
    { apply advance_ok; [done|lia|done]. }
    exists (a :: acks), fs, r'. cbn [data_inputs exchange in_clocks in_document in_frame]. rewrite E. cbn [mbind option_bind].
    cbn [advance client_next server_first] in E', Ha, Hr. rewrite E'. split; [done|]. split; [by apply acked_cons|].
    rewrite wrap_add_l in Hr. rewrite length_app, Nat2Z.inj_add. by rewrite Z.add_assoc.
Qed.

(** The guest's connection request. *)
Definition syn_input (d : RwLock Value) (clk : Clocks) (key : ClientKey) (isn : Z) : Input :=
  {| in_clocks := clk; in_document := d; in_frame := guest_frame key isn 0 TCP_FLAG_SYN [] [0; 0; 0; 0] [] |}.

Lemma syn_answered d clk key isn r :
  key_ok key -> u32_range isn -> clocks_ok clk -> (size (connections r) < MAX_CONNECTIONS)%nat ->
  exists synack r',
    process clk (in_frame (syn_input d clk key isn)) (with_document d r) = Some ([synack], r') /\
    connections r' !! key = Some {| client_next := wrap 32 (isn + 1); server_first := initial_sequence clk key;
                                    request := []; response := None; last_seen := at_seen clk |} /\
    decode_frame synack =
      Some (key, initial_sequence clk key, wrap 32 (isn + 1), Z.lor TCP_FLAG_SYN TCP_FLAG_ACK, []).
Proof.
  intros Hk Hi Hclk Hs. pose proof (initial_sequence_range clk key Hclk Hk) as Hf. cbn [syn_input in_frame].
  rewrite guest_frame_process by (done || simpl; lia). unfold on_segment. cbn [seg_flags seg_key].
  change (has_flag TCP_FLAG_SYN TCP_FLAG_SYN) with true. cbn iota. unfold on_syn. cbn [seg_key seg_seq].
  rewrite guard_false.
  2: { apply andb_false_iff. right. apply Nat.leb_gt. eapply Nat.le_lt_trans; [|exact Hs].
       apply map_subseteq_size, map_filter_subseteq. }
  destruct (frame_decodes key (initial_sequence clk key) (wrap 32 (isn + 1)) (Z.lor TCP_FLAG_SYN TCP_FLAG_ACK) [])
    as (f & -> & _ & _ & Hd); try done; try apply wrap32_range.
  eexists f, _. split; [done|]. split; [apply lookup_insert_eq|done].
Qed.


(** ** Retransmissions *)

(** Once a response has been sent, the request repeated gets the same
    frames again, and an acknowledgement gets no frame at all: the service
    never answers an acknowledgement with data.  Neither changes the
    connection, but for the time it was last seen. *)
Theorem response_replayed clk key seq ack payload sums pad c resp r :
  key_ok key -> u32_range seq -> conn_ok c -> connections r !! key = Some c -> response c = Some resp ->
  at_check clk key - last_seen c < IDLE_NANOS -> length sums = 4%nat -> Z.of_nat (length payload) <= 65495 ->
  seq <> client_next c ->
  exists r', connections r' !! key = Some (seen (at_seen clk) c) /\
    process clk (guest_frame key seq ack TCP_FLAG_ACK payload sums pad) r =
      (fun fs => (fs, r')) <$>
        (if bool_decide (payload = []) then Some []
         else response_frames key (wrap 32 (server_first c + 1)) (client_next c) resp).
Proof.
  intros Hk Hseq Hc Hl Hresp Hfresh Hsums Hp Hne. rewrite guest_frame_process by done.
  unfold on_segment. cbn [seg_flags seg_key]. change (has_flag TCP_FLAG_ACK TCP_FLAG_SYN) with false. cbn iota.
  set (r0 := with_connections (filter (fresh clk) (connections r)) r).
  assert (E : connections r0 !! key = Some c).
  { unfold r0. cbn. apply map_lookup_filter_Some. split; [done|]. unfold fresh, IDLE_NANOS in *. cbn. lia. }
  rewrite E. exists (store key (seen (at_seen clk) c) r0). split; [apply lookup_insert_eq|].
  unfold accept. cbn [seg_payload seg_seq seg_flags seen client_next request].
  rewrite (proj2 (Z.eqb_neq _ _) Hne), andb_false_r. cbn [mbind option_bind].
  change (has_flag TCP_FLAG_ACK TCP_FLAG_FIN) with false. cbn iota. unfold reply. cbn [mbind option_bind seen response seg_payload seg_flags seg_key server_first client_next].
  change (has_flag TCP_FLAG_ACK TCP_FLAG_FIN) with false. rewrite Hresp. cbn [mbind option_bind].
  destruct (bool_decide (payload = [])); cbn [negb]; [done|].
  by destruct (response_frames _ _ _ _).
Qed.
End ResponderLemmas.

(** Every frame the service builds reads back, at a guest that verifies
    the IP and TCP checksums, as the segment it was built from: the
    addressee, the numbers, the flags and the payload. *)
Theorem tcp_frame_reads_back key seq ack flags payload :
  key_ok key -> u32_range seq -> u32_range ack -> byte flags -> bytes_ok payload ->
  zlen payload <= 65495 ->
  (build_tcp_frame key seq ack flags payload ≫= decode_frame) = Some (key, seq, ack, flags, payload).
Proof.
  intros Hk Hs Ha Hf Hp Hl. destruct (frame_decodes key seq ack flags payload) as (f & -> & _ & _ & Hd); done.
Qed.

(** ** A guest on the network *)

Module DemoGuest.
Definition serde : Serde := {| json_to_vec := fun _ => Err ""; json_display := fun _ => "" |}.
#[local] Existing Instance serde.
Definition key : ClientKey := ([2; 0; 0; 0; 0; 1], [192; 168; 64; 2], 40000).
Definition clock (t : Z) : Clocks := {| at_check := fun _ => t; at_seen := t; subsec_nanos := 7 |}.
Definition metadata : RwLock Value := {| cell := Str "ready"; poisoned := false |}.
Definition first_piece : list Z := bytes "GET / HT".
Definition last_piece : list Z := bytes ("TP/1.1" +:+ crlf +:+ crlf).
Definition idle : PacketResponder := {| shared := metadata; connections := ∅ |}.

Lemma key_fine : key_ok key.
Proof. split_and!; try done; by apply literal_bytes. Defined.

Lemma metadata_modest : modest (document metadata).
Proof.
  intros path json v Hv. unfold answer_for. rewrite Hv. unfold HostMmds.lookup in Hv.
  destruct (str_is_empty _); [injection Hv as <-; by destruct json|].
  destruct (split_char SLASH _) eqn:E; [by apply split_char_nonempty in E|done].
Defined.

Definition answered : Connection :=
  {| client_next := 300; server_first := 9; request := []; response := Some [72; 73]; last_seen := 0 |}.
End DemoGuest.

Lemma tcp_frame_reads_back_witness :
  (build_tcp_frame DemoGuest.key 1 2 TCP_FLAG_ACK [104; 105] ≫= decode_frame) =
  Some (DemoGuest.key, 1, 2, TCP_FLAG_ACK, [104; 105]).
Proof.
  apply (tcp_frame_reads_back DemoGuest.key 1 2 TCP_FLAG_ACK [104; 105]).
  - apply DemoGuest.key_fine.
  - by split.
  - by split.
  - by split.
  - by apply literal_bytes.
  - done.
Defined.

Lemma responder_never_panics_witness :
  exists answers r',
    @exchange DemoGuest.serde [{| in_clocks := DemoGuest.clock 0; in_document := DemoGuest.metadata; in_frame := replicate 60 255 |}]
      {| shared := DemoGuest.metadata; connections := ∅ |} = Some (answers, r') /\
    responder_ok r' /\ Forall (Forall frame_small) answers.
Proof.
  apply (@responder_never_panics DemoGuest.serde). constructor; [|constructor]. split; [by split|].
  split; [by apply literal_bytes|apply DemoGuest.metadata_modest].
Defined.


Lemma response_replayed_witness :
  exists r', connections r' !! DemoGuest.key = Some (seen 5 DemoGuest.answered) /\
    @process DemoGuest.serde (DemoGuest.clock 5) (guest_frame DemoGuest.key 250 12 TCP_FLAG_ACK [] [0; 0; 0; 0] [])
      {| shared := DemoGuest.metadata; connections := {[DemoGuest.key := DemoGuest.answered]} |} = Some ([], r').
Proof.
  destruct (@response_replayed DemoGuest.serde (DemoGuest.clock 5) DemoGuest.key 250 12 [] [0; 0; 0; 0] [] DemoGuest.answered [72; 73]
              {| shared := DemoGuest.metadata; connections := {[DemoGuest.key := DemoGuest.answered]} |}) as (r' & Hl & E).
  - apply DemoGuest.key_fine.
  - by split.
  - refine (conj _ (conj _ (conj _ (conj _ _)))); [by split|by split|constructor|by vm_compute|].
    intros resp [= <-]. refine (conj _ (conj _ _)); [by apply literal_bytes|done|by vm_compute].
  - apply lookup_singleton_eq.
  - done.
  - done.
  - done.
  - done.
  - done.
  - exists r'. split; [exact Hl|exact E].
Defined.
