(* ===== verification/UidRegistry.v ===== *)
(** * The jailer's uid registry (hephaestus-jailer/src/uid_registry.rs)

    The file [.uid-allocations] of a work root, one [<id> <uid>] line per
    instance: opening and parsing it under its exclusive lock, choosing a uid,
    and rewriting it.  An open registry is its path and entries; the file and
    its lock are calls to the outside. *)

From S2P Require Import Prelude RustStr Utf8 World Pool.
Local Open Scope string_scope.
Local Open Scope Z_scope.
Local Open Scope rust_scope.
Local Open Scope list_scope.

Definition REGISTRY_NAME : string := ".uid-allocations".

Inductive RegistryError :=
| Open (path source : string)
| Lock (path source : string)
| Corrupt (path line : string)
| Rewrite (path source : string)
| Exhausted (id : string) (base end_ : Z).

Abbreviation Entries := (list (string * Z)).

Record Registry := { reg_path : string; entries : Entries }.

Definition id_char (a : Ascii.ascii) : bool :=
  is_ascii_alphanumeric a || Ascii.eqb a (ch 45) || Ascii.eqb a (ch 95).
Definition valid_id (id : string) : bool := (1 <=? len id) && (len id <=? 64) && str_forall id_char id.

(** ** Parsing *)

Definition parse_entry (line : string) : option (string * Z) :=
  match split_once (ch 32) line with
  | None => None
  | Some (id, uid) =>
      if negb (valid_id id) then None
      else match parse_uint u32_max uid with Ok u => Some (id, u) | Err _ => None end
  end.

Fixpoint parse_entries (path : string) (ls : list string) : Result Entries RegistryError :=
  match ls with
  | [] => Ok []
  | l :: rest =>
      let line := trim l in
      if str_is_empty line then parse_entries path rest
      else match parse_entry line with
           | Some e => let? es := parse_entries path rest in Ok (e :: es)
           | None => Err (Corrupt path line)
           end
  end.

(** [read_to_string] refuses bytes that are not UTF-8. *)
Definition entries_of (path : string) (raw : Result string string) : Result Entries RegistryError :=
  match raw with
  | Err e => Err (Open path e)
  | Ok text => if utf8_valid text then parse_entries path (lines text)
               else Err (Open path "stream did not contain valid UTF-8")
  end.

(** ** Choosing a uid *)

Definition find_entry (id : string) (es : Entries) : option Z :=
  snd <$> find (fun e => String.eqb (fst e) id) es.
Definition uid_recorded (uid : Z) (es : Entries) : bool := existsb (fun e => snd e =? uid) es.

Fixpoint set_entry (id : string) (uid : Z) (es : Entries) : Entries :=
  match es with
  | [] => [(id, uid)]
  | (i, u) :: rest => if String.eqb i id then (i, uid) :: rest else (i, u) :: set_entry id uid rest
  end.
Definition drop_entry (id : string) (es : Entries) : Entries :=
  List.filter (fun e => negb (String.eqb (fst e) id)) es.

(** ** The file *)

Definition registry_text (es : Entries) : string :=
  unlines ((fun e => fst e +:+ " " +:+ to_dec (snd e)) <$> es).

#[global] Arguments entries_of : simpl never.
#[global] Arguments registry_text : simpl never.

Section Ops.
Context {W : Type} `{Outside W} {S : Type}.
Abbreviation R := (M W S RegistryError).

Definition rewrite (reg : Registry) : R unit :=
  let path := reg_path reg in
  let! r := ask (Rewind path) in
  do! lift (map_err (Rewrite path) r) in
  let! r := ask (SetLen path 0) in
  do! lift (map_err (Rewrite path) r) in
  let! r := ask (WriteAll path (registry_text (entries reg))) in
  do! lift (map_err (Rewrite path) r) in
  let! r := ask (SyncAll path) in
  lift (map_err (Rewrite path) r).

(** Closing the file releases its lock. *)
Definition drop_registry {E} (reg : Registry) : M W S E unit := ask (Unlock (reg_path reg)).

Definition open (work_root : string) : R Registry :=
  let path := path_join work_root REGISTRY_NAME in
  let! r := ask (OpenCreate path (Some 384)) in
  do! lift (map_err (Open path) r) in
  let! r := ask (SetMode path 384) in
  do! lift (map_err (Open path) r) in
  let! r := ask (FlockWait path) in
  do! lift (map_err (Lock path) r) in
  let! raw := ask (ReadAll path) in
  match entries_of path raw with
  | Ok es => ret {| reg_path := path; entries := es |}
  | Err e => do! ask (Unlock path) in fail e
  end.

(** Whether an account owns [uid] (hephaestus-jailer/src/main.rs). *)
Definition passwd_entry_exists {E} (uid : Z) : M W S E bool := ask (GetPwUid uid).

(** [for uid in base..end]: [n] uids from [uid] on. *)
Fixpoint scan (es : Entries) (uid : Z) (n : nat) : R (option Z) :=
  match n with
  | O => ret None
  | Datatypes.S n' =>
      if uid =? 0 then scan es (uid + 1) n'
      else if uid_recorded uid es then scan es (uid + 1) n'
      else let! taken := passwd_entry_exists uid in
           if taken then scan es (uid + 1) n' else ret (Some uid)
  end.

Definition allocate (reg : Registry) (id : string) (base range : Z) : R Z :=
  match find_entry id (entries reg) with
  | Some uid => ret uid
  | None =>
      let end_ := saturating_add u32_max base range in
      let! found := scan (entries reg) base (Z.to_nat (end_ - base)) in
      lift (ok_or found (Exhausted id base end_))
  end.

Definition upsert (reg : Registry) (id : string) (uid : Z) : R Registry :=
  let reg := {| reg_path := reg_path reg; entries := set_entry id uid (entries reg) |} in
  do! rewrite reg in
  ret reg.

Definition remove (reg : Registry) (id : string) : R (bool * Registry) :=
  let reg' := {| reg_path := reg_path reg; entries := drop_entry id (entries reg) |} in
  let removed := negb (length (entries reg') =? length (entries reg))%nat in
  do! (if removed then rewrite reg' else ret tt) in
  ret (removed, reg').
End Ops.

(** ** The round trip of the file *)

Definition wf_entry (e : string * Z) : Prop := valid_id (fst e) = true /\ u32_range (snd e).

Lemma id_char_plain a : id_char a = true -> ws_lead a = false /\ (byte_of a <? 128) = true /\ a <> NL /\ a <> ch 32.
Proof.
  intros Ha. unfold id_char, is_ascii_alphanumeric, is_ascii_digit, is_ascii_upper, is_ascii_lower, char_in_range in Ha.
  assert (Hb : forall b, id_char b = false -> a <> b).
  { intros b Hb ->. unfold id_char, is_ascii_alphanumeric, is_ascii_digit, is_ascii_upper, is_ascii_lower, char_in_range in Hb. congruence. }
  split_and!; [|  |by apply Hb|by apply Hb].
  - destruct (ws_lead a) eqn:E; [|done]. exfalso. unfold ws_lead in E. apply existsb_exists in E as (p & Hp & E).
    destruct p as [|b p]; [done|]. apply Ascii.eqb_eq in E. subst b.
    simpl in Hp. by repeat (destruct Hp as [Hp|Hp]; [injection Hp as <- _; vm_compute in Ha|]).
  - rewrite !orb_true_iff, !Ascii.eqb_eq in Ha. destruct Ha as [[Ha|Ha]|Ha]; [|by subst..]. lia.
Qed.

Lemma valid_id_spec id :
  valid_id id = true -> id <> "" /\ str_forall id_char id = true.
Proof. unfold valid_id. rewrite !andb_true_iff. intros [[H1 _] H2]. split; [by intros ->|done]. Qed.

Definition is_ascii (a : Ascii.ascii) : bool := byte_of a <? 128.
Definition entry_line (e : string * Z) : string := fst e +:+ " " +:+ to_dec (snd e).

(** A line of digits after a name and a space is its own trimming. *)
Lemma trim_entry id v :
  id <> "" -> str_forall (fun a => negb (ws_lead a)) id = true -> v <> "" ->
  str_forall (fun a => negb (ws_lead a)) v = true -> trim (id +:+ String (ch 32) v) = id +:+ String (ch 32) v.
Proof.
  intros Hne Hid Hvne Hv. unfold trim.
  assert (Hs : trim_start (id +:+ String (ch 32) v) = id +:+ String (ch 32) v).
  { destruct id as [|a id]; [done|]. simpl in *. apply andb_true_iff in Hid as [Ha _].
    apply trim_start_lead. by apply negb_true_iff. }
  rewrite Hs, trim_end_app_lead by done. f_equal. cbn [trim_end].
  assert (Hd : trim_start (String (ch 32) v) = v).
  { unfold trim_start. cbn [String.length trim_start_any]. change (strip_any white_space (String (ch 32) v)) with (Some v).
    destruct v as [|b v]; [done|]. simpl in Hv. apply andb_true_iff in Hv as [Hb _]. apply negb_true_iff in Hb.
    by apply (trim_start_lead b v). }
  rewrite Hd. destruct v as [|b v]; [done|]. cbn [str_is_empty]. f_equal.
  by apply trimmed_end, trim_no_lead.
Qed.

Lemma entry_line_read e path rest :
  wf_entry e ->
  contains_char NL (entry_line e) = false /\ str_forall is_ascii (entry_line e) = true /\ strip_cr (entry_line e) = entry_line e /\
  parse_entries path (entry_line e :: rest) = let? es := parse_entries path rest in Ok (e :: es).
Proof.
  destruct e as [id uid]. intros [Hid Hu]. cbn [fst snd] in *. pose proof Hid as (Hne & Hc)%valid_id_spec.
  unfold u32_range in Hu. pose proof (to_dec_digits uid ltac:(lia)) as Hd. assert (Hdn : to_dec uid <> "") by (pose proof (to_dec_nonempty uid) as Hn; by intros E; rewrite E in Hn).
  assert (Hl : str_forall (fun a => negb (ws_lead a)) id = true).
  { eapply str_forall_impl; [|exact Hc]. intros a Ha. apply negb_true_iff. by apply id_char_plain. }
  pose proof (trim_entry id (to_dec uid) Hne Hl Hdn (digits_no_lead _ Hd)) as Ht.
  unfold entry_line. cbn [fst snd]. change (" " +:+ to_dec uid) with (String (ch 32) (to_dec uid)). split_and!.
  - rewrite contains_char_app. simpl. rewrite (digits_no_char NL _ eq_refl Hd), orb_false_r.
    apply (contains_char_forall NL id_char); done.
  - rewrite str_forall_app. cbn [str_forall]. apply andb_true_iff. split.
    + eapply str_forall_impl; [|exact Hc]. intros a Ha. by apply id_char_plain.
    + eapply str_forall_impl; [|exact Hd]. unfold is_ascii_digit, char_in_range, is_ascii. intros a Ha. lia.
  - by apply trim_end_strip_cr, trimmed_end.
  - cbn [parse_entries]. rewrite Ht. assert (He : str_is_empty (id +:+ String (ch 32) (to_dec uid)) = false) by (by destruct id).
    rewrite He. unfold parse_entry. rewrite split_once_app by (by apply (contains_char_forall _ id_char)).
    rewrite Hid. cbn [negb]. by rewrite parse_to_dec by lia.
Qed.

Lemma registry_read es path : Forall wf_entry es -> entries_of path (Ok (registry_text es)) = Ok es.
Proof.
  intros Hes. unfold entries_of. change (registry_text es) with (unlines (entry_line <$> es)).
  rewrite lines_unlines.
  2: { apply Forall_fmap. eapply Forall_impl; [exact Hes|]. intros e He. by apply (entry_line_read e path []). }
  rewrite ascii_valid.
  2: { induction Hes as [|e es He Hes IH]; [done|]. cbn [fmap list_fmap unlines]. rewrite str_forall_app. cbn [str_forall].
       rewrite IH, andb_true_r. by apply (entry_line_read e path []). }
  induction Hes as [|e es He Hes IH]; [done|]. destruct (entry_line_read e path (strip_cr <$> (entry_line <$> es)) He) as (_ & _ & Hs & Hp).
  cbn [fmap list_fmap] in *. rewrite Hs, Hp. by rewrite IH.
Qed.

(** What is read is safe to use: ids are single path components, uids fit. *)
Lemma parse_entries_wf path ls es : parse_entries path ls = Ok es -> Forall wf_entry es.
Proof.
  revert es. induction ls as [|l ls IH]; intros es; cbn [parse_entries]; [by intros [= <-]|].
  destruct (str_is_empty (trim l)); [by apply IH|]. unfold parse_entry.
  destruct (split_once (ch 32) (trim l)) as [[id uid]|]; [|done].
  destruct (valid_id id) eqn:Hid; [|done]. cbn [negb]. destruct (parse_uint u32_max uid) as [u|] eqn:Hu; [|done].
  destruct (parse_entries path ls) as [es'|] eqn:E; [|done]. cbn. intros [= <-].
  apply parse_uint_range in Hu; [|done]. constructor; [by split|by apply IH].
Qed.

Lemma entries_of_wf path raw es : entries_of path raw = Ok es -> Forall wf_entry es.
Proof.
  unfold entries_of. destruct raw as [text|]; [|done]. destruct (utf8_valid text); [|done]. apply parse_entries_wf.
Qed.

(** ** Entries *)

Lemma find_entry_set id uid es id' :
  find_entry id' (set_entry id uid es) = if String.eqb id' id then Some uid else find_entry id' es.
Proof.
  induction es as [|[i u] es IH]; unfold find_entry in *; cbn [set_entry find fst].
  - rewrite (String.eqb_sym id' id). by destruct (String.eqb id id').
  - destruct (String.eqb_spec i id) as [->|Hi]; cbn [find fst].
    + rewrite (String.eqb_sym id' id). by destruct (String.eqb id id').
    + destruct (String.eqb_spec i id') as [->|]; [|exact IH]. by destruct (String.eqb_spec id' id).
Qed.

Lemma find_entry_drop id es id' :
  find_entry id' (drop_entry id es) = if String.eqb id' id then None else find_entry id' es.
Proof.
  induction es as [|[i u] es IH]; unfold find_entry, drop_entry in *; cbn [List.filter find fst].
  - by destruct (String.eqb id' id).
  - destruct (String.eqb_spec i id) as [->|Hi]; cbn [negb find fst].
    + rewrite IH. destruct (String.eqb_spec id' id) as [Heq|Hn]; [done|].
      destruct (String.eqb_spec id id') as [Heq|]; [by destruct Hn|done].
    + destruct (String.eqb_spec i id') as [->|]; [|exact IH]. by destruct (String.eqb_spec id' id).
Qed.

Lemma find_entry_in id es uid : find_entry id es = Some uid -> In (id, uid) es.
Proof.
  unfold find_entry. destruct (find _ es) as [[i u]|] eqn:E; [|done]. intros [= <-].
  apply find_some in E as [Hin He]. apply String.eqb_eq in He. cbn in He. by subst i.
Qed.

Lemma uid_recorded_spec uid es : uid_recorded uid es = true <-> exists id, In (id, uid) es.
Proof.
  unfold uid_recorded. rewrite existsb_exists. split.
  - intros ([i u] & Hin & He%Z.eqb_eq). cbn in He. subst. eauto.
  - intros [id Hin]. exists (id, uid). split; [done|apply Z.eqb_refl].
Qed.

Lemma set_entry_wf id uid es : wf_entry (id, uid) -> Forall wf_entry es -> Forall wf_entry (set_entry id uid es).
Proof.
  intros He Hes. induction Hes as [|[i u] es Hi Hes IH]; cbn [set_entry]; [by constructor|].
  destruct (String.eqb_spec i id) as [->|]; by constructor.
Qed.
Lemma drop_entry_wf id es : Forall wf_entry es -> Forall wf_entry (drop_entry id es).
Proof.
  intros Hes. induction Hes as [|e es He Hes IH]; [done|]. unfold drop_entry in *. cbn [List.filter].
  destruct (negb _); [by constructor|done].
Qed.

Lemma set_entry_in id uid es i u :
  In (i, u) (set_entry id uid es) -> (i = id /\ u = uid) \/ (In (i, u) es).
Proof.
  induction es as [|[i' u'] es IH]; cbn [set_entry In]; [by intros [[= <- <-]|[]]; left|].
  destruct (String.eqb_spec i' id) as [->|]; cbn [In].
  - intros [[= <- <-]|Hin]; [by left|by right; right].
  - intros [[= <- <-]|Hin]; [by right; left|]. destruct (IH Hin); [by left|by right; right].
Qed.

(** ** Choosing a uid *)

Section AllocLemmas.
Context {W : Type} `{Outside W} {S : Type}.

(** A uid the scan passes over. *)
Definition passed (es : Entries) (t : Trace) (u : Z) : Prop :=
  u = 0 \/ uid_recorded u es = true \/ Ev (GetPwUid u) true ∈ t.

Lemma passed_mono es t1 t2 u : passed es t1 u -> (forall e, e ∈ t1 -> e ∈ t2) -> passed es t2 u.
Proof. unfold passed. intros [?|[?|?]] Ht; auto. Qed.

Lemma scan_spec es uid n (s : S) w :
  wp (scan es uid n)
    (fun r s' _ t => s' = s /\ exists found, r = Ok found /\
       match found with
       | None => forall u, uid <= u < uid + Z.of_nat n -> passed es t u
       | Some v => uid <= v < uid + Z.of_nat n /\ v <> 0 /\ uid_recorded v es = false /\ Ev (GetPwUid v) false ∈ t /\
                   forall u, uid <= u < v -> passed es t u
       end) s w.
Proof.
  revert uid s w. induction n as [|n IH]; intros uid s w; cbn [scan].
  { wp_step. split; [done|]. exists None. split; [done|]. intros u Hu. lia. }
  assert (Hskip : forall t0, passed es t0 uid -> forall w,
    wp (scan es (uid + 1) n) (fun r s' _ t => s' = s /\ exists found, r = Ok found /\
       match found with
       | None => forall u, uid <= u < uid + Z.of_nat (Datatypes.S n) -> passed es (t0 ++ t) u
       | Some v => uid <= v < uid + Z.of_nat (Datatypes.S n) /\ v <> 0 /\ uid_recorded v es = false /\
                   Ev (GetPwUid v) false ∈ t0 ++ t /\ forall u, uid <= u < v -> passed es (t0 ++ t) u
       end) s w).
  { intros t0 H0 w'. eapply wp_mono; [apply IH|]. intros r s' w2 t (-> & found & -> & Hf). split; [done|].
    exists found. split; [done|]. destruct found as [v|].
    - destruct Hf as (Hv & Hz & Hrec & Hev & Hall). split_and!; try done; try lia; [set_solver|].
      intros u Hu. destruct (Z.eq_dec u uid) as [->|]; [eapply passed_mono; [exact H0|set_solver]|].
      eapply passed_mono; [apply Hall; lia|set_solver].
    - intros u Hu. destruct (Z.eq_dec u uid) as [->|]; [eapply passed_mono; [exact H0|set_solver]|].
      eapply passed_mono; [apply Hf; lia|set_solver]. }
  destruct (Z.eqb_spec uid 0) as [->|Hz]; [apply (Hskip []); by left|].
  destruct (uid_recorded uid es) eqn:Hr; [apply (Hskip []); by right; left|].
  unfold passwd_entry_exists. wp_step. apply wp_ask. intros taken w' _. cbv beta iota. destruct taken.
  - apply (Hskip [Ev (GetPwUid uid) true]). right; right. set_solver.
  - wp_step. split; [done|]. exists (Some uid). split; [done|]. split_and!; [lia..|done| |intros; lia]. set_solver.
Qed.

(** The scan looks accounts up, and does nothing else. *)
Definition account_lookup (A : Type) (c : Call A) : Prop := match c with GetPwUid _ => True | _ => False end.
Lemma scan_only es uid n (s : S) w : wp (scan es uid n) (fun _ _ _ t => Only account_lookup t) s w.
Proof.
  revert uid w. induction n as [|n IH]; intros uid w; cbn [scan]; [wp_step; apply only_nil|].
  destruct (uid =? 0); [apply IH|]. destruct (uid_recorded uid es); [apply IH|].
  unfold passwd_entry_exists. wp_step. wp_step. destruct a; [|wp_step; apply only_cons; [done|apply only_nil]].
  eapply wp_mono; [apply IH|]. intros. by apply only_cons.
Qed.

(** The uid of an instance: one that is already recorded is reused as it
    is, without any lookup; otherwise it is the lowest uid of the window
    [base, base + range) (cut off at the 32-bit maximum) that is not 0, that no
    entry holds and that no account owns, and the registry reports exhaustion
    exactly when the window has none. *)
Theorem allocate_lowest_free reg id base range (s : S) w :
  u32_range base ->
  wp (allocate reg id base range)
    (fun r s' _ t => s' = s /\
       match find_entry id (entries reg) with
       | Some uid => r = Ok uid /\ t = []
       | None =>
           let end_ := saturating_add u32_max base range in
           match r with
           | Ok uid => base <= uid < end_ /\ uid <> 0 /\ uid_recorded uid (entries reg) = false /\
                       Ev (GetPwUid uid) false ∈ t /\ forall u, base <= u < uid -> passed (entries reg) t u
           | Err e => e = Exhausted id base end_ /\ forall u, base <= u < end_ -> passed (entries reg) t u
           end
       end) s w.
Proof.
  intros Hb. unfold allocate. destruct (find_entry id (entries reg)) as [uid|]; [by wp_step|].
  set (end_ := saturating_add u32_max base range). wp_step. eapply wp_mono; [apply scan_spec|].
  intros r s' w' t (-> & found & -> & Hf). destruct found as [v|]; cbn [ok_or lift]; wp_step; (split; [done|]); rewrite app_nil_r.
  - destruct Hf as (Hv & Hf). split; [lia|done].
  - split; [done|]. intros u Hu. apply Hf. lia.
Qed.
End AllocLemmas.

Lemma allocate_lowest_free_witness :
  500 <= 501 < 1500 /\ 501 <> 0 /\ uid_recorded 501 [("a", 500)] = false /\ passed [("a", 500)] [Ev (GetPwUid 501) false] 500.
Proof.
  assert (Hb : u32_range 500) by (unfold u32_range, u32_max; lia).
  pose proof (wp_result _ _ _ _ _ _ _ _
    (allocate_lowest_free (H := calm) {| reg_path := "r"; entries := [("a", 500)] |} "b" 500 1000 tt tt Hb) eq_refl) as Hw.
  destruct Hw as (_ & Hr & Hz & Hn & _ & Hp). split; [exact Hr|]. split; [exact Hz|]. split; [exact Hn|]. apply Hp. lia.
Defined.

(** ** The file across processes *)

(** What one process writes into the uid registry, the next one reads:
    when a process has read any registry file, then recording a valid id and
    a 32-bit uid writes a file that reads back as the same entries with this
    one set, and releasing the id writes a file that reads back as the
    entries without it; the uids of all other ids are kept. *)
Theorem registry_roundtrip path raw es id uid :
  entries_of path raw = Ok es -> valid_id id = true -> u32_range uid ->
  (let es' := set_entry id uid es in
   entries_of path (Ok (registry_text es')) = Ok es' /\ find_entry id es' = Some uid /\
   forall id', id' <> id -> find_entry id' es' = find_entry id' es) /\
  (let es' := drop_entry id es in
   entries_of path (Ok (registry_text es')) = Ok es' /\ find_entry id es' = None /\
   forall id', id' <> id -> find_entry id' es' = find_entry id' es).
Proof.
  intros Hes%entries_of_wf Hid Hu. split; cbv zeta; (split; [apply registry_read|split]).
  - by apply set_entry_wf.
  - by rewrite find_entry_set, String.eqb_refl.
  - intros id' Hne. by rewrite find_entry_set, (proj2 (String.eqb_neq _ _) Hne).
  - by apply drop_entry_wf.
  - by rewrite find_entry_drop, String.eqb_refl.
  - intros id' Hne. by rewrite find_entry_drop, (proj2 (String.eqb_neq _ _) Hne).
Qed.
Lemma registry_roundtrip_witness :
  entries_of "r" (Ok (registry_text (set_entry "b" 502 [("a", 501)]))) = Ok [("a", 501); ("b", 502)].
Proof.
  exact (proj1 (proj1 (registry_roundtrip "r" (Ok ("a 501" +:+ nl)) [("a", 501)] "b" 502 eq_refl eq_refl
    ltac:(unfold u32_range, u32_max; lia)))).
Defined.
