(* ===== verification/Profile.v ===== *)
(** * The sandbox profile of a VM (hephaestus-jailer/src/profile.rs)

    The generator of the profile text, and the profile language it writes: a
    reader of S-expressions with comments and string literals.  The theorem
    says that the text reads as exactly the rules meant, whatever bytes the
    paths contain. *)

From S2P Require Import Prelude RustStr Utf8 World.
Local Open Scope string_scope.
Local Open Scope Z_scope.
Local Open Scope rust_scope.
Local Open Scope list_scope.

Record ProfileInputs := {
  work_dirs : list string; read_write_files : list string; reads : list string; read_dirs : list string }.

Inductive GenError :=
| GenCanonicalize (path source : string)
| GenCreateDir (path source : string).

Definition BACKSLASH : Ascii.ascii := ch 92.

Definition scheme_escape (s : string) : string :=
  replace_char QUOTE ("\" +:+ quote) (replace_char BACKSLASH "\\" s).

(** [(literal "...")] and [(subpath "...")]. *)
Definition path_form (kind canonical : string) : string :=
  "(" +:+ kind +:+ " " +:+ quote +:+ scheme_escape (from_utf8_lossy canonical) +:+ quote +:+ ")".

Definition profile_base : string := unlines [
  "(version 1)";
  "(deny default)";
  "";
  ";; Basic process/runtime operations. The profile remains file/network";
  ";; restrictive; these keep a normal already-exec'd Rust daemon alive.";
  "(allow process*)";
  "(allow sysctl-read)";
  "(allow signal (target self))";
  "(allow mach-lookup)";
  "(allow network*)";
  "";
  ";; Allow system metadata reads that libc/Foundation may perform lazily after";
  ";; sandbox entry. Data reads remain path-scoped below.";
  "(allow file-read-metadata)";
  "(allow file-read-data";
  "(subpath " +:+ quote +:+ "/System" +:+ quote +:+ ")";
  "(subpath " +:+ quote +:+ "/usr/lib" +:+ quote +:+ ")";
  "(subpath " +:+ quote +:+ "/private/var/db/timezone" +:+ quote +:+ ")";
  "(literal " +:+ quote +:+ "/dev/null" +:+ quote +:+ ")";
  "(literal " +:+ quote +:+ "/dev/urandom" +:+ quote +:+ "))"].

Section Generate.
Context {W : Type} `{Outside W} {S : Type}.
Abbreviation G := (M W S GenError).

Definition literal_form (path : string) : G string :=
  let! r := ask (Canonicalize path) in
  let! canonical := lift (map_err (GenCanonicalize path) r) in
  ret (path_form "literal" canonical).

Definition subpath_form (path : string) : G string :=
  let! r := ask (CreateDirAll path) in
  do! lift (map_err (GenCreateDir path) r) in
  let! r := ask (Canonicalize path) in
  let! canonical := lift (map_err (GenCanonicalize path) r) in
  ret (path_form "subpath" canonical).

Definition read_subpath_form (path : string) : G string :=
  let! r := ask (Canonicalize path) in
  let! canonical := lift (map_err (GenCanonicalize path) r) in
  ret (path_form "subpath" canonical).

(** [for path in paths \{ out.push_str(&format!("  \{\}\n", form(path)?)) \}] *)
Fixpoint push_forms (form : string -> G string) (paths : list string) (out : string) : G string :=
  match paths with
  | [] => ret out
  | p :: rest =>
      let! f := form p in
      push_forms form rest (out +:+ "  " +:+ f +:+ nl)
  end.

Definition generate (inputs : ProfileInputs) : G string :=
  let out := profile_base in
  let! out :=
    match reads inputs with
    | [] => ret out
    | _ =>
        let! out := push_forms literal_form (reads inputs)
          (out +:+ nl +:+ ";; Explicit read-only VM inputs." +:+ nl +:+ "(allow file-read-data" +:+ nl) in
        ret (out +:+ ")" +:+ nl)
    end in
  let! out :=
    match read_dirs inputs with
    | [] => ret out
    | _ =>
        let! out := push_forms read_subpath_form (read_dirs inputs)
          (out +:+ nl +:+ ";; Read-only directory subtrees (e.g. warm-pool snapshot base)." +:+ nl
           +:+ "(allow file-read*" +:+ nl) in
        ret (out +:+ ")" +:+ nl)
    end in
  match work_dirs inputs, read_write_files inputs with
  | [], [] => ret out
  | _, _ =>
      let! out := push_forms subpath_form (work_dirs inputs)
        (out +:+ nl +:+ ";; Per-VM working directories/files: API socket, logs, metrics, snapshots." +:+ nl
         +:+ "(allow file-read* file-write*" +:+ nl) in
      let! out := push_forms literal_form (read_write_files inputs) out in
      ret (out +:+ ")" +:+ nl)
  end.
End Generate.

(** ** The profile language

    S-expressions over symbols and string literals; a semicolon starts a
    comment that ends with the line.  In a literal a backslash escapes a
    backslash or a quote, and nothing else. *)

Inductive Token := LParen | RParen | Sym (s : string) | Str (s : string).

Inductive LexState :=
| Blank
| InSym (s : string)
| InStr (s : string)
| InEsc (s : string)
| InComment
| Bad.

Definition snoc (s : string) (a : Ascii.ascii) : string := s +:+ String a "".

(** A character outside of symbols, literals and comments. *)
Definition lex_blank (a : Ascii.ascii) : LexState * list Token :=
  if Ascii.eqb a (ch 40) then (Blank, [LParen])
  else if Ascii.eqb a (ch 41) then (Blank, [RParen])
  else if Ascii.eqb a (ch 59) then (InComment, [])
  else if Ascii.eqb a QUOTE then (InStr "", [])
  else if Ascii.eqb a (ch 32) || Ascii.eqb a NL then (Blank, [])
  else (InSym (String a ""), []).

Definition ends_symbol (a : Ascii.ascii) : bool :=
  Ascii.eqb a (ch 40) || Ascii.eqb a (ch 41) || Ascii.eqb a (ch 59) || Ascii.eqb a QUOTE ||
  Ascii.eqb a (ch 32) || Ascii.eqb a NL.

Definition lex_char (st : LexState) (a : Ascii.ascii) : LexState * list Token :=
  match st with
  | Blank => lex_blank a
  | InSym s => if ends_symbol a then let '(st', ts) := lex_blank a in (st', Sym s :: ts) else (InSym (snoc s a), [])
  | InStr s => if Ascii.eqb a QUOTE then (Blank, [Str s])
               else if Ascii.eqb a BACKSLASH then (InEsc s, []) else (InStr (snoc s a), [])
  | InEsc s => if Ascii.eqb a QUOTE || Ascii.eqb a BACKSLASH then (InStr (snoc s a), []) else (Bad, [])
  | InComment => if Ascii.eqb a NL then (Blank, []) else (InComment, [])
  | Bad => (Bad, [])
  end.

Fixpoint lex (st : LexState) (s : string) : LexState * list Token :=
  match s with
  | "" => (st, [])
  | String a s' =>
      let '(st1, ts1) := lex_char st a in
      let '(st2, ts2) := lex st1 s' in (st2, ts1 ++ ts2)
  end.

Inductive Sexp := ASym (s : string) | AStr (s : string) | AList (l : list Sexp).

(** Forms read so far, innermost open list first. *)
Fixpoint parse_tokens (open : list (list Sexp)) (top : list Sexp) (ts : list Token) : option (list Sexp) :=
  match ts with
  | [] => match open with [] => Some top | _ => None end
  | LParen :: ts' => parse_tokens (top :: open) [] ts'
  | RParen :: ts' =>
      match open with
      | [] => None
      | outer :: open' => parse_tokens open' (outer ++ [AList top]) ts'
      end
  | Sym s :: ts' => parse_tokens open (top ++ [ASym s]) ts'
  | Str s :: ts' => parse_tokens open (top ++ [AStr s]) ts'
  end.

Definition read_profile (text : string) : option (list Sexp) :=
  match lex Blank text with
  | (Blank, ts) => parse_tokens [] [] ts
  | _ => None
  end.

(** ** The rules meant *)

Definition rule (head : list string) (filters : list Sexp) : Sexp := AList ((ASym <$> head) ++ filters).
Definition filter_of (kind path : string) : Sexp := AList [ASym kind; AStr path].

Definition base_policy : list Sexp := [
  rule ["version"; "1"] [];
  rule ["deny"; "default"] [];
  rule ["allow"; "process*"] [];
  rule ["allow"; "sysctl-read"] [];
  rule ["allow"; "signal"] [rule ["target"; "self"] []];
  rule ["allow"; "mach-lookup"] [];
  rule ["allow"; "network*"] [];
  rule ["allow"; "file-read-metadata"] [];
  rule ["allow"; "file-read-data"]
    [filter_of "subpath" "/System"; filter_of "subpath" "/usr/lib";
     filter_of "subpath" "/private/var/db/timezone";
     filter_of "literal" "/dev/null"; filter_of "literal" "/dev/urandom"]].

(** A rule is there when it has a path. *)
Definition grant (ops : list string) (filters : list Sexp) : list Sexp :=
  match filters with [] => [] | _ => [rule ("allow" :: ops) filters] end.

Definition policy (rs ds ws fs : list string) : list Sexp :=
  base_policy
  ++ grant ["file-read-data"] (filter_of "literal" <$> rs)
  ++ grant ["file-read*"] (filter_of "subpath" <$> ds)
  ++ grant ["file-read*"; "file-write*"] ((filter_of "subpath" <$> ws) ++ (filter_of "literal" <$> fs)).

(** ** Lemmas: reading back *)

Lemma lex_app st a b :
  lex st (a +:+ b) = let '(st1, t1) := lex st a in let '(st2, t2) := lex st1 b in (st2, t1 ++ t2).
Proof.
  revert st. induction a as [|c a IH]; intros st; cbn [lex String.append]; [by destruct (lex st b)|].
  destruct (lex_char st c) as [st1 t1]. rewrite IH. destruct (lex st1 a) as [st2 t2].
  destruct (lex st2 b) as [st3 t3]. by rewrite app_assoc.
Qed.

Lemma snoc_app s a r : snoc s a +:+ r = s +:+ String a r.
Proof. unfold snoc. by rewrite app_assoc_s. Qed.

Lemma scheme_escape_cons a s :
  scheme_escape (String a s) =
  (if Ascii.eqb a BACKSLASH then "\\" else if Ascii.eqb a QUOTE then "\" +:+ quote else String a "") +:+ scheme_escape s.
Proof.
  unfold scheme_escape. cbn [replace_char]. destruct (Ascii.eqb_spec a BACKSLASH) as [->|Hb]; [done|].
  cbn [replace_char]. by destruct (Ascii.eqb a QUOTE).
Qed.

(** A literal reads back as the path it was made of. *)
Lemma lex_escape s acc : lex (InStr acc) (scheme_escape s) = (InStr (acc +:+ s), []).
Proof.
  revert acc. induction s as [|a s IH]; intros acc; [by rewrite app_empty_r|].
  rewrite scheme_escape_cons, lex_app. rewrite <- (snoc_app acc a s).
  assert (Hc : lex (InStr acc) (if Ascii.eqb a BACKSLASH then "\\" else if Ascii.eqb a QUOTE then "\" +:+ quote else String a "")
               = (InStr (snoc acc a), [])).
  { destruct (Ascii.eqb_spec a BACKSLASH) as [->|Hb]; [done|]. destruct (Ascii.eqb_spec a QUOTE) as [->|Hq]; [done|].
    cbn [lex lex_char]. by rewrite (proj2 (Ascii.eqb_neq _ _) Hq), (proj2 (Ascii.eqb_neq _ _) Hb). }
  by rewrite Hc, IH.
Qed.

Fixpoint tokens (e : Sexp) : list Token :=
  match e with
  | ASym s => [Sym s]
  | AStr s => [Str s]
  | AList l => LParen :: (fix go l := match l with [] => [] | e :: l' => tokens e ++ go l' end) l ++ [RParen]
  end.
Definition tokens_of (l : list Sexp) : list Token := concat (tokens <$> l).
Lemma tokens_list l : tokens (AList l) = LParen :: tokens_of l ++ [RParen].
Proof. cbn [tokens]. f_equal. f_equal. induction l as [|e l IH]; [done|]. unfold tokens_of in *. cbn. by rewrite IH. Qed.

Lemma parse_sexp e : forall open top ts, parse_tokens open top (tokens e ++ ts) = parse_tokens open (top ++ [e]) ts.
Proof.
  revert e. fix IH 1. intros [s|s|l] open top ts; [done..|].
  rewrite tokens_list. cbn [app parse_tokens]. rewrite <- app_assoc.
  assert (Hl : forall acc, parse_tokens (top :: open) acc (tokens_of l ++ [RParen] ++ ts)
             = parse_tokens (top :: open) (acc ++ l) ([RParen] ++ ts)).
  { induction l as [|e l IHl]; intros acc; [by rewrite app_nil_r|]. unfold tokens_of. cbn [fmap list_fmap concat].
    rewrite <- app_assoc, IH. change (concat (list_fmap _ _ tokens l)) with (tokens_of l). rewrite IHl. by rewrite <- app_assoc. }
  rewrite Hl. done.
Qed.

Lemma parse_sexps l open top ts : parse_tokens open top (tokens_of l ++ ts) = parse_tokens open (top ++ l) ts.
Proof.
  revert top. induction l as [|e l IH]; intros top; [by rewrite app_nil_r|].
  unfold tokens_of. cbn [fmap list_fmap concat]. rewrite <- app_assoc, parse_sexp.
  change (concat (list_fmap _ _ tokens l)) with (tokens_of l). rewrite IH. by rewrite <- app_assoc.
Qed.

Lemma tokens_of_app l1 l2 : tokens_of (l1 ++ l2) = tokens_of l1 ++ tokens_of l2.
Proof. unfold tokens_of. by rewrite fmap_app, concat_app. Qed.

(** A text whose tokens are those of a list of forms reads as that list. *)
Lemma read_tokens text l : lex Blank text = (Blank, tokens_of l) -> read_profile text = Some l.
Proof. unfold read_profile. intros ->. rewrite <- (app_nil_r (tokens_of l)), parse_sexps. done. Qed.

(** [text] has the tokens [ts], and no token runs over its end. *)
Definition reads_as (text : string) (ts : list Token) : Prop := lex Blank text = (Blank, ts).

Lemma reads_as_app a b ta tb : reads_as a ta -> reads_as b tb -> reads_as (a +:+ b) (ta ++ tb).
Proof. unfold reads_as. intros Ha Hb. by rewrite lex_app, Ha, Hb. Qed.

Definition path_kind (kind : string) : Prop := kind = "literal" \/ kind = "subpath".

Lemma path_form_tokens kind c :
  path_kind kind -> reads_as (path_form kind c) (tokens (filter_of kind (from_utf8_lossy c))).
Proof.
  intros Hk. unfold path_form, reads_as.
  assert (Hh : lex Blank ("(" +:+ kind +:+ " " +:+ quote) = (InStr "", [LParen; Sym kind])) by (by destruct Hk; subst kind).
  replace ("(" +:+ kind +:+ " " +:+ quote +:+ scheme_escape (from_utf8_lossy c) +:+ quote +:+ ")")
    with (("(" +:+ kind +:+ " " +:+ quote) +:+ scheme_escape (from_utf8_lossy c) +:+ quote +:+ ")")
    by (by destruct Hk; subst kind).
  rewrite lex_app, Hh, lex_app, lex_escape. reflexivity.
Qed.

(** The lines of one loop. *)
Definition forms_text (kind : string) (cs : list string) : string :=
  foldr (fun c rest => ("  " +:+ path_form kind c +:+ nl) +:+ rest) "" cs.

Lemma forms_text_tokens kind cs :
  path_kind kind -> reads_as (forms_text kind cs) (tokens_of (filter_of kind <$> (from_utf8_lossy <$> cs))).
Proof.
  intros Hk. induction cs as [|c cs IH]; [done|]. unfold tokens_of. cbn [forms_text foldr fmap list_fmap concat].
  apply reads_as_app; [|exact IH]. change (reads_as ("  " +:+ path_form kind c +:+ nl) ([] ++ tokens (filter_of kind (from_utf8_lossy c)))).
  apply reads_as_app; [done|]. rewrite <- (app_nil_r (tokens _)). apply reads_as_app; [by apply path_form_tokens|done].
Qed.

Lemma profile_base_tokens : reads_as profile_base (tokens_of base_policy).
Proof. vm_compute. reflexivity. Qed.

Lemma tokens_of_one e : tokens_of [e] = tokens e.
Proof. unfold tokens_of. cbn. apply app_nil_r. Qed.

(** A rule with its filters, as the generator writes it. *)
Lemma section_tokens out ts head ops filters body :
  reads_as out ts -> reads_as head (LParen :: (Sym <$> "allow" :: ops)) -> filters <> [] ->
  reads_as body (tokens_of filters) ->
  reads_as (((out +:+ head) +:+ body) +:+ ")" +:+ nl) (ts ++ tokens_of (grant ops filters)).
Proof.
  intros Hout Hhead Hne Hbody.
  replace (ts ++ tokens_of (grant ops filters)) with (((ts ++ LParen :: (Sym <$> "allow" :: ops)) ++ tokens_of filters) ++ [RParen]).
  { apply reads_as_app; [apply reads_as_app; [by apply reads_as_app|done]|done]. }
  destruct filters as [|f fs]; [done|]. cbn [grant]. unfold rule. rewrite tokens_of_one, tokens_list, tokens_of_app.
  rewrite <- !app_assoc. do 2 f_equal. cbn [app fmap list_fmap]. unfold tokens_of at 2. cbn. do 2 f_equal.
  rewrite <- !app_assoc. f_equal. clear. induction ops as [|o ops IH]; [done|]. cbn. by rewrite IH.
Qed.

(** ** The generator *)

(** The file system calls [p] is the canonical form of. *)
Definition canonical (t : Trace) (p c : string) : Prop := Ev (Canonicalize p) (Ok c) ∈ t.
Definition gen_failed (t : Trace) (e : GenError) : Prop :=
  match e with
  | GenCanonicalize p e => Ev (Canonicalize p) (Err e) ∈ t
  | GenCreateDir p e => Ev (CreateDirAll p) (Err e) ∈ t
  end.
(** The calls the generator may make: it resolves paths of [ps], and creates
    directories of [ds]. *)
Definition profile_call (ps ds : list string) (A : Type) (c : Call A) : Prop :=
  match c with Canonicalize p => p ∈ ps | CreateDirAll p => p ∈ ds | _ => False end.

Lemma canonical_app_l t1 t2 p c : canonical t1 p c -> canonical (t1 ++ t2) p c.
Proof. unfold canonical. set_solver. Qed.
Lemma canonical_app_r t1 t2 p c : canonical t2 p c -> canonical (t1 ++ t2) p c.
Proof. unfold canonical. set_solver. Qed.
Lemma gen_failed_app_r t1 t2 e : gen_failed t2 e -> gen_failed (t1 ++ t2) e.
Proof. destruct e; cbn; set_solver. Qed.
Lemma canonicals_app_l t1 t2 ps cs : Forall2 (canonical t1) ps cs -> Forall2 (canonical (t1 ++ t2)) ps cs.
Proof. intros Hf. eapply Forall2_impl; [exact Hf|]. intros. by apply canonical_app_l. Qed.
Lemma canonicals_app_r t1 t2 ps cs : Forall2 (canonical t2) ps cs -> Forall2 (canonical (t1 ++ t2)) ps cs.
Proof. intros Hf. eapply Forall2_impl; [exact Hf|]. intros. by apply canonical_app_r. Qed.
Lemma profile_call_mono ps ds ps' ds' A c :
  ps ⊆ ps' -> ds ⊆ ds' -> profile_call ps ds A c -> profile_call ps' ds' A c.
Proof. destruct c; cbn; set_solver. Qed.
#[export] Hint Resolve canonical_app_l canonical_app_r gen_failed_app_r canonicals_app_l canonicals_app_r : heph.

Section GenerateLemmas.
Context {W : Type} `{Outside W} {S : Type}.

Definition form_spec (kind : string) (ps ds : list string) (form : string -> M W S GenError string) : Prop :=
  forall p s w, p ∈ ps ->
  wp (form p) (fun r s' _ t => s' = s /\ Only (profile_call ps ds) t /\
    match r with Ok f => exists c, canonical t p c /\ f = path_form kind c | Err e => gen_failed t e end) s w.

Ltac form_run := wp_run; cbn [map_err] in *; simplify_eq;
  (split; [done|split; [repeat (apply only_cons; [cbn; set_solver|]); apply only_nil|]]); cbn; try (eexists; split; [|reflexivity]);
  unfold canonical; set_solver.

Lemma literal_form_spec ps : form_spec "literal" ps [] literal_form.
Proof. intros p s w Hp. unfold literal_form. wp_step. wp_step. destruct a as [c|e]; cbn [map_err lift]; form_run. Qed.
Lemma read_subpath_form_spec ps : form_spec "subpath" ps [] read_subpath_form.
Proof. intros p s w Hp. unfold read_subpath_form. wp_step. wp_step. destruct a as [c|e]; cbn [map_err lift]; form_run. Qed.
Lemma subpath_form_spec ps : form_spec "subpath" ps ps subpath_form.
Proof.
  intros p s w Hp. unfold subpath_form. wp_step. wp_step. destruct a as [u|e]; cbn [map_err lift]; [|form_run].
  do 4 wp_step. destruct a as [c|e]; cbn [map_err lift]; form_run.
Qed.

Lemma push_forms_spec kind ps ds form paths out s w :
  form_spec kind ps ds form -> paths ⊆ ps ->
  wp (push_forms form paths out) (fun r s' _ t => s' = s /\ Only (profile_call ps ds) t /\
    match r with
    | Ok text => exists cs, Forall2 (canonical t) paths cs /\ text = out +:+ forms_text kind cs
    | Err e => gen_failed t e
    end) s w.
Proof.
  intros Hform. revert out w. induction paths as [|p paths IH]; intros out w Hsub; cbn [push_forms].
  { wp_step. split; [done|split; [apply only_nil|]]. exists []. split; [done|]. by rewrite app_empty_r. }
  wp_step. eapply wp_mono; [apply Hform; set_solver|]. intros [f|e] s1 w1 t1 (-> & Ho1 & Hr); [|done].
  destruct Hr as (c & Hc & ->). eapply wp_mono; [apply IH; set_solver|].
  intros r s2 w2 t2 (-> & Ho2 & Hr2). split; [done|]. split; [by apply only_app|]. destruct r as [text|e]; [|by apply gen_failed_app_r].
  destruct Hr2 as (cs & Hcs & ->). exists (c :: cs). split; [constructor; auto with heph|].
  cbn [forms_text foldr]. by rewrite !app_assoc_s.
Qed.

(** One optional rule of the profile. *)
Lemma one_rule_spec kind ps ds form paths head ops out s w :
  form_spec kind ps ds form -> paths ⊆ ps -> path_kind kind -> reads_as head (LParen :: (Sym <$> "allow" :: ops)) ->
  wp (match paths with
      | [] => ret out
      | _ => let! out := push_forms form paths (out +:+ head) in ret (out +:+ ")" +:+ nl)
      end) (fun r s' _ t => s' = s /\ Only (profile_call ps ds) t /\
    match r with
    | Ok text => exists cs, Forall2 (canonical t) paths cs /\ forall ts, reads_as out ts ->
        reads_as text (ts ++ tokens_of (grant ops (filter_of kind <$> (from_utf8_lossy <$> cs))))
    | Err e => gen_failed t e
    end) s w.
Proof.
  intros Hform Hsub Hk Hhead. destruct paths as [|p paths].
  { wp_step. split; [done|split; [apply only_nil|]]. exists []. split; [done|]. intros ts Hts. by rewrite app_nil_r. }
  wp_step. eapply wp_mono; [by apply push_forms_spec|]. intros [text|e] s1 w1 t1 (-> & Ho & Hr); [|done].
  destruct Hr as (cs & Hcs & ->). wp_step. rewrite app_nil_r. split; [done|split; [done|]]. exists cs. split; [done|].
  intros ts Hts. apply section_tokens; [done..| |by apply forms_text_tokens]. inversion Hcs; subst. done.
Qed.

(** The rule for the work directories and the read-write files. *)
Lemma work_rule_spec ws fs head ops out s w :
  reads_as head (LParen :: (Sym <$> "allow" :: ops)) ->
  wp (match ws, fs return M W S GenError string with
      | [], [] => ret out
      | _, _ =>
          let! out := push_forms subpath_form ws (out +:+ head) in
          let! out := push_forms literal_form fs out in
          ret (out +:+ ")" +:+ nl)
      end) (fun r s' _ t => s' = s /\ Only (profile_call (ws ++ fs) ws) t /\
    match r with
    | Ok text => exists cws cfs, Forall2 (canonical t) ws cws /\ Forall2 (canonical t) fs cfs /\ forall ts, reads_as out ts ->
        reads_as text (ts ++ tokens_of (grant ops ((filter_of "subpath" <$> (from_utf8_lossy <$> cws))
                                                ++ (filter_of "literal" <$> (from_utf8_lossy <$> cfs)))))
    | Err e => gen_failed t e
    end) s w.
Proof.
  intros Hhead.
  assert (Hgo : (ws = [] /\ fs = []) \/ (ws ++ fs <> [])) by (destruct ws, fs; auto; by right).
  destruct Hgo as [[-> ->]|Hne].
  { wp_step. split; [done|split; [apply only_nil|]]. exists [], []. split_and!; [done..|]. intros ts Hts. by rewrite app_nil_r. }
  replace (match ws, fs return M W S GenError string with [], [] => ret out | _, _ => _ end) with
    (let! out := push_forms subpath_form ws (out +:+ head) in let! out := push_forms literal_form fs out in
     ret (out +:+ ")" +:+ nl) : M W S GenError string) by (by destruct ws, fs).
  wp_step. eapply wp_mono; [apply (push_forms_spec "subpath" ws ws), reflexivity; apply subpath_form_spec|].
  intros [text|e] s1 w1 t1 (-> & Ho & Hr).
  2:{ split; [done|split; [|done]]. eapply only_mono; [|exact Ho]. intros A c. apply profile_call_mono; set_solver. }
  destruct Hr as (cws & Hws & ->). wp_step. eapply wp_mono; [apply (push_forms_spec "literal" fs []), reflexivity; apply literal_form_spec|].
  intros [text|e] s2 w2 t2 (-> & Ho2 & Hr).
  2:{ split; [done|split; [|by apply gen_failed_app_r]]. apply only_app; (eapply only_mono; [|eassumption]); intros A c; apply profile_call_mono; set_solver. }
  destruct Hr as (cfs & Hfs & ->). wp_step. rewrite app_nil_r.
  split; [done|split; [apply only_app; (eapply only_mono; [|eassumption]); intros A c; apply profile_call_mono; set_solver|]].
  exists cws, cfs. split_and!; [auto with heph..|]. intros ts Hts. rewrite (app_assoc_s _ (forms_text _ cws)).
  apply section_tokens; [done..| |rewrite tokens_of_app; apply reads_as_app; apply forms_text_tokens; by constructor].
  inversion Hws; inversion Hfs; subst; done.
Qed.
End GenerateLemmas.

(** Weakening of the calls allowed. *)
Lemma profile_only_mono ps ds ps' ds' t :
  ps ⊆ ps' -> ds ⊆ ds' -> Only (profile_call ps ds) t -> Only (profile_call ps' ds') t.
Proof. intros Hp Hd. apply only_mono. intros A c. by apply profile_call_mono. Qed.

Lemma generate_run {W S : Type} `{Outside W} (inputs : ProfileInputs) (s : S) (w : W) :
  wp (generate inputs) (fun r s' _ t =>
    s' = s /\
    Only (profile_call (reads inputs ++ read_dirs inputs ++ work_dirs inputs ++ read_write_files inputs) (work_dirs inputs)) t /\
    match r with
    | Ok text => exists rs ds ws fs,
        Forall2 (canonical t) (reads inputs) rs /\ Forall2 (canonical t) (read_dirs inputs) ds /\
        Forall2 (canonical t) (work_dirs inputs) ws /\ Forall2 (canonical t) (read_write_files inputs) fs /\
        reads_as text (tokens_of (policy (from_utf8_lossy <$> rs) (from_utf8_lossy <$> ds)
                                         (from_utf8_lossy <$> ws) (from_utf8_lossy <$> fs)))
    | Err e => gen_failed t e
    end) s w.
Proof.
  unfold generate. wp_step.
  eapply wp_mono; [apply (one_rule_spec "literal" (reads inputs) []) with (ops := ["file-read-data"]); [apply literal_form_spec|set_solver|by left|reflexivity]|].
  intros [out1|e] s1 w1 t1 (-> & Ho1 & Hr1).
  2:{ split; [done|split; [|done]]. eapply profile_only_mono; [..|exact Ho1]; set_solver. }
  destruct Hr1 as (rs & Hrs & Ht1). wp_step.
  eapply wp_mono; [apply (one_rule_spec "subpath" (read_dirs inputs) []) with (ops := ["file-read*"]); [apply read_subpath_form_spec|set_solver|by right|reflexivity]|].
  intros [out2|e] s2 w2 t2 (-> & Ho2 & Hr2).
  2:{ split; [done|split; [|by apply gen_failed_app_r]]. apply only_app; (eapply profile_only_mono; [..|eassumption]); set_solver. }
  destruct Hr2 as (ds & Hds & Ht2).
  eapply wp_mono; [apply work_rule_spec with (ops := ["file-read*"; "file-write*"]); reflexivity|].
  intros r s3 w3 t3 (-> & Ho3 & Hr3). split; [done|].
  split; [repeat apply only_app; (eapply profile_only_mono; [..|eassumption]); set_solver|].
  destruct r as [text|e]; [|by do 2 apply gen_failed_app_r]. destruct Hr3 as (ws & fs & Hws & Hfs & Ht3).
  exists rs, ds, ws, fs. split_and!; [auto with heph..|].
  unfold policy. rewrite !tokens_of_app. specialize (Ht3 _ (Ht2 _ (Ht1 _ profile_base_tokens))).
  rewrite <- !app_assoc in Ht3. exact Ht3.
Qed.

(** C19: The sandbox profile says what is meant, whatever the paths contain.
    Read as S-expressions, the generated text is the fixed rules (everything
    denied by default, then the system grants) followed by read grants on the
    read-only files and directories, and read-write grants on the work
    directories and writable files, each on the canonical path the file
    system answered, decoded as UTF-8; no byte of a path can end its literal
    or add a rule.  Generation fails only when a path does not resolve or a
    work directory cannot be created, and it changes nothing but these
    directories. *)
Theorem profile_grants_exactly {W S : Type} `{Outside W} (inputs : ProfileInputs) (s : S) (w : W) :
  wp (generate inputs) (fun r s' _ t =>
    s' = s /\
    Only (profile_call (reads inputs ++ read_dirs inputs ++ work_dirs inputs ++ read_write_files inputs) (work_dirs inputs)) t /\
    match r with
    | Ok text => exists rs ds ws fs,
        Forall2 (canonical t) (reads inputs) rs /\ Forall2 (canonical t) (read_dirs inputs) ds /\
        Forall2 (canonical t) (work_dirs inputs) ws /\ Forall2 (canonical t) (read_write_files inputs) fs /\
        read_profile text = Some (policy (from_utf8_lossy <$> rs) (from_utf8_lossy <$> ds)
                                         (from_utf8_lossy <$> ws) (from_utf8_lossy <$> fs))
    | Err e => gen_failed t e
    end) s w.
Proof.
  eapply wp_mono; [apply generate_run|]. intros [text|e] s' w' t (-> & Ho & Hr); [|done].
  split; [done|split; [done|]]. destruct Hr as (rs & ds & ws & fs & Hrs & Hds & Hws & Hfs & Ht).
  exists rs, ds, ws, fs. split_and!; [done..|]. by apply read_tokens.
Qed.
