(* ===== verification/Jailer.v ===== *)
(** * The jailer (hephaestus-jailer/src/main.rs)

    The supervisor of one VM: it claims the instance under a lock, decides the
    uid the daemon runs as, prepares the work directory and the sandbox
    profile, starts the daemon and waits for it; or it writes a launchd plist,
    or removes the files of an instance.  The state of the process is the
    number the signal handler reads ([CHILD_PGID]).  [Fault] adds panics to
    [JailerError]; guards are dropped on both, as unwinding does.  The plist
    on standard output is a call that may fail; the lines on standard error
    are left out. *)

From stdpp Require Import sorting.
From S2P Require Import Prelude RustStr Utf8 Json World Pool UidRegistry Profile.
Local Open Scope string_scope.
Local Open Scope Z_scope.
Local Open Scope rust_scope.
Local Open Scope list_scope.

Definition UID_ALLOC_RANGE : Z := 1000.
Definition SIGINT : Z := 2.
Definition SIGTERM : Z := 15.
Definition EPERM : string := "Operation not permitted (os error 1)".

Inductive NetworkBackend := Nat | Vmnet.
#[export] Instance NetworkBackend_eq_dec : EqDecision NetworkBackend.
Proof. solve_decision. Defined.
Definition as_flag_value (n : NetworkBackend) : string :=
  match n with Nat => "nat" | Vmnet => "vmnet" end.

Record Args := {
  arg_id : string; arg_work_dir : option string; arg_firecracker_binary : option string;
  arg_kernel : option string; arg_rootfs : option string; arg_initramfs : option string;
  arg_pool_dir : option string; arg_deny_probe : option string;
  arg_rlimit_nofile : option Z; arg_rlimit_nproc : option Z; arg_rlimit_fsize : option Z;
  arg_uid : option Z; arg_gid : option Z; arg_user : option string; arg_uid_base : option Z;
  arg_allow_shared_uid : bool; arg_network_backend : NetworkBackend; arg_host_mmds : bool;
  arg_generate_launchd_plist : bool; arg_launchd_plist_path : option string;
  arg_clean_work_dir : bool; arg_teardown : bool }.

Inductive JailerError :=
| InvalidId (id : string)
| UnsafeWorkDir (path reason : string)
| KernelNotFound (path : string)
| RootfsNotFound (path : string)
| BinaryNotFound (path : string)
| ProfileError (e : GenError)
| WriteProfile (path source : string)
| CreateWorkDir (path source : string)
| Exec (binary source : string)
| WritePlist (path source : string)
| PrivilegeDrop (source : string)
| ChownError (path source : string)
| CurrentExeError (source : string)
| InstanceBusy (id lock_path : string)
| LockError (path source : string)
| RemoveError (path source : string)
| UidRegistryError (e : RegistryError)
| HostMmdsRequiresVmnet
| SharedUidLive (id other_id : string) (uid : Z).

Inductive Fault := Error (e : JailerError) | Panic (message : string).

Record Plan := {
  binary : string; work_root : string; work_dir : string; api_sock : string; profile_path : string;
  target_uid : option Z; target_gid : option Z; lock : string }.

(** The files of an instance, beside its work directory. *)
Definition lock_name (id : string) : string := "." +:+ id +:+ ".lock".
Definition profile_name (id : string) : string := "." +:+ id +:+ ".sandbox.profile".
Definition stdout_name (id : string) : string := "." +:+ id +:+ ".launchd.stdout.log".
Definition stderr_name (id : string) : string := "." +:+ id +:+ ".launchd.stderr.log".

Definition validate_id (id : string) : Result unit JailerError :=
  if (1 <=? len id) && (len id <=? 64) && str_forall id_char id then Ok tt else Err (InvalidId id).

Definition is_some {A} (o : option A) : bool := match o with Some _ => true | None => false end.

Section Jailer.
Context {W : Type} `{Outside W}.
(** The state is [CHILD_PGID]. *)
Abbreviation J := (M W Z Fault).

Definition expect {A} (o : option A) (message : string) : J A :=
  match o with Some a => ret a | None => fail (Panic message) end.
(** [.map_err(f)?] on the result of a call. *)
Definition or_fail {A E} (f : E -> JailerError) (r : Result A E) : J A := lift (map_err (fun e => Error (f e)) r).

(** ** Signals *)

Definition forward_termination : J unit :=
  let! pgid := get in
  if 0 <? pgid then ask (Kill (- pgid) SIGTERM) else ret tt.

Definition install_signal_forwarding : J unit :=
  do! ask (OnSignal SIGTERM) in
  ask (OnSignal SIGINT).

(** ** The instance lock and the identity of an instance *)

Definition instance_lock_held (lock_path : string) : J bool :=
  let! r := ask (OpenExisting lock_path) in
  match r with
  | Err e => if not_found e then ret false else fail (Error (LockError lock_path (io_text e)))
  | Ok _ =>
      let! a := ask (Flock lock_path) in
      match a with
      | Locked => do! ask (Unlock lock_path) in ret false
      | WouldBlock => ret true
      | FlockFailed e => fail (Error (LockError lock_path e))
      end
  end.

Fixpoint refuse_live_shared_uid (work_root : string) (es : Entries) (id : string) (uid : Z) (allow : bool) : J unit :=
  match es with
  | [] => ret tt
  | (other_id, other_uid) :: rest =>
      if String.eqb other_id id || negb (other_uid =? uid) then refuse_live_shared_uid work_root rest id uid allow
      else if negb (is_ok (validate_id other_id)) then refuse_live_shared_uid work_root rest id uid allow
      else
        let! held := instance_lock_held (path_join work_root (lock_name other_id)) in
        if held && negb allow then fail (Error (SharedUidLive id other_id uid))
        else refuse_live_shared_uid work_root rest id uid allow
  end.

Definition resolve_instance_identity (args : Args) (explicit : option Z * option Z) (work_root : string)
    : J (option Z * option Z) :=
  match arg_uid_base args with
  | Some base =>
      let! reg := with_err (fun e => Error (UidRegistryError e)) (open work_root) in
      guarded (drop_registry reg)
        (let! uid := with_err (fun e => Error (UidRegistryError e)) (allocate reg (arg_id args) base UID_ALLOC_RANGE) in
         let! reg := with_err (fun e => Error (UidRegistryError e)) (upsert reg (arg_id args) uid) in
         do! refuse_live_shared_uid work_root (entries reg) (arg_id args) uid (arg_allow_shared_uid args) in
         ret (Some uid, Some uid))
  | None =>
      do! match fst explicit with
          | Some uid =>
              let! reg := with_err (fun e => Error (UidRegistryError e)) (open work_root) in
              guarded (drop_registry reg)
                (let! reg := with_err (fun e => Error (UidRegistryError e)) (upsert reg (arg_id args) uid) in
                 do! refuse_live_shared_uid work_root (entries reg) (arg_id args) uid (arg_allow_shared_uid args) in
                 ret tt)
          | None => ret tt
          end in
      ret explicit
  end.

(** The loop of [acquire_instance_lock]: [n] rounds are left. *)
Fixpoint acquire_rounds (n : nat) (lock_path id : string) : J string :=
  match n with
  | O => fail (Error (LockError lock_path "lock file kept changing underneath (concurrent teardown?)"))
  | S n' =>
      let! r := ask (OpenCreate lock_path None) in
      do! or_fail (LockError lock_path) r in
      let! a := ask (Flock lock_path) in
      match a with
      | WouldBlock => fail (Error (InstanceBusy id lock_path))
      | FlockFailed e => fail (Error (LockError lock_path e))
      | Locked =>
          let! same := on_error (ask (Unlock lock_path))
            (let! r := ask (SetMode lock_path 384) in
             do! or_fail (LockError lock_path) r in
             let! r := ask (Fstat lock_path) in
             let! held := or_fail (LockError lock_path) r in
             let! disk := ask (Lstat lock_path) in
             ret match disk with
                 | Ok disk => (st_ino disk =? st_ino held) && (st_dev disk =? st_dev held)
                 | Err _ => false
                 end) in
          if same then ret lock_path
          else do! ask (Unlock lock_path) in acquire_rounds n' lock_path id
      end
  end.
Definition acquire_instance_lock (lock_path id : string) : J string := acquire_rounds 3 lock_path id.

(** [uid_t] and [gid_t] have 32 bits. *)
Definition resolve_user (user : option string) (uid gid : option Z) : M W Z string (option Z * option Z) :=
  match user with
  | Some name =>
      if contains_char (ch 0) name then fail "username contains NUL"
      else
        let! entry := ask (GetPwNam name) in
        match entry with
        | None => fail ("user " +:+ debug_str name +:+ " not found")
        | Some (pw_uid, pw_gid) => ret (Some (wrap 32 pw_uid), Some (wrap 32 pw_gid))
        end
  | None => ret (uid, gid)
  end.

(** ** The work root *)

Fixpoint first_file (name : string) (dirs : list string) : J (option string) :=
  match dirs with
  | [] => ret None
  | dir :: rest =>
      let candidate := path_join dir name in
      let! is_file := ask (IsFile candidate) in
      if is_file then ret (Some candidate) else first_file name rest
  end.
Definition which (name : string) : J (option string) :=
  let! path := ask (EnvVar "PATH") in
  match path with
  | None => ret None
  | Some path => first_file name (split_char (ch 58) path)
  end.

Definition default_work_root : J string :=
  let! tmp := ask TempDir in
  ret (path_join tmp "hephaestus-jail").

Definition work_root_of (args : Args) : J string :=
  match arg_work_dir args with Some d => ret d | None => default_work_root end.

Definition assert_trusted_work_root (root : string) : J bool :=
  let! r := ask (Lstat root) in
  match r with
  | Ok meta =>
      if st_symlink meta then fail (Error (UnsafeWorkDir root "work root is a symlink"))
      else if negb (st_dir meta) then fail (Error (UnsafeWorkDir root "work root exists but is not a directory"))
      else
        let! euid := ask GetEuid in
        if negb (st_uid meta =? euid) then fail (Error (UnsafeWorkDir root "work root is not owned by the invoking uid"))
        else ret true
  | Err e => if not_found e then ret false else fail (Error (CreateWorkDir root (io_text e)))
  end.

Definition secure_work_root (root : string) (drop_requested : bool) : J unit :=
  let! exists_ := assert_trusted_work_root root in
  do! (if exists_ then ret tt
       else let! r := ask (CreateDirAll root) in or_fail (CreateWorkDir root) r) in
  let mode := if drop_requested then 457 else 448 in
  let! r := ask (SetMode root mode) in
  or_fail (fun _ => UnsafeWorkDir root "cannot enforce private owner-only perms (not owner?)") r.

Fixpoint keep_slots (pool_dir : string) (names : list string) : J (list string) :=
  match names with
  | [] => ret []
  | n :: rest =>
      let! dir := ask (IsDir (path_join pool_dir n)) in
      let! slots := keep_slots pool_dir rest in
      ret (if dir && utf8_valid n && starts_with "slot-" n then n :: slots else slots)
  end.
(** Paths in one directory are ordered as their names are. *)
Definition pool_slot_dirs (pool_dir : string) : J (list string) :=
  let! names := ask (ReadDir pool_dir) in
  match names with
  | None => ret []
  | Some names =>
      let! slots := keep_slots pool_dir names in
      ret (path_join pool_dir <$> merge_sort str_le slots)
  end.

(** ** Preparing a launch *)

(** A symlink at the path of the work directory is refused. *)
Definition refuse_symlink (work_dir : string) : J unit :=
  let! meta := ask (Lstat work_dir) in
  match meta with
  | Ok meta => if st_symlink meta then fail (Error (UnsafeWorkDir work_dir "path is a symlink")) else ret tt
  | Err _ => ret tt
  end.

(** The work directory, emptied on request, private, without a stale socket. *)
Definition materialize (args : Args) (work_dir api_sock : string) : J unit :=
  do! refuse_symlink work_dir in
  do! (if arg_clean_work_dir args then
         let! meta := ask (Lstat work_dir) in
         if is_ok meta then let! r := ask (RemoveDirAll work_dir) in or_fail (RemoveError work_dir) r else ret tt
       else ret tt) in
  let! r := ask (CreateDirAll work_dir) in
  do! or_fail (CreateWorkDir work_dir) r in
  let! r := ask (SetMode work_dir 448) in
  do! or_fail (fun _ => UnsafeWorkDir work_dir "cannot enforce private per-VM work-dir permissions") r in
  let! meta := ask (Lstat api_sock) in
  if is_ok meta then let! r := ask (RemoveFile api_sock) in or_fail (RemoveError api_sock) r else ret tt.

(** What the profile grants. *)
Definition profile_inputs (args : Args) (kernel rootfs work_dir : string) : J ProfileInputs :=
  let! slots := match arg_pool_dir args with Some d => pool_slot_dirs d | None => ret [] end in
  ret {| work_dirs := work_dir :: slots;
         read_write_files := [rootfs];
         reads := kernel :: option_list (arg_initramfs args);
         read_dirs := option_list (arg_pool_dir args) |}.

Definition write_profile (profile_path text : string) (drop_requested : bool) : J unit :=
  let! r := ask (WriteFile profile_path text) in
  do! or_fail (WriteProfile profile_path) r in
  let profile_mode := if drop_requested then 420 else 384 in
  let! r := ask (SetMode profile_path profile_mode) in
  or_fail (WriteProfile profile_path) r.

Definition resolve_binary (args : Args) : J string :=
  let! binary := match arg_firecracker_binary args with
                 | Some b => ret (Some b)
                 | None => which "hephaestus-firecracker"
                 end in
  let! binary := lift (ok_or binary (Error (BinaryNotFound "hephaestus-firecracker"))) in
  let! there := ask (PathExists binary) in
  if there then ret binary else fail (Error (BinaryNotFound binary)).

Definition prepare (args : Args) (explicit : option Z * option Z) : J Plan :=
  do! or_fail id (validate_id (arg_id args)) in
  let! kernel := expect (arg_kernel args) "--kernel enforced by clap" in
  let! rootfs := expect (arg_rootfs args) "--rootfs enforced by clap" in
  let! there := ask (PathExists kernel) in
  do! (if there then ret tt else fail (Error (KernelNotFound kernel))) in
  let! there := ask (PathExists rootfs) in
  do! (if there then ret tt else fail (Error (RootfsNotFound rootfs))) in
  let! binary := resolve_binary args in
  let! work_root := work_root_of args in
  let drop_requested := is_some (fst explicit) || is_some (snd explicit) || is_some (arg_uid_base args) in
  do! secure_work_root work_root drop_requested in
  let lock_path := path_join work_root (lock_name (arg_id args)) in
  let! lock := acquire_instance_lock lock_path (arg_id args) in
  on_error (ask (Unlock lock))
    (let! (target_uid, target_gid) := resolve_instance_identity args explicit work_root in
     let work_dir := path_join work_root (arg_id args) in
     let api_sock := path_join work_dir "api.sock" in
     do! materialize args work_dir api_sock in
     let profile_path := path_join work_root (profile_name (arg_id args)) in
     let! inputs := profile_inputs args kernel rootfs work_dir in
     let! profile_source := with_err (fun e => Error (ProfileError e)) (generate inputs) in
     do! write_profile profile_path profile_source drop_requested in
     ret {| binary := binary; work_root := work_root; work_dir := work_dir; api_sock := api_sock;
            profile_path := profile_path; target_uid := target_uid; target_gid := target_gid; lock := lock |}).

(** ** The daemon's process *)

(** [cmd.arg(flag).arg(value)] for an optional value. *)
Definition flag_value (flag : string) (v : option string) : list string :=
  match v with Some v => [flag; v] | None => [] end.

Definition build_command (plan : Plan) (args : Args) : Command :=
  {| cmd_program := binary plan;
     cmd_env := [("HEPHAESTUS_FC_WORK_DIR", work_dir plan)];
     cmd_args := ["--api-sock"; api_sock plan; "--id"; arg_id args; "--sandbox-profile"; profile_path plan]
       ++ flag_value "--pool-dir" (arg_pool_dir args)
       ++ flag_value "--sandbox-deny-probe" (arg_deny_probe args)
       ++ ["--network-backend"; as_flag_value (arg_network_backend args)]
       ++ (if arg_host_mmds args then ["--host-mmds"] else []);
     cmd_lock := lock plan;
     cmd_nofile := arg_rlimit_nofile args; cmd_nproc := arg_rlimit_nproc args; cmd_fsize := arg_rlimit_fsize args;
     cmd_uid := target_uid plan; cmd_gid := target_gid plan |}.

(** The hook runs in the child, between fork and exec; its errors are
    [io::Error]s. *)
Abbreviation Child := (M W unit string).

Definition apply_rlimit (resource : Resource) (value : option Z) : Child unit :=
  match value with
  | None => ret tt
  | Some v => let! r := ask (SetRlimit resource v) in lift r
  end.

Definition drop_privileges (uid gid : option Z) : Child unit :=
  match uid, gid with
  | None, None => ret tt
  | _, _ =>
      let! groups_gid := match gid with Some g => ret g | None => ask GetGid end in
      let! r := ask (SetGroups groups_gid) in
      do! lift r in
      do! match gid with
          | Some g => let! r := ask (SetGid g) in lift r
          | None => ret tt
          end in
      match uid with
      | Some u =>
          let! r := ask (SetUid u) in
          do! lift r in
          if negb (u =? 0) then
            let! r := ask (SetUid 0) in
            match r with Ok _ => fail EPERM | Err _ => ret tt end
          else ret tt
      | None => ret tt
      end
  end.

Definition pre_exec (cmd : Command) : Child unit :=
  let! r := ask SetPgid in
  do! lift r in
  let! r := ask (ClearCloexec (cmd_lock cmd)) in
  do! lift r in
  do! apply_rlimit NoFile (cmd_nofile cmd) in
  do! apply_rlimit NProc (cmd_nproc cmd) in
  do! apply_rlimit FSize (cmd_fsize cmd) in
  drop_privileges (cmd_uid cmd) (cmd_gid cmd).

(** ** The launchd plist *)

Definition xml_escape (s : string) : string :=
  replace_char (ch 62) "&gt;" (replace_char (ch 60) "&lt;" (replace_char (ch 38) "&amp;" s)).

Definition plist_path (path : string) : J string :=
  let! r := ask (Canonicalize path) in
  ret (from_utf8_lossy match r with Ok c => c | Err _ => path end).

(** [format!("\{flag\}=\{\}", plist_path(path))] for an optional path. *)
Definition opt_path_arg (flag : string) (path : option string) : J (list string) :=
  match path with
  | None => ret []
  | Some p => let! p := plist_path p in ret [flag +:+ "=" +:+ p]
  end.
Definition opt_num_arg (flag : string) (n : option Z) : list string :=
  match n with Some n => [flag +:+ "=" +:+ to_dec n] | None => [] end.

(** The command line of the jailer that launchd runs. *)
Definition program_args (args : Args) (plan : Plan) (jailer_exe : string) : J (list string) :=
  let! kernel := expect (arg_kernel args) "--kernel enforced by clap" in
  let! rootfs := expect (arg_rootfs args) "--rootfs enforced by clap" in
  let! kernel := plist_path kernel in
  let! rootfs := plist_path rootfs in
  let! root := plist_path (work_root plan) in
  let! daemon := plist_path (binary plan) in
  let! initramfs := opt_path_arg "--initramfs" (arg_initramfs args) in
  let! pool_dir := opt_path_arg "--pool-dir" (arg_pool_dir args) in
  let! deny_probe := opt_path_arg "--deny-probe" (arg_deny_probe args) in
  let! pinned :=
    match arg_uid_base args with
    | None => ret []
    | Some _ =>
        let! uid := expect (target_uid plan) "--uid-base always allocates a uid" in
        let! gid := expect (target_gid plan) "--uid-base always allocates a gid" in
        ret ["--uid=" +:+ to_dec uid; "--gid=" +:+ to_dec gid]
    end in
  ret ([from_utf8_lossy jailer_exe; "--id=" +:+ arg_id args; "--kernel=" +:+ kernel; "--rootfs=" +:+ rootfs;
        "--work-dir=" +:+ root; "--firecracker-binary=" +:+ daemon]
       ++ initramfs ++ pool_dir ++ deny_probe
       ++ ["--network-backend=" +:+ as_flag_value (arg_network_backend args)]
       ++ (if arg_host_mmds args then ["--host-mmds"] else [])
       ++ pinned
       ++ opt_num_arg "--uid" (arg_uid args) ++ opt_num_arg "--gid" (arg_gid args)
       ++ match arg_user args with Some user => ["--user=" +:+ user] | None => [] end
       ++ (if arg_allow_shared_uid args then ["--allow-shared-uid"] else [])
       ++ opt_num_arg "--rlimit-nofile" (arg_rlimit_nofile args)
       ++ opt_num_arg "--rlimit-nproc" (arg_rlimit_nproc args)
       ++ opt_num_arg "--rlimit-fsize" (arg_rlimit_fsize args)).

Definition plist_text (label : string) (arguments : list string) (root id : string) : string := unlines [
  "<?xml version=" +:+ quote +:+ "1.0" +:+ quote +:+ " encoding=" +:+ quote +:+ "UTF-8" +:+ quote +:+ "?>";
  "<!DOCTYPE plist PUBLIC " +:+ quote +:+ "-//Apple//DTD PLIST 1.0//EN" +:+ quote +:+ " " +:+ quote
    +:+ "http://www.apple.com/DTDs/PropertyList-1.0.dtd" +:+ quote +:+ ">";
  "<plist version=" +:+ quote +:+ "1.0" +:+ quote +:+ ">";
  "<dict>";
  "    <key>Label</key>";
  "    <string>" +:+ label +:+ "</string>";
  "    <key>ProgramArguments</key>";
  "    <array>";
  join nl ((fun a => "        <string>" +:+ xml_escape a +:+ "</string>") <$> arguments);
  "    </array>";
  "    <key>KeepAlive</key>";
  "    <true/>";
  "    <key>RunAtLoad</key>";
  "    <true/>";
  "    <key>StandardOutPath</key>";
  "    <string>" +:+ xml_escape root +:+ "/." +:+ xml_escape id +:+ ".launchd.stdout.log</string>";
  "    <key>StandardErrorPath</key>";
  "    <string>" +:+ xml_escape root +:+ "/." +:+ xml_escape id +:+ ".launchd.stderr.log</string>";
  "    <key>ThrottleInterval</key>";
  "    <integer>5</integer>";
  "</dict>";
  "</plist>"].

Definition generate_launchd_plist (args : Args) (plan : Plan) : J string :=
  let label := "com.hephaestus.vm." +:+ arg_id args in
  let! r := ask CurrentExe in
  let! jailer_exe := or_fail CurrentExeError r in
  let! arguments := program_args args plan jailer_exe in
  let! root := plist_path (work_root plan) in
  ret (plist_text label arguments root (arg_id args)).

(** ** Removing an instance *)

Definition remove_if_there (path : string) : J unit :=
  let! meta := ask (Lstat path) in
  if is_ok meta then let! r := ask (RemoveFile path) in or_fail (RemoveError path) r else ret tt.

(** The removals, with the lock held if the instance had a lock file. *)
Definition remove_instance (args : Args) (work_root lock_path : string) (locked : bool) : J unit :=
  let work_dir := path_join work_root (arg_id args) in
  do! refuse_symlink work_dir in
  let! meta := ask (Lstat work_dir) in
  do! (if is_ok meta then let! r := ask (RemoveDirAll work_dir) in or_fail (RemoveError work_dir) r else ret tt) in
  do! remove_if_there (path_join work_root (profile_name (arg_id args))) in
  do! remove_if_there (path_join work_root (stdout_name (arg_id args))) in
  do! remove_if_there (path_join work_root (stderr_name (arg_id args))) in
  let! meta := ask (Lstat (path_join work_root ".uid-allocations")) in
  do! (if is_ok meta then
         let! reg := with_err (fun e => Error (UidRegistryError e)) (open work_root) in
         guarded (drop_registry reg)
           (do! with_err (fun e => Error (UidRegistryError e)) (remove reg (arg_id args)) in ret tt)
       else ret tt) in
  if locked then remove_if_there lock_path else ret tt.

Definition teardown (args : Args) : J Z :=
  do! or_fail id (validate_id (arg_id args)) in
  let! work_root := work_root_of args in
  let! exists_ := assert_trusted_work_root work_root in
  if negb exists_ then ret 0
  else
    let lock_path := path_join work_root (lock_name (arg_id args)) in
    let! meta := ask (Lstat lock_path) in
    do! (if is_ok meta then
           let! lock := acquire_instance_lock lock_path (arg_id args) in
           guarded (ask (Unlock lock)) (remove_instance args work_root lock_path true)
         else remove_instance args work_root lock_path false) in
    ret 0.

(** ** Running *)

(** [u32::cast_signed] *)
Definition cast_signed (z : Z) : Z := if z <? 2 ^ 31 then z else z - 2 ^ 32.

(** Starting the daemon and waiting for it. *)
Definition launch (args : Args) (plan : Plan) : J Z :=
  do! (if is_some (target_uid plan) || is_some (target_gid plan) then
         let! r := ask (Chown (work_dir plan) (target_uid plan) (target_gid plan)) in
         or_fail (ChownError (work_dir plan)) r
       else ret tt) in
  let! r := ask (Spawn (build_command plan args)) in
  let! child := or_fail (Exec (binary plan)) r in
  do! modify (fun _ => cast_signed child) in
  do! install_signal_forwarding in
  let! r := ask (WaitChild child) in
  let! status := or_fail (Exec (binary plan)) r in
  ret (let code := default 1 status in if (0 <=? code) && (code <=? u8_max) then code else 1).

Definition write_plist (args : Args) (plan : Plan) : J Z :=
  let! plist := generate_launchd_plist args plan in
  do! match arg_launchd_plist_path args with
      | Some path => let! r := ask (WriteFile path plist) in or_fail (WritePlist path) r
      | None =>
          let! r := ask (PrintOut plist) in
          match r with Ok _ => ret tt | Err e => fail (Panic ("failed printing to stdout: " +:+ e)) end
      end in
  ret 0.

Definition run (args : Args) : J Z :=
  if arg_teardown args then teardown args
  else if arg_host_mmds args && negb (bool_decide (arg_network_backend args = Vmnet)) then
    fail (Error HostMmdsRequiresVmnet)
  else
    let! explicit := with_err (fun e => Error (PrivilegeDrop e)) (resolve_user (arg_user args) (arg_uid args) (arg_gid args)) in
    let! plan := prepare args explicit in
    guarded (ask (Unlock (lock plan)))
      (if arg_generate_launchd_plist args || is_some (arg_launchd_plist_path args) then write_plist args plan
       else launch args plan).

(** The exit code of the process; a panic exits with 101. *)
Definition main (args : Args) : M W Z Fault Z :=
  let! r := attempt (run args) in
  ret match r with Ok code => code | Err (Error _) => 1 | Err (Panic _) => 101 end.
End Jailer.
