(* ===== verification/Plist.v ===== *)
(** * Reading a property list

    What launchd finds in the file the jailer writes.  [xml_document] reads a
    document as XML 1.0 prescribes: the characters are checked, line ends are
    normalised, tags are matched and the predefined entities are replaced;
    comments, CDATA sections, character references and internal subsets,
    which the jailer does not write, are refused.  [plist_read] makes of the
    elements the value they stand for in Apple's document type.  The lemmas
    read back the text of [Jailer.plist_text]. *)

From Stdlib Require Import Ascii.
From S2P Require Import Prelude RustStr Utf8 World Pool UidRegistry Profile Jailer.
Local Open Scope string_scope.
Local Open Scope Z_scope.
Local Open Scope list_scope.

(** ** Characters and lines *)

Definition CR : Ascii.ascii := ch 13.

(** [Char] of XML 1.0: no control characters but tab, line feed and carriage
    return, and neither U+FFFE nor U+FFFF. *)
Definition char_allowed (a : Ascii.ascii) (t : string) : bool :=
  if byte_of a <? 128 then (32 <=? byte_of a) || (byte_of a =? 9) || (byte_of a =? 10) || (byte_of a =? 13)
  else negb (String.eqb (String a t) (utf8 [239; 191; 190]%nat) || String.eqb (String a t) (utf8 [239; 191; 191]%nat)).
Fixpoint xml_chars_fuel (n : nat) (s : string) : bool :=
  match n, s with
  | _, "" => true
  | O, _ => false
  | S n', String a s' =>
      let '(t, ok, r) := utf8_step a s' in ok && char_allowed a t && xml_chars_fuel n' r
  end.
Definition xml_chars (s : string) : bool := xml_chars_fuel (String.length s) s.

(** The end of a line is a line feed, however it was written. *)
Fixpoint normalise (s : string) : string :=
  match s with
  | "" => ""
  | String a s' =>
      if Ascii.eqb a CR
      then String NL (match s' with String b r => if Ascii.eqb b NL then normalise r else normalise s' | "" => "" end)
      else String a (normalise s')
  end.

Definition blank (s : string) : bool :=
  str_forall (fun a => (byte_of a =? 32) || (byte_of a =? 9) || (byte_of a =? 10) || (byte_of a =? 13)) s.

(** ** Tags and text *)

Inductive XTok := XTag (body : string) | XText (text : string).
Inductive XState := InText (s : string) | InTag (s : string) | InQuote (q : Ascii.ascii) (s : string).

Definition xml_char (st : XState) (a : Ascii.ascii) : option (XState * list XTok) :=
  match st with
  | InText s => Some (if Ascii.eqb a (ch 60) then (InTag "", [XText s]) else (InText (snoc s a), []))
  | InTag s =>
      if Ascii.eqb a (ch 62) then Some (InText "", [XTag s])
      else if Ascii.eqb a (ch 60) then None
      else if Ascii.eqb a (ch 34) || Ascii.eqb a (ch 39) then Some (InQuote a (snoc s a), [])
      else Some (InTag (snoc s a), [])
  | InQuote q s =>
      if Ascii.eqb a (ch 60) then None
      else Some (if Ascii.eqb a q then InTag (snoc s a) else InQuote q (snoc s a), [])
  end.
Fixpoint xml_lex (st : XState) (s : string) : option (XState * list XTok) :=
  match s with
  | "" => Some (st, [])
  | String a s' =>
      '(st1, ts1) ← xml_char st a;
      '(st2, ts2) ← xml_lex st1 s';
      Some (st2, ts1 ++ ts2)
  end.

(** The predefined entities; a bare ampersand is an error. *)
Fixpoint xml_unescape (s : string) : option string :=
  match s with
  | "" => Some ""
  | String "&"%char (String "a"%char (String "m"%char (String "p"%char (String ";"%char r)))) => String "&"%char <$> xml_unescape r
  | String "&"%char (String "l"%char (String "t"%char (String ";"%char r))) => String "<"%char <$> xml_unescape r
  | String "&"%char (String "g"%char (String "t"%char (String ";"%char r))) => String ">"%char <$> xml_unescape r
  | String "&"%char (String "q"%char (String "u"%char (String "o"%char (String "t"%char (String ";"%char r))))) =>
      String (ch 34) <$> xml_unescape r
  | String "&"%char (String "a"%char (String "p"%char (String "o"%char (String "s"%char (String ";"%char r))))) =>
      String "'"%char <$> xml_unescape r
  | String "&"%char _ => None
  | String a r => String a <$> xml_unescape r
  end.

(** The end of a CDATA section does not stand in text. *)
Fixpoint cdata_end (s : string) : bool :=
  starts_with "]]>" s || match s with "" => false | String _ s' => cdata_end s' end.
Definition char_data (raw : string) : option string := if cdata_end raw then None else xml_unescape raw.

Inductive Markup := MOpen (name : string) | MClose (name : string) | MEmpty (name : string) | MProlog.

(** The name at the head of a tag; attributes are not looked at. *)
Fixpoint first_word (s : string) : string :=
  match s with
  | "" => ""
  | String a s' => if blank (String a "") || Ascii.eqb a (ch 47) then "" else String a (first_word s')
  end.
Definition markup (body : string) : option Markup :=
  if starts_with "?" body then (if ends_with_char (ch 63) body then Some MProlog else None)
  else if starts_with "!DOCTYPE " body then (if contains_char (ch 91) body then None else Some MProlog)
  else if starts_with "!" body then None
  else match strip_prefix "/" body with
       | Some name => Some (MClose (first_word name))
       | None =>
           let name := first_word body in
           if str_is_empty name then None
           else Some (if ends_with_char (ch 47) body then MEmpty name else MOpen name)
       end.

(** ** Elements *)

Inductive XNode := XElem (name : string) (children : list XNode) | XData (text : string).

Definition is_element (x : XNode) : bool := match x with XElem _ _ => true | XData _ => false end.
Definition add_text (t : string) (l : list XNode) : list XNode := if str_is_empty t then l else XData t :: l.

(** [cur] are the children so far of the element that is open, the last one
    first; [stack] the elements around it. *)
Fixpoint build (cur : list XNode) (stack : list (string * list XNode)) (ts : list XTok) : option (list XNode) :=
  match ts with
  | [] => match stack with [] => Some (reverse cur) | _ => None end
  | XText raw :: rest => t ← char_data raw; build (add_text t cur) stack rest
  | XTag body :: rest =>
      m ← markup body;
      match m with
      | MProlog => match stack with [] => if existsb is_element cur then None else build cur stack rest | _ => None end
      | MEmpty name => build (XElem name [] :: cur) stack rest
      | MOpen name => build [] ((name, cur) :: stack) rest
      | MClose name =>
          match stack with
          | (name', outer) :: stack' => if String.eqb name name' then build (XElem name (reverse cur) :: outer) stack' rest else None
          | [] => None
          end
      end
  end.

Definition is_blank (x : XNode) : bool := match x with XData t => blank t | XElem _ _ => false end.
Definition significant (l : list XNode) : list XNode := List.filter (fun x => negb (is_blank x)) l.

Definition xml_document (text : string) : option XNode :=
  if negb (xml_chars text) then None
  else
    r ← xml_lex (InText "") (normalise text);
    match r with
    | (InText s, ts) =>
        nodes ← build [] [] (ts ++ [XText s]);
        match significant nodes with [XElem name children] => Some (XElem name children) | _ => None end
    | _ => None
    end.

(** ** Property lists *)

Inductive PValue :=
| PString (s : string)
| PBool (b : bool)
| PInteger (n : Z)
| PArray (l : list PValue)
| PDict (l : list (string * PValue)).

Definition text_of (children : list XNode) : option string :=
  match children with [] => Some "" | [XData t] => Some t | _ => None end.
Definition integer_of (s : string) : option Z := match parse_uint u64_max s with Ok n => Some n | Err _ => None end.

(** The values of an array, and the keys of a dictionary with their values. *)
Section Containers.
Variable value : XNode -> option PValue.
Fixpoint plist_items (l : list XNode) : option (list PValue) :=
  match l with
  | [] => Some []
  | y :: rest => if is_blank y then plist_items rest else v ← value y; vs ← plist_items rest; Some (v :: vs)
  end.
Fixpoint plist_pairs (key : option string) (l : list XNode) : option (list (string * PValue)) :=
  match l with
  | [] => match key with None => Some [] | Some _ => None end
  | y :: rest =>
      if is_blank y then plist_pairs key rest
      else match key with
           | Some k => v ← value y; vs ← plist_pairs None rest; Some ((k, v) :: vs)
           | None =>
               match y with
               | XElem n kc => if String.eqb n "key" then k ← text_of kc; plist_pairs (Some k) rest else None
               | XData _ => None
               end
           end
  end.
End Containers.

Fixpoint plist_value (x : XNode) : option PValue :=
  match x with
  | XData _ => None
  | XElem name children =>
      if String.eqb name "string" then PString <$> text_of children
      else if String.eqb name "integer" then t ← text_of children; PInteger <$> integer_of t
      else if String.eqb name "true" then match children with [] => Some (PBool true) | _ => None end
      else if String.eqb name "false" then match children with [] => Some (PBool false) | _ => None end
      else if String.eqb name "array" then PArray <$> plist_items plist_value children
      else if String.eqb name "dict" then PDict <$> plist_pairs plist_value None children
      else None
  end.

Definition plist_read (text : string) : option PValue :=
  x ← xml_document text;
  match x with
  | XElem name children =>
      if String.eqb name "plist" then match significant children with [y] => plist_value y | _ => None end else None
  | XData _ => None
  end.

(** ** Text that is read back *)

(** The strings that XML can hold unchanged. *)
Definition xml_string (s : string) : Prop := xml_chars s = true /\ contains_char CR s = false.

(** *** Characters *)

(** One allowed character. *)
Inductive one_char : string -> Prop :=
| one_char_intro a t : (forall r, utf8_step a (t +:+ r) = (t, true, r)) -> char_allowed a t = true -> one_char (String a t).
Inductive Chars : string -> Prop :=
| Chars_nil : Chars ""
| Chars_cons c s : one_char c -> Chars s -> Chars (c +:+ s).

Lemma take_cont_local n s t r : take_cont n s = (t, true, r) -> forall r', take_cont n (t +:+ r') = (t, true, r').
Proof.
  revert s t. induction n as [|n IH]; intros s t; cbn [take_cont]; [by intros [= <- <-]|].
  destruct s as [|a s]; [done|]. destruct (continuation a) eqn:Ea; [|done].
  destruct (take_cont n s) as [[t1 ok1] r1] eqn:E. intros [= <- -> ->] r'. cbn. by rewrite Ea, (IH _ _ E).
Qed.
Lemma utf8_step_local a s t r : utf8_step a s = (t, true, r) -> forall r', utf8_step a (t +:+ r') = (t, true, r').
Proof.
  unfold utf8_step. destruct (byte_of a <? 128); [by intros [= <- <-]|]. destruct (lead a) as [[second more]|]; [|done].
  destruct s as [|b s]; [done|]. destruct (second b) eqn:Eb; [|done].
  destruct (take_cont more s) as [[t1 ok1] r1] eqn:E. intros [= <- -> ->] r'. cbn. by rewrite Eb, (take_cont_local _ _ _ _ E).
Qed.

Lemma chars_fuel n s : (String.length s <= n)%nat -> xml_chars_fuel n s = true <-> Chars s.
Proof.
  revert s. induction n as [|n IH]; intros [|a s] Hn; cbn in Hn |- *; try (split; [intros; constructor|done]); [lia|].
  destruct (utf8_step a s) as [[t ok] r] eqn:E. pose proof (utf8_step_length _ _ _ _ _ E) as Hlen.
  pose proof (utf8_step_app _ _ _ _ _ E) as ->. rewrite !andb_true_iff, (IH r) by lia. split.
  - intros [[-> Ha] Hr]. apply (Chars_cons (String a t) r); [|done]. constructor; [|done]. by eapply utf8_step_local.
  - inversion 1 as [|c s' Hc Hs' Heq]. destruct Hc as [a' t' Hstep Ha']. injection Heq as -> Heq.
    rewrite <- Heq, Hstep in E. by injection E as <- <- <-.
Qed.
Lemma xml_chars_spec s : xml_chars s = true <-> Chars s.
Proof. by apply chars_fuel. Qed.
Lemma chars_app a b : Chars a -> Chars b -> Chars (a +:+ b).
Proof. induction 1 as [|c s Hc Hs IH]; [done|]. intros Hb. rewrite app_assoc_s. constructor; [done|by apply IH]. Qed.

(** A character that is not ASCII has no ASCII byte. *)
Definition high (a : Ascii.ascii) : bool := negb (byte_of a <? 128).
Lemma in_range_high lo hi a : 128 <= lo -> in_range lo hi a = true -> high a = true.
Proof. unfold in_range, high. intros. lia. Qed.
Lemma take_cont_high n s t r : take_cont n s = (t, true, r) -> str_forall high t = true.
Proof.
  revert s t. induction n as [|n IH]; intros s t; cbn [take_cont]; [by intros [= <- <-]|].
  destruct s as [|a s]; [done|]. destruct (continuation a) eqn:Ea; [|done].
  destruct (take_cont n s) as [[t1 ok1] r1] eqn:E. intros [= <- -> ->]. cbn. rewrite (IH _ _ E).
  by rewrite (in_range_high 128 191).
Qed.
Lemma one_char_bytes c : one_char c -> (exists a, c = String a "" /\ (byte_of a <? 128) = true) \/ str_forall high c = true.
Proof.
  intros [a t Hstep _]. specialize (Hstep ""). rewrite app_empty_r in Hstep. unfold utf8_step in Hstep.
  destruct (byte_of a <? 128) eqn:Ha; [left; exists a; by injection Hstep as <- _|right].
  cbn. unfold high at 1. rewrite Ha. cbn. destruct (lead a) as [[second more]|] eqn:El; [|done].
  destruct t as [|b t]; [done|]. destruct (second b) eqn:Eb; [|done].
  destruct (take_cont more t) as [[t1 ok1] r1] eqn:E. injection Hstep as -> -> ->. cbn. rewrite (take_cont_high _ _ _ _ E), andb_true_r.
  unfold lead in El. repeat (case_match; [injection El as <- _; eapply in_range_high; [|exact Eb]; lia|]). done.
Qed.

(** *** Escaping *)

Lemma xml_escape_cons a s :
  xml_escape (String a s) =
  (if Ascii.eqb a (ch 38) then "&amp;" else if Ascii.eqb a (ch 60) then "&lt;" else if Ascii.eqb a (ch 62) then "&gt;" else String a "")
  +:+ xml_escape s.
Proof.
  unfold xml_escape. cbn [replace_char]. destruct (Ascii.eqb_spec a (ch 38)) as [->|H1]; [done|]. cbn [replace_char].
  destruct (Ascii.eqb_spec a (ch 60)) as [->|H2]; [done|]. cbn [replace_char]. by destruct (Ascii.eqb a (ch 62)).
Qed.
Lemma xml_escape_app a b : xml_escape (a +:+ b) = xml_escape a +:+ xml_escape b.
Proof. induction a as [|c a IH]; [done|]. cbn [String.append]. by rewrite !xml_escape_cons, IH, app_assoc_s. Qed.

(** Bytes that are not markup stay. *)
Lemma xml_escape_without c s : c <> ch 38 -> c <> ch 59 ->
  contains_char c "&amp;&lt;&gt;" = false -> contains_char c s = false -> contains_char c (xml_escape s) = false.
Proof.
  intros H1 H2 H3. induction s as [|a s IH]; [done|]. cbn [contains_char]. intros [Ha Hs]%orb_false_iff.
  rewrite xml_escape_cons, contains_char_app, (IH Hs), orb_false_r. cbn in H3. rewrite !orb_false_iff in H3.
  destruct (Ascii.eqb a (ch 38)); [cbn; rewrite !orb_false_iff; tauto|].
  destruct (Ascii.eqb a (ch 60)); [cbn; rewrite !orb_false_iff; tauto|].
  destruct (Ascii.eqb a (ch 62)); [cbn; rewrite !orb_false_iff; tauto|]. cbn. by rewrite Ha.
Qed.
Lemma xml_escape_free c s : c = ch 60 \/ c = ch 62 -> contains_char c (xml_escape s) = false.
Proof.
  intros Hc. induction s as [|a s IH]; [done|]. rewrite xml_escape_cons, contains_char_app, IH, orb_false_r.
  destruct (Ascii.eqb_spec a (ch 38)) as [->|]; [by destruct Hc; subst c|]. destruct (Ascii.eqb_spec a (ch 60)) as [->|N60]; [by destruct Hc; subst c|].
  destruct (Ascii.eqb_spec a (ch 62)) as [->|N62]; [by destruct Hc; subst c|]. cbn. rewrite orb_false_r. apply Ascii.eqb_neq.
  destruct Hc; subst c; done.
Qed.
Lemma xml_escape_high t : str_forall high t = true -> xml_escape t = t.
Proof.
  induction t as [|a t IH]; [done|]. cbn [str_forall]. intros [Ha Ht]%andb_true_iff. rewrite xml_escape_cons, (IH Ht).
  destruct (Ascii.eqb_spec a (ch 38)) as [->|]; [done|]. destruct (Ascii.eqb_spec a (ch 60)) as [->|]; [done|].
  by destruct (Ascii.eqb_spec a (ch 62)) as [->|].
Qed.
Lemma chars_escape s : Chars s -> Chars (xml_escape s).
Proof.
  induction 1 as [|c s Hc Hs IH]; [constructor|]. rewrite xml_escape_app. apply chars_app; [|done].
  assert (H1 : Chars c) by (rewrite <- (app_empty_r c); by repeat constructor).
  destruct (one_char_bytes c Hc) as [(a & -> & Ha)|Hh]; [|by rewrite xml_escape_high].
  rewrite xml_escape_cons. change (xml_escape "") with "". rewrite app_empty_r.
  destruct (Ascii.eqb a (ch 38)); [by apply xml_chars_spec|]. destruct (Ascii.eqb a (ch 60)); [by apply xml_chars_spec|].
  destruct (Ascii.eqb a (ch 62)); [by apply xml_chars_spec|done].
Qed.

Lemma unescape_plain a s : Ascii.eqb a (ch 38) = false -> xml_unescape (String a s) = String a <$> xml_unescape s.
Proof. intros Ha. by destruct a as [[] [] [] [] [] [] [] []]. Qed.
Lemma unescape_escape a b : contains_char (ch 38) b = false -> xml_unescape (xml_escape a +:+ b) = Some (a +:+ b).
Proof.
  intros Hb. assert (Hd : forall s, contains_char (ch 38) s = false -> xml_unescape s = Some s).
  { induction s as [|c s IHs]; [done|]. cbn [contains_char]. intros [Hc Hs]%orb_false_iff. rewrite unescape_plain, IHs by done. done. }
  induction a as [|c a IH]; [by apply Hd|]. rewrite xml_escape_cons, app_assoc_s.
  destruct (Ascii.eqb_spec c (ch 38)) as [->|H1]; [cbn; by rewrite IH|].
  destruct (Ascii.eqb_spec c (ch 60)) as [->|H2]; [cbn; by rewrite IH|].
  destruct (Ascii.eqb_spec c (ch 62)) as [->|H3]; [cbn; by rewrite IH|].
  cbn [String.append]. rewrite unescape_plain by (by apply Ascii.eqb_neq). by rewrite IH.
Qed.
Lemma no_cdata_end s : contains_char (ch 62) s = false -> cdata_end s = false.
Proof.
  induction s as [|a s IH]; [done|]. cbn [contains_char]. intros [Ha Hs]%orb_false_iff. cbn [cdata_end]. rewrite (IH Hs), orb_false_r.
  destruct (starts_with "]]>" (String a s)) eqn:E; [|done]. apply starts_with_spec in E as [r E]. cbn in E. injection E as -> ->. done.
Qed.
(** Text that the jailer escaped is read as it was, with what follows it. *)
Lemma char_data_escape a b : contains_char (ch 38) b = false -> contains_char (ch 62) b = false ->
  char_data (xml_escape a +:+ b) = Some (a +:+ b).
Proof.
  intros Hb Hb'. unfold char_data. rewrite no_cdata_end by (rewrite contains_char_app, xml_escape_free by tauto; done).
  by apply unescape_escape.
Qed.

Lemma normalise_none s : contains_char CR s = false -> normalise s = s.
Proof. induction s as [|a s IH]; [done|]. cbn. intros [Ha Hs]%orb_false_iff. by rewrite Ha, IH. Qed.

(** *** Lines of the document *)

Lemma lex_seq st a b st1 t1 st2 t2 :
  xml_lex st a = Some (st1, t1) -> xml_lex st1 b = Some (st2, t2) -> xml_lex st (a +:+ b) = Some (st2, t1 ++ t2).
Proof.
  revert st t1. induction a as [|c a IH]; intros st t1; cbn [xml_lex String.append]; [by intros [= -> <-]|].
  destruct (xml_char st c) as [[st0 t0]|]; cbn; [|done]. destruct (xml_lex st0 a) as [[st3 t3]|] eqn:E; cbn; [|done].
  intros [= -> <-] Hb. rewrite (IH _ _ E Hb). cbn. by rewrite app_assoc.
Qed.
Lemma xml_lex_text s acc : contains_char (ch 60) s = false -> xml_lex (InText acc) s = Some (InText (acc +:+ s), []).
Proof.
  revert acc. induction s as [|a s IH]; intros acc Hs; [by rewrite app_empty_r|]. cbn [contains_char] in Hs.
  apply orb_false_iff in Hs as [Ha Hs]. cbn [xml_lex xml_char]. rewrite Ha. cbn. rewrite IH by done. cbn. by rewrite snoc_app.
Qed.

(** A line of tags and text, after a line feed. *)
Definition line_tokens (l : string) (ts : list XTok) : Prop := xml_lex (InText nl) l = Some (InText "", ts).
Definition element_tokens (pre name raw : string) : list XTok :=
  [XText (nl +:+ pre); XTag name; XText raw; XTag ("/" +:+ name)].

Lemma string_line pre raw : contains_char (ch 60) pre = false -> contains_char (ch 60) raw = false ->
  line_tokens (pre +:+ "<string>" +:+ raw +:+ "</string>") (element_tokens pre "string" raw).
Proof.
  intros Hp Hr. unfold line_tokens. eapply (lex_seq _ _ _ _ [] _ (element_tokens pre "string" raw)); [by apply xml_lex_text|].
  eapply (lex_seq _ "<string>" _ _ [_; _] _ [_; _]); [reflexivity|].
  eapply (lex_seq _ _ _ _ [] _ [_; _]); [by apply xml_lex_text|reflexivity].
Qed.
Lemma lex_unlines ls tss : Forall2 line_tokens ls tss -> xml_lex (InText nl) (unlines ls) = Some (InText nl, concat tss).
Proof.
  induction 1 as [|l ts ls tss Hl _ IH]; [done|]. cbn [unlines concat]. eapply lex_seq; [exact Hl|].
  change (String NL (unlines ls)) with (nl +:+ unlines ls). by eapply (lex_seq _ nl _ _ []).
Qed.
Lemma join_unlines ls : ls <> [] -> join nl ls +:+ nl = unlines ls.
Proof.
  induction ls as [|l ls IH]; [done|]. intros _. destruct ls as [|l' ls]; [done|].
  change (join nl (l :: l' :: ls)) with (l +:+ nl +:+ join nl (l' :: ls)). rewrite !app_assoc_s, IH by done. done.
Qed.

(** *** The jailer's property list *)

(** What the property list says: the label, the command line, the two log
    files, and that launchd keeps the jailer running. *)
Definition instance_plist (id root : string) (arguments : list string) : PValue :=
  PDict [("Label", PString ("com.hephaestus.vm." +:+ id)); ("ProgramArguments", PArray (PString <$> arguments));
         ("KeepAlive", PBool true); ("RunAtLoad", PBool true);
         ("StandardOutPath", PString (root +:+ "/." +:+ id +:+ ".launchd.stdout.log"));
         ("StandardErrorPath", PString (root +:+ "/." +:+ id +:+ ".launchd.stderr.log"));
         ("ThrottleInterval", PInteger 5)].

Definition argument_line (a : string) : string := "        <string>" +:+ xml_escape a +:+ "</string>".
Definition argument_nodes (args : list string) : list XNode :=
  args ≫= (fun a => [XData (nl +:+ "        "); XElem "string" (add_text a [])]).

Lemma argument_tokens a : line_tokens (argument_line a) (element_tokens "        " "string" (xml_escape a)).
Proof. apply (string_line "        "); [done|]. apply xml_escape_free. tauto. Qed.

Lemma build_text raw t cur stack rest : char_data raw = Some t -> build cur stack (XText raw :: rest) = build (add_text t cur) stack rest.
Proof. intros Ht. cbn [build]. by rewrite Ht. Qed.
(** An element with text that is read as [t]. *)
Lemma build_string pre raw t cur stack rest :
  char_data (nl +:+ pre) = Some (nl +:+ pre) -> char_data raw = Some t ->
  build cur stack (element_tokens pre "string" raw ++ rest) =
  build (XElem "string" (add_text t []) :: XData (nl +:+ pre) :: cur) stack rest.
Proof.
  intros Hp Ht. unfold element_tokens. cbn [app]. rewrite (build_text _ _ _ _ _ Hp). cbn [build]. cbn -[build char_data].
  rewrite Ht. cbn -[build]. by destruct t.
Qed.
Lemma build_arguments args cur stack rest :
  build cur stack (concat ((fun a => element_tokens "        " "string" (xml_escape a)) <$> args) ++ rest) =
  build (reverse (argument_nodes args) ++ cur) stack rest.
Proof.
  revert cur. induction args as [|a args IH]; intros cur; [done|]. cbn [fmap list_fmap concat]. rewrite <- app_assoc.
  rewrite (build_string _ _ a); [|done|]. 2:{ rewrite <- (app_empty_r (xml_escape a)), char_data_escape by done. by rewrite app_empty_r. }
  rewrite IH. change (argument_nodes (a :: args)) with ([XData (nl +:+ "        "); XElem "string" (add_text a [])] ++ argument_nodes args).
  rewrite reverse_app, <- app_assoc. done.
Qed.

Lemma text_added t : text_of (add_text t []) = Some t.
Proof. by destruct t. Qed.
Lemma items_arguments args rest vs :
  plist_items plist_value rest = Some vs -> plist_items plist_value (argument_nodes args ++ rest) = Some ((PString <$> args) ++ vs).
Proof.
  intros Hr. induction args as [|a args IH]; [done|].
  change (argument_nodes (a :: args)) with ([XData (nl +:+ "        "); XElem "string" (add_text a [])] ++ argument_nodes args).
  cbn -[text_of add_text argument_nodes]. rewrite text_added. cbn -[argument_nodes]. by rewrite IH.
Qed.

(** The lines of the file, with all strings escaped. *)
Definition string_text (pre s : string) : string := pre +:+ "<string>" +:+ xml_escape s +:+ "</string>".
Definition first_line : string := "<?xml version=" +:+ quote +:+ "1.0" +:+ quote +:+ " encoding=" +:+ quote +:+ "UTF-8" +:+ quote +:+ "?>".
Definition doctype_line : string :=
  "<!DOCTYPE plist PUBLIC " +:+ quote +:+ "-//Apple//DTD PLIST 1.0//EN" +:+ quote +:+ " " +:+ quote
    +:+ "http://www.apple.com/DTDs/PropertyList-1.0.dtd" +:+ quote +:+ ">".
Definition lines_before (id : string) : list string :=
  [doctype_line; "<plist version=" +:+ quote +:+ "1.0" +:+ quote +:+ ">"; "<dict>"; "    <key>Label</key>";
   string_text "    " ("com.hephaestus.vm." +:+ id); "    <key>ProgramArguments</key>"; "    <array>"].
Definition lines_after (root id : string) : list string :=
  ["    </array>"; "    <key>KeepAlive</key>"; "    <true/>"; "    <key>RunAtLoad</key>"; "    <true/>";
   "    <key>StandardOutPath</key>"; string_text "    " (root +:+ "/." +:+ id +:+ ".launchd.stdout.log");
   "    <key>StandardErrorPath</key>"; string_text "    " (root +:+ "/." +:+ id +:+ ".launchd.stderr.log");
   "    <key>ThrottleInterval</key>"; "    <integer>5</integer>"; "</dict>"; "</plist>"].

Lemma unlines_app a b : unlines (a ++ b) = unlines a +:+ unlines b.
Proof. induction a as [|l a IH]; [done|]. cbn [app unlines]. rewrite IH. by rewrite app_assoc_s. Qed.

Lemma plain_escape s : str_forall id_char s = true -> xml_escape s = s.
Proof.
  induction s as [|a s IH]; [done|]. cbn [str_forall]. intros [Ha Hs]%andb_true_iff. rewrite xml_escape_cons, (IH Hs).
  destruct (Ascii.eqb_spec a (ch 38)) as [->|]; [done|]. destruct (Ascii.eqb_spec a (ch 60)) as [->|]; [done|].
  by destruct (Ascii.eqb_spec a (ch 62)) as [->|].
Qed.
Lemma valid_id_escape id : valid_id id = true -> xml_escape id = id.
Proof. unfold valid_id. rewrite !andb_true_iff. intros [_ Hc]. by apply plain_escape. Qed.

Lemma log_line root id name : xml_escape name = name ->
  "    <string>" +:+ xml_escape root +:+ "/." +:+ xml_escape id +:+ (name +:+ "</string>") = string_text "    " (root +:+ "/." +:+ id +:+ name).
Proof.
  intros Hn. unfold string_text. rewrite !xml_escape_app, Hn. change (xml_escape "/.") with "/.". by rewrite !app_assoc_s.
Qed.
Lemma unlines_join a ls b : ls <> [] -> unlines (a ++ [join nl ls] ++ b) = unlines (a ++ ls ++ b).
Proof. intros Hl. rewrite !unlines_app, <- (join_unlines ls) by done. reflexivity. Qed.
Lemma plist_text_lines id arguments root : valid_id id = true -> arguments <> [] ->
  plist_text ("com.hephaestus.vm." +:+ id) arguments root id =
  unlines (first_line :: lines_before id ++ (argument_line <$> arguments) ++ lines_after root id).
Proof.
  intros Hid Hne. rewrite (app_comm_cons (lines_before id)), <- (unlines_join _ (argument_line <$> arguments)) by (by intros ?%fmap_nil_inv).
  unfold plist_text. apply (f_equal unlines). unfold lines_before, lines_after. cbn [app].
  change (".launchd.stdout.log</string>") with (".launchd.stdout.log" +:+ "</string>").
  change (".launchd.stderr.log</string>") with (".launchd.stderr.log" +:+ "</string>").
  rewrite !log_line by done. replace (string_text "    " ("com.hephaestus.vm." +:+ id)) with ("    <string>" +:+ ("com.hephaestus.vm." +:+ id) +:+ "</string>"); [done|].
  unfold string_text. rewrite xml_escape_app, (valid_id_escape id) by done. reflexivity.
Qed.

(** The tokens of those lines. *)
Definition key_tokens (key : string) : list XTok := element_tokens "    " "key" key.
Definition tokens_before (id : string) : list (list XTok) :=
  [[XText nl; XTag (String.substring 1 (String.length doctype_line - 2) doctype_line)];
   [XText nl; XTag ("plist version=" +:+ quote +:+ "1.0" +:+ quote)]; [XText nl; XTag "dict"]; key_tokens "Label";
   element_tokens "    " "string" (xml_escape ("com.hephaestus.vm." +:+ id)); key_tokens "ProgramArguments";
   [XText (nl +:+ "    "); XTag "array"]].
Definition tokens_after (root id : string) : list (list XTok) :=
  [[XText (nl +:+ "    "); XTag "/array"]; key_tokens "KeepAlive"; [XText (nl +:+ "    "); XTag "true/"];
   key_tokens "RunAtLoad"; [XText (nl +:+ "    "); XTag "true/"]; key_tokens "StandardOutPath";
   element_tokens "    " "string" (xml_escape (root +:+ "/." +:+ id +:+ ".launchd.stdout.log")); key_tokens "StandardErrorPath";
   element_tokens "    " "string" (xml_escape (root +:+ "/." +:+ id +:+ ".launchd.stderr.log")); key_tokens "ThrottleInterval";
   element_tokens "    " "integer" "5"; [XText nl; XTag "/dict"]; [XText nl; XTag "/plist"]].

Lemma string_text_tokens s : line_tokens (string_text "    " s) (element_tokens "    " "string" (xml_escape s)).
Proof. apply string_line; [done|]. apply xml_escape_free. tauto. Qed.
Ltac each_line :=
  repeat (apply Forall2_cons_2; [lazymatch goal with
    | |- line_tokens (string_text _ _) _ => apply string_text_tokens
    | |- _ => vm_compute; reflexivity
    end|]); apply Forall2_nil_2.
Lemma before_tokens id : Forall2 line_tokens (lines_before id) (tokens_before id).
Proof. unfold lines_before, tokens_before. each_line. Qed.
Lemma after_tokens root id : Forall2 line_tokens (lines_after root id) (tokens_after root id).
Proof. unfold lines_after, tokens_after. each_line. Qed.

(** Steps of [build] on tags. *)
Section Build.
Variables (cur : list XNode) (stack : list (string * list XNode)) (body : string) (rest : list XTok).
Lemma build_open name : markup body = Some (MOpen name) -> build cur stack (XTag body :: rest) = build [] ((name, cur) :: stack) rest.
Proof. intros Hm. cbn [build]. by rewrite Hm. Qed.
Lemma build_empty name : markup body = Some (MEmpty name) -> build cur stack (XTag body :: rest) = build (XElem name [] :: cur) stack rest.
Proof. intros Hm. cbn [build]. by rewrite Hm. Qed.
Lemma build_prolog : markup body = Some MProlog -> existsb is_element cur = false -> build cur [] (XTag body :: rest) = build cur [] rest.
Proof. intros Hm Hc. cbn [build]. rewrite Hm. cbn -[build]. by rewrite Hc. Qed.
Lemma build_close name outer stack' : markup body = Some (MClose name) -> stack = (name, outer) :: stack' ->
  build cur stack (XTag body :: rest) = build (XElem name (reverse cur) :: outer) stack' rest.
Proof. intros Hm ->. cbn [build]. rewrite Hm. cbn -[build]. by rewrite String.eqb_refl. Qed.
End Build.

Lemma char_data_whole s : char_data (xml_escape s) = Some s.
Proof. rewrite <- (app_empty_r (xml_escape s)), char_data_escape by done. by rewrite app_empty_r. Qed.

Lemma reverse_text t : reverse (add_text t []) = add_text t [].
Proof. by destruct t. Qed.

Ltac build_step :=
  lazymatch goal with
  | |- build _ _ (XText _ :: _) = _ => 
      lazymatch goal with
      | |- build _ _ (XText (xml_escape _) :: _) = _ => erewrite build_text by apply char_data_whole
      | |- _ => erewrite build_text by (vm_compute; reflexivity)
      end
  | |- build _ _ (XTag _ :: _) = _ =>
      first [erewrite build_open by (vm_compute; reflexivity) | erewrite build_empty by (vm_compute; reflexivity)
            |(erewrite build_close; [|vm_compute; reflexivity|reflexivity]) | rewrite build_prolog by (vm_compute; reflexivity)]
  end.

Definition first_tokens : list XTok := [XText ""; XTag (String.substring 1 (String.length first_line - 2) first_line)].

(** The elements of the file: [space] stands before each. *)
Definition space : XNode := XData (nl +:+ "    ").
Definition keyed (key : string) (x : XNode) : list XNode := [space; XElem "key" [XData key]; space; x].
Definition dict_nodes (id root : string) (arguments : list string) : list XNode :=
  keyed "Label" (XElem "string" (add_text ("com.hephaestus.vm." +:+ id) []))
  ++ keyed "ProgramArguments" (XElem "array" (argument_nodes arguments ++ [space]))
  ++ keyed "KeepAlive" (XElem "true" []) ++ keyed "RunAtLoad" (XElem "true" [])
  ++ keyed "StandardOutPath" (XElem "string" (add_text (root +:+ "/." +:+ id +:+ ".launchd.stdout.log") []))
  ++ keyed "StandardErrorPath" (XElem "string" (add_text (root +:+ "/." +:+ id +:+ ".launchd.stderr.log") []))
  ++ keyed "ThrottleInterval" (XElem "integer" [XData "5"]) ++ [XData nl].

Definition file_tokens (id root : string) (arguments : list string) : list XTok :=
  first_tokens ++ concat (tokens_before id) ++ concat ((fun a => element_tokens "        " "string" (xml_escape a)) <$> arguments)
  ++ concat (tokens_after root id) ++ [XText nl].

Lemma file_build id root arguments :
  build [] [] (file_tokens id root arguments) =
  Some [XData nl; XData nl; XElem "plist" [XData nl; XElem "dict" (dict_nodes id root arguments); XData nl]; XData nl].
Proof.
  unfold file_tokens. set (middle := concat (_ <$> arguments)).
  unfold first_tokens, tokens_before, tokens_after, key_tokens, element_tokens. cbn [concat app].
  repeat build_step. subst middle. rewrite build_arguments. repeat build_step. cbn [build]. rewrite !reverse_text.
  match goal with |- context [XElem "array" ?l] => replace l with (argument_nodes arguments ++ [space]) end; [reflexivity|].
  rewrite app_nil_r. change (space) with (XData (nl +:+ "    ")).
  match goal with |- _ = reverse ?l => change l with (XData (nl +:+ "    ") :: reverse (argument_nodes arguments)) end.
  by rewrite reverse_cons, reverse_involutive.
Qed.

(** What launchd makes of the elements. *)
Lemma dict_value id root arguments :
  plist_value (XElem "dict" (dict_nodes id root arguments)) = Some (instance_plist id root arguments).
Proof.
  unfold dict_nodes, keyed, instance_plist. cbn [app plist_value]. cbn -[plist_items text_of add_text argument_nodes String.append].
  rewrite !text_added. cbn -[plist_items text_of add_text argument_nodes String.append].
  rewrite (items_arguments arguments [space] []) by reflexivity. rewrite app_nil_r.
  reflexivity.
Qed.

(** The characters of the file. *)
Lemma chars_id s : str_forall id_char s = true -> xml_string s.
Proof.
  intros Hs. split; [|by apply (contains_char_forall CR id_char)]. apply xml_chars_spec. induction s as [|a s IH]; [constructor|].
  cbn [str_forall] in Hs. apply andb_true_iff in Hs as [Ha Hs]. apply (Chars_cons (String a "") s); [|by apply IH].
  assert (Hr : (32 <=? byte_of a) = true /\ (byte_of a <? 128) = true).
  { revert Ha. unfold id_char, is_ascii_alphanumeric. clear. by destruct a as [[] [] [] [] [] [] [] []]. }
  destruct Hr as [H32 H128]. constructor; [intros r; unfold utf8_step; by rewrite H128|]. unfold char_allowed. by rewrite H128, H32.
Qed.
Lemma xml_string_app a b : xml_string a -> xml_string b -> xml_string (a +:+ b).
Proof.
  intros [Ha Ha'] [Hb Hb']. split; [|by rewrite contains_char_app, Ha']. apply xml_chars_spec. apply chars_app; by apply xml_chars_spec.
Qed.
Lemma xml_string_escape s : xml_string s -> xml_string (xml_escape s).
Proof. intros [Hs Hc]. split; [by apply xml_chars_spec, chars_escape, xml_chars_spec|by apply xml_escape_without]. Qed.
Lemma xml_string_text pre s : xml_string pre -> xml_string s -> xml_string (string_text pre s).
Proof. intros Hp Hs. repeat apply xml_string_app; [done|done|by apply xml_string_escape|done]. Qed.
Lemma xml_string_unlines ls : Forall xml_string ls -> xml_string (unlines ls).
Proof. induction 1 as [|l ls Hl _ IH]; [done|]. cbn [unlines]. apply xml_string_app; [done|]. by apply (xml_string_app nl). Qed.

Lemma file_chars id root arguments : valid_id id = true -> xml_string root -> Forall xml_string arguments ->
  xml_string (unlines (first_line :: lines_before id ++ (argument_line <$> arguments) ++ lines_after root id)).
Proof.
  intros Hid Hroot Hargs. assert (Hi : xml_string id).
  { unfold valid_id in Hid. rewrite !andb_true_iff in Hid. by apply chars_id, Hid. }
  apply xml_string_unlines. apply Forall_cons_2; [done|]. apply Forall_app. split; [|apply Forall_app; split].
  - unfold lines_before. repeat apply Forall_cons_2; try done; try apply Forall_nil_2. apply xml_string_text; [done|]. by apply xml_string_app.
  - apply Forall_fmap. eapply Forall_impl; [exact Hargs|]. intros a Ha. by apply (xml_string_text "        ").
  - unfold lines_after. repeat apply Forall_cons_2; try done; try apply Forall_nil_2;
      (apply xml_string_text; [done|]; repeat apply xml_string_app; done).
Qed.

Lemma file_lex id root arguments :
  xml_lex (InText "") (unlines (first_line :: lines_before id ++ (argument_line <$> arguments) ++ lines_after root id)) =
  Some (InText nl, first_tokens ++ concat (tokens_before id)
    ++ concat ((fun a => element_tokens "        " "string" (xml_escape a)) <$> arguments) ++ concat (tokens_after root id)).
Proof.
  change (unlines (first_line :: ?ls)) with (first_line +:+ nl +:+ unlines ls). rewrite <- app_assoc_s.
  refine (lex_seq _ _ _ (InText nl) first_tokens _ _ _ _); [vm_compute; reflexivity|]. rewrite <- !concat_app.
  apply lex_unlines. apply Forall2_app; [apply before_tokens|]. apply Forall2_app; [|apply after_tokens].
  apply Forall2_fmap, Forall_Forall2_diag, Forall_true. apply argument_tokens.
Qed.

(** The file is read back as it was meant. *)
Lemma plist_text_read id arguments root :
  valid_id id = true -> arguments <> [] -> xml_string root -> Forall xml_string arguments ->
  plist_read (plist_text ("com.hephaestus.vm." +:+ id) arguments root id) = Some (instance_plist id root arguments).
Proof.
  intros Hid Hne Hroot Hargs. rewrite plist_text_lines by done. unfold plist_read, xml_document.
  destruct (file_chars id root arguments Hid Hroot Hargs) as [-> Hcr]. cbn [negb].
  rewrite normalise_none, file_lex by done. cbn [mbind option_bind]. rewrite <- !app_assoc. fold (file_tokens id root arguments).
  rewrite file_build. cbn -[plist_value dict_nodes]. apply dict_value.
Qed.

(** Characters that XML cannot hold: launchd refuses the file, or finds
    another path in it. *)
Example plist_control_refused : plist_read (plist_text "com.hephaestus.vm.a" ["/bin/" +:+ String (ch 1) ""] "/r" "a") = None.
Proof. by vm_compute. Qed.
Example plist_carriage_return :
  plist_read (plist_text "com.hephaestus.vm.a" ["/a" +:+ String CR "b"] "/r" "a") = Some (instance_plist "a" "/r" ["/a" +:+ nl +:+ "b"]).
Proof. by vm_compute. Qed.
