(* ===== verification/Session.v ===== *)
(** * What a jailer process does, as seen from outside

    The protocol of one run of the jailer on the lock file of its instance, on
    the uid registry and on the files of the work root, as an automaton over
    the calls it makes and the answers it gets: [step] says which call is
    allowed next.  [Sess] is the logic in which [JailerRun] shows that the
    code follows it. *)

From stdpp Require Import sorting.
From S2P Require Import Prelude RustStr Utf8 Json World Pool UidRegistry Profile Jailer.
Local Open Scope string_scope.
Local Open Scope Z_scope.
Local Open Scope rust_scope.
Local Open Scope list_scope.

(** ** The protocol *)

(** The lock of the instance: taken by [flock], then checked to be still the
    file its path names ([Owned]); [Unlinked] after a teardown removed it,
    [Released] after it was given back.  [Unguarded] is a teardown that found
    no lock file and goes on without a lock. *)
Inductive LockPhase :=
| Free
| Released
| Opened
| Taken
| Statted (ino dev : Z)
| Owned
| Unlinked
| Unguarded.

(** The registry: the entries read, and those written; [RegCleared] between
    the truncation and the write, [RegBroken] when the write failed. *)
Inductive RegPhase :=
| Closed
| RegOpened
| RegLocked
| RegRead (es : Entries)
| RegCleared (es : Entries)
| RegBroken
| RegWritten (es : Entries).

(** The lock of another instance, probed while the registry is locked. *)
Inductive Probe := NoProbe | Probing (path : string) | ProbeTaken (path : string).

Record Session := {
  s_lock : LockPhase;
  s_reg : RegPhase;
  s_probe : Probe;
  s_clear : list string;
  s_uid : option Z;
  s_child : bool }.

Definition idle (l : LockPhase) : Session :=
  {| s_lock := l; s_reg := Closed; s_probe := NoProbe; s_clear := []; s_uid := None; s_child := false |}.
Definition fresh_session : Session := idle Free.

Definition with_lock (l : LockPhase) (s : Session) : Session :=
  {| s_lock := l; s_reg := s_reg s; s_probe := s_probe s; s_clear := s_clear s; s_uid := s_uid s; s_child := s_child s |}.
Definition with_reg (r : RegPhase) (s : Session) : Session :=
  {| s_lock := s_lock s; s_reg := r; s_probe := s_probe s; s_clear := s_clear s; s_uid := s_uid s; s_child := s_child s |}.
Definition with_probe (p : Probe) (s : Session) : Session :=
  {| s_lock := s_lock s; s_reg := s_reg s; s_probe := p; s_clear := s_clear s; s_uid := s_uid s; s_child := s_child s |}.
Definition with_clear (p : string) (s : Session) : Session :=
  {| s_lock := s_lock s; s_reg := s_reg s; s_probe := s_probe s; s_clear := p :: s_clear s; s_uid := s_uid s; s_child := s_child s |}.
Definition with_child (b : bool) (s : Session) : Session :=
  {| s_lock := s_lock s; s_reg := s_reg s; s_probe := s_probe s; s_clear := s_clear s; s_uid := s_uid s; s_child := b |}.
(** The registry is closed, and with it the probes; [uid] is what it says. *)
Definition with_identity (uid : option Z) (s : Session) : Session :=
  {| s_lock := s_lock s; s_reg := Closed; s_probe := NoProbe; s_clear := []; s_uid := uid; s_child := s_child s |}.

Section Protocol.
(** The work root, the instance, whether it may share its uid, the pool whose
    slots it may create, the file a plist may be written to, and whether the
    arguments ask for a uid to run the daemon with. *)
Variables (root id : string) (allow : bool) (pool : option string) (plist : option string) (drop : bool).

Definition lock_file (i : string) : string := path_join root (lock_name i).
Definition registry_file : string := path_join root REGISTRY_NAME.
Definition instance_dir : string := path_join root id.
Definition socket_file : string := path_join instance_dir "api.sock".
Definition side_files : list string :=
  path_join root <$> [profile_name id; stdout_name id; stderr_name id].

Definition mem (p : string) (l : list string) : bool := existsb (String.eqb p) l.
Definition owned (s : Session) : bool := match s_lock s with Owned => true | _ => false end.
(** The files of the instance may be touched. *)
Definition entitled (s : Session) : bool := match s_lock s with Owned | Unguarded => true | _ => false end.
Definition when (b : bool) (s : Session) : option Session := if b then Some s else None.

(** Every other instance with this uid was found without a holder. *)
Definition alone (uid : Z) (clear : list string) (es : Entries) : bool :=
  forallb (fun e => String.eqb (fst e) id || negb (snd e =? uid) || mem (lock_file (fst e)) clear) es.
(** The uid that the registry now holds for the instance, if it may be used. *)
Definition confirmed (s : Session) : option Z :=
  match s_reg s with
  | RegWritten es =>
      match find_entry id es with
      | Some uid => if allow || alone uid (s_clear s) es then Some uid else None
      | None => None
      end
  | _ => None
  end.

(** A rewrite sets or drops the entry of the instance, and no other. *)
Definition own_change (es es' : Entries) : bool :=
  bool_decide (es' = drop_entry id es) ||
  match find_entry id es' with Some uid => bool_decide (es' = set_entry id uid es) | None => false end.

Definition slot_dir (p : string) : bool :=
  match pool with Some d => starts_with (path_join d "slot-") p | None => false end.

Definition open_step (s : Session) (p : string) (ok : bool) : option Session :=
  if String.eqb p (lock_file id) then
    match s_lock s with Free | Released => Some (if ok then with_lock Opened s else s) | _ => None end
  else if String.eqb p registry_file then
    match entitled s, s_reg s, s_uid s, s_child s with
    | true, Closed, None, false => Some (with_reg (if ok then RegOpened else Closed) s)
    | _, _, _, _ => None
    end
  else None.

Definition probe_step (s : Session) (p : string) (r : Result unit IoError) : option Session :=
  match s_reg s, s_probe s with
  | RegWritten _, NoProbe =>
      if String.eqb p (lock_file id) then None
      else match r with
           | Ok _ => Some (with_probe (Probing p) s)
           | Err e => Some (if not_found e then with_clear p s else s)
           end
  | _, _ => None
  end.

Definition flock_step (s : Session) (p : string) (a : FlockAnswer) : option Session :=
  let got := match a with Locked => true | _ => false end in
  if String.eqb p (lock_file id) then
    match s_lock s with Opened => Some (with_lock (if got then Taken else Released) s) | _ => None end
  else
    match s_probe s with
    | Probing p' => when (String.eqb p p') (if got then with_clear p (with_probe (ProbeTaken p) s) else with_probe NoProbe s)
    | _ => None
    end.

Definition unlock_step (s : Session) (p : string) : option Session :=
  if String.eqb p (lock_file id) then
    match s_lock s, s_reg s, s_probe s with
    | Taken, (Closed | RegOpened), NoProbe | Statted _ _, (Closed | RegOpened), NoProbe
    | Owned, (Closed | RegOpened), NoProbe | Unlinked, (Closed | RegOpened), NoProbe =>
        when (negb (s_child s)) (idle Released)
    | _, _, _ => None
    end
  else if String.eqb p registry_file then
    match s_reg s with
    | RegLocked | RegRead _ | RegBroken | RegWritten _ => Some (with_identity (confirmed s) s)
    | _ => None
    end
  else
    match s_probe s with
    | ProbeTaken p' => when (String.eqb p p') (with_probe NoProbe s)
    | _ => None
    end.

(** The inode of the path, compared with that of the file locked. *)
Definition lstat_step (s : Session) (p : string) (r : Result Stat IoError) : option Session :=
  if String.eqb p (lock_file id) then
    match s_lock s with
    | Statted ino dev =>
        Some (with_lock match r with
                        | Ok st => if (st_ino st =? ino) && (st_dev st =? dev) then Owned else Taken
                        | Err _ => Taken
                        end s)
    | Free => Some (if is_ok r then s else with_lock Unguarded s)
    | _ => Some s
    end
  else Some s.

Definition write_step (s : Session) (text : string) (ok : bool) : option Session :=
  match s_reg s with
  | RegCleared es =>
      if ok then
        match entries_of registry_file (Ok text) with
        | Ok es' => when (own_change es es') (with_reg (RegWritten es') s)
        | Err _ => None
        end
      else Some (with_reg RegBroken s)
  | _ => None
  end.

Definition remove_step (s : Session) (p : string) (ok : bool) : option Session :=
  if String.eqb p (lock_file id) then
    when (owned s && negb (s_child s) && match s_reg s with Closed => true | _ => false end) (with_lock (if ok then Unlinked else Owned) s)
  else when (valid_id id && entitled s && mem p (socket_file :: side_files)) s.

(** The daemon runs with the uid that was confirmed, and one was confirmed
    when the arguments ask for it. *)
Definition spawn_step (s : Session) (cmd : Command) (ok : bool) : option Session :=
  if owned s && negb (s_child s) && String.eqb (cmd_lock cmd) (lock_file id) &&
     match s_reg s with Closed => true | _ => false end &&
     bool_decide (cmd_uid cmd = s_uid s) && (is_some (s_uid s) || negb drop)
  then Some (with_child ok s) else None.

(** Permissions are set on the work root, on the lock files once they are
    locked or, for the registry, opened under the instance lock, and on the
    files of the instance while its lock is held. *)
Definition mode_step (s : Session) (p : string) : option Session :=
  if String.eqb p root then Some s
  else if String.eqb p (lock_file id) then match s_lock s with Taken => Some s | _ => None end
  else if String.eqb p registry_file then match s_reg s with RegOpened => Some s | _ => None end
  else when (owned s && mem p (instance_dir :: side_files)) s.

Definition step (s : Session) (e : Event) : option Session :=
  match e with
  | Ev c a =>
      match c in Call A return A -> option Session with
      | PathExists _ | Canonicalize _ | IsDir _ | IsFile _ | ReadDir _ | EnvVar _ | TempDir | CurrentExe
      | PrintOut _ | GetEuid | GetPwUid _ | GetPwNam _ | OnSignal _ => fun _ => Some s
      | OpenCreate p _ => fun r => open_step s p (is_ok r)
      | OpenExisting p => fun r => probe_step s p r
      | Flock p => fun r => flock_step s p r
      | Unlock p => fun _ => unlock_step s p
      | FlockWait p => fun r =>
          match s_reg s with
          | RegOpened => when (String.eqb p registry_file) (with_reg (if is_ok r then RegLocked else Closed) s)
          | _ => None
          end
      | Fstat p => fun r =>
          match s_lock s with
          | Taken => when (String.eqb p (lock_file id))
                       (with_lock match r with Ok st => Statted (st_ino st) (st_dev st) | Err _ => Taken end s)
          | _ => None
          end
      | Lstat p => fun r => lstat_step s p r
      | ReadAll p => fun r =>
          match s_reg s with
          | RegLocked => when (String.eqb p registry_file)
                           match entries_of registry_file r with Ok es => with_reg (RegRead es) s | Err _ => s end
          | _ => None
          end
      | Rewind p => fun _ => match s_reg s with RegRead _ => when (String.eqb p registry_file) s | _ => None end
      | SetLen p n => fun r =>
          match s_reg s with
          | RegRead es => when (String.eqb p registry_file && (n =? 0)) (if is_ok r then with_reg (RegCleared es) s else s)
          | _ => None
          end
      | WriteAll p text => fun r => if String.eqb p registry_file then write_step s text (is_ok r) else None
      | SyncAll p => fun _ => match s_reg s with RegWritten _ => when (String.eqb p registry_file) s | _ => None end
      | RemoveFile p => fun r => remove_step s p (is_ok r)
      | RemoveDirAll p => fun _ => when (entitled s && String.eqb p instance_dir) s
      | CreateDirAll p => fun _ => when (String.eqb p root || owned s && (String.eqb p instance_dir || slot_dir p)) s
      | SetMode p _ => fun _ => mode_step s p
      | Chown p _ _ => fun _ => when (owned s && String.eqb p instance_dir) s
      | WriteFile p _ => fun _ => when (owned s && (mem p side_files || bool_decide (plist = Some p))) s
      | Spawn cmd => fun r => spawn_step s cmd (is_ok r)
      | WaitChild _ => fun _ => when (s_child s) (with_child false s)
      | _ => fun _ => None
      end a
  end.

Fixpoint steps (s : Session) (t : Trace) : option Session :=
  match t with
  | [] => Some s
  | e :: t' => match step s e with Some s' => steps s' t' | None => None end
  end.
End Protocol.

(** Paths are compared, not computed. *)
#[global] Arguments lock_file : simpl never.
#[global] Arguments registry_file : simpl never.
#[global] Arguments instance_dir : simpl never.
#[global] Arguments socket_file : simpl never.
#[global] Arguments side_files : simpl never.

(** ** Names *)

Lemma path_join_base root n : starts_with "/" n = false -> path_join root n = path_join root "" +:+ n.
Proof.
  intros Hn. unfold path_join. rewrite Hn. change (starts_with "/" "") with false. cbv iota.
  destruct (str_is_empty root || ends_with_char (ch 47) root); by rewrite ?app_assoc_s, ?app_empty_r.
Qed.

Lemma append_inj a b c : a +:+ b = a +:+ c -> b = c.
Proof. induction a as [|x a IH]; [done|]. cbn. intros [= Hs]. by apply IH. Qed.

Lemma ends_with_char_app c a b : b <> "" -> ends_with_char c (a +:+ b) = ends_with_char c b.
Proof.
  intros Hb. induction a as [|x a IH]; [done|]. cbn. rewrite IH. by destruct a, b.
Qed.

Lemma path_join_inj root a b :
  starts_with "/" a = false -> starts_with "/" b = false -> path_join root a = path_join root b -> a = b.
Proof. intros Ha Hb. rewrite (path_join_base root a), (path_join_base root b) by done. apply append_inj. Qed.

(** A valid id does not start with a dot or a slash. *)
Lemma valid_id_head id : valid_id id = true -> exists a s, id = String a s /\ id_char a = true.
Proof.
  unfold valid_id. rewrite !andb_true_iff. intros [[Hl _] Hc]. destruct id as [|a s]; [done|].
  cbn in Hc. apply andb_true_iff in Hc as [Hc _]. eauto.
Qed.

Lemma lock_name_inj i j : lock_name i = lock_name j -> i = j.
Proof.
  unfold lock_name. intros Heq%append_inj. revert j Heq. induction i as [|a i IH]; intros [|b j] Heq; try done.
  - exfalso. apply (f_equal String.length) in Heq. cbn in Heq. rewrite length_app_s in Heq. cbn in Heq. lia.
  - exfalso. apply (f_equal String.length) in Heq. cbn in Heq. rewrite length_app_s in Heq. cbn in Heq. lia.
  - cbn in Heq. injection Heq as -> Heq. f_equal. by apply IH.
Qed.

(** Dot files of the work root are told apart by their last character. *)
Lemma side_ne root n m c :
  starts_with "/" n = false -> starts_with "/" m = false ->
  ends_with_char c n = true -> ends_with_char c m = false -> path_join root n <> path_join root m.
Proof. intros Hn Hm Hc Hc' He%path_join_inj; [|done..]. congruence. Qed.

Section Names.
Variables (root id : string).

Lemma lock_name_end i : ends_with_char (ch 107) (lock_name i) = true.
Proof. unfold lock_name. rewrite !ends_with_char_app; try done. by destruct i. Qed.

Lemma lock_file_inj i j : lock_file root i = lock_file root j -> i = j.
Proof. intros He%path_join_inj; [|done..]. by apply lock_name_inj. Qed.

Lemma lock_ne_registry i : lock_file root i <> registry_file root.
Proof. apply side_ne with (ch 107); try done. apply lock_name_end. Qed.

Lemma side_file_end p : In p (side_files root id) -> exists n, p = path_join root n /\ starts_with "/" n = false /\
  ends_with_char (ch 107) n = false /\ (ends_with_char (ch 115) n = false).
Proof.
  assert (Hend : forall c s, s <> "" -> ends_with_char c ("." +:+ id +:+ s) = ends_with_char c s).
  { intros c s Hs. rewrite !ends_with_char_app; [done|done|]. by destruct id, s. }
  unfold side_files. cbn [fmap list_fmap In]. intros Hin.
  destruct Hin as [<-|[<-|[<-|[]]]]; eexists; (split; [reflexivity|]); unfold profile_name, stdout_name, stderr_name; rewrite !Hend; done.
Qed.

Lemma side_ne_lock p i : In p (side_files root id) -> p <> lock_file root i.
Proof.
  intros (n & -> & Hn & Hk & _)%side_file_end. intros He. symmetry in He. revert He.
  apply side_ne with (ch 107); try done. apply lock_name_end.
Qed.
Lemma side_ne_registry p : In p (side_files root id) -> p <> registry_file root.
Proof.
  intros (n & -> & Hn & _ & Hs)%side_file_end. intros He. symmetry in He. revert He. by apply side_ne with (ch 115).
Qed.

Lemma valid_id_relative : valid_id id = true -> starts_with "/" id = false.
Proof.
  intros (a & s & -> & Ha)%valid_id_head. change "/" with (String (ch 47) ""). rewrite starts_with_char.
  destruct (Ascii.eqb_spec (ch 47) a) as [<-|]; done.
Qed.
Lemma instance_dir_base : valid_id id = true -> instance_dir root id = path_join root "" +:+ id.
Proof. intros. by apply path_join_base, valid_id_relative. Qed.

(** Paths below the work directory are not dot files of the root. *)
Lemma below_ne_dot p n :
  valid_id id = true -> starts_with "/" p = false -> path_join (instance_dir root id) p <> path_join root ("." +:+ n).
Proof.
  intros Hid Hp. rewrite (path_join_base _ p Hp), (path_join_base root ("." +:+ n)) by done.
  assert (Hpre : exists r, path_join (instance_dir root id) "" = instance_dir root id +:+ r).
  { unfold path_join at 1. cbn [starts_with strip_prefix]. destruct (_ || _); [by exists ""|by exists "/"]. }
  destruct Hpre as [r ->]. rewrite instance_dir_base by done. rewrite !app_assoc_s. intros He%append_inj.
  destruct (valid_id_head _ Hid) as (a & s & -> & Ha). cbn in He. injection He as -> He. done.
Qed.
Lemma instance_ne_dot n : valid_id id = true -> instance_dir root id <> path_join root ("." +:+ n).
Proof.
  intros Hid. rewrite instance_dir_base, (path_join_base root ("." +:+ n)) by done. intros He%append_inj.
  destruct (valid_id_head _ Hid) as (a & s & -> & Ha). cbn in He. by injection He as -> He.
Qed.
Lemma root_ne_lock i : root <> lock_file root i.
Proof.
  unfold lock_file. rewrite path_join_base by done. unfold path_join. cbn [starts_with strip_prefix].
  intros He%(f_equal String.length). destruct (_ || _); rewrite !length_app_s in He; cbn in He; lia.
Qed.
Lemma socket_ne_lock i : valid_id id = true -> socket_file root id <> lock_file root i.
Proof. intros. by apply below_ne_dot. Qed.
End Names.

(** ** Runs that follow the protocol *)

Section Logic.
Context {W : Type} `{Outside W}.
Variables (root id : string) (allow : bool) (pool plist : option string) (drop : bool).
Abbreviation go := (steps root id allow pool plist drop).
Abbreviation one := (step root id allow pool plist drop).

(** From session [s], the calls of [m] follow the protocol, and [Q] holds of
    its result and of the session it leaves. *)
Definition Sess {E A} (s : Session) (m : M W Z E A) (Q : Result A E -> Session -> Prop) : Prop :=
  forall pgid w, wp m (fun r _ _ t => exists s', go s t = Some s' /\ Q r s') pgid w.

Lemma steps_app s t1 t2 : go s (t1 ++ t2) = match go s t1 with Some s' => go s' t2 | None => None end.
Proof. revert s. induction t1 as [|e t1 IH]; intros s; [done|]. cbn. destruct (one s e); [apply IH|done]. Qed.

Lemma sess_ret {E A} s (a : A) (Q : Result A E -> _ -> Prop) : Q (Ok a) s -> Sess s (ret a) Q.
Proof. intros HQ pgid w. wp_step. eauto. Qed.
Lemma sess_fail {E A} s (e : E) (Q : Result A E -> _ -> Prop) : Q (Err e) s -> Sess s (fail e) Q.
Proof. intros HQ pgid w. wp_step. eauto. Qed.
Lemma sess_modify {E} s f (Q : Result unit E -> _ -> Prop) : Q (Ok tt) s -> Sess s (modify f) Q.
Proof. intros HQ pgid w. wp_step. eauto. Qed.
Lemma sess_lift {E A} s (r : Result A E) (Q : Result A E -> _ -> Prop) : Q r s -> Sess s (lift r) Q.
Proof. intros HQ pgid w. wp_step. eauto. Qed.
Lemma sess_bind {E A B} s (m : M W Z E A) (k : A -> M W Z E B) Q :
  Sess s m (fun r s1 => match r with Ok a => Sess s1 (k a) Q | Err e => Q (Err e) s1 end) -> Sess s (bind m k) Q.
Proof.
  intros Hm pgid w. wp_step. eapply wp_mono; [apply Hm|]. intros [a|e] pg w1 t1 (s1 & Ht1 & Hr); [|eauto].
  eapply wp_mono; [apply Hr|]. intros r pg2 w2 t2 (s2 & Ht2 & HQ). exists s2. by rewrite steps_app, Ht1.
Qed.
Lemma sess_ask {E A} s (c : Call A) (Q : Result A E -> _ -> Prop) :
  (forall a, exists s', one s (Ev c a) = Some s' /\ Q (Ok a) s') -> Sess s (ask c) Q.
Proof. intros HQ pgid w. apply wp_ask. intros a w' _. destruct (HQ a) as (s' & Hs & Ha). exists s'. cbn [steps]. by rewrite Hs. Qed.
Lemma sess_with_err {E E' A} s (f : E -> E') (m : M W Z E A) Q :
  Sess s m (fun r => Q (map_err f r)) -> Sess s (with_err f m) Q.
Proof. intros Hm pgid w. wp_step. apply Hm. Qed.
Lemma sess_mono {E A} s (m : M W Z E A) (P Q : Result A E -> Session -> Prop) :
  Sess s m P -> (forall r s', P r s' -> Q r s') -> Sess s m Q.
Proof. intros Hm HPQ pgid w. eapply wp_mono; [apply Hm|]. intros r pg w1 t (s' & Ht & HP). eauto. Qed.
Lemma sess_guarded {E A} s c (m : M W Z E A) (Q : Result A E -> Session -> Prop) :
  Sess s m (fun r s1 => exists s2, one s1 (Ev c tt) = Some s2 /\ Q r s2) -> Sess s (guarded (ask c) m) Q.
Proof.
  intros Hm pgid w. wp_step. eapply wp_mono; [apply Hm|]. intros r pg w1 t (s1 & Ht & s2 & Hs & HQ) [] w2.
  exists s2. rewrite steps_app, Ht. cbn [steps]. by rewrite Hs.
Qed.
Lemma sess_on_error {E A} s c (m : M W Z E A) (Q : Result A E -> Session -> Prop) :
  Sess s m (fun r s1 => match r with Ok a => Q (Ok a) s1 | Err e => exists s2, one s1 (Ev c tt) = Some s2 /\ Q (Err e) s2 end) ->
  Sess s (on_error (ask c) m) Q.
Proof.
  intros Hm pgid w. wp_step. eapply wp_mono; [apply Hm|]. intros [a|e] pg w1 t (s1 & Ht & Hr); [eauto|].
  destruct Hr as (s2 & Hs & HQ). intros [] w2. exists s2. rewrite steps_app, Ht. cbn [steps]. by rewrite Hs.
Qed.
(** Code whose calls do not change the session. *)
Lemma sess_only {E A} (P : forall B, Call B -> Prop) s (m : M W Z E A) Q :
  (forall B c b, P B c -> one s (Ev c b) = Some s) ->
  (forall pgid w, wp m (fun r _ _ t => Only P t /\ Q r s) pgid w) -> Sess s m Q.
Proof.
  intros HP Hm pgid w. eapply wp_mono; [apply Hm|]. intros r pg w1 t [Ho HQ]. exists s. split; [|done].
  clear HQ. induction Ho as [|[B c b] t Hc Ht IH]; [done|]. cbn [steps]. by rewrite HP.
Qed.
End Logic.

(** One step of such a proof: the rule of the construct at the head. *)
Ltac sess_step :=
  lazymatch goal with
  | |- Sess _ _ _ _ _ _ _ (bind _ _) _ => apply sess_bind
  | |- Sess _ _ _ _ _ _ _ (ret _) _ => apply sess_ret
  | |- Sess _ _ _ _ _ _ _ (fail _) _ => apply sess_fail
  | |- Sess _ _ _ _ _ _ _ (modify _) _ => apply sess_modify
  | |- Sess _ _ _ _ _ _ _ (lift _) _ => apply sess_lift
  | |- Sess _ _ _ _ _ _ _ (or_fail _ _) _ => apply sess_lift
  | |- Sess _ _ _ _ _ _ _ (expect ?o _) _ => destruct o; [apply sess_ret|apply sess_fail]
  | |- Sess _ _ _ _ _ _ _ (ask _) _ => apply sess_ask; intros ?a
  | |- Sess _ _ _ _ _ _ _ (with_err _ _) _ => apply sess_with_err
  | |- Sess _ _ _ _ _ _ _ (guarded (ask _) _) _ => apply sess_guarded
  | |- Sess _ _ _ _ _ _ _ (on_error (ask _) _) _ => apply sess_on_error
  | |- Sess _ _ _ _ _ _ _ (match ?x with _ => _ end) _ => destruct x eqn:?
  end; cbv beta iota.
