(* ===== verification/JailerRun.v ===== *)
(** * Every run of the jailer follows the protocol

    One lemma per operation of [Jailer], from the session it starts in to the
    sessions it can leave, in the logic of [Session]; the theorem collects
    them for [run]. *)

From stdpp Require Import sorting.
From S2P Require Import Prelude RustStr Utf8 Json World Pool UidRegistry Profile Jailer Session.
Local Open Scope string_scope.
Local Open Scope Z_scope.
Local Open Scope rust_scope.
Local Open Scope list_scope.

(** ** The operations of the jailer follow it *)

(** The phases that entitle to the files of the instance. *)
Definition holder (lk : LockPhase) : Prop := lk = Owned \/ lk = Unguarded.
(** The registry is closed. *)
Definition owning (lk : LockPhase) (uid : option Z) (child : bool) : Session :=
  {| s_lock := lk; s_reg := Closed; s_probe := NoProbe; s_clear := []; s_uid := uid; s_child := child |}.
(** The registry is locked, with these entries written and these locks found free. *)
Definition registering (lk : LockPhase) (es : Entries) (clear : list string) : Session :=
  {| s_lock := lk; s_reg := RegWritten es; s_probe := NoProbe; s_clear := clear; s_uid := None; s_child := false |}.
(** The registry is locked, in any phase. *)
Definition reg_locked (lk : LockPhase) (s : Session) : Prop :=
  s_lock s = lk /\ s_probe s = NoProbe /\ s_child s = false /\ s_uid s = None /\
  match s_reg s with Closed | RegOpened | RegCleared _ => False | _ => True end.
(** Only the instance lock is left to release. *)
Definition closing (lk : LockPhase) (s : Session) : Prop :=
  (s_lock s = lk \/ lk = Owned /\ s_lock s = Unlinked) /\ s_probe s = NoProbe /\ s_child s = false /\
  match s_reg s with Closed | RegOpened => True | _ => False end.

Section Operations.
Context {W : Type} `{Outside W}.
Variables (root id : string) (allow : bool) (pool plist : option string) (drop : bool).
Hypothesis Hid : valid_id id = true.
Abbreviation one := (step root id allow pool plist drop).
Abbreviation SESS := (Sess (W := W) root id allow pool plist drop).
Abbreviation LOCK := (lock_file root id).
Abbreviation REG := (registry_file root).

Lemma own_eqb : String.eqb LOCK LOCK = true.
Proof. apply String.eqb_refl. Qed.
Lemma reg_eqb : String.eqb REG REG = true.
Proof. apply String.eqb_refl. Qed.
Lemma reg_own_eqb : String.eqb REG LOCK = false.
Proof. apply String.eqb_neq. intros He. by destruct (lock_ne_registry root id). Qed.
Lemma lock_reg_eqb i : String.eqb (lock_file root i) REG = false.
Proof. apply String.eqb_neq, lock_ne_registry. Qed.
Lemma other_own_eqb i : i <> id -> String.eqb (lock_file root i) LOCK = false.
Proof. intros Hne. apply String.eqb_neq. by intros He%lock_file_inj. Qed.

(** Rewrite the comparisons of paths, then compute the session. *)
Ltac paths := unfold open_step, probe_step, flock_step, unlock_step, lstat_step, remove_step, when, owned;
  rewrite ?own_eqb, ?reg_eqb, ?reg_own_eqb, ?lock_reg_eqb; cbn.

(** The permissions of a file that is locked, and of the registry. *)
Lemma mode_lock s m r : s_lock s = Taken -> one s (Ev (SetMode LOCK m) r) = Some s.
Proof. intros Hs. cbn. unfold mode_step. rewrite own_eqb, Hs. by destruct (String.eqb LOCK root). Qed.
Lemma mode_registry s m r : s_reg s = RegOpened -> one s (Ev (SetMode REG m) r) = Some s.
Proof. intros Hs. cbn. unfold mode_step. rewrite reg_own_eqb, reg_eqb, Hs. by destruct (String.eqb REG root). Qed.

Lemma unlock_closing s : closing Owned s -> one s (Ev (Unlock LOCK) tt) = Some (idle Released).
Proof.
  destruct s as [lk rg pb cl uid ch]. unfold closing. cbn. intros ([-> | [_ ->]] & -> & -> & Hr); paths; by destruct rg.
Qed.
Lemma unlock_registry lk s : reg_locked lk s -> one s (Ev (Unlock REG) tt) = Some (with_identity (confirmed root id allow s) s).
Proof.
  destruct s as [l rg pb cl uid ch]. unfold reg_locked. cbn. intros (-> & -> & -> & -> & Hr). paths. by destruct rg.
Qed.

(** Nothing is held. *)
Definition idling (s : Session) : Prop := s = idle Free \/ s = idle Released.

Lemma acquire_rounds_sess n s :
  idling s ->
  SESS s (acquire_rounds n LOCK id)
    (fun r s' => match r with Ok p => p = LOCK /\ s' = owning Owned None false | Err _ => idling s' end).
Proof.
  revert s. induction n as [|n IH]; intros s Hs; cbn [acquire_rounds]; [by sess_step|].
  do 2 sess_step. exists (if is_ok a then idle Opened else s). split.
  { destruct Hs; subst s; cbn; paths; by destruct a. }
  do 2 sess_step. destruct a as [[]|e]; cbn [map_err is_ok]; [|done].
  do 2 sess_step. eexists. split; [cbn; paths; reflexivity|]. destruct a; [|sess_step; by right..].
  do 2 sess_step. do 2 sess_step. eexists. split; [by apply mode_lock|].
  do 2 sess_step. destruct a as [[]|e]; cbn [map_err]; [|eexists; split; [cbn; paths; reflexivity|by right]].
  do 2 sess_step. eexists. split; [cbn; paths; reflexivity|]. do 2 sess_step.
  destruct a as [held|e]; cbn [map_err]; [|eexists; split; [cbn; paths; reflexivity|by right]].
  do 2 sess_step. eexists. split; [cbn; paths; reflexivity|]. sess_step.
  destruct a as [disk|e]; cbn; [destruct ((st_ino disk =? st_ino held) && (st_dev disk =? st_dev held))|].
  - by sess_step.
  - do 2 sess_step. eexists. split; [cbn; paths; reflexivity|]. apply IH. by right.
  - do 2 sess_step. eexists. split; [cbn; paths; reflexivity|]. apply IH. by right.
Qed.

(** The registry is locked and was read. *)
Definition reading (lk : LockPhase) (es : Entries) : Session :=
  {| s_lock := lk; s_reg := RegRead es; s_probe := NoProbe; s_clear := []; s_uid := None; s_child := false |}.

Ltac sess_call := do 2 sess_step; eexists; split; [cbn; paths; rewrite ?orb_true_r; reflexivity|].

Lemma open_sess lk :
  holder lk -> SESS (owning lk None false) (open root)
    (fun r s => match r with
                | Ok reg => reg_path reg = REG /\ Forall wf_entry (entries reg) /\ s = reading lk (entries reg)
                | Err _ => closing lk s
                end).
Proof.
  intros Hlk. unfold open. change (path_join root REGISTRY_NAME) with REG. cbv zeta. do 2 sess_step.
  exists (with_reg (if is_ok a then RegOpened else Closed) (owning lk None false)).
  split; [destruct Hlk; subst lk; cbn; paths; reflexivity|]. do 2 sess_step.
  destruct a as [[]|e]; cbn [map_err is_ok]; [|by repeat split; left].
  do 2 sess_step. eexists. split; [by apply mode_registry|]. do 2 sess_step.
  destruct a as [[]|e]; cbn [map_err]; [|by repeat split; left].
  sess_call. do 2 sess_step. destruct a as [[]|e]; cbn [map_err]; [|by repeat split; left].
  sess_call. destruct (entries_of REG a) as [es|e] eqn:Hes.
  - sess_step. split; [done|]. split; [by apply entries_of_wf in Hes|]. done.
  - sess_call. sess_step. by repeat split; left.
Qed.

Lemma rewrite_sess lk es es' :
  Forall wf_entry es' -> own_change id es es' = true ->
  SESS (reading lk es) (rewrite {| reg_path := REG; entries := es' |})
    (fun r s => match r with Ok _ => s = registering lk es' [] | Err _ => reg_locked lk s end).
Proof.
  intros Hwf Hown. unfold rewrite. cbn [reg_path entries]. cbv zeta.
  sess_call. do 2 sess_step. destruct a as [[]|e]; cbn [map_err]; [|by repeat split].
  sess_call. do 2 sess_step. destruct a as [[]|e]; cbn [map_err]; [|by repeat split].
  do 2 sess_step. destruct a as [[]|e].
  2:{ eexists. split; [cbn; paths; reflexivity|]. do 2 sess_step. cbn [map_err]. by repeat split. }
  eexists. split; [cbn; paths; rewrite registry_read, Hown by done; reflexivity|]. do 2 sess_step. cbn [map_err].
  sess_call. sess_step. by destruct a as [[]|e].
Qed.

Lemma upsert_sess lk reg uid :
  reg_path reg = REG -> Forall wf_entry (entries reg) -> u32_range uid ->
  SESS (reading lk (entries reg)) (upsert reg id uid)
    (fun r s => match r with
                | Ok reg' => entries reg' = set_entry id uid (entries reg) /\ s = registering lk (entries reg') []
                | Err _ => reg_locked lk s
                end).
Proof.
  intros Hp Hwf Hu. unfold upsert. rewrite Hp. cbv zeta. sess_step. eapply sess_mono.
  - apply rewrite_sess; [by apply set_entry_wf|]. apply orb_true_iff. right.
    rewrite find_entry_set, String.eqb_refl. by apply bool_decide_eq_true_2.
  - intros [u|e] s Hs; [|done]. subst s. by sess_step.
Qed.

Lemma remove_sess lk reg :
  reg_path reg = REG -> Forall wf_entry (entries reg) ->
  SESS (reading lk (entries reg)) (remove reg id) (fun _ s => reg_locked lk s).
Proof.
  intros Hp Hwf. unfold remove. rewrite Hp. cbv zeta. sess_step. destruct (negb _).
  - eapply sess_mono.
    + apply (rewrite_sess lk (entries reg)); [by apply drop_entry_wf|]. unfold own_change.
      by rewrite bool_decide_eq_true_2.
    + intros [u|e] s Hs; [subst s; by sess_step|done].
  - do 2 sess_step. by repeat split.
Qed.

Lemma allocate_sess reg base range s :
  Forall wf_entry (entries reg) -> u32_range base ->
  SESS s (allocate reg id base range) (fun r s' => s' = s /\ match r with Ok uid => u32_range uid | Err _ => True end).
Proof.
  intros Hwf Hb. apply (sess_only _ _ _ _ _ _ account_lookup).
  { intros B c b Hc. by destruct c. }
  intros pgid w. unfold allocate. destruct (find_entry id (entries reg)) as [uid|] eqn:Hf.
  - wp_step. split; [apply only_nil|]. split; [done|]. apply find_entry_in in Hf.
    eapply List.Forall_forall in Hwf; [|exact Hf]. by apply Hwf.
  - wp_step. eapply wp_mono; [apply wp_and; [apply scan_only|apply scan_spec]|].
    intros r pg w1 t (Ho & _ & found & -> & Hfound). wp_step. rewrite app_nil_r. split; [done|]. split; [done|].
    destruct found as [v|]; cbn; [|done]. destruct Hfound as [Hv _]. unfold saturating_add in Hv.
    unfold u32_range in *. lia.
Qed.

Lemma instance_lock_held_sess es clear other :
  other <> id ->
  SESS (registering Owned es clear) (instance_lock_held (lock_file root other))
    (fun r s => match r with
                | Ok false => s = registering Owned es (lock_file root other :: clear)
                | _ => s = registering Owned es clear
                end).
Proof.
  intros Hne%other_own_eqb. unfold instance_lock_held. do 2 sess_step. destruct a as [[]|e].
  2:{ eexists. split; [cbn; paths; rewrite Hne; reflexivity|]. destruct (not_found e); by sess_step. }
  eexists. split; [cbn; paths; rewrite Hne; reflexivity|]. do 2 sess_step.
  eexists. split; [cbn; paths; rewrite Hne, String.eqb_refl; reflexivity|]. destruct a; [|by sess_step..].
  do 2 sess_step. eexists. split; [cbn; paths; rewrite Hne, String.eqb_refl; reflexivity|]. by sess_step.
Qed.

(** The locks probed so far stay probed. *)
Lemma refuse_live_shared_uid_sess es uid rest clear :
  Forall wf_entry rest ->
  SESS (registering Owned es clear) (refuse_live_shared_uid root rest id uid allow)
    (fun r s => exists clear', s = registering Owned es clear' /\ clear ⊆ clear' /\
       (is_ok r = true -> allow || alone root id uid clear' rest = true)).
Proof.
  intros Hwf. revert clear. induction Hwf as [|[other u] rest [Hvalid Hu] Hwf IH]; intros clear; cbn [refuse_live_shared_uid].
  { sess_step. exists clear. split; [done|]. split; [done|]. intros _. apply orb_true_r. }
  assert (Hskip : forall clear0, clear ⊆ clear0 ->
            (forall clear', clear0 ⊆ clear' -> String.eqb other id || negb (u =? uid) || mem (lock_file root other) clear' || allow = true) ->
            SESS (registering Owned es clear0) (refuse_live_shared_uid root rest id uid allow)
              (fun r s => exists clear', s = registering Owned es clear' /\ clear ⊆ clear' /\
                 (is_ok r = true -> allow || alone root id uid clear' ((other, u) :: rest) = true))).
  { intros clear0 Hsub Hhead. eapply sess_mono; [apply IH|]. intros r s (clear' & -> & Hsub' & Hr).
    exists clear'. split; [done|]. split; [set_solver|]. intros Hok. specialize (Hr Hok). specialize (Hhead clear' Hsub').
    destruct allow; [done|]. rewrite orb_false_r in Hhead. unfold alone in *. cbn [forallb fst snd orb] in *. by rewrite Hhead, Hr. }
  destruct (String.eqb other id || negb (u =? uid)) eqn:Hdiff.
  { apply Hskip; [done|]. intros clear' _. by rewrite orb_comm, orb_true_r. }
  cbn [fst] in Hvalid. unfold validate_id. change (_ && _ && _) with (valid_id other). rewrite Hvalid. cbn [is_ok negb].
  apply orb_false_iff in Hdiff as [Hother _]. apply String.eqb_neq in Hother.
  sess_step. eapply sess_mono; [by apply instance_lock_held_sess|].
  intros [[]|e] s ->; [|apply Hskip; [set_solver|]|].
  - cbn [andb]. destruct allow eqn:Hallow; cbn [negb].
    + apply Hskip; [done|]. intros clear' _. apply orb_true_r.
    + sess_step. exists clear. done.
  - intros clear' Hin. unfold mem. assert (Hm : existsb (String.eqb (lock_file root other)) clear' = true).
    { apply existsb_exists. exists (lock_file root other). split; [apply list_elem_of_In; set_solver|apply String.eqb_refl]. }
    rewrite Hm. by rewrite orb_true_r.
  - exists clear. done.
Qed.

Lemma failed_registration lk s : reg_locked lk s -> exists s2, one s (Ev (Unlock REG) tt) = Some s2 /\ closing lk s2.
Proof.
  intros Hs. eexists. split; [by eapply unlock_registry|]. destruct Hs as (Hl & Hp & Hc & Hu & Hr). by repeat split; [left|..].
Qed.

(** Registering: the registry is unlocked with the uid confirmed, or the
    launch fails with only the instance lock left. *)
Lemma register_sess {A} reg uid (x : A) :
  reg_path reg = REG -> Forall wf_entry (entries reg) -> u32_range uid ->
  SESS (reading Owned (entries reg))
    (let! reg := with_err (fun e => Error (UidRegistryError e)) (upsert reg id uid) in
     do! refuse_live_shared_uid root (entries reg) id uid allow in
     ret x)
    (fun r s1 => exists s2, one s1 (Ev (Unlock (reg_path reg)) tt) = Some s2 /\
       match r with Ok y => y = x /\ s2 = owning Owned (Some uid) false | Err _ => closing Owned s2 end).
Proof.
  intros Hp Hwf Hrange. rewrite Hp. do 2 sess_step. eapply sess_mono; [by apply upsert_sess|].
  intros [reg'|e] s; cbn [map_err]; [|apply failed_registration].
  intros [He ->]. sess_step. eapply sess_mono; [apply refuse_live_shared_uid_sess; rewrite He; by apply set_entry_wf|].
  intros [u|e] s (clear' & -> & _ & Hr); [sess_step|].
  - eexists. split; [by eapply unlock_registry|]. split; [done|]. unfold confirmed. cbn [registering s_reg s_clear].
    rewrite He in Hr |- *. by rewrite find_entry_set, String.eqb_refl, Hr.
  - by apply failed_registration.
Qed.

Lemma resolve_instance_identity_sess args explicit :
  arg_id args = id -> arg_allow_shared_uid args = allow ->
  (forall base, arg_uid_base args = Some base -> u32_range base) -> (forall uid, fst explicit = Some uid -> u32_range uid) ->
  SESS (owning Owned None false) (resolve_instance_identity args explicit root)
    (fun r s => match r with
                | Ok (uid, _) => s = owning Owned uid false /\ is_some uid = is_some (arg_uid_base args) || is_some (fst explicit)
                | Err _ => closing Owned s
                end).
Proof.
  intros Hi Ha Hb Hu. unfold resolve_instance_identity, drop_registry. rewrite Hi, Ha.
  destruct (arg_uid_base args) as [base|] eqn:Hbase.
  - do 2 sess_step. eapply sess_mono; [apply open_sess; by left|]. intros [reg|e] s; cbn [map_err]; [|done].
    intros (Hp & Hwf & ->). do 3 sess_step.
    eapply sess_mono; [apply allocate_sess; eauto|]. intros [uid|e] s [-> Hrange]; cbn [map_err].
    + eapply sess_mono; [by apply register_sess|]. intros [y|e] s1 (s2 & Hs2 & Hr); exists s2; [|done].
      by destruct Hr as [-> ->].
    + rewrite Hp. by apply failed_registration.
  - sess_step. destruct explicit as [[uid|] gid]; cbn [fst]; [|by do 2 sess_step].
    do 2 sess_step. eapply sess_mono; [apply open_sess; by left|]. intros [reg|e] s; cbn [map_err]; [|done].
    intros (Hp & Hwf & ->). sess_step. eapply sess_mono; [apply register_sess; eauto|].
    intros [y|e] s1 (s2 & Hs2 & Hr); exists s2; (split; [done|]); [|done]. destruct Hr as [-> ->]. by sess_step.
Qed.

(** *** Calls that change nothing *)

Definition quiet (A : Type) (c : Call A) : Prop :=
  match c with
  | PathExists _ | Canonicalize _ | IsDir _ | IsFile _ | ReadDir _ | EnvVar _ | TempDir | CurrentExe
  | PrintOut _ | GetEuid | GetPwUid _ | GetPwNam _ | OnSignal _ => True
  | Lstat p => p <> LOCK
  | _ => False
  end.
Lemma lstat_other s p r : p <> LOCK -> one s (Ev (Lstat p) r) = Some s.
Proof. intros Hp%String.eqb_neq. cbn. unfold lstat_step. by rewrite Hp. Qed.
Lemma quiet_same s A (c : Call A) a : quiet A c -> one s (Ev c a) = Some s.
Proof. intros Hc. destruct c; try done. by apply lstat_other. Qed.

(** [m] makes quiet calls only, and [Q] holds of its result. *)
Definition Quiet {E A} (m : M W Z E A) (Q : Result A E -> Prop) : Prop :=
  forall pgid w, wp m (fun r _ _ t => Only quiet t /\ Q r) pgid w.

Lemma sess_quiet {E A} s (m : M W Z E A) (P : Result A E -> Prop) Q :
  Quiet m P -> (forall r, P r -> Q r s) -> SESS s m Q.
Proof.
  intros Hm HPQ. apply (sess_only _ _ _ _ _ _ quiet); [intros; by apply quiet_same|].
  intros pgid w. eapply wp_mono; [apply Hm|]. intros r pg w1 t [Ho HP]. auto.
Qed.

Lemma quiet_bind {E A B} (m : M W Z E A) (k : A -> M W Z E B) P Q :
  Quiet m P -> (forall a, P (Ok a) -> Quiet (k a) Q) -> (forall e, P (Err e) -> Q (Err e)) -> Quiet (bind m k) Q.
Proof.
  intros Hm Hk He pgid w. wp_step. eapply wp_mono; [apply Hm|]. intros [a|e] pg w1 t1 [Ho HP]; [|auto].
  eapply wp_mono; [by apply Hk|]. intros r pg2 w2 t2 [Ho2 HQ]. split; [by apply only_app|done].
Qed.
Lemma quiet_ask {E A} (c : Call A) (Q : Result A E -> Prop) : quiet A c -> (forall a, Q (Ok a)) -> Quiet (ask c) Q.
Proof. intros Hc HQ pgid w. wp_step. split; [apply only_cons; [done|apply only_nil]|apply HQ]. Qed.
Lemma quiet_ret {E A} (a : A) (Q : Result A E -> Prop) : Q (Ok a) -> Quiet (ret a) Q.
Proof. intros HQ pgid w. wp_step. split; [apply only_nil|done]. Qed.
Lemma quiet_fail {E A} (e : E) (Q : Result A E -> Prop) : Q (Err e) -> Quiet (fail e) Q.
Proof. intros HQ pgid w. wp_step. split; [apply only_nil|done]. Qed.
Lemma quiet_lift {E A} (r : Result A E) (Q : Result A E -> Prop) : Q r -> Quiet (lift r) Q.
Proof. intros HQ pgid w. wp_step. split; [apply only_nil|done]. Qed.

Definition anything {R} (r : R) : Prop := True.
Ltac quiet_step :=
  lazymatch goal with
  | |- Quiet (bind _ _) _ => eapply (quiet_bind _ _ anything); [|intros ?x _|done]
  | |- Quiet (ret _) _ => by apply quiet_ret
  | |- Quiet (fail _) _ => by apply quiet_fail
  | |- Quiet (lift _) _ => by apply quiet_lift
  | |- Quiet (or_fail _ _) _ => by apply quiet_lift
  | |- Quiet (expect ?o _) _ => destruct o; [by apply quiet_ret|by apply quiet_fail]
  | |- Quiet (ask _) _ => by apply quiet_ask
  | |- Quiet (match ?x with _ => _ end) _ => destruct x
  end; cbv beta iota zeta.

Lemma plist_path_quiet p : Quiet (plist_path p) anything.
Proof. unfold plist_path. repeat quiet_step. Qed.
Lemma opt_path_arg_quiet flag p : Quiet (opt_path_arg flag p) anything.
Proof. unfold opt_path_arg. destruct p; [|quiet_step]. quiet_step; [apply plist_path_quiet|quiet_step]. Qed.
Lemma program_args_quiet args plan exe : Quiet (program_args args plan exe) anything.
Proof. unfold program_args. repeat first [quiet_step | apply plist_path_quiet | apply opt_path_arg_quiet]. Qed.
Lemma generate_launchd_plist_quiet args plan : Quiet (generate_launchd_plist args plan) anything.
Proof. unfold generate_launchd_plist. repeat first [quiet_step | apply plist_path_quiet | apply program_args_quiet]. Qed.

Lemma first_file_quiet name dirs : Quiet (first_file name dirs) anything.
Proof. induction dirs as [|d dirs IH]; cbn [first_file]; repeat first [quiet_step | exact IH]. Qed.
Lemma resolve_binary_quiet args : Quiet (resolve_binary args) anything.
Proof. unfold resolve_binary, which. repeat first [quiet_step | apply first_file_quiet]. Qed.
Lemma assert_trusted_work_root_quiet : Quiet (assert_trusted_work_root root) anything.
Proof. unfold assert_trusted_work_root. quiet_step; [apply quiet_ask; [apply root_ne_lock|done]|]. repeat quiet_step. Qed.
Lemma refuse_symlink_quiet : Quiet (refuse_symlink (instance_dir root id)) anything.
Proof. unfold refuse_symlink. quiet_step; [apply quiet_ask; [by apply instance_ne_dot|done]|]. repeat quiet_step. Qed.
Lemma resolve_user_quiet user uid gid :
  (forall u, uid = Some u -> u32_range u) ->
  Quiet (resolve_user user uid gid) (fun r => match r with
    | Ok (u, _) => (forall u', u = Some u' -> u32_range u') /\ is_some u = is_some user || is_some uid
    | Err _ => True
    end).
Proof.
  intros Hu. unfold resolve_user. destruct user as [name|]; [|by apply quiet_ret].
  destruct (contains_char _ name); [by quiet_step|]. quiet_step; [quiet_step|].
  destruct x as [[u g]|]; [|quiet_step]. apply quiet_ret. split; [|done]. intros u' [= <-].
  pose proof (wrap_range 32 u ltac:(done)) as Hw. unfold u32_range, u32_max. clear Hid. lia.
Qed.

Definition all_slots (d : string) (l : list string) : Prop :=
  Forall (fun p => starts_with (path_join d "slot-") p = true) l.
Lemma slot_path d n : starts_with "slot-" n = true -> starts_with (path_join d "slot-") (path_join d n) = true.
Proof.
  intros (r & ->)%starts_with_spec. apply starts_with_spec. exists r.
  rewrite (path_join_base d "slot-"), (path_join_base d ("slot-" +:+ r)) by done. by rewrite app_assoc_s.
Qed.
Lemma keep_slots_quiet d names :
  Quiet (keep_slots d names) (fun r => match r with Ok l => Forall (fun n => starts_with "slot-" n = true) l | Err _ => True end).
Proof.
  induction names as [|n names IH]; cbn [keep_slots]; [by apply quiet_ret|].
  eapply (quiet_bind _ _ anything); [by apply quiet_ask| |done]. intros dir _. eapply quiet_bind; [exact IH| |done].
  intros l Hl. apply quiet_ret. destruct (dir && utf8_valid n && starts_with "slot-" n) eqn:E; [|done].
  apply andb_true_iff in E as [_ E]. by constructor.
Qed.
Lemma pool_slot_dirs_quiet d :
  Quiet (pool_slot_dirs d) (fun r => match r with Ok l => all_slots d l | Err _ => True end).
Proof.
  unfold pool_slot_dirs. eapply (quiet_bind _ _ anything); [by apply quiet_ask| |done]. intros [names|] _; [|by apply quiet_ret; constructor].
  eapply quiet_bind; [apply keep_slots_quiet| |done]. intros l Hl. apply quiet_ret. unfold all_slots.
  apply Forall_fmap. eapply Forall_impl; [|intros n; apply slot_path]. by rewrite merge_sort_Permutation.
Qed.

(** *** Preparing, launching, removing *)

Lemma mode_root s m r : one s (Ev (SetMode root m) r) = Some s.
Proof. cbn. unfold mode_step. by rewrite String.eqb_refl. Qed.
Lemma secure_work_root_sess s shared :
  SESS s (secure_work_root root shared) (fun _ s' => s' = s).
Proof.
  unfold secure_work_root. sess_step. eapply (sess_quiet _ _ anything); [apply assert_trusted_work_root_quiet|].
  intros [ex|e] _; [|done]. sess_step. destruct ex.
  - sess_step. cbv zeta. do 2 sess_step. exists s. split; [apply mode_root|]. by sess_step.
  - do 2 sess_step. exists s. split; [cbn; by rewrite String.eqb_refl|]. sess_step. destruct a as [[]|e]; [|done]. cbn [map_err].
    do 2 sess_step. exists s. split; [apply mode_root|]. by sess_step.
Qed.

Abbreviation DIR := (instance_dir root id).
Abbreviation SOCK := (socket_file root id).

Lemma dir_eqb : String.eqb DIR DIR = true.
Proof. apply String.eqb_refl. Qed.
Lemma mem_head p l : mem p (p :: l) = true.
Proof. unfold mem. cbn. by rewrite String.eqb_refl. Qed.
Lemma mem_in p l : In p l -> mem p l = true.
Proof. intros Hin. apply existsb_exists. exists p. split; [done|apply String.eqb_refl]. Qed.

(** Removing a file of the instance. *)
Lemma own_file_ne p : In p (SOCK :: side_files root id) -> p <> LOCK.
Proof. intros [<-|Hin]; [by apply socket_ne_lock|by apply (side_ne_lock root id)]. Qed.
Lemma remove_own s p : entitled s = true -> In p (SOCK :: side_files root id) -> forall r, one s (Ev (RemoveFile p) r) = Some s.
Proof.
  intros Ho Hin r. cbn. unfold remove_step. rewrite (proj2 (String.eqb_neq _ _) (own_file_ne p Hin)), Ho, Hid. unfold when.
  by rewrite mem_in.
Qed.
Lemma owned_entitled s : owned s = true -> entitled s = true.
Proof. unfold owned, entitled. by destruct (s_lock s). Qed.

Lemma remove_if_there_sess s p :
  entitled s = true -> In p (SOCK :: side_files root id) -> SESS s (remove_if_there p) (fun _ s' => s' = s).
Proof.
  intros Ho Hin. unfold remove_if_there. do 2 sess_step. exists s. split; [by apply lstat_other, own_file_ne|].
  destruct (is_ok a); [|by sess_step]. do 2 sess_step. exists s. split; [by apply remove_own|]. by sess_step.
Qed.
(** A call on the work directory of an owned instance. *)
Lemma remove_dir s : entitled s = true -> forall r, one s (Ev (RemoveDirAll DIR) r) = Some s.
Proof. intros Ho r. cbn. by rewrite Ho, dir_eqb. Qed.
Lemma mode_own s p m r : owned s = true -> In p (DIR :: side_files root id) -> one s (Ev (SetMode p m) r) = Some s.
Proof.
  intros Ho Hin. cbn. unfold mode_step. destruct (String.eqb p root); [done|].
  assert (Hl : p <> LOCK) by (destruct Hin as [<-|Hin]; [by apply instance_ne_dot|by apply (side_ne_lock root id)]).
  assert (Hr : p <> REG) by (destruct Hin as [<-|Hin]; [by apply instance_ne_dot|by apply (side_ne_registry root id)]).
  apply String.eqb_neq in Hl, Hr. unfold when. by rewrite Hl, Hr, Ho, mem_in.
Qed.
Lemma dir_calls s : owned s = true ->
  (forall r, one s (Ev (CreateDirAll DIR) r) = Some s) /\
  (forall m r, one s (Ev (SetMode DIR m) r) = Some s) /\ (forall u g r, one s (Ev (Chown DIR u g) r) = Some s).
Proof.
  intros Ho. split_and!; intros; [|apply mode_own; [done|by left]|]; cbn; rewrite ?Ho, ?dir_eqb; cbn; rewrite ?orb_true_r; done.
Qed.

Lemma materialize_sess s args :
  owned s = true -> SESS s (materialize args DIR SOCK) (fun _ s' => s' = s).
Proof.
  intros Ho. pose proof (owned_entitled s Ho) as Hent. destruct (dir_calls s Ho) as (Hmk & Hmode & _).
  unfold materialize. sess_step. eapply (sess_quiet _ _ anything); [apply refuse_symlink_quiet|].
  intros [u|e] _; [|done]. sess_step.
  assert (Hrest : SESS s (let! r := ask (CreateDirAll DIR) in do! or_fail (CreateWorkDir DIR) r in
     let! r := ask (SetMode DIR 448) in
     do! or_fail (fun _ => UnsafeWorkDir DIR "cannot enforce private per-VM work-dir permissions") r in
     let! meta := ask (Lstat SOCK) in
     if is_ok meta then let! r := ask (RemoveFile SOCK) in or_fail (RemoveError SOCK) r else ret tt) (fun _ s' => s' = s)).
  { do 2 sess_step. exists s. split; [apply Hmk|]. do 2 sess_step. destruct a as [[]|e]; [|done]. cbn [map_err].
    do 2 sess_step. exists s. split; [apply Hmode|]. do 2 sess_step. destruct a as [[]|e]; [|done]. cbn [map_err].
    apply remove_if_there_sess; [done|by left]. }
  destruct (arg_clean_work_dir args); [|by sess_step].
  do 2 sess_step. exists s. split; [by apply lstat_other, instance_ne_dot|]. destruct (is_ok a); [|by sess_step].
  do 2 sess_step. exists s. split; [by apply remove_dir|]. sess_step. by destruct a0 as [[]|e].
Qed.

Lemma write_profile_sess s text shared :
  owned s = true -> SESS s (write_profile (path_join root (profile_name id)) text shared) (fun _ s' => s' = s).
Proof.
  intros Ho. assert (Hin : In (path_join root (profile_name id)) (side_files root id)) by by left.
  unfold write_profile. do 2 sess_step. exists s.
  split; [cbn [step]; rewrite Ho, (mem_in _ _ Hin); done|]. do 2 sess_step. destruct a as [[]|e]; [|done]. cbn [map_err]. cbv zeta.
  do 2 sess_step. exists s. split; [|by sess_step]. apply mode_own; [done|by right].
Qed.

Lemma profile_inputs_sess s args kernel rootfs :
  arg_pool_dir args = pool ->
  SESS s (profile_inputs args kernel rootfs DIR) (fun r s' => s' = s /\ match r with
    | Ok inputs => Forall (fun p => p = DIR \/ slot_dir pool p = true) (work_dirs inputs)
    | Err _ => True
    end).
Proof.
  intros Hp. unfold profile_inputs. sess_step. destruct (arg_pool_dir args) as [d|] eqn:Ha.
  - eapply sess_quiet; [apply pool_slot_dirs_quiet|]. intros [l|e] Hl; [|done]. sess_step. split; [done|].
    cbn. constructor; [by left|]. eapply Forall_impl; [exact Hl|]. intros p Hpre. right. by rewrite <- Hp.
  - do 2 sess_step. split; [done|]. cbn. constructor; [by left|done].
Qed.

Lemma generate_sess s inputs :
  owned s = true -> Forall (fun p => p = DIR \/ slot_dir pool p = true) (work_dirs inputs) ->
  SESS s (generate inputs) (fun _ s' => s' = s).
Proof.
  intros Ho Hw. eapply sess_only; [|intros pgid w; eapply wp_mono; [apply generate_run|]; intros r pg w1 t (_ & Hon & _); split; [exact Hon|done]].
  intros B c b Hc. destruct c; try done. cbn in Hc |- *. rewrite Ho. rewrite Forall_forall in Hw.
  destruct (Hw _ Hc) as [->| ->]; rewrite ?dir_eqb, ?orb_true_r; done.
Qed.

Definition args_typed (args : Args) : Prop :=
  (forall u, arg_uid args = Some u -> u32_range u) /\ (forall u, arg_uid_base args = Some u -> u32_range u).

(** Whether the arguments ask for a uid to run the daemon with. *)
Definition drops (args : Args) : bool := is_some (arg_uid_base args) || (is_some (arg_user args) || is_some (arg_uid args)).

(** What [prepare] leaves: the lock is held by the plan, and the uid of the
    plan is the one confirmed. *)
Definition prepared (args : Args) (explicit : option Z * option Z) (r : Result Plan Fault) (s : Session) : Prop :=
  match r with
  | Ok plan => lock plan = LOCK /\ work_dir plan = DIR /\ s = owning Owned (target_uid plan) false /\
      is_some (target_uid plan) = is_some (arg_uid_base args) || is_some (fst explicit)
  | Err _ => idling s
  end.

Lemma prepare_sess args explicit :
  arg_id args = id -> arg_work_dir args = Some root -> arg_allow_shared_uid args = allow -> arg_pool_dir args = pool ->
  args_typed args -> (forall u, fst explicit = Some u -> u32_range u) ->
  SESS fresh_session (prepare args explicit) (prepared args explicit).
Proof.
  intros Hi Hroot Ha Hp [_ Hb] Hu. unfold prepare, work_root_of. rewrite Hi, Hroot.
  unfold validate_id. change (_ && _ && _) with (valid_id id). rewrite Hid.
  do 2 sess_step. cbn [map_err]. sess_step. sess_step; [|by left]. sess_step. sess_step; [|by left].
  sess_call. sess_step. destruct a; sess_step; [|by left]. sess_call. sess_step. destruct a; sess_step; [|by left].
  sess_step. eapply (sess_quiet _ _ anything); [apply resolve_binary_quiet|]. intros [bin|e] _; [|by left].
  do 2 sess_step. cbv zeta. sess_step. eapply sess_mono; [apply secure_work_root_sess|]. intros [u|e] s' ->; [|by left].
  change (path_join root (lock_name id)) with LOCK. change (path_join root id) with DIR. change (path_join DIR "api.sock") with SOCK.
  sess_step. eapply sess_mono; [apply acquire_rounds_sess; by left|]. intros [lk|e] s'; [|done]. intros [-> ->].
  sess_step. eapply sess_mono with (P := fun r s => match r with Ok plan => prepared args explicit (Ok plan) s | Err _ => closing Owned s end).
  2:{ intros [plan|e] s'; [done|]. intros Hc. exists (idle Released). split; [by apply unlock_closing|by right]. }
  sess_step. eapply sess_mono; [by apply resolve_instance_identity_sess|]. intros [[uid gid]|e] s'; [|done]. intros [-> Hgiven].
  assert (Hcl : closing Owned (owning Owned uid false)) by (by repeat split; left).
  sess_step. eapply sess_mono; [by apply materialize_sess|]. intros [u'|e] s' ->; [|done].
  sess_step. eapply sess_mono; [by apply profile_inputs_sess|]. intros [inputs|e] s' [-> Hw]; [|done].
  do 2 sess_step. eapply sess_mono; [by apply generate_sess|]. intros [text|e] s' ->; cbn [map_err]; [|done].
  sess_step. eapply sess_mono; [by apply write_profile_sess|]. intros [u''|e] s' ->; [|done]. by sess_step.
Qed.

Lemma launch_sess args plan :
  lock plan = LOCK -> work_dir plan = DIR -> is_some (target_uid plan) = drop ->
  SESS (owning Owned (target_uid plan) false) (launch args plan) (fun _ s => closing Owned s).
Proof.
  intros Hl Hd Hdrop. assert (Hcl : forall uid, closing Owned (owning Owned uid false)) by (intros uid; by repeat split; left).
  unfold launch. sess_step.
  assert (Hrest : SESS (owning Owned (target_uid plan) false)
    (let! r := ask (Spawn (build_command plan args)) in let! child := or_fail (Exec (binary plan)) r in
     do! modify (fun _ => cast_signed child) in do! install_signal_forwarding in
     let! r := ask (WaitChild child) in let! status := or_fail (Exec (binary plan)) r in
     ret (let code := default 1 status in if (0 <=? code) && (code <=? u8_max) then code else 1)) (fun _ s => closing Owned s)).
  { do 2 sess_step. exists (owning Owned (target_uid plan) (is_ok a)). split.
    { cbn [step]. unfold spawn_step. cbn [build_command cmd_lock cmd_uid owned owning s_lock s_child s_reg s_uid negb andb].
      rewrite Hl, own_eqb, Hdrop, bool_decide_eq_true_2 by done. by destruct drop. }
    do 2 sess_step. destruct a as [child|e]; cbn [map_err is_ok]; [|done]. do 2 sess_step. unfold install_signal_forwarding.
    do 2 sess_step. sess_step. eexists. split; [reflexivity|]. sess_step. eexists. split; [reflexivity|].
    do 2 sess_step. eexists. split; [reflexivity|]. do 2 sess_step. destruct a1 as [st|e]; cbn [map_err]; [|by repeat split; left].
    sess_step. by repeat split; left. }
  destruct (is_some _ || is_some _); [|by sess_step]. do 2 sess_step.
  exists (owning Owned (target_uid plan) false). split; [rewrite Hd; by apply dir_calls|]. sess_step. destruct a as [[]|e]; [exact Hrest|apply Hcl].
Qed.

Lemma write_plist_sess args plan uid :
  arg_launchd_plist_path args = plist -> SESS (owning Owned uid false) (write_plist args plan) (fun _ s => closing Owned s).
Proof.
  intros Hp. assert (Hcl : closing Owned (owning Owned uid false)) by (by repeat split; left).
  unfold write_plist. sess_step. eapply (sess_quiet _ _ anything); [apply generate_launchd_plist_quiet|].
  intros [text|e] _; [|done]. sess_step. destruct (arg_launchd_plist_path args) as [path|].
  - do 2 sess_step. eexists. split; [cbn [step]; rewrite <- Hp, bool_decide_eq_true_2, orb_true_r by done; reflexivity|].
    sess_step. destruct a as [[]|e]; cbn [map_err]; [|done]. by sess_step.
  - do 2 sess_step. eexists. split; [reflexivity|]. destruct a; [|by sess_step]. by do 2 sess_step.
Qed.

Lemma registry_removal_sess lk :
  holder lk ->
  SESS (owning lk None false)
    (let! reg := with_err (fun e => Error (UidRegistryError e)) (open root) in
     guarded (drop_registry reg) (do! with_err (fun e => Error (UidRegistryError e)) (remove reg id) in ret tt))
    (fun r s => match r with Ok _ => exists uid, s = owning lk uid false | Err _ => closing lk s end).
Proof.
  intros Hlk. unfold drop_registry. do 2 sess_step. eapply sess_mono; [by apply open_sess|]. intros [reg|e] s; cbn [map_err]; [|done].
  intros (Hp & Hwf & ->). do 3 sess_step. eapply sess_mono; [by apply remove_sess|]. rewrite Hp.
  intros [x|e] s Hs; cbn [map_err]; [sess_step|by apply failed_registration].
  eexists. split; [by eapply unlock_registry|]. destruct s as [l rg pb cl u ch]. unfold reg_locked in Hs. cbn in Hs.
  destruct Hs as (-> & -> & -> & -> & Hr). eexists. reflexivity.
Qed.

Lemma remove_instance_sess lk args :
  holder lk -> arg_id args = id ->
  SESS (owning lk None false) (remove_instance args root LOCK (match lk with Owned => true | _ => false end)) (fun _ s => closing lk s).
Proof.
  intros Hlk Hi. unfold remove_instance. rewrite Hi. change (path_join root id) with DIR. cbv zeta.
  assert (Hcl : forall uid, closing lk (owning lk uid false)) by (intros uid; by repeat split; left).
  assert (Hent : forall uid, entitled (owning lk uid false) = true) by (intros uid; by destruct Hlk; subst lk).
  assert (Hside : forall n, In (path_join root n) (side_files root id) ->
    SESS (owning lk None false) (remove_if_there (path_join root n)) (fun _ s => s = owning lk None false)).
  { intros n Hn. apply remove_if_there_sess; [apply Hent|by right]. }
  sess_step. eapply (sess_quiet _ _ anything); [apply refuse_symlink_quiet|]. intros [u|e] _; [|apply Hcl].
  do 2 sess_step. exists (owning lk None false). split; [by apply lstat_other, instance_ne_dot|]. sess_step.
  eapply sess_mono with (P := fun _ s => s = owning lk None false).
  { destruct (is_ok a); [|by sess_step]. do 2 sess_step. eexists. split; [by apply remove_dir|]. by sess_step. }
  intros [u1|e] s ->; [|apply Hcl]. do 3 (sess_step; eapply sess_mono; [apply Hside; by repeat first [left; reflexivity|right]|]; intros [[]|e] ? ->; [|apply Hcl]).
  do 2 sess_step. exists (owning lk None false). split; [apply lstat_other, not_eq_sym, lock_ne_registry|]. sess_step.
  eapply sess_mono with (P := fun r s => match r with Ok _ => exists uid, s = owning lk uid false | Err _ => closing lk s end).
  { destruct (is_ok a0); [by apply registry_removal_sess|]. sess_step. by exists None. }
  intros [u5|e] s; [|done]. intros [uid ->]. destruct Hlk; subst lk; [|sess_step; apply Hcl].
  unfold remove_if_there. sess_call.
  destruct (is_ok a1); [|sess_step; apply Hcl]. sess_call. sess_step. destruct a2 as [[]|e]; (split; [|done]); [by right|by left].
Qed.

(** A teardown releases the lock, or it found no lock file to take. *)
Lemma teardown_sess args :
  arg_id args = id -> arg_work_dir args = Some root ->
  SESS fresh_session (teardown args) (fun _ s => idling s \/ s_lock s = Unguarded).
Proof.
  intros Hi Hr. unfold teardown, work_root_of. rewrite Hi, Hr. unfold validate_id. change (_ && _ && _) with (valid_id id).
  rewrite Hid. do 2 sess_step. cbn [map_err]. do 2 sess_step.
  sess_step. eapply (sess_quiet _ _ anything); [apply assert_trusted_work_root_quiet|]. intros [[]|e] _; cbn [negb]; [|sess_step; by left; left|by left; left].
  change (path_join root (lock_name id)) with LOCK. cbv zeta. do 2 sess_step.
  exists (if is_ok a then fresh_session else idle Unguarded). split; [cbn; unfold lstat_step; rewrite own_eqb; cbn; by destruct a|].
  sess_step. destruct (is_ok a).
  - sess_step. eapply sess_mono; [apply acquire_rounds_sess; by left|]. intros [lk|e] s; [|by left]. intros [-> ->].
    sess_step. eapply sess_mono; [by apply (remove_instance_sess Owned); [left|]|]. intros r s Hc.
    exists (idle Released). split; [by apply unlock_closing|]. destruct r; [|by left; right]. sess_step. by left; right.
  - change (idle Unguarded) with (owning Unguarded None false).
    eapply sess_mono; [by apply (remove_instance_sess Unguarded); [right|]|]. intros r s ([Hc|[? Hc]] & _); [|done].
    destruct r; [sess_step|]; by right.
Qed.

Lemma run_valid_sess args :
  arg_id args = id -> arg_work_dir args = Some root -> arg_allow_shared_uid args = allow -> arg_pool_dir args = pool ->
  arg_launchd_plist_path args = plist -> drops args = drop -> args_typed args ->
  SESS fresh_session (run args) (fun _ s => idling s \/ arg_teardown args = true /\ s_lock s = Unguarded).
Proof.
  intros Hi Hr Ha Hp Hpl Hdr Ht. unfold run. destruct (arg_teardown args) eqn:Htd.
  { eapply sess_mono; [by apply teardown_sess|]. intros r s [?|?]; tauto. }
  destruct (_ && _); [sess_step; by left; left|]. do 2 sess_step.
  eapply sess_quiet; [apply resolve_user_quiet, Ht|]. intros [[u g]|e] Hu; cbn [map_err]; [destruct Hu as [Hu Hgiven]|by left; left].
  sess_step. eapply sess_mono; [by apply prepare_sess|]. intros [plan|e] s; [|by left]. intros (Hlk & Hd & -> & Huid).
  cbn [fst] in Huid. rewrite Hgiven in Huid. fold (drops args) in Huid. rewrite Hdr in Huid. rewrite Hlk. sess_step. eapply sess_mono with (P := fun _ s => closing Owned s).
  - destruct (arg_generate_launchd_plist args || _); [by apply write_plist_sess|by apply launch_sess].
  - intros r s Hc. exists (idle Released). split; [by apply unlock_closing|]. by left; right.
Qed.
End Operations.

(** An id that is not a single safe name is refused before any file is touched. *)
Lemma run_invalid_sess {W} `{Outside W} root allow pool plist args :
  valid_id (arg_id args) = false -> args_typed args ->
  Sess (W := W) root (arg_id args) allow pool plist (drops args) fresh_session (run args) (fun _ s => s = fresh_session).
Proof.
  intros Hid Ht. unfold run, teardown, prepare, validate_id. change (_ && _ && _) with (valid_id (arg_id args)). rewrite Hid.
  destruct (arg_teardown args); [by do 2 sess_step|]. destruct (_ && _); [by sess_step|]. do 2 sess_step.
  eapply sess_quiet; [apply resolve_user_quiet, Ht|]. intros [[u g]|e] Hu; cbn [map_err]; [|done].
  by do 3 sess_step.
Qed.


(** A host with a work root of the right owner, one inode [ino] for the lock
    file [own], and a registry with this text; everything else succeeds. *)
Definition demo_answer (own : string) (ino : Z) (registry : string) {A} (c : Call A) : A :=
  match c in Call A return A with
  | Lstat p =>
      if String.eqb p "/r" then Ok {| st_symlink := false; st_dir := true; st_uid := 0; st_ino := 1; st_dev := 1 |}
      else if String.eqb p own then Ok {| st_symlink := false; st_dir := false; st_uid := 0; st_ino := ino; st_dev := 1 |}
      else Err {| not_found := true; io_text := "No such file or directory" |}
  | Fstat _ => Ok {| st_symlink := false; st_dir := false; st_uid := 0; st_ino := ino; st_dev := 1 |}
  | ReadAll _ => Ok registry
  | c => calm_answer c
  end.
Definition demo (own : string) (ino : Z) (registry : string) : Outside unit :=
  fun A c w => (demo_answer own ino registry c, w).

Definition demo_args (id : string) : Args := {|
  arg_id := id; arg_work_dir := Some "/r"; arg_firecracker_binary := Some "/bin/fc"; arg_kernel := Some "/k"; arg_rootfs := Some "/d";
  arg_initramfs := None; arg_pool_dir := None; arg_deny_probe := None; arg_rlimit_nofile := None; arg_rlimit_nproc := None;
  arg_rlimit_fsize := None; arg_uid := None; arg_gid := None; arg_user := None; arg_uid_base := Some 500;
  arg_allow_shared_uid := false; arg_network_backend := Nat; arg_host_mmds := false; arg_generate_launchd_plist := false;
  arg_launchd_plist_path := None; arg_clean_work_dir := false; arg_teardown := false |}.

Lemma demo_typed id : args_typed (demo_args id).
Proof. split; intros u [= <-]. unfold u32_range, u32_max. lia. Qed.

