(* ===== verification/Fleet.v ===== *)
(** * Many jailers on one host

    Jailer processes that share a work root, interleaved call by call.  Each
    process is a run of [Jailer.run], known by the calls it has made; a call
    is possible when the operating system would give its answer: [os] models
    the part of it that the jailers meet on, the lock files and the registry
    with their inodes and locks.  A process may be killed; its daemon keeps
    the lock it inherited.  The theorem is the promise of the uid registry:
    daemons that run at the same time belong to different instances and,
    unless sharing was allowed, have different uids.

    Assumed of the host: writing the registry does not fail and is not
    interrupted by a kill, [wait] does not fail, a plist is not written over a
    dot file of the work root, and a teardown finds the lock file of its
    instance. *)

From stdpp Require Import sorting.
From S2P Require Import Prelude RustStr Utf8 Json World Pool UidRegistry Profile Jailer Session JailerRun.
Local Open Scope string_scope.
Local Open Scope Z_scope.
Local Open Scope list_scope.

(** ** The operating system *)

Record Host := {
  names : gmap string Z;
  next_ino : Z;
  handles : gmap (nat * string) Z;
  locks : gmap Z nat;
  content : string;
  daemons : gmap nat (option Z) }.

Definition set_names n h := {| names := n; next_ino := next_ino h; handles := handles h; locks := locks h; content := content h; daemons := daemons h |}.
Definition set_handles t h := {| names := names h; next_ino := next_ino h; handles := t; locks := locks h; content := content h; daemons := daemons h |}.
Definition set_locks l h := {| names := names h; next_ino := next_ino h; handles := handles h; locks := l; content := content h; daemons := daemons h |}.
Definition set_content c h := {| names := names h; next_ino := next_ino h; handles := handles h; locks := locks h; content := c; daemons := daemons h |}.
Definition set_daemons d h := {| names := names h; next_ino := next_ino h; handles := handles h; locks := locks h; content := content h; daemons := d |}.
Definition bump h := {| names := names h; next_ino := next_ino h + 1; handles := handles h; locks := locks h; content := content h; daemons := daemons h |}.

Section Fleet.
(** The work root that the jailers share. *)
Variable root : string.

(** [open] with [O_CREAT]: the file the path names, or a new one. *)
Definition open_create (pid : nat) (p : string) (h : Host) : Host :=
  match names h !! p with
  | Some i => set_handles (<[(pid, p) := i]> (handles h)) h
  | None => bump (set_names (<[p := next_ino h]> (names h)) (set_handles (<[(pid, p) := next_ino h]> (handles h)) h))
  end.

(** [flock]: granted when nobody holds the inode. *)
Definition take (pid : nat) (p : string) (h : Host) : option Host :=
  match handles h !! (pid, p) with
  | Some i => match locks h !! i with None => Some (set_locks (<[i := pid]> (locks h)) h) | Some _ => None end
  | None => None
  end.
Definition busy (pid : nat) (p : string) (h : Host) : bool :=
  match handles h !! (pid, p) with
  | Some i => match locks h !! i with Some _ => true | None => false end
  | None => false
  end.
Definition release (pid : nat) (p : string) (h : Host) : Host :=
  match handles h !! (pid, p) with
  | Some i => if bool_decide (locks h !! i = Some pid) then set_locks (delete i (locks h)) h else h
  | None => h
  end.

Definition possible (b : bool) (h : Host) : option Host := if b then Some h else None.

(** The host after process [pid] made call [c] and got answer [a]; [None] when
    the host does not answer so.  [own] is the lock file of its instance. *)
Definition os (own : string) (pid : nat) (e : Event) (h : Host) : option Host :=
  match e with
  | Ev c a =>
      match c in Call A return A -> option Host with
      | OpenCreate p _ => fun r => Some (if is_ok r then open_create pid p h else h)
      | OpenExisting p => fun r =>
          match r, names h !! p with
          | Ok _, Some i => Some (set_handles (<[(pid, p) := i]> (handles h)) h)
          | Ok _, None => None
          | Err e, Some _ => possible (negb (not_found e)) h
          | Err _, None => Some h
          end
      | Flock p => fun r =>
          match r with
          | Locked => take pid p h
          | WouldBlock => possible (busy pid p h) h
          | FlockFailed _ => Some h
          end
      | FlockWait p => fun r => if is_ok r then take pid p h else Some h
      | Unlock p => fun _ => Some (release pid p h)
      | Fstat p => fun r =>
          match r with
          | Ok st => possible (bool_decide (handles h !! (pid, p) = Some (st_ino st))) h
          | Err _ => Some h
          end
      | Lstat p => fun r =>
          if String.eqb p own then
            match r with
            | Ok st => possible (bool_decide (names h !! p = Some (st_ino st))) h
            | Err _ => possible (bool_decide (handles h !! (pid, p) <> None)) h
            end
          else Some h
      | ReadAll _ => fun r => match r with Ok text => possible (String.eqb text (content h)) h | Err _ => Some h end
      | SetLen _ _ => fun r => Some (if is_ok r then set_content "" h else h)
      | WriteAll _ text => fun r => possible (is_ok r) (set_content (text +:+ String.substring (String.length text) (String.length (content h)) (content h)) h)
      | RemoveFile p => fun r => Some (if is_ok r then set_names (delete p (names h)) h else h)
      | Spawn cmd => fun r => Some (if is_ok r then set_daemons (<[pid := cmd_uid cmd]> (daemons h)) h else h)
      | WaitChild _ => fun r => possible (is_ok r && bool_decide (daemons h !! pid = None)) h
      | _ => fun _ => Some h
      end a
  end.

(** The locks of a process that ended; with a daemon, which has inherited it,
    the lock on [own] stays. *)
Definition release_all (pid : nat) (h : Host) : Host :=
  set_locks (filter (fun l => snd l <> pid) (locks h)) h.
Definition release_but (own : string) (pid : nat) (h : Host) : Host :=
  set_locks (filter (fun l => snd l <> pid \/ handles h !! (pid, own) = Some (fst l)) (locks h)) h.

(** ** Processes *)

Record Proc := { p_args : Args; p_trace : Trace; p_dead : bool }.
Record System := { host : Host; procs : gmap nat Proc }.

Definition own_lock (args : Args) : string := lock_file root (arg_id args).

(** [t] is what a run of the jailer has done so far. *)
Definition is_run (args : Args) (t : Trace) : Prop :=
  exists (W : Type) (o : Outside W) (w : W) (t' : Trace), snd (run (H := o) args 0 w) = t ++ t'.

Definition launchable (args : Args) : Prop :=
  arg_work_dir args = Some root /\ args_typed args /\
  forall n, arg_launchd_plist_path args <> Some (path_join root ("." +:+ n)).

(** Between the truncation of the registry and the write. *)
Definition rewriting (t : Trace) : bool :=
  foldl (fun b e => match e with
                    | Ev (SetLen _ _) r => if is_ok r then true else b
                    | Ev (WriteAll _ _) _ => false
                    | _ => b
                    end) false t.

Definition unused (pid : nat) (s : System) : Prop :=
  procs s !! pid = None /\ daemons (host s) !! pid = None /\ (forall p, handles (host s) !! (pid, p) = None).

Inductive sys_step : System -> System -> Prop :=
| StartJailer s pid args :
    unused pid s -> launchable args ->
    sys_step s {| host := host s; procs := <[pid := {| p_args := args; p_trace := []; p_dead := false |}]> (procs s) |}
| MakeCall s pid args t e h' :
    procs s !! pid = Some {| p_args := args; p_trace := t; p_dead := false |} ->
    is_run args (t ++ [e]) -> os (own_lock args) pid e (host s) = Some h' ->
    sys_step s {| host := h'; procs := <[pid := {| p_args := args; p_trace := t ++ [e]; p_dead := false |}]> (procs s) |}
| KillJailer s pid args t :
    procs s !! pid = Some {| p_args := args; p_trace := t; p_dead := false |} ->
    rewriting t = false -> daemons (host s) !! pid = None ->
    sys_step s {| host := release_all pid (host s); procs := delete pid (procs s) |}
| OrphanDaemon s pid args t u :
    procs s !! pid = Some {| p_args := args; p_trace := t; p_dead := false |} -> daemons (host s) !! pid = Some u ->
    sys_step s {| host := release_but (own_lock args) pid (host s);
                  procs := <[pid := {| p_args := args; p_trace := t; p_dead := true |}]> (procs s) |}
| DaemonExits s pid args t u :
    procs s !! pid = Some {| p_args := args; p_trace := t; p_dead := false |} -> daemons (host s) !! pid = Some u ->
    sys_step s {| host := set_daemons (delete pid (daemons (host s))) (host s); procs := procs s |}
| OrphanExits s pid args t u :
    procs s !! pid = Some {| p_args := args; p_trace := t; p_dead := true |} -> daemons (host s) !! pid = Some u ->
    sys_step s {| host := release_all pid (set_daemons (delete pid (daemons (host s))) (host s)); procs := delete pid (procs s) |}.

(** No jailer runs; the work root may hold files from before. *)
Definition quiet_system (s : System) : Prop :=
  procs s = ∅ /\ handles (host s) = ∅ /\ locks (host s) = ∅ /\ daemons (host s) = ∅.

Inductive reachable : System -> Prop :=
| reach_init s : quiet_system s -> reachable s
| reach_step s s' : reachable s -> sys_step s s' -> reachable s'.
End Fleet.
