(* ===== verification/FleetSafe.v ===== *)
(** * Daemons that run at the same time do not share an instance or a uid

    The invariant behind [Fleet]: what each session knows about the locks it
    holds and the registry it has read, that recorded identities stay in the
    registry, and that a process that is about to use a uid has probed every
    other process that uses it. *)

From stdpp Require Import sorting.
From S2P Require Import Prelude RustStr Utf8 Json World Pool UidRegistry Profile Jailer Session JailerRun Fleet.
Local Open Scope string_scope.
Local Open Scope Z_scope.
Local Open Scope list_scope.

Definition lock_held (s : Session) : bool :=
  match s_lock s with Taken | Statted _ _ | Owned | Unlinked => true | _ => false end.
Definition reg_held (s : Session) : bool :=
  match s_reg s with RegLocked | RegRead _ | RegCleared _ | RegBroken | RegWritten _ => true | _ => false end.

Section Safe.
Variable root : string.
Abbreviation L := (lock_file root).
Abbreviation R := (registry_file root).

(** ** One call, on the host and on the session *)

Inductive move (pid : nat) (id : string) (allow : bool) (h : Host) (s : Session) : Host -> Session -> Prop :=
| m_same : move pid id allow h s h s
| m_open_lock : s_lock s = Free \/ s_lock s = Released -> move pid id allow h s (open_create pid (L id) h) (with_lock Opened s)
| m_open_reg : entitled s = true -> s_reg s = Closed -> s_uid s = None -> s_child s = false ->
    move pid id allow h s (open_create pid R h) (with_reg RegOpened s)
| m_flock h' : s_lock s = Opened -> take pid (L id) h = Some h' -> move pid id allow h s h' (with_lock Taken s)
| m_flock_no : s_lock s = Opened -> move pid id allow h s h (with_lock Released s)
| m_stat i d : s_lock s = Taken -> handles h !! (pid, L id) = Some i -> move pid id allow h s h (with_lock (Statted i d) s)
| m_check i d : s_lock s = Statted i d -> names h !! L id = Some i -> move pid id allow h s h (with_lock Owned s)
| m_check_no i d : s_lock s = Statted i d -> move pid id allow h s h (with_lock Taken s)
| m_unlock : lock_held s = true -> reg_held s = false -> s_probe s = NoProbe -> s_child s = false ->
    move pid id allow h s (release pid (L id) h) (idle Released)
| m_unlink : s_lock s = Owned -> s_child s = false -> s_reg s = Closed ->
    move pid id allow h s (set_names (delete (L id) (names h)) h) (with_lock Unlinked s)
| m_remove p : (forall j, p <> L j) -> p <> R -> move pid id allow h s (set_names (delete p (names h)) h) s
| m_reg_lock h' : s_reg s = RegOpened -> take pid R h = Some h' -> move pid id allow h s h' (with_reg RegLocked s)
| m_reg_close : s_reg s = RegOpened -> move pid id allow h s h (with_reg Closed s)
| m_reg_read es : s_reg s = RegLocked -> entries_of R (Ok (content h)) = Ok es -> move pid id allow h s h (with_reg (RegRead es) s)
| m_reg_clear es : s_reg s = RegRead es -> move pid id allow h s (set_content "" h) (with_reg (RegCleared es) s)
| m_reg_write es es' text : s_reg s = RegCleared es -> entries_of R (Ok text) = Ok es' -> own_change id es es' = true ->
    move pid id allow h s
      (set_content (text +:+ String.substring (String.length text) (String.length (content h)) (content h)) h)
      (with_reg (RegWritten es') s)
| m_reg_unlock : reg_held s = true -> (forall es, s_reg s <> RegCleared es) ->
    move pid id allow h s (release pid R h) (with_identity (confirmed root id allow s) s)
| m_probe es p i : s_reg s = RegWritten es -> s_probe s = NoProbe -> p <> L id -> names h !! p = Some i ->
    move pid id allow h s (set_handles (<[(pid, p) := i]> (handles h)) h) (with_probe (Probing p) s)
| m_probe_absent es p : s_reg s = RegWritten es -> s_probe s = NoProbe -> names h !! p = None ->
    move pid id allow h s h (with_clear p s)
| m_probe_take p h' : s_probe s = Probing p -> take pid p h = Some h' ->
    move pid id allow h s h' (with_clear p (with_probe (ProbeTaken p) s))
| m_probe_busy p : s_probe s = Probing p -> move pid id allow h s h (with_probe NoProbe s)
| m_probe_drop p : s_probe s = ProbeTaken p -> move pid id allow h s (release pid p h) (with_probe NoProbe s)
| m_spawn u : s_lock s = Owned -> s_child s = false -> s_reg s = Closed -> (forall x, u = Some x -> s_uid s = Some x) ->
    move pid id allow h s (set_daemons (<[pid := u]> (daemons h)) h) (with_child true s)
| m_wait : s_child s = true -> daemons h !! pid = None -> move pid id allow h s h (with_child false s).

(** The registry file is not one of the files a jailer removes. *)
Lemma removable id p : valid_id id = true -> mem p (socket_file root id :: side_files root id) = true ->
  (forall j, p <> L j) /\ p <> R.
Proof.
  intros Hid (q & Hin & ->%String.eqb_eq)%existsb_exists. destruct Hin as [<-|Hin].
  - split; [intros j; by apply socket_ne_lock|by apply below_ne_dot].
  - split; [intros j; by apply (side_ne_lock root id)|by apply (side_ne_registry root id)].
Qed.

Lemma with_lock_same s l : s_lock s = l -> with_lock l s = s.
Proof. intros <-. by destruct s. Qed.
Lemma with_reg_same s r : s_reg s = r -> with_reg r s = s.
Proof. intros <-. by destruct s. Qed.
Lemma with_child_same s b : s_child s = b -> with_child b s = s.
Proof. intros <-. by destruct s. Qed.

Section StepMove.
Variables (pid : nat) (id : string) (allow : bool) (pool plist : option string) (h h' : Host) (s s' : Session).
Abbreviation MOVE := (move pid id allow h s h' s').

Lemma open_move p ok :
  open_step root id s p ok = Some s' -> Some (if ok then open_create pid p h else h) = Some h' -> MOVE.
Proof.
  unfold open_step. intros Hs [= <-]. destruct (String.eqb_spec p (L id)) as [->|_].
  - destruct (s_lock s) eqn:E; simplify_eq; destruct ok; try (by apply m_same); apply m_open_lock; tauto.
  - destruct (String.eqb_spec p R) as [->|_]; [|done].
    destruct (entitled s) eqn:E1, (s_reg s) eqn:E2, (s_uid s) eqn:E3, (s_child s) eqn:E4; simplify_eq.
    destruct ok; [by apply m_open_reg|]. rewrite with_reg_same by done. apply m_same.
Qed.

Lemma probe_move p r :
  probe_step root id s p r = Some s' ->
  match r, names h !! p with
  | Ok _, Some i => Some (set_handles (<[(pid, p) := i]> (handles h)) h)
  | Ok _, None => None
  | Err e, Some _ => possible (negb (not_found e)) h
  | Err _, None => Some h
  end = Some h' -> MOVE.
Proof.
  unfold probe_step, possible. intros Hs Ho. destruct (s_reg s) eqn:Hr, (s_probe s) eqn:Hp; simplify_eq.
  destruct (String.eqb_spec p (L id)) as [->|Hne]; [done|].
  destruct r as [[]|e], (names h !! p) as [i|] eqn:Hn; simplify_eq.
  - by eapply m_probe.
  - destruct (not_found e); simplify_eq/=. apply m_same.
  - destruct (not_found e); [by eapply m_probe_absent|apply m_same].
Qed.

Lemma flock_move p a :
  flock_step root id s p a = Some s' ->
  match a with Locked => take pid p h | WouldBlock => possible (busy pid p h) h | FlockFailed _ => Some h end = Some h' -> MOVE.
Proof.
  unfold flock_step, possible, when. intros Hs Ho. destruct (String.eqb_spec p (L id)) as [Hpl|Hne]; [subst p|].
  - destruct (s_lock s) eqn:E; simplify_eq. destruct a; [by apply m_flock|..];
      (destruct (busy pid (L id) h) eqn:?; simplify_eq; by apply m_flock_no).
  - destruct (s_probe s) as [|p'|] eqn:E; [done| |done]. destruct (String.eqb_spec p p') as [Heq|]; [|done]; subst p'; simplify_eq.
    destruct a; [by eapply m_probe_take|..]; (destruct (busy pid p h) eqn:?; simplify_eq; by eapply m_probe_busy).
Qed.

Lemma unlock_move p : unlock_step root id allow s p = Some s' -> Some (release pid p h) = Some h' -> MOVE.
Proof.
  unfold unlock_step, when. intros Hs Ho. injection Ho as Ho. rewrite <- Ho. clear Ho.
  destruct (String.eqb_spec p (L id)) as [Hpl|Hne]; [rewrite Hpl|].
  - destruct (s_lock s) eqn:El, (s_reg s) eqn:Er, (s_probe s) eqn:Ep, (s_child s) eqn:Ec; simplify_eq/=;
      (apply m_unlock; unfold lock_held, reg_held; rewrite ?El, ?Er; done).
  - destruct (String.eqb_spec p R) as [Hpr|Hne2]; [rewrite Hpr|].
    + destruct (s_reg s) eqn:Er; simplify_eq; (apply m_reg_unlock; unfold reg_held; rewrite ?Er; done).
    + destruct (s_probe s) as [| |p'] eqn:E; [done..|]. destruct (String.eqb_spec p p') as [Heq|]; [|done]; subst p'; simplify_eq. by eapply m_probe_drop.
Qed.

Lemma lstat_move p r :
  (s_lock s = Free -> handles h !! (pid, L id) = None) ->
  lstat_step root id s p r = Some s' ->
  (if String.eqb p (L id) then
     match r with
     | Ok st => possible (bool_decide (names h !! p = Some (st_ino st))) h
     | Err _ => possible (bool_decide (handles h !! (pid, p) <> None)) h
     end
   else Some h) = Some h' -> MOVE.
Proof.
  unfold lstat_step, possible. intros Hfree Hs Ho. destruct (String.eqb_spec p (L id)) as [->|Hne]; simplify_eq; [|apply m_same].
  destruct r as [st|e].
  - destruct (bool_decide _) eqn:Hb; simplify_eq. apply bool_decide_eq_true in Hb.
    destruct (s_lock s) as [| | | |i d| | |] eqn:El; simplify_eq/=; try apply m_same.
    destruct (st_ino st =? i) eqn:Ei; cbn; [|by eapply m_check_no]. apply Z.eqb_eq in Ei. subst i.
    destruct (st_dev st =? d); [by eapply m_check|by eapply m_check_no].
  - destruct (bool_decide _) eqn:Hb; simplify_eq. apply bool_decide_eq_true in Hb.
    destruct (s_lock s) as [| | | |i d| | |] eqn:El; simplify_eq/=; try apply m_same; [by destruct Hb; apply Hfree|by eapply m_check_no].
Qed.

End StepMove.

(** Setting permissions leaves the session as it is. *)
Lemma mode_same id s p s' : mode_step root id s p = Some s' -> s' = s.
Proof. unfold mode_step, when. intros Hs. repeat split_match; congruence. Qed.

Lemma step_move pid id allow pool plist drop h h' s s' e :
  (s_lock s = Free -> handles h !! (pid, L id) = None) ->
  step root id allow pool plist drop s e = Some s' -> os (L id) pid e h = Some h' -> move pid id allow h s h' s'.
Proof.
  intros Hfree. destruct e as [A c a]. destruct c; cbn [step os]; unfold when, possible; intros Hs Ho; try done;
    first [ eapply open_move; eassumption | eapply probe_move; eassumption | eapply flock_move; eassumption
          | eapply unlock_move; eassumption | eapply lstat_move; eassumption | idtac ];
    repeat match goal with H : (if ?b then _ else None) = Some _ |- _ => destruct b eqn:?; [|discriminate H] end;
    simplify_eq; try apply m_same.
  - unfold remove_step, when in Hs. destruct (String.eqb_spec p (L id)) as [->|_].
    + destruct (owned s) eqn:Eo, (s_child s) eqn:Ec, (s_reg s) eqn:Er; simplify_eq/=. unfold owned in Eo.
      assert (El : s_lock s = Owned) by (by destruct (s_lock s)). destruct (is_ok a); [by apply m_unlink|].
      rewrite with_lock_same by done. apply m_same.
    + destruct (valid_id id) eqn:Hid, (entitled s), (mem _ _) eqn:Hm; simplify_eq/=. apply removable in Hm as [Hj HR]; [|done].
      destruct (is_ok a); [by apply m_remove|apply m_same].
  - apply mode_same in Hs as ->. apply m_same.
  - destruct (s_reg s) eqn:Er; simplify_eq. destruct (String.eqb_spec p R) as [->|]; simplify_eq.
    destruct (is_ok a); simplify_eq; [by apply m_reg_lock|by apply m_reg_close].
  - destruct (s_lock s) eqn:El; simplify_eq. destruct (String.eqb_spec p (L id)) as [->|]; simplify_eq.
    destruct a as [st|e]; [|simplify_eq; rewrite with_lock_same by done; apply m_same].
    destruct (bool_decide _) eqn:Hb; simplify_eq. apply bool_decide_eq_true in Hb. by apply m_stat.
  - destruct (s_reg s) eqn:Er; simplify_eq. destruct (String.eqb_spec p R) as [->|]; simplify_eq.
    destruct a as [text|e]; [|simplify_eq; apply m_same]. destruct (String.eqb_spec text (content h)) as [->|]; simplify_eq.
    destruct (entries_of R (Ok (content h'))) eqn:Ee; [by apply m_reg_read|apply m_same].
  - destruct (s_reg s); simplify_eq. destruct (String.eqb p R); simplify_eq. apply m_same.
  - destruct (s_reg s) eqn:Er; simplify_eq. destruct (String.eqb p R && _); simplify_eq.
    destruct (is_ok a); [by apply m_reg_clear|apply m_same].
  - destruct (is_ok a) eqn:Ha; simplify_eq/=. unfold write_step, when in Hs. destruct (s_reg s) eqn:Er; simplify_eq.
    destruct (entries_of R (Ok text)) as [es'|] eqn:Ee; simplify_eq. destruct (own_change id es es') eqn:Eo; simplify_eq.
    by eapply m_reg_write.
  - destruct (s_reg s); simplify_eq. destruct (String.eqb p R); simplify_eq. apply m_same.
  - unfold spawn_step in Hs. destruct (owned s) eqn:Eo, (s_child s) eqn:Ec; simplify_eq/=.
    destruct (String.eqb _ _); simplify_eq/=. destruct (s_reg s) eqn:Er; simplify_eq/=.
    assert (El : s_lock s = Owned) by (unfold owned in Eo; by destruct (s_lock s)).
    destruct (bool_decide _) eqn:Hb; simplify_eq/=. destruct (_ || _); simplify_eq/=. apply bool_decide_eq_true in Hb.
    destruct (is_ok a); [apply m_spawn; try done|rewrite with_child_same by done; apply m_same]. congruence.
  - destruct (is_ok a); simplify_eq/=. destruct (bool_decide _) eqn:Hb; simplify_eq. apply bool_decide_eq_true in Hb. by apply m_wait.
Qed.

(** ** What the calls do to the host *)

Lemma open_create_names pid p h q i : names h !! q = Some i -> names (open_create pid p h) !! q = Some i.
Proof.
  unfold open_create. destruct (names h !! p) eqn:E; [done|]. cbn. intros Hq. rewrite lookup_insert_ne; [done|congruence].
Qed.
Lemma open_create_handle pid p h :
  exists i, names (open_create pid p h) !! p = Some i /\ handles (open_create pid p h) !! (pid, p) = Some i.
Proof. unfold open_create. destruct (names h !! p) as [i|] eqn:E; cbn; eexists; by rewrite ?lookup_insert_eq. Qed.
Lemma open_create_handles pid p h P q : (P, q) <> (pid, p) -> handles (open_create pid p h) !! (P, q) = handles h !! (P, q).
Proof. intros Hne. unfold open_create. destruct (names h !! p); cbn; by rewrite lookup_insert_ne. Qed.
Lemma open_create_rest pid p h :
  locks (open_create pid p h) = locks h /\ content (open_create pid p h) = content h /\ daemons (open_create pid p h) = daemons h.
Proof. unfold open_create. by destruct (names h !! p). Qed.

Lemma take_spec pid p h h' :
  take pid p h = Some h' ->
  exists i, handles h !! (pid, p) = Some i /\ locks h !! i = None /\ h' = set_locks (<[i := pid]> (locks h)) h.
Proof.
  unfold take. destruct (handles h !! (pid, p)) as [i|]; [|done]. destruct (locks h !! i) eqn:E; [done|]. intros [= <-]. eauto.
Qed.

Lemma release_locks pid p h i P :
  locks h !! i = Some P -> (P <> pid \/ handles h !! (pid, p) <> Some i) -> locks (release pid p h) !! i = Some P.
Proof.
  intros Hi Hne. unfold release. destruct (handles h !! (pid, p)) as [j|] eqn:Ej; [|done]. case_bool_decide as Hb; [|done].
  cbn. rewrite lookup_delete_ne; [done|]. intros ->. destruct Hne as [Hne|Hne]; [congruence|done].
Qed.
Lemma release_rest pid p h :
  names (release pid p h) = names h /\ handles (release pid p h) = handles h /\ content (release pid p h) = content h /\
  daemons (release pid p h) = daemons h.
Proof. unfold release. destruct (handles h !! (pid, p)); [|done]. by case_bool_decide. Qed.

(** What a call of [pid] leaves alone. *)
Record frame (pid : nat) (id : string) (h : Host) (s : Session) (h' : Host) : Prop := {
  f_handles : forall P p, P <> pid -> handles h' !! (P, p) = handles h !! (P, p);
  f_locks : forall P i, P <> pid -> locks h !! i = Some P -> locks h' !! i = Some P;
  f_daemons : forall P, P <> pid -> daemons h' !! P = daemons h !! P;
  f_registry : forall r, names h !! R = Some r -> names h' !! R = Some r;
  f_names : forall j i, names h !! L j = Some i -> names h' !! L j = Some i \/ (j = id /\ s_lock s = Owned);
  f_content : content h' = content h \/ reg_held s = true }.

Lemma frame_same pid id h s : frame pid id h s h.
Proof. split; auto. Qed.

Ltac frame_go :=
  split; cbn; intros; rewrite ?lookup_insert_ne by congruence; auto.

Lemma move_frame pid id allow h s h' s' : move pid id allow h s h' s' -> frame pid id h s h'.
Proof.
  assert (Hopen : forall p, frame pid id h s (open_create pid p h)).
  { intros p. destruct (open_create_rest pid p h) as (Hl & Hc & Hd). split; rewrite ?Hl, ?Hc, ?Hd; auto using open_create_names.
    intros P q Hne. apply open_create_handles. congruence. }
  assert (Htake : forall p h'', take pid p h = Some h'' -> frame pid id h s h'').
  { intros p h'' (i & Hh & Hi & ->)%take_spec. frame_go. }
  assert (Hrel : forall p, frame pid id h s (release pid p h)).
  { intros p. destruct (release_rest pid p h) as (Hn & Hh & Hc & Hd). split; rewrite ?Hn, ?Hh, ?Hc, ?Hd; auto.
    intros. apply release_locks; auto. }
  intros Hm. destruct Hm; eauto using frame_same; try (by frame_go; right; unfold reg_held; rewrite ?H).
  - split; cbn; auto.
    + intros r Hr. rewrite lookup_delete_ne; [done|]. apply lock_ne_registry.
    + intros j i Hj. destruct (decide (j = id)) as [->|Hne]; [by right|]. left. rewrite lookup_delete_ne; [done|]. by intros ?%lock_file_inj.
  - split; cbn; auto.
    + intros r Hr. by rewrite lookup_delete_ne.
    + intros j i Hj. left. rewrite lookup_delete_ne; auto.
Qed.

(** ** The invariant *)

(** What a session knows about the host. *)
Record local_ok (h : Host) (pid : nat) (id : string) (s : Session) : Prop := {
  l_free : s_lock s = Free -> handles h !! (pid, L id) = None;
  l_guard : s_lock s <> Unguarded;
  l_held : lock_held s = true -> exists i, handles h !! (pid, L id) = Some i /\ locks h !! i = Some pid /\
    (forall ino d, s_lock s = Statted ino d -> ino = i) /\ (s_lock s = Owned -> names h !! L id = Some i);
  l_regopen : s_reg s = RegOpened -> s_lock s = Owned /\ exists r, names h !! R = Some r /\ handles h !! (pid, R) = Some r;
  l_reg : reg_held s = true -> s_lock s = Owned /\ exists r,
    names h !! R = Some r /\ handles h !! (pid, R) = Some r /\ locks h !! r = Some pid /\ handles h !! (pid, L id) <> Some r;
  l_content : match s_reg s with
              | RegRead es | RegWritten es => entries_of R (Ok (content h)) = Ok es
              | RegCleared _ => content h = ""
              | _ => True
              end;
  l_idle : (forall es, s_reg s <> RegWritten es) -> s_probe s = NoProbe /\ s_clear s = [];
  l_probe : match s_probe s with
            | NoProbe => True
            | Probing p => p <> L id
            | ProbeTaken p => exists i, handles h !! (pid, p) = Some i /\ handles h !! (pid, L id) <> Some i /\ handles h !! (pid, R) <> Some i
            end;
  l_uid : s_uid s <> None -> s_reg s = Closed /\ (s_lock s = Owned \/ s_lock s = Unlinked);
  l_child : s_child s = true -> s_lock s = Owned /\ s_reg s = Closed;
  l_daemon : forall u, daemons h !! pid = Some u -> s_child s = true /\ forall x, u = Some x -> s_uid s = Some x }.

Lemma new_session_ok h pid id :
  (forall p, handles h !! (pid, p) = None) -> daemons h !! pid = None -> local_ok h pid id fresh_session.
Proof. intros Hh Hd. split; cbn; try done. intros u Hu. congruence. Qed.

(** A process with the lock of an instance is the only one. *)
Lemma owner_unique h P Q id sP sQ :
  local_ok h P id sP -> local_ok h Q id sQ -> s_lock sP = Owned -> s_lock sQ = Owned -> P = Q.
Proof.
  intros HP HQ EP EQ. destruct (l_held _ _ _ _ HP) as (i & _ & Hi & _ & Hn); [unfold lock_held; by rewrite EP|].
  destruct (l_held _ _ _ _ HQ) as (j & _ & Hj & _ & Hm); [unfold lock_held; by rewrite EQ|].
  specialize (Hn EP). specialize (Hm EQ). congruence.
Qed.
Lemma reg_unique h P Q idP idQ sP sQ :
  local_ok h P idP sP -> local_ok h Q idQ sQ -> reg_held sP = true -> reg_held sQ = true -> P = Q.
Proof.
  intros HP HQ EP EQ. destruct (l_reg _ _ _ _ HP EP) as (_ & r & Hn & _ & Hr & _).
  destruct (l_reg _ _ _ _ HQ EQ) as (_ & r' & Hn' & _ & Hr' & _). congruence.
Qed.

Lemma others_ok pid id h s h' P idP sP :
  frame pid id h s h' -> local_ok h pid id s -> local_ok h P idP sP -> P <> pid -> local_ok h' P idP sP.
Proof.
  intros [Fh Fl Fd Fr Fn Fc] Hself HP Hne. pose proof HP as [H1 H2 H3 H4 H5 H6 H7 H8 H9 H10 H11].
  split; rewrite ?Fh, ?Fd by done; auto.
  - intros Hl. destruct (H3 Hl) as (i & Hi & Hli & Hs & Hn). exists i. rewrite ?Fh by done. split_and!; auto.
    intros Ho. destruct (Fn _ _ (Hn Ho)) as [?|[-> Eo]]; [done|]. destruct Hne. by eapply owner_unique.
  - intros Hr. destruct (H4 Hr) as (Ho & r & Hn & Hh). split; [done|]. exists r. rewrite ?Fh by done. auto.
  - intros Hr. destruct (H5 Hr) as (Ho & r & Hn & Hh & Hl & Hne'). split; [done|]. exists r. rewrite ?Fh by done. auto.
  - destruct Fc as [->|Hr]; [done|]. destruct (reg_held sP) eqn:EP; [by destruct Hne; eapply reg_unique|].
    unfold reg_held in EP. by destruct (s_reg sP).
  - destruct (s_probe sP); [done..|]. destruct H8 as (i & ? & ? & ?). exists i. by rewrite ?Fh.
Qed.

(** Without the instance lock there is no registry, no probe and no daemon. *)
Lemma not_owner h pid id s :
  local_ok h pid id s -> s_lock s <> Owned ->
  s_reg s = Closed /\ s_probe s = NoProbe /\ s_clear s = [] /\ s_child s = false /\ daemons h !! pid = None.
Proof.
  intros [H1 H2 H3 H4 H5 H6 H7 H8 H9 H10 H11] Hno.
  assert (Hr : s_reg s = Closed).
  { destruct (s_reg s) eqn:E; [done|by destruct Hno; apply H4|..]; destruct Hno; apply H5; unfold reg_held; by rewrite E. }
  assert (Hc : s_child s = false) by (destruct (s_child s) eqn:E; [by destruct Hno; apply H10|done]).
  destruct H7 as [Hp Hcl]; [intros es; by rewrite Hr|]. split_and!; try done.
  destruct (daemons h !! pid) as [u|] eqn:E; [|done]. destruct (H11 u eq_refl). congruence.
Qed.

(** A session outside of the registry, without a daemon. *)
Lemma closed_ok h pid id s :
  s_reg s = Closed -> s_probe s = NoProbe -> s_clear s = [] -> s_child s = false -> daemons h !! pid = None ->
  (s_lock s = Free -> handles h !! (pid, L id) = None) -> s_lock s <> Unguarded ->
  (s_uid s <> None -> s_lock s = Owned \/ s_lock s = Unlinked) ->
  (lock_held s = true -> exists i, handles h !! (pid, L id) = Some i /\ locks h !! i = Some pid /\
    (forall ino d, s_lock s = Statted ino d -> ino = i) /\ (s_lock s = Owned -> names h !! L id = Some i)) ->
  local_ok h pid id s.
Proof.
  intros Hr Hp Hcl Hc Hd Hf Hg Hu Hh. split; unfold reg_held; rewrite ?Hr, ?Hp, ?Hcl, ?Hc; auto; try done. intros u Hdu. congruence.
Qed.

Lemma lock_moves_ok pid id allow h s h' s' :
  move pid id allow h s h' s' -> local_ok h pid id s -> s_lock s <> Owned -> local_ok h' pid id s'.
Proof.
  intros Hm HL Hno. destruct (not_owner _ _ _ _ HL Hno) as (Hr & Hp & Hcl & Hc & Hd).
  pose proof HL as [H1 H2 H3 _ _ _ _ _ H9 _ _].
  destruct s as [lk rg pb cl uid ch]. cbn in Hno, Hr, Hp, Hcl, Hc. subst rg pb cl ch.
  assert (Hu : lk <> Unlinked -> uid = None).
  { intros Hne. destruct uid; [|done]. by destruct H9 as (_ & [?|?]). }
  destruct Hm; cbn in *; simplify_eq/=; try exact HL; try (by destruct lk);
    try (assert (Hu' : uid = None) by (apply Hu; destruct_or?; congruence); subst uid).
  - destruct (open_create_rest pid (L id) h) as (_ & _ & Hd'). apply closed_ok; cbn; try done; try (intros Hx; by destruct Hx). by rewrite Hd'.
  - apply take_spec in H0 as (i & Hh & Hi & ->). apply closed_ok; cbn; try done; try (intros Hx; by destruct Hx). intros _. exists i.
    by rewrite lookup_insert_eq.
  - apply closed_ok; cbn; try done; try (intros Hx; by destruct Hx).
  - apply closed_ok; cbn; try done; try (intros Hx; by destruct Hx). intros _. destruct H3 as (j & Hj & Hl & _); [done|]. exists j. split_and!; try done.
    intros ino d' [= <- <-]. congruence.
  - destruct H3 as (j & Hj & Hl & Hs & _); [done|]. rewrite (Hs i d eq_refl) in *.
    apply closed_ok; cbn; try done; try (intros Hx; by destruct Hx). intros _. by exists j.
  - destruct H3 as (j & Hj & Hl & Hs & _); [done|]. apply closed_ok; cbn; try done; try (intros Hx; by destruct Hx). intros _. by exists j.
  - destruct (release_rest pid (L id) h) as (_ & _ & _ & Hd'). apply closed_ok; cbn; try done; try (intros Hx; by destruct Hx). by rewrite Hd'.
  - apply closed_ok; cbn; try done; try (intros Hx; by destruct Hx); [by intros [_ ?]%H9|]. intros Hl. destruct (H3 Hl) as (j & Hj & Hlj & Hs & Hn). by exists j.
Qed.

(** The lock of an owner, after a call that keeps it. *)
Lemma owner_ok h h' pid id s s' i :
  handles h !! (pid, L id) = Some i -> locks h !! i = Some pid -> names h !! L id = Some i ->
  handles h' !! (pid, L id) = handles h !! (pid, L id) -> locks h' !! i = locks h !! i -> names h' !! L id = names h !! L id ->
  s_lock s' = Owned -> daemons h' = daemons h -> s_child s' = s_child s ->
  (s_child s = true -> s_reg s' = Closed) ->
  (forall u, daemons h !! pid = Some u -> s_child s = true /\ forall x, u = Some x -> s_uid s' = Some x) ->
  (s_reg s' = RegOpened -> exists r, names h' !! R = Some r /\ handles h' !! (pid, R) = Some r) ->
  (reg_held s' = true -> exists r, names h' !! R = Some r /\ handles h' !! (pid, R) = Some r /\ locks h' !! r = Some pid /\ i <> r) ->
  match s_reg s' with
  | RegRead es | RegWritten es => entries_of R (Ok (content h')) = Ok es
  | RegCleared _ => content h' = ""
  | _ => True
  end ->
  ((forall es, s_reg s' <> RegWritten es) -> s_probe s' = NoProbe /\ s_clear s' = []) ->
  match s_probe s' with
  | NoProbe => True
  | Probing p => p <> L id
  | ProbeTaken p => exists j, handles h' !! (pid, p) = Some j /\ j <> i /\ handles h' !! (pid, R) <> Some j
  end ->
  (s_uid s' <> None -> s_reg s' = Closed) -> local_ok h' pid id s'.
Proof.
  intros Hi Hl Hn Ehi El En Ho Hd Hc Hch Hdm Hro Hrg Hct Hid Hpr Hu. split; try done; rewrite ?Ho, ?Hd, ?Hc; try done.
  - intros _. exists i. rewrite Ehi, El, En. by split_and!.
  - intros Hr. split; [done|]. auto.
  - intros Hr. split; [done|]. destruct (Hrg Hr) as (r & ? & ? & ? & ?). exists r. rewrite Ehi, Hi. split_and!; try done. by intros [= ->].
  - destruct (s_probe s'); try done. destruct Hpr as (j & ? & ? & ?). exists j. rewrite Ehi, Hi. split_and!; try done. by intros [= ->].
  - intros Huu. split; [auto|by left].
  - intros Hcc. split; [done|]. auto.
Qed.

Lemma reg_ne_lock id : R <> L id.
Proof. intros He. by destruct (lock_ne_registry root id). Qed.

(** The calls of an owner keep what it knows: start from the lock facts. *)
Ltac own :=
  lazymatch goal with
  | HL : local_ok ?h ?pid ?id ?s, Hi : handles ?h !! (?pid, L ?id) = Some ?i |- _ => eapply (owner_ok h _ pid id s _ i)
  end; cbn; try done; try assumption; try (by intros Hx; destruct (Hx _ eq_refl)).

Lemma set_content_ok h pid id s s' c :
  local_ok h pid id s -> s_lock s = Owned -> s_lock s' = Owned -> reg_held s = true -> reg_held s' = true ->
  s_probe s' = s_probe s -> s_clear s' = s_clear s -> s_uid s' = s_uid s -> s_child s' = s_child s ->
  (s_probe s = NoProbe /\ s_clear s = []) ->
  match s_reg s' with
  | RegRead es | RegWritten es => entries_of R (Ok c) = Ok es
  | RegCleared _ => c = ""
  | _ => True
  end -> local_ok (set_content c h) pid id s'.
Proof.
  intros HL Ho Ho' Hr Hr' Ep Ecl Eu Ec [Hp Hcl] Hct. pose proof HL as [_ _ H3 _ H5 _ _ _ H9 H10 H11].
  destruct H3 as (i & Hi & Hl & _ & Hn); [unfold lock_held; by rewrite Ho|]. specialize (Hn Ho).
  destruct (H5 Hr) as (_ & r & Hnr & Hhr & Hlr & Hne).
  assert (Hnr' : s_reg s <> Closed) by (unfold reg_held in Hr; by destruct (s_reg s)).
  own; rewrite ?Ep, ?Ecl, ?Eu, ?Hp; try done.
  - intros Hc. by destruct Hnr'; apply H10.
  - unfold reg_held in Hr'. by destruct (s_reg s').
  - intros _. exists r. split_and!; try done. congruence.
  - intros Hu. by destruct Hnr'; apply H9.
Qed.

Lemma registry_moves_ok pid id allow h s h' s' :
  move pid id allow h s h' s' -> local_ok h pid id s -> s_lock s = Owned ->
  s_lock s' = Owned -> (forall es, s_reg s <> RegWritten es) -> s_child s' = s_child s -> local_ok h' pid id s'.
Proof.
  intros Hm HL Ho Ho' Hnw Hcc. pose proof HL as [_ _ H3 H4 H5 H6 H7 _ H9 H10 H11]. destruct (H7 Hnw) as [Hp Hcl].
  destruct H3 as (i & Hi & Hl & _ & Hn); [unfold lock_held; by rewrite Ho|]. specialize (Hn Ho).
  destruct s as [lk rg pb cl uid ch]. cbn in Ho, Hp, Hcl. subst lk pb cl. pose proof (reg_ne_lock id) as HRL.
  destruct Hm; cbn in *; simplify_eq/=; try exact HL; try (by destruct_or?); try (by destruct (Hnw _ eq_refl)).
  - destruct (open_create_rest pid R h) as (E1 & E2 & E3). own; rewrite ?E1, ?E3; try done.
    + apply open_create_handles. congruence.
    + rewrite Hn. by apply open_create_names.
    + intros _. apply open_create_handle.
  - own; rewrite ?lookup_delete_ne by auto; try done.
    + intros Hc. by apply H10.
    + intros Hr. destruct (H4 Hr) as (_ & r & Hnr & Hhr). exists r. by rewrite ?lookup_delete_ne by auto.
    + intros Hr. destruct (H5 Hr) as (_ & r & Hnr & Hhr & Hlr & Hne). exists r. rewrite ?lookup_delete_ne by auto.
      split_and!; try done. congruence.
    + intros Hx. by apply H9.
  - destruct (H4 eq_refl) as (_ & r & Hnr & Hhr). apply take_spec in H0 as (j & Hj & Hjl & ->). simplify_eq.
    assert (Hne : i <> j) by congruence. own; rewrite ?lookup_insert_ne by done; try done; [by intros [_ ?]%H10| |by intros [? _]%H9].
    intros _. exists j. by rewrite lookup_insert_eq.
  - own.
  - destruct (H5 eq_refl) as (_ & r & Hnr & Hhr & Hlr & Hne). own; [by intros [_ ?]%H10| |by intros [? _]%H9].
    intros _. exists r. split_and!; try done. congruence.
  - by eapply set_content_ok.
  - eapply set_content_ok; try done. cbn. rewrite H6. replace (String.substring _ _ _) with "" by (by destruct (String.length text)).
    by rewrite app_empty_r.
  - destruct (H5 H) as (_ & r & Hnr & Hhr & Hlr & Hne). destruct (release_rest pid R h) as (E1 & E2 & E3 & E4).
    own; rewrite ?E1, ?E2, ?E3, ?E4; try done.
    + rewrite Hl. apply release_locks; [done|]. right. congruence.
    + intros u Hu. destruct (H11 u Hu) as [Hc _]. split; [done|]. destruct (H10 Hc) as [_ Hrc].
      unfold reg_held in H. cbn in H. by subst rg.
Qed.

Lemma probe_moves_ok pid id allow h s h' s' es0 :
  move pid id allow h s h' s' -> local_ok h pid id s -> s_lock s = Owned -> s_reg s = RegWritten es0 ->
  s_lock s' = Owned -> local_ok h' pid id s'.
Proof.
  intros Hm HL Ho Hr Ho'. pose proof HL as [_ _ H3 _ H5 H6 _ H8 H9 H10 H11].
  destruct H3 as (i & Hi & Hl & _ & Hn); [unfold lock_held; by rewrite Ho|]. specialize (Hn Ho).
  destruct H5 as (_ & r & Hnr & Hhr & Hlr & Hne); [unfold reg_held; by rewrite Hr|].
  assert (Hir : i <> r) by congruence. pose proof (reg_ne_lock id) as HRL.
  destruct s as [lk rg pb cl uid ch]. cbn in Ho, Hr. subst lk rg. cbn in H6, H8.
  assert (Hch : ch = true -> RegWritten es0 = Closed) by apply H10.
  assert (Huid : uid <> None -> RegWritten es0 = Closed) by apply H9.
  destruct Hm; cbn in *; simplify_eq/=; try exact HL; try (by destruct_or?); try (by destruct Hch).
  - own; rewrite ?lookup_delete_ne by auto; try done; [intros _; by exists r|].
    destruct pb; try done. destruct H8 as (j & ? & ? & ?). exists j. split_and!; congruence.
  - destruct (release_rest pid R h) as (E1 & E2 & E3 & E4). own; rewrite ?E1, ?E2, ?E3, ?E4; try done.
    + rewrite Hl. apply release_locks; [done|]. right. congruence.
    + intros u Hu. destruct (H11 u Hu) as [Hc _]. by specialize (Hch Hc).
  - own; rewrite ?lookup_insert_ne by congruence; try done. intros _. exists r.
    destruct (decide (p = R)) as [->|Hp]; [rewrite lookup_insert_eq|rewrite lookup_insert_ne by congruence]; by simplify_eq.
  - own. intros _. by exists r.
  - apply take_spec in H0 as (j & Hj & Hjl & ->). assert (Hij : i <> j) by congruence. assert (Hrj : r <> j) by congruence.
    own; rewrite ?lookup_insert_ne by done; try done.
    + intros _. exists r. by rewrite lookup_insert_ne.
    + exists j. split_and!; try done. congruence.
  - own. intros _. by exists r.
  - destruct (release_rest pid p h) as (E1 & E2 & E3 & E4). destruct H8 as (j & Hj & Hji & Hjr).
    own; rewrite ?E1, ?E2, ?E3, ?E4; try done.
    + rewrite Hl. apply release_locks; [done|]. right. congruence.
    + intros _. exists r. split_and!; try done. apply release_locks; [done|]. right. congruence.
  - by specialize (Hch eq_refl).
Qed.

(** Calls that give up the lock, start the daemon or wait for it. *)
Lemma last_moves_ok pid id allow h s h' s' :
  move pid id allow h s h' s' -> local_ok h pid id s -> s_lock s = Owned -> s_lock s' <> Owned \/ s_child s' <> s_child s ->
  local_ok h' pid id s'.
Proof.
  intros Hm HL Ho Hch. pose proof HL as [_ _ H3 _ _ _ H7 _ _ H10 H11].
  destruct H3 as (i & Hi & Hl & _ & Hn); [unfold lock_held; by rewrite Ho|]. specialize (Hn Ho).
  destruct s as [lk rg pb cl uid ch]. cbn in Ho. subst lk. cbn in H7, H10, H11.
  assert (Hd : ch = false -> daemons h !! pid = None).
  { intros ->. destruct (daemons h !! pid) as [u|] eqn:E; [|done]. by destruct (H11 u eq_refl). }
  destruct Hm; cbn in *; simplify_eq/=; try (by destruct_or?).
  - apply closed_ok; try done. destruct (release_rest pid (L id) h) as (_ & _ & _ & E). rewrite E. by apply Hd.
  - destruct H7 as [-> ->]; [done|]. apply closed_ok; cbn; try done; [by apply Hd|by right|]. intros _. by exists i.
  - destruct H7 as [-> ->]; [done|]. split; cbn; try done.
    + intros _. by exists i.
    + intros _. by split; [|left].
    + intros u'. rewrite lookup_insert_eq. by intros [= <-].
  - destruct (H10 eq_refl) as [_ ->]. destruct H7 as [-> ->]; [done|]. apply closed_ok; cbn; try done; [by left|]. intros _. by exists i.
Qed.

Lemma self_ok pid id allow h s h' s' :
  move pid id allow h s h' s' -> local_ok h pid id s -> local_ok h' pid id s'.
Proof.
  intros Hm HL. assert (Hdec : {s_lock s = Owned} + {s_lock s <> Owned}) by (destruct (s_lock s); auto).
  destruct Hdec as [Ho|Hno]; [|by eapply lock_moves_ok].
  assert (Hdec : {s_lock s' = Owned} + {s_lock s' <> Owned}) by (destruct (s_lock s'); auto).
  destruct Hdec as [Ho'|Hno']; [|eapply last_moves_ok; eauto].
  destruct (decide (s_child s' = s_child s)) as [Hc|Hc]; [|eapply last_moves_ok; eauto].
  destruct (s_reg s) eqn:Hr; try (by eapply registry_moves_ok; eauto; intros es0; rewrite Hr). by eapply probe_moves_ok.
Qed.

(** ** All processes *)

Record View := { v_id : string; v_allow : bool; v_sess : Session }.

(** The process may run its daemon with uid [x]. *)
Definition identified (v : View) (x : Z) : Prop := s_lock (v_sess v) = Owned /\ s_uid (v_sess v) = Some x.

Record Inv (h : Host) (V : gmap nat View) : Prop := {
  i_local : forall P v, V !! P = Some v -> local_ok h P (v_id v) (v_sess v);
  i_daemons : forall P u, daemons h !! P = Some u -> is_Some (V !! P);
  (* an identity is in the registry, or with the process that rewrites it *)
  i_recorded : forall P v x, V !! P = Some v -> identified v x ->
    (exists es, entries_of R (Ok (content h)) = Ok es /\ In (v_id v, x) es) \/
    (exists Q w es, V !! Q = Some w /\ s_reg (v_sess w) = RegCleared es /\ In (v_id v, x) es);
  (* a process that registers has not found free the lock of one with the same uid *)
  i_probed : forall Q w es P v x, P <> Q -> V !! Q = Some w -> s_reg (v_sess w) = RegWritten es ->
    V !! P = Some v -> identified v x ->
    (L (v_id v) ∉ s_clear (v_sess w)) /\
    (s_probe (v_sess w) = Probing (L (v_id v)) -> handles h !! (Q, L (v_id v)) = names h !! L (v_id v));
  i_distinct : forall P v Q w x, P <> Q -> V !! P = Some v -> V !! Q = Some w ->
    v_allow v = false -> v_allow w = false -> identified v x -> identified w x -> False }.

Section Moves.
Variables (pid : nat) (id : string) (allow : bool) (h h' : Host) (s s' : Session).
Hypothesis Hm : move pid id allow h s h' s'.
Hypothesis HL : local_ok h pid id s.

(** How a process comes to be identified. *)
Lemma identified_move x :
  s_lock s' = Owned -> s_uid s' = Some x ->
  (s_lock s = Owned /\ s_uid s = Some x /\ s_reg s = Closed /\ content h' = content h /\ names h' !! L id = names h !! L id) \/
  (exists es, s_reg s = RegWritten es /\ find_entry id es = Some x /\ allow || alone root id x (s_clear s) es = true /\
     content h' = content h /\ s_reg s' = Closed).
Proof.
  intros Ho Hx. pose proof HL as [_ _ H3 _ _ _ _ _ H9 _ _].
  assert (Hcl : s_uid s = Some x -> s_lock s = Owned \/ s_lock s = Unlinked) by (intros E; apply H9; by rewrite E).
  assert (Hre : s_uid s = Some x -> s_reg s = Closed) by (intros E; apply H9; by rewrite E).
  destruct s as [lk rg pb cl uid ch]. destruct Hm; cbn in *; simplify_eq/=; try (by left); try (by destruct Hcl);
    try (by specialize (Hre eq_refl)).
  - left. auto.
  - left. rewrite lookup_delete_ne by auto. auto.
  - unfold confirmed in Hx. cbn in Hx. right. destruct rg as [| | | | | |es]; try done.
    destruct (find_entry id es) as [y|] eqn:Hf; [|done]. destruct (allow || alone root id y cl es) eqn:Ha; simplify_eq.
    exists es. by destruct (release_rest pid R h) as (_ & _ & -> & _).
  - left. apply take_spec in H0 as (j & _ & _ & ->). auto.
  - left. auto.
  - left. destruct (release_rest pid p h) as (-> & _ & -> & _). auto.
  - left. auto.
Qed.

(** What happens to the entries that are being rewritten. *)
Lemma cleared_move es :
  s_reg s = RegCleared es ->
  s_reg s' = RegCleared es \/ exists es', entries_of R (Ok (content h')) = Ok es' /\ own_change id es es' = true.
Proof.
  intros Hr. pose proof HL as [_ _ _ _ H5 H6 H7 _ _ H10 _]. rewrite Hr in H6.
  destruct H5 as [Ho _]; [unfold reg_held; by rewrite Hr|]. destruct H7 as [Hp _]; [intros es0; by rewrite Hr|].
  assert (Hc : s_child s = false) by (destruct (s_child s) eqn:E; [by destruct (H10 eq_refl); congruence|done]).
  destruct Hm; cbn; try (by left); try congruence.
  - unfold reg_held in *. by rewrite Hr in *.
  - right. exists es'. rewrite H6. replace (String.substring _ _ _) with "" by (by destruct (String.length text)).
    rewrite app_empty_r. split; congruence.
Qed.

(** What happens to the entries in the file. *)
Lemma content_move es e :
  entries_of R (Ok (content h)) = Ok es -> In e es ->
  entries_of R (Ok (content h')) = Ok es \/ s_reg s' = RegCleared es.
Proof.
  intros Hes He. pose proof HL as [_ _ _ _ _ H6 _ _ _ _ _]. destruct Hm; cbn; try (by left).
  - left. by destruct (open_create_rest pid (L id) h) as (_ & -> & _).
  - left. by destruct (open_create_rest pid R h) as (_ & -> & _).
  - left. by apply take_spec in H0 as (j & _ & _ & ->).
  - left. by destruct (release_rest pid (L id) h) as (_ & _ & -> & _).
  - left. by apply take_spec in H0 as (j & _ & _ & ->).
  - right. rewrite H in H6. congruence.
  - rewrite H in H6. rewrite H6 in Hes. vm_compute in Hes. by injection Hes as <-.
  - left. by destruct (release_rest pid R h) as (_ & _ & -> & _).
  - left. by apply take_spec in H0 as (j & _ & _ & ->).
  - left. by destruct (release_rest pid p h) as (_ & _ & -> & _).
Qed.
End Moves.

Lemma set_entry_keeps id uid es i x : In (i, x) es -> i <> id -> In (i, x) (set_entry id uid es).
Proof.
  intros Hin Hne. induction es as [|[i' x'] es IH]; cbn [set_entry In] in *; [done|].
  destruct (String.eqb_spec i' id) as [->|]; cbn [In]; destruct Hin as [[= -> ->]|Hin]; auto. by destruct Hne.
Qed.
Lemma own_change_keeps id es es' i x : own_change id es es' = true -> In (i, x) es -> i <> id -> In (i, x) es'.
Proof.
  intros Hoc Hin Hne. apply orb_true_iff in Hoc as [->%bool_decide_eq_true|Hoc].
  - apply List.filter_In. split; [done|]. cbn. by rewrite (proj2 (String.eqb_neq _ _) Hne).
  - destruct (find_entry id es') as [uid|]; [|done]. apply bool_decide_eq_true in Hoc. rewrite Hoc. by apply set_entry_keeps.
Qed.

Section InvMove.
Variables (pid : nat) (v : View) (h h' : Host) (s' : Session) (V : gmap nat View).
Hypothesis HI : Inv h V.
Hypothesis Hv : V !! pid = Some v.
Hypothesis Hm : move pid (v_id v) (v_allow v) h (v_sess v) h' s'.
Abbreviation v' := ({| v_id := v_id v; v_allow := v_allow v; v_sess := s' |}).
Abbreviation V' := (<[pid := v']> V).

Local Lemma self : local_ok h pid (v_id v) (v_sess v).
Proof. by apply (i_local _ _ HI). Qed.
Local Lemma fr : frame pid (v_id v) h (v_sess v) h'.
Proof. by eapply move_frame. Qed.

Lemma inv_local P w : V' !! P = Some w -> local_ok h' P (v_id w) (v_sess w).
Proof.
  destruct (decide (P = pid)) as [->|Hne].
  - rewrite lookup_insert_eq. intros [= <-]. cbn. eapply self_ok; [exact Hm|exact self].
  - rewrite lookup_insert_ne by done. intros Hw. eapply others_ok; [exact fr|exact self|by apply (i_local _ _ HI)|done].
Qed.

Lemma inv_daemons P u : daemons h' !! P = Some u -> is_Some (V' !! P).
Proof.
  destruct (decide (P = pid)) as [->|Hne]; [by rewrite lookup_insert_eq|].
  rewrite lookup_insert_ne by done. rewrite (f_daemons _ _ _ _ _ fr) by done. apply (i_daemons _ _ HI).
Qed.

(** A process with the registry is not the one that is identified. *)
Lemma owner_other P w x : P <> pid -> V !! P = Some w -> identified w x -> reg_held (v_sess v) = true -> v_id w <> v_id v.
Proof.
  intros Hne Hw [Ho _] Hr He. destruct (l_reg _ _ _ _ self Hr) as [Ho' _]. pose proof (i_local _ _ HI _ _ Hw) as HLw.
  rewrite He in HLw. by destruct Hne; apply (owner_unique h P pid (v_id v) (v_sess w) (v_sess v) HLw self).
Qed.

Lemma recorded_other P w x :
  P <> pid -> V !! P = Some w -> identified w x ->
  (exists es, entries_of R (Ok (content h')) = Ok es /\ In (v_id w, x) es) \/
  (exists Q w' es, V' !! Q = Some w' /\ s_reg (v_sess w') = RegCleared es /\ In (v_id w, x) es).
Proof.
  intros Hne Hw Hx. destruct (i_recorded _ _ HI P w x Hw Hx) as [(es & Hes & Hin)|(Q & w' & es & HQ & Hes & Hin)].
  - destruct (content_move _ _ _ _ _ _ _ Hm self es _ Hes Hin) as [Hc|Hc]; [eauto|].
    right. exists pid, v', es. by rewrite lookup_insert_eq.
  - destruct (decide (Q = pid)) as [->|HQp]; [|right; exists Q, w', es; by rewrite lookup_insert_ne]. simplify_eq.
    destruct (cleared_move _ _ _ _ _ _ _ Hm self es Hes) as [Hc|(es' & Hes' & Hoc)].
    + right. exists pid, v', es. by rewrite lookup_insert_eq.
    + left. exists es'. split; [done|]. eapply own_change_keeps; [exact Hoc|done|]. eapply owner_other; eauto.
      unfold reg_held. by rewrite Hes.
Qed.

(** Nobody rewrites the registry while another process has it. *)
Lemma no_other_cleared Q w es : reg_held (v_sess v) = true -> V !! Q = Some w -> s_reg (v_sess w) = RegCleared es -> Q = pid.
Proof.
  intros Hr HQ Hes. eapply reg_unique; [by apply (i_local _ _ HI)|exact self|unfold reg_held; by rewrite Hes|done].
Qed.

Lemma inv_recorded P w x :
  V' !! P = Some w -> identified w x ->
  (exists es, entries_of R (Ok (content h')) = Ok es /\ In (v_id w, x) es) \/
  (exists Q w' es, V' !! Q = Some w' /\ s_reg (v_sess w') = RegCleared es /\ In (v_id w, x) es).
Proof.
  destruct (decide (P = pid)) as [->|Hne]; [|rewrite lookup_insert_ne by done; by apply recorded_other].
  rewrite lookup_insert_eq. intros [= <-] [Ho Hx]. cbn in *.
  destruct (identified_move _ _ _ _ _ _ _ Hm self x Ho Hx) as [(Ho0 & Hx0 & Hr0 & Hc & _)|(es & Hes & Hf & _ & Hc & _)].
  - destruct (i_recorded _ _ HI pid v x Hv) as [(es & Hes & Hin)|(Q & w' & es & HQ & Hes & Hin)]; [done| |].
    + left. exists es. by rewrite Hc.
    + right. exists Q, w', es. rewrite lookup_insert_ne; [done|]. intros <-. congruence.
  - left. exists es. rewrite Hc. split; [|by apply find_entry_in]. pose proof (l_content _ _ _ _ self) as Hct. by rewrite Hes in Hct.
Qed.

(** A lock that another process holds is not found free. *)
Lemma prober_move P p i es :
  P <> pid -> names h !! p = Some i -> locks h !! i = Some P ->
  (forall es0, s_reg (v_sess v) = RegWritten es0 ->
     (p ∉ s_clear (v_sess v)) /\ (s_probe (v_sess v) = Probing p -> handles h !! (pid, p) = names h !! p)) ->
  s_reg s' = RegWritten es ->
  (p ∉ s_clear s') /\ (s_probe s' = Probing p -> handles h' !! (pid, p) = Some i).
Proof.
  intros Hne Hn Hl Hold Hs'. pose proof self as [_ _ _ _ H5 _ H7 _ _ H10 _].
  pose proof (inv_local pid v' ltac:(apply lookup_insert_eq)) as HL'. cbn in HL'. rewrite Hn in Hold.
  assert (Ho' : s_lock s' = Owned) by (apply (l_reg _ _ _ _ HL'); unfold reg_held; by rewrite Hs').
  assert (Hch : s_child s' = false) by (destruct (s_child s') eqn:E; [by destruct (l_child _ _ _ _ HL' E); congruence|done]).
  destruct v as [idv al sv]. cbn in *. destruct Hm; cbn in *; try congruence;
    try (destruct (Hold es Hs') as [Hnc Hpr]; split; [done|by try (intros ?%Hpr)]).
  - destruct H7 as [-> ->]; [intros es1; congruence|]. split; [set_solver|done].
  - destruct (Hold es0 H) as [Hnc _]. split; [done|]. intros [= ->]. rewrite lookup_insert_eq. congruence.
  - destruct (Hold es0 H) as [Hnc Hpr]. split; [|done]. assert (p <> p0) by congruence. set_solver.
  - destruct (Hold es Hs') as [Hnc Hpr]. split; [|done]. apply take_spec in H0 as (j & Hj & Hjl & _).
    assert (p <> p0); [|set_solver]. intros ->. specialize (Hpr H). congruence.
Qed.

Lemma inv_probed Q w es P u x :
  P <> Q -> V' !! Q = Some w -> s_reg (v_sess w) = RegWritten es -> V' !! P = Some u -> identified u x ->
  (L (v_id u) ∉ s_clear (v_sess w)) /\
  (s_probe (v_sess w) = Probing (L (v_id u)) -> handles h' !! (Q, L (v_id u)) = names h' !! L (v_id u)).
Proof.
  intros HPQ HQ Hes HP Hx. pose proof (inv_local _ _ HP) as HLP'.
  destruct (l_held _ _ _ _ HLP') as (i' & _ & _ & _ & Hn'); [unfold lock_held; by rewrite (proj1 Hx)|]. specialize (Hn' (proj1 Hx)).
  destruct (decide (Q = pid)) as [->|HQp]; [|destruct (decide (P = pid)) as [->|HPp]].
  - rewrite lookup_insert_eq in HQ. injection HQ as <-. rewrite lookup_insert_ne in HP by done. cbn in *.
    destruct (l_held _ _ _ _ (i_local _ _ HI _ _ HP)) as (i & _ & Hl & _ & Hn); [unfold lock_held; by rewrite (proj1 Hx)|].
    specialize (Hn (proj1 Hx)). destruct (prober_move P _ i es HPQ Hn Hl) as [Hnc Hpr]; [|done|].
    { intros es0 Hes0. by eapply (i_probed _ _ HI pid v es0 P u x). }
    split; [done|]. intros Hp%Hpr. rewrite Hp. symmetry.
    destruct (f_names _ _ _ _ _ fr _ _ Hn) as [?|[Hid Ho]]; [done|].
    destruct (owner_unique h P pid (v_id v) (v_sess u) (v_sess v)); try done; [|exact self|apply Hx].
    rewrite <- Hid. by apply (i_local _ _ HI).
  - rewrite lookup_insert_eq in HP. injection HP as <-. rewrite lookup_insert_ne in HQ by done. cbn in *. destruct Hx as [Ho Hx].
    destruct (identified_move _ _ _ _ _ _ _ Hm self x Ho Hx) as [(Ho0 & Hx0 & Hr0 & Hc & Hnm)|(es0 & Hes0 & _)].
    + destruct (i_probed _ _ HI Q w es pid v x) as [Hnc Hpr]; try done. split; [done|].
      rewrite (f_handles _ _ _ _ _ fr), Hnm by done. done.
    + destruct HPQ. eapply reg_unique; [exact self|by apply (i_local _ _ HI)|..]; unfold reg_held; [by rewrite Hes0|by rewrite Hes].
  - rewrite lookup_insert_ne in HP, HQ by done. destruct (i_probed _ _ HI Q w es P u x) as [Hnc Hpr]; try done.
    split; [done|]. intros Hp%Hpr. rewrite (f_handles _ _ _ _ _ fr) by done. rewrite Hp.
    destruct (l_held _ _ _ _ (i_local _ _ HI _ _ HP)) as (i & _ & Hl & _ & Hn); [unfold lock_held; by rewrite (proj1 Hx)|].
    specialize (Hn (proj1 Hx)). rewrite Hn. symmetry. destruct (f_names _ _ _ _ _ fr _ _ Hn) as [?|[Hid Ho]]; [done|].
    destruct (owner_unique h P pid (v_id v) (v_sess u) (v_sess v)); try done; [|exact self|apply Hx].
    rewrite <- Hid. by apply (i_local _ _ HI).
Qed.

(** The process that comes to be identified shares its uid with no other. *)
Lemma distinct_new Q w x :
  Q <> pid -> V !! Q = Some w -> identified w x -> s_lock s' = Owned -> s_uid s' = Some x ->
  v_allow v = false -> v_allow w = false -> False.
Proof.
  intros Hne HQ Hw Ho Hx Ha Haw.
  destruct (identified_move _ _ _ _ _ _ _ Hm self x Ho Hx) as [(Ho0 & Hx0 & _)|(es & Hes & Hf & Hal & _)].
  { by eapply (i_distinct _ _ HI pid v Q w x). }
  assert (Hrh : reg_held (v_sess v) = true) by (unfold reg_held; by rewrite Hes).
  pose proof (l_content _ _ _ _ self) as Hct. rewrite Hes in Hct.
  assert (Hin : In (v_id w, x) es).
  { destruct (i_recorded _ _ HI Q w x HQ Hw) as [(es' & Hes' & Hin)|(Q' & w' & es' & HQ' & Hes' & _)]; [congruence|].
    rewrite (no_other_cleared Q' w' es' Hrh HQ' Hes') in HQ'. congruence. }
  rewrite Ha in Hal. cbn in Hal. unfold alone in Hal. rewrite forallb_forall in Hal. specialize (Hal _ Hin). cbn in Hal.
  rewrite (proj2 (String.eqb_neq _ _) (owner_other Q w x Hne HQ Hw Hrh)), Z.eqb_refl in Hal. cbn in Hal.
  apply existsb_exists in Hal as (p & Hp & <-%String.eqb_eq).
  destruct (i_probed _ _ HI pid v es Q w x) as [Hnc _]; try done. by apply Hnc, list_elem_of_In.
Qed.

Lemma inv_move : Inv h' V'.
Proof.
  split; [exact inv_local|exact inv_daemons|exact inv_recorded|exact inv_probed|].
  intros P u Q w x HPQ HP HQ Hau Haw Hu Hw. destruct (decide (P = pid)) as [->|HPp].
  - rewrite lookup_insert_eq in HP. injection HP as <-. rewrite lookup_insert_ne in HQ by done. cbn in *.
    destruct Hu. by eapply (distinct_new Q w x).
  - rewrite lookup_insert_ne in HP by done. destruct (decide (Q = pid)) as [->|HQp].
    + rewrite lookup_insert_eq in HQ. injection HQ as <-. cbn in *. destruct Hw. by eapply (distinct_new P u x).
    + rewrite lookup_insert_ne in HQ by done. by eapply (i_distinct _ _ HI P u Q w x).
Qed.
End InvMove.

(** ** Processes that start and end *)

Lemma frame_inv_local h h' V pid v :
  Inv h V -> V !! pid = Some v -> frame pid (v_id v) h (v_sess v) h' ->
  forall P w, P <> pid -> V !! P = Some w -> local_ok h' P (v_id w) (v_sess w).
Proof. intros HI Hv Hf P w Hne Hw. eapply others_ok; [exact Hf|by apply (i_local _ _ HI)|by apply (i_local _ _ HI)|done]. Qed.

(** Locks are dropped, other processes keep theirs. *)
Lemma frame_locks h pid id s l d :
  (forall P i, P <> pid -> locks h !! i = Some P -> l !! i = Some P) -> (forall P, P <> pid -> d !! P = daemons h !! P) ->
  frame pid id h s (set_locks l (set_daemons d h)).
Proof. intros Hl Hd. split; cbn; auto. Qed.

Lemma release_all_frame h pid id s d :
  (forall P, P <> pid -> d !! P = daemons h !! P) -> frame pid id h s (release_all pid (set_daemons d h)).
Proof.
  intros Hd. apply frame_locks; [|done]. intros P i Hne Hi. cbn. apply map_lookup_filter_Some. by split.
Qed.

(** A process ends, and with it its daemon. *)
Lemma inv_end h V pid v :
  Inv h V -> V !! pid = Some v -> (forall es, s_reg (v_sess v) <> RegCleared es) ->
  Inv (release_all pid (set_daemons (delete pid (daemons h)) h)) (delete pid V).
Proof.
  intros HI Hv Hnc. pose proof HI as [_ Hd Hr Hp Hx].
  assert (Hf : frame pid (v_id v) h (v_sess v) (release_all pid (set_daemons (delete pid (daemons h)) h))).
  { apply release_all_frame. intros P Hne. by rewrite lookup_delete_ne. }
  split; cbn.
  - intros P w [Hne Hw]%lookup_delete_Some. eapply frame_inv_local; [exact HI|exact Hv|exact Hf|congruence|exact Hw].
  - intros P u [Hne Hu]%lookup_delete_Some. rewrite lookup_delete_ne by done. eauto.
  - intros P w x [Hne Hw]%lookup_delete_Some Hi. destruct (Hr P w x Hw Hi) as [?|(Q & w' & es & HQ & Hes & Hin)]; [by left|].
    right. exists Q, w', es. rewrite lookup_delete_ne; [done|]. intros <-. simplify_eq. by destruct (Hnc es).
  - intros Q w es P u x HPQ [_ HQ]%lookup_delete_Some Hes [_ HP]%lookup_delete_Some Hi. by eapply Hp.
  - intros P u Q w x HPQ [_ HP]%lookup_delete_Some [_ HQ]%lookup_delete_Some. by eapply Hx.
Qed.

(** A daemon ends while its jailer waits for it. *)
Lemma inv_daemon_ends h V pid v :
  Inv h V -> V !! pid = Some v -> Inv (set_daemons (delete pid (daemons h)) h) V.
Proof.
  intros HI Hv. pose proof HI as [Hl Hd Hr Hp Hx]. split; try done; cbn.
  - intros P w Hw. destruct (decide (P = pid)) as [->|Hne].
    + destruct (Hl pid w Hw) as [H1 H2 H3 H4 H5 H6 H7 H8 H9 H10 H11]. split; try done. cbn. intros u. by rewrite lookup_delete_eq.
    + eapply (frame_inv_local h _ V pid v); try done. split; cbn; auto. intros P' Hne'. by rewrite lookup_delete_ne.
  - intros P u [_ Hu]%lookup_delete_Some. eauto.
Qed.

(** A jailer is killed, and its daemon keeps the lock. *)
Lemma inv_orphan h V pid v u :
  Inv h V -> V !! pid = Some v -> daemons h !! pid = Some u -> Inv (release_but (L (v_id v)) pid h) V.
Proof.
  intros HI Hv Hu. pose proof HI as [Hl Hd Hr Hp Hx].
  split; try done; cbn. intros P w Hw. destruct (decide (P = pid)) as [->|Hne].
  - rewrite Hv in Hw. injection Hw as <-. destruct (Hl pid v Hv) as [H1 H2 H3 H4 H5 H6 H7 H8 H9 H10 H11]. destruct (H11 u Hu) as [Hc _].
    destruct (H10 Hc) as [Ho Hrc]. split; try done; cbn.
    + intros Hh. destruct (H3 Hh) as (i & Hi & Hli & Hs & Hn). exists i. split_and!; try done.
      apply map_lookup_filter_Some. split; [done|]. by right.
    + intros Hh. unfold reg_held in Hh. by rewrite Hrc in Hh.
  - eapply (frame_inv_local h _ V pid v); try done. split; cbn; auto. intros P' i Hne' Hi. apply map_lookup_filter_Some. split; [done|by left].
Qed.

Lemma inv_start h V pid id allow :
  Inv h V -> V !! pid = None -> daemons h !! pid = None -> (forall p, handles h !! (pid, p) = None) ->
  Inv h (<[pid := {| v_id := id; v_allow := allow; v_sess := fresh_session |}]> V).
Proof.
  intros [Hl Hd Hr Hp Hx] Hv Hdm Hh.
  assert (Hget : forall P w, <[pid := {| v_id := id; v_allow := allow; v_sess := fresh_session |}]> V !! P = Some w ->
            (P = pid /\ w = {| v_id := id; v_allow := allow; v_sess := fresh_session |}) \/ V !! P = Some w).
  { intros P w. rewrite lookup_insert_Some. intros [[<- <-]|[_ ?]]; auto. }
  split.
  - intros P w [[-> ->]|Hw]%Hget; [by apply new_session_ok|auto].
  - intros P u Hu. rewrite lookup_insert_is_Some'. right. eauto.
  - intros P w x [[-> ->]|Hw]%Hget [Ho Hi]; [done|]. destruct (Hr P w x Hw (conj Ho Hi)) as [?|(Q & w' & es & HQ & Hes & Hin)]; [by left|].
    right. exists Q, w', es. rewrite lookup_insert_ne; [done|congruence].
  - intros Q w es P u x HPQ [[-> ->]|HQ]%Hget Hes; [done|]. intros [[-> ->]|HP]%Hget [Ho Hi]; [done|]. by eapply Hp.
  - intros P u Q w x HPQ [[-> ->]|HP]%Hget; [by intros _ _ _ [??]|]. intros [[-> ->]|HQ]%Hget; [by intros _ _ _ [??]|]. by eapply Hx.
Qed.

(** ** The system *)

Definition session (args : Args) (t : Trace) : option Session :=
  steps root (arg_id args) (arg_allow_shared_uid args) (arg_pool_dir args) (arg_launchd_plist_path args) (drops args)
    fresh_session t.
Definition view (p : Proc) : View :=
  {| v_id := arg_id (p_args p); v_allow := arg_allow_shared_uid (p_args p);
     v_sess := default fresh_session (session (p_args p) (p_trace p)) |}.

(** What a run has done so far follows the protocol. *)
Lemma is_run_session args t : launchable root args -> is_run args t -> exists s, session args t = Some s.
Proof.
  intros (Hroot & Ht & _) (W & o & w & t' & Hrun).
  assert (Hw : exists s, session args (t ++ t') = Some s).
  { destruct (valid_id (arg_id args)) eqn:Hid.
    - pose proof (run_valid_sess (W := W) root (arg_id args) (arg_allow_shared_uid args) (arg_pool_dir args) (arg_launchd_plist_path args)
        (drops args) Hid args eq_refl Hroot eq_refl eq_refl eq_refl eq_refl Ht 0 w) as Hs.
      destruct (run args 0 w) as [[[r pg] w'] t0] eqn:E. cbn in Hrun. subst t0.
      destruct (wp_result _ _ _ _ _ _ _ _ Hs E) as (s & Hst & _). by exists s.
    - pose proof (run_invalid_sess (W := W) root (arg_allow_shared_uid args) (arg_pool_dir args) (arg_launchd_plist_path args) args Hid Ht 0 w) as Hs.
      destruct (run args 0 w) as [[[r pg] w'] t0] eqn:E. cbn in Hrun. subst t0.
      destruct (wp_result _ _ _ _ _ _ _ _ Hs E) as (s & Hst & _). by exists s. }
  destruct Hw as (s & Hs). unfold session in Hs. rewrite steps_app in Hs. unfold session.
  destruct (steps _ _ _ _ _ _ fresh_session t) as [s0|]; [by exists s0|done].
Qed.

(** A session between the truncation and the write is one that rewrites. *)
Lemma cleared_rewriting args t s es : session args t = Some s -> s_reg s = RegCleared es -> rewriting t = true.
Proof.
  revert s es. induction t as [|e t IH] using rev_ind; intros s es; unfold session; [by intros [= <-]|].
  rewrite steps_app. fold (session args t). destruct (session args t) as [s0|]; [|done]. cbn [steps].
  destruct (step _ _ _ _ _ _ s0 e) as [s1|] eqn:Hs; [|done]. intros [= <-] Hr. unfold rewriting. rewrite foldl_app. cbn [foldl].
  fold (rewriting t). assert (Hkeep : s_reg s0 = s_reg s1 -> rewriting t = true) by (intros E; eapply IH; [done|by rewrite E]).
  destruct e as [A c a]. destruct c; cbn in Hs; try done;
    unfold remove_step, flock_step, unlock_step, lstat_step, open_step, probe_step, write_step, spawn_step, mode_step, when in Hs;
    repeat split_match; simplify_eq/=; try done; by apply Hkeep.
Qed.

Record sys_inv (s : System) : Prop := {
  y_inv : Inv (host s) (view <$> procs s);
  y_proc : forall pid p, procs s !! pid = Some p -> launchable root (p_args p) /\ is_Some (session (p_args p) (p_trace p)) }.

Lemma view_lookup s pid p : procs s !! pid = Some p -> (view <$> procs s) !! pid = Some (view p).
Proof. intros Hp. by rewrite lookup_fmap, Hp. Qed.

Lemma no_daemon h pid : daemons h !! pid = None -> set_daemons (delete pid (daemons h)) h = h.
Proof. intros Hd. destruct h. unfold set_daemons. cbn in *. by rewrite delete_id. Qed.

Lemma sys_inv_call s pid args t e h' :
  sys_inv s -> procs s !! pid = Some {| p_args := args; p_trace := t; p_dead := false |} ->
  is_run args (t ++ [e]) -> os (own_lock root args) pid e (host s) = Some h' ->
  sys_inv {| host := h'; procs := <[pid := {| p_args := args; p_trace := t ++ [e]; p_dead := false |}]> (procs s) |}.
Proof.
  intros [HI HP] Hp Hrun Hos. destruct (HP _ _ Hp) as [Hla [s0 Hs0]]. cbn [p_args p_trace] in Hla, Hs0.
  destruct (is_run_session _ _ Hla Hrun) as [s1 Hs1]. pose proof (view_lookup _ _ _ Hp) as Hv.
  assert (Hst : step root (arg_id args) (arg_allow_shared_uid args) (arg_pool_dir args) (arg_launchd_plist_path args)
    (drops args) s0 e = Some s1).
  { unfold session in Hs0, Hs1. rewrite steps_app, Hs0 in Hs1. cbn in Hs1. by destruct (step _ _ _ _ _ _ s0 e). }
  assert (Hv0 : v_sess (view {| p_args := args; p_trace := t; p_dead := false |}) = s0) by (unfold view; cbn [p_args p_trace v_sess]; by rewrite Hs0).
  split; cbn.
  - rewrite fmap_insert. replace (view {| p_args := args; p_trace := t ++ [e]; p_dead := false |}) with
      {| v_id := arg_id args; v_allow := arg_allow_shared_uid args; v_sess := s1 |} by (unfold view; cbn [p_args p_trace]; by rewrite Hs1).
    apply (inv_move pid (view {| p_args := args; p_trace := t; p_dead := false |}) (host s)); [done..|].
    rewrite Hv0. eapply step_move; [|exact Hst|exact Hos]. intros Hf. pose proof (i_local _ _ HI _ _ Hv) as HL.
    rewrite Hv0 in HL. by apply (l_free _ _ _ _ HL).
  - intros P p. rewrite lookup_insert_Some. intros [[<- <-]|[_ ?]]; [|eauto]. cbn. split; [done|by exists s1].
Qed.

Lemma sys_inv_step s s' : sys_inv s -> sys_step root s s' -> sys_inv s'.
Proof.
  intros Hs Hstep. destruct Hstep as [s pid args [Hpn [Hdn Hhn]] Hla|s pid args t e h' Hp Hrun Hos|s pid args t Hp Hrw Hd|s pid args t u Hp Hd
    |s pid args t u Hp Hd|s pid args t u Hp Hd]; [|by eapply sys_inv_call|..]; destruct Hs as [HI HP].
  - split; cbn.
    + rewrite fmap_insert. apply (inv_start (host s) (view <$> procs s) pid); try done. by rewrite lookup_fmap, Hpn.
    + intros P p. rewrite lookup_insert_Some. intros [[<- <-]|[_ ?]]; [|eauto]. split; [done|by exists fresh_session].
  - pose proof (view_lookup _ _ _ Hp) as Hv. destruct (HP _ _ Hp) as [_ [s0 Hs0]]. cbn [p_args p_trace] in Hs0.
    assert (HE : Inv (release_all pid (host s)) (delete pid (view <$> procs s))).
    { rewrite <- (no_daemon (host s) pid Hd). apply (inv_end _ _ _ _ HI Hv). unfold view. cbn [p_args p_trace v_sess]. rewrite Hs0.
      intros es Hes. by rewrite (cleared_rewriting _ _ _ _ Hs0 Hes) in Hrw. }
    split; cbn; [by rewrite fmap_delete|]. intros P p [_ ?]%lookup_delete_Some. eauto.
  - pose proof (view_lookup _ _ _ Hp) as Hv. destruct (HP _ _ Hp) as [Hla Hse]. split; cbn.
    + rewrite fmap_insert. rewrite insert_id by done. by apply (inv_orphan _ _ _ _ _ HI Hv Hd).
    + intros P p. rewrite lookup_insert_Some. intros [[<- <-]|[_ ?]]; [done|eauto].
  - split; cbn; [|done]. by apply (inv_daemon_ends _ _ _ _ HI (view_lookup _ _ _ Hp)).
  - pose proof (view_lookup _ _ _ Hp) as Hv. split; cbn.
    + rewrite fmap_delete. apply (inv_end _ _ _ _ HI Hv). destruct (l_daemon _ _ _ _ (i_local _ _ HI _ _ Hv) u Hd) as [Hc _].
      destruct (l_child _ _ _ _ (i_local _ _ HI _ _ Hv) Hc) as [_ Hr]. intros es. by rewrite Hr.
    + intros P p [_ ?]%lookup_delete_Some. eauto.
Qed.

Lemma sys_inv_reachable s : reachable root s -> sys_inv s.
Proof.
  induction 1 as [s (Hp & Hh & Hl & Hd)|s s' _ IH Hstep]; [|by eapply sys_inv_step].
  split; rewrite Hp; [|done]. rewrite fmap_empty. split; try done. intros P u. by rewrite Hd.
Qed.
End Safe.

(** C4: Daemons that run at the same time on one host, started by any number
    of jailers that share a work root and are interleaved call by call, killed
    or orphaned, belong to different instances; and unless one of the two
    jailers was allowed to share its uid, they run under different uids, if
    they were started with a uid at all.  The host is one on which no jailer
    is killed between the truncation of the uid registry and the write that
    follows it, the writes of the registry and the waits for a daemon succeed,
    the lock files and the registry change only through jailers, none of which
    writes its plist over a dot file of the work root, and a teardown finds
    the lock file of its instance.  Where one of these fails the claim can
    fail too: an entry of a running daemon is lost from the registry, or its
    lock is released. *)
Theorem live_daemons_distinct root s P Q p q u w :
  reachable root s -> P <> Q -> procs s !! P = Some p -> procs s !! Q = Some q ->
  daemons (host s) !! P = Some u -> daemons (host s) !! Q = Some w ->
  arg_id (p_args p) <> arg_id (p_args q) /\
  (arg_allow_shared_uid (p_args p) = false -> arg_allow_shared_uid (p_args q) = false -> u = w -> u = None).
Proof.
  intros Hr%sys_inv_reachable HPQ Hp Hq Hu Hw. destruct Hr as [HI _].
  apply view_lookup with (root := root) in Hp, Hq. pose proof (i_local _ _ _ HI _ _ Hp) as HLp. pose proof (i_local _ _ _ HI _ _ Hq) as HLq.
  destruct (l_daemon _ _ _ _ _ HLp u Hu) as [Hcp Hup]. destruct (l_daemon _ _ _ _ _ HLq w Hw) as [Hcq Huq].
  destruct (l_child _ _ _ _ _ HLp Hcp) as [Hop _]. destruct (l_child _ _ _ _ _ HLq Hcq) as [Hoq _]. split.
  - intros He. cbn in HLp, HLq. rewrite He in HLp. destruct HPQ. by eapply owner_unique.
  - intros Hap Haq <-. destruct u as [x|]; [|done]. destruct (i_distinct _ _ _ HI P _ Q _ x HPQ Hp Hq Hap Haq); split; auto.
Qed.

(** ** A system with two daemons *)

Fixpoint os_all (own : string) (pid : nat) (t : Trace) (h : Host) : option Host :=
  match t with
  | [] => Some h
  | e :: t' => match os own pid e h with Some h' => os_all own pid t' h' | None => None end
  end.

Lemma is_run_prefix args t t' : is_run args (t ++ t') -> is_run args t.
Proof. intros (W & o & w & t0 & Ht). exists W, o, w, (t' ++ t0). by rewrite Ht, app_assoc. Qed.

(** A process makes a sequence of calls. *)
Lemma reach_calls root s pid args t t1 h' :
  reachable root s -> procs s !! pid = Some {| p_args := args; p_trace := t; p_dead := false |} ->
  is_run args (t ++ t1) -> os_all (own_lock root args) pid t1 (host s) = Some h' ->
  reachable root {| host := h'; procs := <[pid := {| p_args := args; p_trace := t ++ t1; p_dead := false |}]> (procs s) |}.
Proof.
  revert s t. induction t1 as [|e t1 IH]; intros s t Hs Hp Hrun Hos; cbn in Hos.
  - injection Hos as <-. rewrite app_nil_r. rewrite insert_id by done. by destruct s.
  - destruct (os _ pid e (host s)) as [h1|] eqn:E; [|done].
    replace (t ++ e :: t1) with ((t ++ [e]) ++ t1) in * by (by rewrite <- app_assoc).
    pose proof (reach_step _ _ _ Hs (MakeCall _ _ _ _ _ _ _ Hp (is_run_prefix _ _ _ Hrun) E)) as Hs1.
    specialize (IH _ _ Hs1 (lookup_insert_eq _ _ _) Hrun Hos). cbn in IH. by rewrite insert_insert_eq in IH.
Qed.

(** The calls of a launch up to the start of the daemon. *)
Definition demo_calls (id own : string) (ino : Z) (registry : string) : Trace :=
  List.firstn 33 (snd (run (H := demo own ino registry) (demo_args id) 0 tt)).
Definition demo_host : Host :=
  {| names := ∅; next_ino := 7; handles := ∅; locks := ∅; content := ""; daemons := ∅ |}.
Definition demo_proc (id own : string) (ino : Z) (registry : string) : Proc :=
  {| p_args := demo_args id; p_trace := demo_calls id own ino registry; p_dead := false |}.

Lemma demo_launch h m pid id own ino registry h' :
  reachable "/r" {| host := h; procs := m |} -> unused pid {| host := h; procs := m |} ->
  os_all (lock_file "/r" id) pid (demo_calls id own ino registry) h = Some h' ->
  reachable "/r" {| host := h'; procs := <[pid := demo_proc id own ino registry]> m |}.
Proof.
  intros Hs Hu Hos.
  assert (Hla : launchable "/r" (demo_args id)) by (split; [done|split; [apply demo_typed|done]]).
  pose proof (reach_step _ _ _ Hs (StartJailer _ _ _ _ Hu Hla)) as Hs1.
  assert (Hrun : is_run (demo_args id) (demo_calls id own ino registry)).
  { exists unit, (demo own ino registry), tt, (List.skipn 33 (snd (run (H := demo own ino registry) (demo_args id) 0 tt))).
    symmetry. apply List.firstn_skipn. }
  pose proof (reach_calls _ _ pid _ [] _ h' Hs1 (lookup_insert_eq _ _ _) Hrun Hos) as Hr. cbn in Hr.
  by rewrite insert_insert_eq in Hr.
Qed.

(** A process opens files for itself only. *)
Lemma os_handles own pid e h h' P p : os own pid e h = Some h' -> P <> pid -> handles h' !! (P, p) = handles h !! (P, p).
Proof.
  intros Hos Hne. destruct e as [A c a]. destruct c; cbn in Hos; unfold take, possible in Hos; repeat split_match; simplify_eq; try done;
    cbn; rewrite ?lookup_insert_ne by congruence; try done.
  - apply (f_equal (fun t => t !! (P, p))). unfold release. by repeat case_match.
  - unfold open_create. case_match; cbn; by rewrite lookup_insert_ne by congruence.
Qed.
Lemma os_all_handles own pid t h h' P p :
  os_all own pid t h = Some h' -> P <> pid -> handles h' !! (P, p) = handles h !! (P, p).
Proof.
  intros Hos Hne. revert h Hos. induction t as [|e t IH]; intros h; cbn; [by intros [= <-]|].
  destruct (os own pid e h) as [h1|] eqn:E; [|done]. intros Hos. rewrite (IH _ Hos). by eapply os_handles.
Qed.

Lemma some_default {A} (d : A) (o : option A) : is_some o = true -> o = Some (default d o).
Proof. by destruct o. Qed.

Definition demo_host1 : Host :=
  default demo_host (os_all "/r/.a.lock" 1 (demo_calls "a" "/r/.a.lock" 7 "") demo_host).
Definition demo_host2 : Host :=
  default demo_host (os_all "/r/.b.lock" 2 (demo_calls "b" "/r/.b.lock" 9 ("a 500" +:+ nl)) demo_host1).
Definition demo_system : System :=
  {| host := demo_host2;
     procs := <[2%nat := demo_proc "b" "/r/.b.lock" 9 ("a 500" +:+ nl)]> (<[1%nat := demo_proc "a" "/r/.a.lock" 7 ""]> ∅) |}.

Lemma demo_calls1 : os_all "/r/.a.lock" 1 (demo_calls "a" "/r/.a.lock" 7 "") demo_host = Some demo_host1.
Proof. apply some_default. by vm_compute. Qed.
Lemma demo_calls2 : os_all "/r/.b.lock" 2 (demo_calls "b" "/r/.b.lock" 9 ("a 500" +:+ nl)) demo_host1 = Some demo_host2.
Proof. apply some_default. by vm_compute. Qed.

Lemma demo_reachable : reachable "/r" demo_system.
Proof.
  unfold demo_system. apply demo_launch with (h := demo_host1); [|split_and!|exact demo_calls2].
  - apply demo_launch with (h := demo_host); [by apply reach_init| |exact demo_calls1].
    split_and!; [done..|]. intros p. apply lookup_empty.
  - done.
  - by vm_compute.
  - intros p. cbn [host]. rewrite (os_all_handles _ _ _ _ _ 2 p demo_calls1) by done. apply lookup_empty.
Qed.

Lemma live_daemons_distinct_witness :
  daemons demo_host2 !! 1%nat = Some (Some 500) /\ daemons demo_host2 !! 2%nat = Some (Some 501) /\ "a" <> "b".
Proof.
  assert (H1 : daemons demo_host2 !! 1%nat = Some (Some 500)) by (by vm_compute).
  assert (H2 : daemons demo_host2 !! 2%nat = Some (Some 501)) by (by vm_compute).
  split; [exact H1|split; [exact H2|]].
  exact (proj1 (live_daemons_distinct "/r" demo_system 1 2 _ _ _ _ demo_reachable ltac:(done) eq_refl eq_refl H1 H2)).
Defined.
