(* ===== verification/JailerProps.v ===== *)
(** * The daemon's process, the launchd plist, and panics

    What the child does between fork and exec, what launchd reads back from
    the plist the jailer writes, and that on arguments the command line
    parser accepts the jailer panics only if it cannot print the plist. *)

From Stdlib Require Import Ascii.
From stdpp Require Import sorting.
From S2P Require Import Prelude RustStr Utf8 Json World Pool UidRegistry Profile Jailer Plist Session JailerRun.
Local Open Scope string_scope.
Local Open Scope Z_scope.
Local Open Scope rust_scope.
Local Open Scope list_scope.

(** ** The child before exec *)

(** The calls of a child that goes on to exec, with their answers. *)
Definition limit_events (r : Resource) (v : option Z) : Trace :=
  match v with Some v => [Ev (SetRlimit r v) (Ok tt)] | None => [] end.

Definition drop_events (uid gid : option Z) (t : Trace) : Prop :=
  match uid, gid with
  | None, None => t = []
  | _, _ =>
      exists g te,
        t = match gid with Some _ => [] | None => [Ev GetGid g] end
            ++ [Ev (SetGroups g) (Ok tt)]
            ++ match gid with Some _ => [Ev (SetGid g) (Ok tt)] | None => [] end
            ++ match uid with Some u => [Ev (SetUid u) (Ok tt)] | None => [] end ++ te /\
        (forall g', gid = Some g' -> g = g') /\
        match uid with
        | Some u => if u =? 0 then te = [] else exists e, te = [Ev (SetUid 0) (Err e)]
        | None => te = []
        end
  end.

(** The last call of a trace failed, or it gave the process root back. *)
Definition child_refused (t : Trace) : Prop :=
  (exists t0 (c : Call (Result unit string)) e, t = t0 ++ [Ev c (Err e)]) \/
  (exists t0, t = t0 ++ [Ev (SetUid 0) (Ok tt)]).

Section Child.
Context {W : Type} `{Outside W}.

Definition ChildOk (m : M W unit string unit) (P : Trace -> Prop) : Prop :=
  forall s w, wp m (fun r _ _ t => match r with Ok _ => P t | Err _ => child_refused t end) s w.

Lemma refused_app t1 t2 : child_refused t2 -> child_refused (t1 ++ t2).
Proof.
  intros [(t0 & c & e & ->)|(t0 & ->)]; [left; exists (t1 ++ t0), c, e|right; exists (t1 ++ t0)]; by rewrite app_assoc.
Qed.

Lemma child_bind m k P Q :
  ChildOk m P -> (forall t, P t -> ChildOk k (fun t' => Q (t ++ t'))) -> ChildOk (bind m (fun _ => k)) Q.
Proof.
  intros Hm Hk s w. wp_step. eapply wp_mono; [apply Hm|]. intros [[]|e] s1 w1 t1 Ht; [|done].
  eapply wp_mono; [by apply Hk|]. intros [[]|e] s2 w2 t2 Ht2; [done|]. by apply refused_app.
Qed.

(** One checked call, and what follows it. *)
Lemma child_call (c : Call (Result unit string)) Q : Q [Ev c (Ok tt)] -> ChildOk (bind (ask c) lift) Q.
Proof.
  intros HQ s w. wp_step. wp_step. wp_step. rewrite ?app_nil_r. destruct a as [[]|e]; cbn; [done|].
  left. by exists [], c, e.
Qed.
Lemma child_seq (c : Call (Result unit string)) k Q :
  ChildOk k (fun t => Q (Ev c (Ok tt) :: t)) -> ChildOk (bind (ask c) (fun r => bind (lift r) (fun _ => k))) Q.
Proof.
  intros Hk s w. wp_step. wp_step. wp_step. wp_step. destruct a as [[]|e]; cbn; [|left; by exists [], c, e].
  eapply wp_mono; [apply Hk|]. intros [[]|e] s2 w2 t2 Ht2; [done|]. by apply (refused_app [_]).
Qed.
Lemma child_ret (P : Trace -> Prop) : P [] -> ChildOk (ret tt) P.
Proof. intros HP s w. by wp_step. Qed.
Lemma child_mono m (P Q : Trace -> Prop) : (forall t, P t -> Q t) -> ChildOk m P -> ChildOk m Q.
Proof. intros HPQ Hm s w. eapply wp_mono; [apply Hm|]. intros [[]|e] ??? ; auto. Qed.

Lemma apply_rlimit_ok r v : ChildOk (apply_rlimit r v) (fun t => t = limit_events r v).
Proof. destruct v as [v|]; [by apply child_call|by apply child_ret]. Qed.

(** The uid is given up for good. *)
Lemma drop_uid_ok u Q :
  Q [Ev (SetUid u) (Ok tt)] \/ u <> 0 -> (u <> 0 -> forall e, Q [Ev (SetUid u) (Ok tt); Ev (SetUid 0) (Err e)]) ->
  ChildOk (let! r := ask (SetUid u) in
           do! lift r in
           if negb (u =? 0) then
             let! r := ask (SetUid 0) in
             match r with Ok _ => fail EPERM | Err _ => ret tt end
           else ret tt) Q.
Proof.
  intros H0 Hne. apply child_seq. destruct (Z.eqb_spec u 0) as [->|Hu]; cbn [negb].
  - apply child_ret. by destruct H0.
  - intros s w. wp_step. wp_step. destruct a as [[]|e]; wp_step; [right; by exists []|by apply Hne].
Qed.

Lemma child_known {A} (a : A) k Q : ChildOk (k a) Q -> ChildOk (bind (ret a) k) Q.
Proof. intros Hk s w. wp_step. wp_step. apply Hk. Qed.
Lemma child_ask {A} (c : Call A) k Q : (forall a, ChildOk (k a) (fun t => Q (Ev c a :: t))) -> ChildOk (bind (ask c) k) Q.
Proof.
  intros Hk s w. wp_step. wp_step. eapply wp_mono; [apply Hk|]. intros [[]|e] s2 w2 t2 Ht2; [done|]. by apply (refused_app [_]).
Qed.

Lemma drop_privileges_ok uid gid : ChildOk (drop_privileges uid gid) (drop_events uid gid).
Proof.
  unfold drop_privileges, drop_events. destruct uid as [u|], gid as [g|]; [..|by apply child_ret].
  - apply child_known, child_seq. eapply child_bind; [by apply (child_call _ (fun t => t = [Ev (SetGid g) (Ok tt)]))|].
    intros t ->. apply drop_uid_ok.
    + destruct (Z.eqb_spec u 0) as [->|]; [|by right]. left. exists g, []. split; [done|]. split; [by intros ? [= <-]|done].
    + intros Hu e. exists g, [Ev (SetUid 0) (Err e)]. split; [done|]. split; [by intros ? [= <-]|].
      rewrite (proj2 (Z.eqb_neq _ _) Hu). eauto.
  - apply child_ask. intros g. apply child_seq, child_known, drop_uid_ok.
    + destruct (Z.eqb_spec u 0) as [->|]; [|by right]. left. by exists g, [].
    + intros Hu e. exists g, [Ev (SetUid 0) (Err e)]. split; [done|]. split; [done|].
      rewrite (proj2 (Z.eqb_neq _ _) Hu). eauto.
  - apply child_known, child_seq. eapply child_bind; [by apply (child_call _ (fun t => t = [Ev (SetGid g) (Ok tt)]))|].
    intros t ->. apply child_ret. exists g, []. split; [done|]. split; [by intros ? [= <-]|done].
Qed.

(** C20: A daemon is executed only with the privileges dropped that it was to
    drop.  When the hook that runs between fork and exec succeeds, the child
    has become the leader of its own process group, keeps the instance lock
    open across exec, and has set exactly the resource limits asked for.  Then,
    if it has a uid or a gid to drop to, it has replaced its supplementary
    groups by one, the gid to drop to or else its current one; it has set the
    gid, if there is one; and it has set the uid, if there is one, and, if
    that uid is not 0, seen that it cannot become root again.  All this in
    this order and with no other call: with a gid alone the uid stays that of
    the jailer, with a uid alone the gid stays, and with neither the child
    drops nothing.  In every other case a call has failed, or root was given
    back, and the hook fails, so nothing is executed. *)
Theorem child_drops_privileges (cmd : Command) (s : unit) (w : W) :
  wp (pre_exec cmd) (fun r _ _ t => match r with
    | Ok _ => exists t_drop, drop_events (cmd_uid cmd) (cmd_gid cmd) t_drop /\
        t = [Ev SetPgid (Ok tt); Ev (ClearCloexec (cmd_lock cmd)) (Ok tt)]
            ++ limit_events NoFile (cmd_nofile cmd) ++ limit_events NProc (cmd_nproc cmd) ++ limit_events FSize (cmd_fsize cmd) ++ t_drop
    | Err _ => child_refused t
    end) s w.
Proof.
  revert s w. change (ChildOk (pre_exec cmd) (fun t => exists t_drop, drop_events (cmd_uid cmd) (cmd_gid cmd) t_drop /\
        t = [Ev SetPgid (Ok tt); Ev (ClearCloexec (cmd_lock cmd)) (Ok tt)]
            ++ limit_events NoFile (cmd_nofile cmd) ++ limit_events NProc (cmd_nproc cmd) ++ limit_events FSize (cmd_fsize cmd) ++ t_drop)).
  unfold pre_exec. do 2 apply child_seq. do 3 (eapply child_bind; [apply apply_rlimit_ok|]; intros ? ->).
  eapply child_mono; [|apply drop_privileges_ok]. intros t Ht. by exists t.
Qed.
End Child.

(** ** No panics *)

Section NoPanic.
Context {W : Type} `{Outside W}.

(** [m] panics only when standard output cannot be written, and [Q] holds of
    what it returns. *)
Definition Safe {A} (m : M W Z Fault A) (Q : A -> Prop) : Prop :=
  forall pgid w, wp m (fun r _ _ t => match r with Ok a => Q a | Err (Error _) => True | Err (Panic _) => unprinted t end) pgid w.

Lemma safe_bind {A B} (m : M W Z Fault A) (k : A -> M W Z Fault B) P Q :
  Safe m P -> (forall a, P a -> Safe (k a) Q) -> Safe (bind m k) Q.
Proof.
  intros Hm Hk pgid w. wp_step. eapply wp_mono; [apply Hm|]. intros [a|[e|msg]] s1 w1 t1 Ha; [|done..].
  eapply wp_mono; [by apply Hk|]. intros [b|[e|msg]] s2 w2 t2 Hb; [done..|]. by apply unprinted_app_r.
Qed.
Lemma safe_ret {A} (a : A) (Q : A -> Prop) : Q a -> Safe (ret a) Q.
Proof. intros HQ pgid w. by wp_step. Qed.
Lemma safe_fail {A} e (Q : A -> Prop) : Safe (fail (Error e)) Q.
Proof. intros pgid w. by wp_step. Qed.
Lemma safe_ask {A} (c : Call A) (Q : A -> Prop) : (forall a, Q a) -> Safe (ask c) Q.
Proof. intros HQ pgid w. wp_step. apply HQ. Qed.
Lemma safe_modify f (Q : unit -> Prop) : Q tt -> Safe (modify f) Q.
Proof. intros HQ pgid w. by wp_step. Qed.
Lemma safe_or_fail {A E} (f : E -> JailerError) (r : Result A E) (Q : A -> Prop) : (forall a, Q a) -> Safe (or_fail f r) Q.
Proof. intros HQ pgid w. unfold or_fail. wp_step. by destruct r; cbn. Qed.
Lemma safe_lift {A} (r : Result A Fault) (Q : A -> Prop) :
  match r with Ok a => Q a | Err (Error _) => True | Err (Panic _) => False end -> Safe (lift r) Q.
Proof. intros HQ pgid w. wp_step. by destruct r as [a|[e|msg]]. Qed.
Lemma safe_with_err {A E} (f : E -> JailerError) (m : M W Z E A) (Q : A -> Prop) :
  (forall a, Q a) -> Safe (with_err (fun e => Error (f e)) m) Q.
Proof. intros HQ pgid w. wp_step. apply wp_intro. intros [a|e] s' w' t _; cbn; auto. Qed.
Lemma safe_guarded {A} c (m : M W Z Fault A) Q : Safe m Q -> Safe (guarded (ask c) m) Q.
Proof.
  intros Hm pgid w. wp_step. eapply wp_mono; [apply Hm|]. intros [a|[e|msg]] s1 w1 t1 Hr b w2; [done..|]. by apply unprinted_app_l.
Qed.
Lemma safe_on_error {A} c (m : M W Z Fault A) Q : Safe m Q -> Safe (on_error (ask c) m) Q.
Proof. intros Hm pgid w. wp_step. eapply wp_mono; [apply Hm|]. intros [a|[e|msg]] s1 w1 t1 Hr; [done..|]. intros b w2. by apply unprinted_app_l. Qed.
Lemma safe_weaken {A} (m : M W Z Fault A) (P Q : A -> Prop) : (forall a, P a -> Q a) -> Safe m P -> Safe m Q.
Proof. intros HPQ Hm pgid w. eapply wp_mono; [apply Hm|]. intros [a|[e|msg]]; auto. Qed.

Definition any {A} (a : A) : Prop := True.
Create HintDb safe discriminated.
Ltac safe_step :=
  lazymatch goal with
  | |- Safe (bind _ _) _ => eapply (safe_bind _ _ any); [|intros ? _]
  | |- Safe (ret _) _ => by apply safe_ret
  | |- Safe (fail _) _ => apply safe_fail
  | |- Safe (ask _) _ => by apply safe_ask
  | |- Safe (modify _) _ => by apply safe_modify
  | |- Safe (or_fail _ _) _ => by apply safe_or_fail
  | |- Safe (lift _) _ => by apply safe_lift
  | |- Safe (with_err (fun e => Error _) _) _ => by apply safe_with_err
  | |- Safe (guarded (ask _) _) _ => apply safe_guarded
  | |- Safe (on_error (ask _) _) _ => apply safe_on_error
  | |- Safe (match ?x with _ => _ end) _ => destruct x
  end; cbv beta iota zeta.
Ltac safe := repeat first [safe_step | solve [auto with safe]].

Lemma instance_lock_held_safe p : Safe (instance_lock_held p) any.
Proof. unfold instance_lock_held. safe. Qed.
Hint Resolve instance_lock_held_safe : safe.
Lemma refuse_live_shared_uid_safe root es id uid allow : Safe (refuse_live_shared_uid root es id uid allow) any.
Proof. induction es as [|[o u] es IH]; cbn [refuse_live_shared_uid]; safe; exact IH. Qed.
Hint Resolve refuse_live_shared_uid_safe : safe.
Lemma acquire_rounds_safe n p id : Safe (acquire_rounds n p id) any.
Proof. induction n as [|n IH]; cbn [acquire_rounds]; safe; exact IH. Qed.
Lemma first_file_safe name dirs : Safe (first_file name dirs) any.
Proof. induction dirs as [|d dirs IH]; cbn [first_file]; safe; exact IH. Qed.
Lemma keep_slots_safe d names : Safe (keep_slots d names) any.
Proof. induction names as [|n names IH]; cbn [keep_slots]; safe. Qed.
Hint Resolve acquire_rounds_safe first_file_safe keep_slots_safe : safe.

(** A uid from a base is always there, and the gid is the same. *)
Definition based (args : Args) (p : option Z * option Z) : Prop :=
  arg_uid_base args <> None -> exists u, p = (Some u, Some u).
Lemma resolve_instance_identity_safe args explicit root :
  Safe (resolve_instance_identity args explicit root) (based args).
Proof.
  unfold resolve_instance_identity, drop_registry, based. destruct (arg_uid_base args) as [base|].
  - safe; apply safe_ret; eauto.
  - safe; by apply safe_ret.
Qed.

Lemma resolve_binary_safe args : Safe (resolve_binary args) any.
Proof. unfold resolve_binary, which. safe. destruct a; [by apply safe_lift|by apply safe_lift]. Qed.
Lemma secure_work_root_safe root drop : Safe (secure_work_root root drop) any.
Proof. unfold secure_work_root, assert_trusted_work_root. safe. Qed.
Lemma materialize_safe args d a : Safe (materialize args d a) any.
Proof. unfold materialize, refuse_symlink. safe. Qed.
Lemma profile_inputs_safe args k r d : Safe (profile_inputs args k r d) any.
Proof. unfold profile_inputs, pool_slot_dirs. safe. Qed.
Lemma write_profile_safe p t d : Safe (write_profile p t d) any.
Proof. unfold write_profile. safe. Qed.
Hint Resolve resolve_binary_safe secure_work_root_safe materialize_safe profile_inputs_safe write_profile_safe : safe.

(** What the parser of the command line enforces. *)
Definition clap_accepts (args : Args) : Prop :=
  arg_teardown args = false -> arg_kernel args <> None /\ arg_rootfs args <> None.

Lemma prepare_safe args explicit :
  arg_kernel args <> None -> arg_rootfs args <> None ->
  Safe (prepare args explicit) (fun plan => based args (target_uid plan, target_gid plan)).
Proof.
  intros Hk Hr. unfold prepare, work_root_of, default_work_root, acquire_instance_lock, expect.
  destruct (arg_kernel args) as [k|]; [|done]. destruct (arg_rootfs args) as [r|]; [|done].
  repeat first [ eapply safe_bind; [apply resolve_instance_identity_safe|intros [u g] Hb] | safe_step | solve [auto with safe] ].
Qed.

Lemma expect_some {A} (o : option A) msg : o <> None -> Safe (expect o msg) any.
Proof. intros Ho. unfold expect. destruct o; [by apply safe_ret|done]. Qed.

Lemma program_args_safe args plan exe :
  arg_kernel args <> None -> arg_rootfs args <> None -> based args (target_uid plan, target_gid plan) ->
  Safe (program_args args plan exe) any.
Proof.
  intros Hk Hr Hb. unfold program_args, opt_path_arg, plist_path.
  destruct (arg_uid_base args) eqn:E; [destruct Hb as [u Hu]; [by rewrite E|]; injection Hu as Hu Hg|];
    repeat first [safe_step | apply expect_some; congruence].
Qed.

Definition exit_code (code : Z) : Prop := 0 <= code <= u8_max.
Lemma exit_zero : exit_code 0.
Proof. unfold exit_code, u8_max. lia. Qed.
Lemma exit_status (code : Z) : exit_code (if (0 <=? code) && (code <=? u8_max) then code else 1).
Proof. unfold exit_code, u8_max. destruct ((0 <=? code) && (code <=? 255)) eqn:E; lia. Qed.

(** [print!] *)
Lemma print_safe text :
  Safe (let! r := ask (PrintOut text) in match r with Ok _ => ret tt | Err e => fail (Panic ("failed printing to stdout: " +:+ e)) end) any.
Proof. intros pgid w. do 2 wp_step. destruct a as [[]|e]; by wp_step. Qed.

Lemma run_safe args : clap_accepts args -> Safe (run args) exit_code.
Proof.
  intros Hc. unfold run, clap_accepts in *. destruct (arg_teardown args).
  - unfold teardown, work_root_of, default_work_root, assert_trusted_work_root, acquire_instance_lock, remove_instance, refuse_symlink, remove_if_there, drop_registry.
    safe; apply safe_ret, exit_zero.
  - destruct Hc as [Hk Hr]; [done|]. destruct (_ && _); [safe_step|]. safe_step; [safe_step|].
    eapply safe_bind; [by apply prepare_safe|]. intros plan Hb. safe_step.
    unfold write_plist, generate_launchd_plist, launch, install_signal_forwarding, plist_path.
    repeat first [apply print_safe | safe_step | by apply program_args_safe | apply safe_ret, exit_zero | apply safe_ret, exit_status].
Qed.
End NoPanic.

(** C36: The jailer does not panic on any command line that the argument parser
    accepts (a kernel and a rootfs are given unless an instance is torn down),
    unless the plist was to be written to standard output and that write
    failed: whatever else the operating system answers, it returns an error
    value or an exit code that fits a byte.  The lines it writes to standard
    error are outside the model; a line that cannot be written there is a
    panic too. *)
Theorem jailer_never_panics {W : Type} `{Outside W} args (w : W) :
  clap_accepts args ->
  wp (run args) (fun r _ _ t => match r with
    | Ok code => exit_code code
    | Err (Error _) => True
    | Err (Panic _) => unprinted t
    end) 0 w.
Proof. intros Hc. by apply run_safe. Qed.

Lemma jailer_never_panics_witness :
  clap_accepts (demo_args "a") /\ ~ unprinted (snd (run (H := demo "/r/.a.lock" 7 "") (demo_args "a") 0 tt)) /\
  match fst (fst (fst (run (H := demo "/r/.a.lock" 7 "") (demo_args "a") 0 tt))) with
  | Ok code => exit_code code
  | Err (Error _) => True
  | Err (Panic _) => unprinted (snd (run (H := demo "/r/.a.lock" 7 "") (demo_args "a") 0 tt))
  end.
Proof.
  split; [done|]. split; [by vm_compute|]. assert (Hc : clap_accepts (demo_args "a")) by done.
  pose proof (jailer_never_panics (H := demo "/r/.a.lock" 7 "") (demo_args "a") tt Hc) as Hw.
  destruct (run (H := demo "/r/.a.lock" 7 "") (demo_args "a") 0 tt) as [[[r pg] w'] t] eqn:E. exact (wp_result _ _ _ _ _ _ _ _ Hw E).
Defined.

(** ** The plist, as launchd reads it *)

(** *** The command line in the plist *)

(** The value of [flag=value], and the presence of a switch. *)
Fixpoint arg_value (flag : string) (argv : list string) : option string :=
  match argv with
  | [] => None
  | a :: rest => match strip_prefix (flag +:+ "=") a with Some v => Some v | None => arg_value flag rest end
  end.
Definition has_switch (flag : string) (argv : list string) : bool := existsb (String.eqb flag) argv.

Lemma arg_value_app f l1 l2 : arg_value f (l1 ++ l2) = match arg_value f l1 with Some v => Some v | None => arg_value f l2 end.
Proof. induction l1 as [|a l1 IH]; [done|]. cbn. by destruct (strip_prefix _ a). Qed.
Lemma has_switch_app f l1 l2 : has_switch f (l1 ++ l2) = has_switch f l1 || has_switch f l2.
Proof. apply existsb_app. Qed.

(** An option with its value, or nothing. *)
Definition opt_value (flag : string) (v : option string) : list string :=
  match v with Some v => [flag +:+ "=" +:+ v] | None => [] end.
Definition opt_switch (flag : string) (b : bool) : list string := if b then [flag] else [].

Record CommandLine := {
  c_id : string; c_kernel : string; c_rootfs : string; c_work_dir : string; c_binary : string;
  c_initramfs : option string; c_pool_dir : option string; c_deny_probe : option string;
  c_backend : string; c_host_mmds : bool; c_uid : option string; c_gid : option string; c_user : option string;
  c_allow : bool; c_nofile : option string; c_nproc : option string; c_fsize : option string }.

(** What the flags of a command line say. *)
Definition says (argv : list string) (c : CommandLine) : Prop :=
  arg_value "--id" argv = Some (c_id c) /\ arg_value "--kernel" argv = Some (c_kernel c) /\
  arg_value "--rootfs" argv = Some (c_rootfs c) /\ arg_value "--work-dir" argv = Some (c_work_dir c) /\
  arg_value "--firecracker-binary" argv = Some (c_binary c) /\ arg_value "--initramfs" argv = c_initramfs c /\
  arg_value "--pool-dir" argv = c_pool_dir c /\ arg_value "--deny-probe" argv = c_deny_probe c /\
  arg_value "--network-backend" argv = Some (c_backend c) /\ has_switch "--host-mmds" argv = c_host_mmds c /\
  arg_value "--uid" argv = c_uid c /\ arg_value "--gid" argv = c_gid c /\ arg_value "--user" argv = c_user c /\
  has_switch "--allow-shared-uid" argv = c_allow c /\ arg_value "--rlimit-nofile" argv = c_nofile c /\
  arg_value "--rlimit-nproc" argv = c_nproc c /\ arg_value "--rlimit-fsize" argv = c_fsize c /\
  arg_value "--uid-base" argv = None /\ has_switch "--clean-work-dir" argv = false /\ has_switch "--teardown" argv = false.

Definition flags (c : CommandLine) : list string :=
  ["--id=" +:+ c_id c; "--kernel=" +:+ c_kernel c; "--rootfs=" +:+ c_rootfs c; "--work-dir=" +:+ c_work_dir c;
   "--firecracker-binary=" +:+ c_binary c]
  ++ opt_value "--initramfs" (c_initramfs c) ++ opt_value "--pool-dir" (c_pool_dir c) ++ opt_value "--deny-probe" (c_deny_probe c)
  ++ ["--network-backend=" +:+ c_backend c] ++ opt_switch "--host-mmds" (c_host_mmds c)
  ++ opt_value "--uid" (c_uid c) ++ opt_value "--gid" (c_gid c) ++ opt_value "--user" (c_user c)
  ++ opt_switch "--allow-shared-uid" (c_allow c) ++ opt_value "--rlimit-nofile" (c_nofile c)
  ++ opt_value "--rlimit-nproc" (c_nproc c) ++ opt_value "--rlimit-fsize" (c_fsize c).

(** Skip the groups of other flags, then read the own group. *)
Ltac read_flag :=
  unfold flags; rewrite ?arg_value_app, ?has_switch_app;
  repeat match goal with
  | |- context [arg_value ?f ?g] =>
      let E := fresh in assert (E : arg_value f g = None) by (first [reflexivity | unfold opt_value, opt_switch; case_match; reflexivity]);
      rewrite E; clear E
  | |- context [has_switch ?f ?g] =>
      let E := fresh in assert (E : has_switch f g = false) by (first [reflexivity | unfold opt_value, opt_switch; case_match; reflexivity]);
      rewrite E; clear E
  end; cbn [flags]; first
    [ reflexivity
    | match goal with
      | |- context [opt_value _ ?v] => destruct v
      | |- context [opt_switch _ ?b] => destruct b
      end; reflexivity ].
Lemma flags_say c : says (flags c) c.
Proof. unfold says. repeat split; read_flag. Qed.

(** A path as launchd, which runs in another directory, has to be given it:
    canonical if it resolved, else as it was. *)
Definition resolved (t : Trace) (path v : string) : Prop :=
  (exists c, Ev (Canonicalize path) (Ok c) ∈ t /\ v = from_utf8_lossy c) \/
  (exists e, Ev (Canonicalize path) (Err e) ∈ t /\ v = from_utf8_lossy path).
Definition opt_resolved (t : Trace) (path v : option string) : Prop :=
  match path, v with Some p, Some v => resolved t p v | None, None => True | _, _ => False end.

(** [c] describes the launch that [args] asked for and [plan] carried out. *)
Definition same_instance (args : Args) (plan : Plan) (t : Trace) (c : CommandLine) : Prop :=
  c_id c = arg_id args /\ opt_resolved t (arg_kernel args) (Some (c_kernel c)) /\ opt_resolved t (arg_rootfs args) (Some (c_rootfs c)) /\
  resolved t (work_root plan) (c_work_dir c) /\ resolved t (binary plan) (c_binary c) /\
  opt_resolved t (arg_initramfs args) (c_initramfs c) /\ opt_resolved t (arg_pool_dir args) (c_pool_dir c) /\
  opt_resolved t (arg_deny_probe args) (c_deny_probe c) /\ c_backend c = as_flag_value (arg_network_backend args) /\
  c_host_mmds c = arg_host_mmds args /\
  c_uid c = to_dec <$> (if is_some (arg_uid_base args) then target_uid plan else arg_uid args) /\
  c_gid c = to_dec <$> (if is_some (arg_uid_base args) then target_gid plan else arg_gid args) /\
  c_user c = arg_user args /\ c_allow c = arg_allow_shared_uid args /\ c_nofile c = to_dec <$> arg_rlimit_nofile args /\
  c_nproc c = to_dec <$> arg_rlimit_nproc args /\ c_fsize c = to_dec <$> arg_rlimit_fsize args.

Lemma resolved_mono t t' p v : t ⊆ t' -> resolved t p v -> resolved t' p v.
Proof. intros Ht [(c & Hc & ->)|(e & He & ->)]; [left; exists c|right; exists e]; set_solver. Qed.
Lemma opt_resolved_mono t t' p v : t ⊆ t' -> opt_resolved t p v -> opt_resolved t' p v.
Proof. intros Ht. destruct p, v; cbn; try done. by apply resolved_mono. Qed.

(** A later step sees more of the trace. *)
Ltac seen := first [ done | eapply resolved_mono; [|eassumption]; set_solver | eapply opt_resolved_mono; [|eassumption]; set_solver ].
Lemma same_instance_mono args plan t t' c : t ⊆ t' -> same_instance args plan t c -> same_instance args plan t' c.
Proof. intros Ht (? & ? & ? & ? & ? & ? & ? & ? & ?). unfold same_instance. split_and!; try seen; tauto. Qed.

Section Relaunch.
Context {W : Type} `{Outside W}.

Lemma plist_path_resolved p (s : Z) (w : W) :
  wp (plist_path p) (fun r _ _ t => match r with Ok v => resolved t p v | Err _ => False end) s w.
Proof. unfold plist_path. wp_step. wp_step. wp_step. destruct a as [c|e]; [left; exists c|right; exists e]; set_solver. Qed.
Lemma opt_path_arg_resolved f p (s : Z) (w : W) :
  wp (opt_path_arg f p) (fun r _ _ t => match r with
    | Ok l => exists v, l = opt_value f v /\ opt_resolved t p v
    | Err _ => False
    end) s w.
Proof.
  destruct p as [p|]; cbn [opt_path_arg].
  - wp_step. eapply wp_mono; [apply plist_path_resolved|]. intros [v|e] s1 w1 t1 Hr; [|done]. wp_step.
    exists (Some v). split; [done|]. rewrite ?app_nil_r. done.
  - wp_step. by exists None.
Qed.

Ltac resolve_next L :=
  wp_step; eapply wp_mono; [apply L|]; intros [?|?] ? ? ? ?; [|done].

Lemma opt_num_value f n : opt_num_arg f n = opt_value f (to_dec <$> n).
Proof. by destruct n. Qed.

Lemma program_args_same args plan exe (s : Z) (w : W) :
  arg_kernel args <> None -> arg_rootfs args <> None -> based args (target_uid plan, target_gid plan) ->
  (arg_uid_base args <> None -> arg_uid args = None /\ arg_gid args = None) ->
  wp (program_args args plan exe) (fun r _ _ t => match r with
    | Ok argv => exists c, argv = from_utf8_lossy exe :: flags c /\ same_instance args plan t c
    | Err _ => False
    end) s w.
Proof.
  unfold based. intros Hk Hr Hb Hc. unfold program_args, expect.
  destruct (arg_kernel args) as [kernel|] eqn:Ek; [|done]. destruct (arg_rootfs args) as [rootfs|] eqn:Er; [|done].
  wp_step. wp_step. wp_step. wp_step.
  do 4 resolve_next plist_path_resolved.
  do 3 (wp_step; eapply wp_mono; [apply opt_path_arg_resolved|]; intros [?|?] ? ? ? Hv; [destruct Hv as (? & -> & ?)|done]).
  pose (c := {| c_id := arg_id args; c_kernel := a; c_rootfs := a0; c_work_dir := a1; c_binary := a2; c_initramfs := x; c_pool_dir := x0;
    c_deny_probe := x1; c_backend := as_flag_value (arg_network_backend args); c_host_mmds := arg_host_mmds args;
    c_uid := to_dec <$> (if is_some (arg_uid_base args) then target_uid plan else arg_uid args);
    c_gid := to_dec <$> (if is_some (arg_uid_base args) then target_gid plan else arg_gid args);
    c_user := arg_user args; c_allow := arg_allow_shared_uid args; c_nofile := to_dec <$> arg_rlimit_nofile args;
    c_nproc := to_dec <$> arg_rlimit_nproc args; c_fsize := to_dec <$> arg_rlimit_fsize args |}).
  destruct (arg_uid_base args) as [base|] eqn:Eb; cbn [is_some] in c.
  - destruct Hb as (u & [= Hu Hg]); [done|]. destruct Hc as [Hnu Hng]; [done|]. rewrite Hu, Hg, Hnu, Hng. repeat wp_step. exists c. split.
    + subst c. rewrite Hu, Hg, !opt_num_value. reflexivity.
    + unfold same_instance. rewrite Ek, Er, Eb. cbn -[resolved opt_resolved]. split_and!; seen.
  - repeat wp_step. exists c. split.
    + subst c. rewrite !opt_num_value. reflexivity.
    + unfold same_instance. rewrite Ek, Er, Eb. cbn -[resolved opt_resolved]. split_and!; seen.
Qed.
End Relaunch.

(** C37: The launchd plist restarts the same instance.  Read as XML 1.0 and as a
    property list, the generated text is the dictionary with the label, the
    command line of the jailer, the switches that keep it running, the
    two log files in the work root and the pause between restarts, with every
    string as it was meant, markup characters included, provided that the work
    root and the arguments hold only characters that XML can hold (no control
    characters but tab and line feed, and neither U+FFFE nor U+FFFF: XML has no
    way to write them, and turns a carriage return into a line feed).  The
    command line starts with the running jailer executable and its flags read
    back as the launch that was asked for: the id, the kernel, the rootfs, the
    work root, the daemon binary and the optional paths in canonical form (as
    given, when they do not resolve), the network backend, the switches, the
    user, the resource limits, and the uid and gid, which are those allocated
    when [--uid-base] was given.  [--uid-base], [--clean-work-dir] and
    [--teardown] are never among them.  Only the lookup of the executable can
    fail. *)
Theorem plist_restarts_instance {W : Type} `{Outside W} args plan (pgid : Z) (w : W) :
  valid_id (arg_id args) = true -> arg_kernel args <> None -> arg_rootfs args <> None ->
  (arg_uid_base args <> None -> arg_uid args = None /\ arg_gid args = None /\ exists u, (target_uid plan, target_gid plan) = (Some u, Some u)) ->
  wp (generate_launchd_plist args plan) (fun r _ _ t => match r with
    | Ok text => exists exe root c, Ev CurrentExe (Ok exe) ∈ t /\ resolved t (work_root plan) root /\
        (xml_string root -> Forall xml_string (from_utf8_lossy exe :: flags c) ->
         plist_read text = Some (instance_plist (arg_id args) root (from_utf8_lossy exe :: flags c))) /\
        says (flags c) c /\ same_instance args plan t c
    | Err e => exists source, e = Error (CurrentExeError source) /\ t = [Ev CurrentExe (Err source)]
    end) pgid w.
Proof.
  intros Hid Hk Hr Hb. unfold generate_launchd_plist, or_fail. wp_step. wp_step. wp_step. wp_step.
  destruct a as [exe|e]; cbn; [|by exists e].
  wp_step. eapply wp_mono; [apply program_args_same; [done|done|intros Hn; by destruct (Hb Hn) as (? & ? & ?)|intros Hn; by destruct (Hb Hn) as (? & ? & ?)]|].
  intros [argv|f] s1 w1 t1 Hargv; [destruct Hargv as (c & -> & Hsame)|done].
  wp_step. eapply wp_mono; [apply plist_path_resolved|]. intros [root|f] s2 w2 t2 Hroot; [|done]. wp_step.
  exists exe, root, c. split_and!; [set_solver|eapply resolved_mono; [|done]; set_solver|intros Hx Ha; by apply plist_text_read|apply flags_say|].
  eapply same_instance_mono; [|done]. set_solver.
Qed.

Lemma plist_restarts_instance_witness :
  let args := demo_args "a" in
  let plan := {| binary := "/bin/fc"; work_root := "/r"; work_dir := "/r/a"; api_sock := "/r/a/s"; profile_path := "/r/p";
    target_uid := Some 501; target_gid := Some 501; lock := "l" |} in
  wp (generate_launchd_plist (H := demo "/r/.a.lock" 7 "") args plan) (fun r _ _ t => match r with
    | Ok text => exists exe root c, Ev CurrentExe (Ok exe) ∈ t /\ resolved t (work_root plan) root /\
        (xml_string root -> Forall xml_string (from_utf8_lossy exe :: flags c) ->
         plist_read text = Some (instance_plist (arg_id args) root (from_utf8_lossy exe :: flags c))) /\
        says (flags c) c /\ same_instance args plan t c
    | Err e => exists source, e = Error (CurrentExeError source) /\ t = [Ev CurrentExe (Err source)]
    end) 0 tt.
Proof. intros args plan. apply plist_restarts_instance; [by vm_compute|done|done|]. intros _. split_and!; [done..|by exists 501]. Defined.
