(* ===== verification/Proc.v ===== *)
(** * Processes: interactive programs that may run forever

    The guest's init process and the host's side of its command channel wait
    for each other and loop without a bound.  They are interaction trees over
    the events [Sys].  This file has what such a tree does ([runs]: the
    actions of a run so far), a logic that shows that every run follows an
    automaton ([Follows]), an executable interpreter ([play]), and the loops
    of Rust's standard library over [read] and [write]. *)

From ITree Require Import ITree.
From S2P Require Import Prelude RustStr Utf8.
Local Open Scope string_scope.
Local Open Scope Z_scope.
Local Open Scope list_scope.

Declare Scope proc_scope.
Notation "'let*' x ':=' m 'in' k" := (ITree.bind m (fun x => k))
  (at level 10, x pattern, m at level 100, k at level 200) : proc_scope.
Notation "'do*' m 'in' k" := (ITree.bind m (fun _ => k))
  (at level 10, m at level 100, k at level 200) : proc_scope.
(** [let x = m?;] *)
Notation "'try*' x ':=' m 'in' k" :=
  (ITree.bind m (fun r => match r with Ok x => k | Err e => Ret (Err e) end))
  (at level 10, x pattern, m at level 100, k at level 200) : proc_scope.
Local Open Scope proc_scope.

(** ** Runs *)

Section Runs.
Context {E : Type -> Type}.

(** An event with its answer. *)
Inductive Act :=
| Do (X : Type) (e : E X) (a : X).
Arguments Do {X}.

Definition step {R} (t : itree E R) (l : list Act) (t' : itree E R) : Prop :=
  match observe t with
  | RetF _ => False
  | TauF u => l = [] /\ t' = u
  | VisF e k => exists a, l = [Do e a] /\ t' = k a
  end.

Inductive runs {R} : itree E R -> list Act -> itree E R -> Prop :=
| runs_stop t : runs t [] t
| runs_step t l1 t1 l2 u : step t l1 t1 -> runs t1 l2 u -> runs t (l1 ++ l2) u.

Lemma step_observe {R} (t t' : itree E R) l u : observe t = observe t' -> step t l u -> step t' l u.
Proof. unfold step. by intros ->. Qed.
Lemma runs_one {R} (t t1 : itree E R) l : step t l t1 -> runs t l t1.
Proof. intros Hs. rewrite <- (app_nil_r l). eapply runs_step; [done|constructor]. Qed.
Lemma runs_app {R} (t t1 u : itree E R) l1 l2 : runs t l1 t1 -> runs t1 l2 u -> runs t (l1 ++ l2) u.
Proof. induction 1 as [|t l1 t1 l2' u' Hs Hr IH]; [done|]. intros Hu. rewrite <- app_assoc. eapply runs_step; eauto. Qed.

Lemma observe_bind {A R} (m : itree E A) (k : A -> itree E R) :
  observe (ITree.bind m k) =
  match observe m with
  | RetF a => observe (k a)
  | TauF m1 => TauF (ITree.bind m1 k)
  | VisF e h => VisF e (fun x => ITree.bind (h x) k)
  end.
Proof.
  change (observe (ITree.bind m k)) with (observe (match observe m with
    RetF a => k a | TauF m1 => Tau (ITree.bind m1 k) | VisF e h => Vis e (fun x => ITree.bind (h x) k) end)).
  by destruct (observe m).
Qed.

(** ** Following an automaton *)

Section Follow.
Context {S : Type} (delta : S -> Act -> option S).

Fixpoint accepts (s : S) (l : list Act) : option S :=
  match l with
  | [] => Some s
  | a :: rest => match delta s a with Some s1 => accepts s1 rest | None => None end
  end.

(** From [s] on, every run of [t] is accepted, and [Q] holds when it returns. *)
Definition Follows {R} (s : S) (t : itree E R) (Q : R -> S -> Prop) : Prop :=
  forall l u, runs t l u -> exists s', accepts s l = Some s' /\ (forall r, observe u = RetF r -> Q r s').

Lemma accepts_app s l1 l2 :
  accepts s (l1 ++ l2) = match accepts s l1 with Some s1 => accepts s1 l2 | None => None end.
Proof. revert s. induction l1 as [|a l1 IH]; intros s; cbn; [done|]. by destruct (delta s a). Qed.

Lemma follows_step {R} s (t t1 : itree E R) l1 Q :
  Follows s t Q -> step t l1 t1 -> exists s1, accepts s l1 = Some s1 /\ Follows s1 t1 Q.
Proof.
  intros Ht Hs. destruct (Ht l1 t1 (runs_one _ _ _ Hs)) as (s1 & Hs1 & _). exists s1. split; [done|].
  intros l u Hu. destruct (Ht (l1 ++ l) u) as (s' & Hs' & Hq); [by eapply runs_step|].
  rewrite accepts_app, Hs1 in Hs'. eauto.
Qed.

Lemma follows_returned {R} s (t : itree E R) r (Q : R -> S -> Prop) : Follows s t Q -> observe t = RetF r -> Q r s.
Proof. intros Ht Hr. destruct (Ht [] t (runs_stop t)) as (s' & [= <-] & Hq). auto. Qed.

Lemma follows_observe {R} s (t t' : itree E R) Q : observe t = observe t' -> Follows s t Q -> Follows s t' Q.
Proof.
  intros Ho Ht l u Hr. inversion Hr as [|? l1 t1 l2 u' Hs Hr']; subst.
  - exists s. split; [done|]. intros r Hu. eapply follows_returned; [done|]. congruence.
  - apply Ht. eapply runs_step; [|done]. eapply step_observe; [|done]. done.
Qed.

Lemma follows_mono {R} s (t : itree E R) (P Q : R -> S -> Prop) :
  Follows s t P -> (forall r s', P r s' -> Q r s') -> Follows s t Q.
Proof. intros Ht HPQ l u Hr. destruct (Ht l u Hr) as (s' & Hs' & Hp). exists s'. eauto. Qed.

Lemma follows_ret {R} s (r : R) (Q : R -> S -> Prop) : Q r s -> Follows s (Ret r) Q.
Proof.
  intros HQ l u Hr. inversion Hr as [|? l1 t1 l2 u' Hs Hr']; subst; [|done].
  exists s. split; [done|]. cbn. by intros ? [= <-].
Qed.
Lemma follows_tau {R} s (t : itree E R) Q : Follows s t Q -> Follows s (Tau t) Q.
Proof.
  intros Ht l u Hr. inversion Hr as [|? l1 t1 l2 u' Hs Hr']; subst; [by exists s|].
  destruct Hs as [-> ->]. by apply Ht.
Qed.
Lemma follows_vis {R X} s (e : E X) (k : X -> itree E R) Q :
  (forall a, exists s1, delta s (Do e a) = Some s1 /\ Follows s1 (k a) Q) -> Follows s (Vis e k) Q.
Proof.
  intros Hk l u Hr. inversion Hr as [|? l1 t1 l2 u' Hs Hr']; subst; [by exists s|].
  destruct Hs as (a & -> & ->). destruct (Hk a) as (s1 & Hs1 & Hf). cbn. rewrite Hs1. by apply Hf.
Qed.
Lemma follows_trigger {X} s (e : E X) (Q : X -> S -> Prop) :
  (forall a, exists s1, delta s (Do e a) = Some s1 /\ Q a s1) -> Follows s (ITree.trigger e) Q.
Proof. intros Hk. apply follows_vis. intros a. destruct (Hk a) as (s1 & ? & ?). exists s1. split; [done|]. by apply follows_ret. Qed.

(** An event, with what the automaton does on it. *)
Lemma follows_event {X R} s (e : E X) (k : X -> itree E R) Q :
  (forall a, exists s1, delta s (Do e a) = Some s1 /\ Follows s1 (k a) Q) -> Follows s (ITree.bind (ITree.trigger e) k) Q.
Proof.
  intros Hk. apply (follows_observe s (Vis e (fun x => ITree.bind (Ret x) k))); [done|]. apply follows_vis. intros a.
  destruct (Hk a) as (s1 & Hs1 & Hf). exists s1. split; [done|]. by apply (follows_observe s1 (k a)).
Qed.

(** A tree whose head is [m] and whose rest is chosen by the result of [m];
    the rest need only be followed once [m] has returned. *)
Lemma follows_bind {A R} s (m : itree E A) (k : A -> itree E R) P Q :
  Follows s m P -> (forall a s', P a s' -> Follows s' (k a) Q) -> Follows s (ITree.bind m k) Q.
Proof.
  intros Hm Hk l u Hr. remember (ITree.bind m k) as t eqn:Et. assert (Ho : observe t = observe (ITree.bind m k)) by by subst t.
  clear Et. revert m s Hm Ho. induction Hr as [t|t l1 t1 l2 u Hs Hr IH]; intros m s Hm Ho.
  - exists s. split; [done|]. intros r Hu. rewrite Ho, observe_bind in Hu. destruct (observe m) as [a|m1|X e k1] eqn:Em; [|done..].
    eapply follows_returned; [|done]. eapply Hk. by eapply follows_returned.
  - unfold step in Hs. rewrite Ho, observe_bind in Hs. destruct (observe m) as [a|m1|X e k1] eqn:Em.
    + assert (Hf : Follows s (k a) Q) by (eapply Hk; by eapply follows_returned).
      apply (Hf (l1 ++ l2) u). eapply runs_step; [|done]. exact Hs.
    + destruct Hs as [-> ->]. cbn. apply (IH m1); [|done].
      destruct (follows_step _ _ m1 [] _ Hm) as (s1 & [= <-] & Hf); [|done]. unfold step. by rewrite Em.
    + destruct Hs as (a & -> & ->). destruct (follows_step _ _ (k1 a) [Do e a] _ Hm) as (s1 & Hs1 & Hf).
      { unfold step. rewrite Em. by exists a. }
      rewrite accepts_app, Hs1. by apply (IH (k1 a)).
Qed.

(** A loop keeps an invariant of its variable and of the automaton. *)
Lemma follows_iter {I R} (f : I -> itree E (I + R)) (Inv : I -> S -> Prop) (Q : R -> S -> Prop) i s :
  (forall i s, Inv i s -> Follows s (f i) (fun lr s' => match lr with inl i' => Inv i' s' | inr r => Q r s' end)) ->
  Inv i s -> Follows s (ITree.iter f i) Q.
Proof.
  intros Hf Hi l u Hr. apply Hf in Hi.
  set (K := fun lr : I + R => match lr with inl i' => Tau (ITree.iter f i') | inr r => Ret r end).
  assert (Ho : observe (ITree.iter f i) = observe (ITree.bind (f i) K)) by done.
  revert Ho Hi. generalize (f i) as m. revert s. induction Hr as [t|t l1 t1 l2 u Hs Hr IH]; intros s m Ho Hm.
  - exists s. split; [done|]. intros r Hu. rewrite Ho, observe_bind in Hu. destruct (observe m) as [[i'|r']|m1|X e k1] eqn:Em; [done| |done..].
    cbn in Hu. injection Hu as <-. exact (follows_returned _ _ _ _ Hm Em).
  - unfold step in Hs. rewrite Ho, observe_bind in Hs. destruct (observe m) as [[i'|r']|m1|X e k1] eqn:Em.
    + destruct Hs as [-> ->]. cbn. apply (IH s (f i')); [done|]. apply Hf. exact (follows_returned _ _ _ _ Hm Em).
    + done.
    + destruct Hs as [-> ->]. cbn. apply (IH s m1); [done|].
      destruct (follows_step _ _ m1 [] _ Hm) as (s1 & [= <-] & Hf'); [|done]. unfold step. by rewrite Em.
    + destruct Hs as (a & -> & ->). destruct (follows_step _ _ (k1 a) [Do e a] _ Hm) as (s1 & Hs1 & Hf').
      { unfold step. rewrite Em. by exists a. }
      rewrite accepts_app, Hs1. by apply (IH s1 (k1 a)).
Qed.
End Follow.
End Runs.
Arguments Act E : clear implicits.
Arguments Do {E X} e a.


(** An automaton that has stopped looking. *)
Lemma follows_sink {E R S} (delta : S -> Act E -> option S) (t : itree E R) s :
  (forall a, delta s a = Some s) -> Follows delta s t (fun _ s' => s' = s).
Proof. intros Hd l u _. exists s. split; [|done]. induction l as [|a l IH]; [done|]. cbn. by rewrite Hd. Qed.

(** Trees on which the automaton does not move. *)
Section Quiet.
Context {E : Type -> Type} {S : Type} (delta : S -> Act E -> option S).
Definition Quiet {R} (t : itree E R) : Prop := forall s, Follows delta s t (fun _ s' => s' = s).

Lemma still_ret {R} (r : R) : Quiet (Ret r).
Proof. intros s. by apply follows_ret. Qed.
Lemma quiet_trigger {X} (e : E X) : (forall s a, delta s (Do e a) = Some s) -> Quiet (ITree.trigger e).
Proof. intros Hd s. apply follows_trigger. intros a. exists s. by rewrite Hd. Qed.
Lemma still_bind {A R} (m : itree E A) (k : A -> itree E R) : Quiet m -> (forall a, Quiet (k a)) -> Quiet (ITree.bind m k).
Proof. intros Hm Hk s. eapply follows_bind; [apply Hm|]. intros a s' ->. apply Hk. Qed.
Lemma quiet_iter {I R} (f : I -> itree E (I + R)) i : (forall i, Quiet (f i)) -> Quiet (ITree.iter f i).
Proof.
  intros Hf s. apply (follows_iter _ _ (fun _ s' => s' = s)); [|done]. intros i' s' ->.
  eapply follows_mono; [apply Hf|]. by intros [i2|r] s' ->.
Qed.
End Quiet.

Create HintDb proc discriminated.
Ltac quiet :=
  repeat (cbv beta iota zeta;
  lazymatch goal with
  | |- forall _, _ => intros ?
  | |- Quiet _ (ITree.bind _ _) => apply still_bind
  | |- Quiet _ (Ret _) => apply still_ret
  | |- Quiet _ (ITree.iter _ _) => apply quiet_iter
  | |- Quiet _ (ITree.trigger _) => apply quiet_trigger; reflexivity
  | |- Quiet _ (match ?x with _ => _ end) => destruct x
  | |- Quiet _ _ => solve [auto with proc]
  end).

(** ** Running a tree against an environment that answers *)

(** [n] steps, with the actions made. *)
Fixpoint play {E R W} (h : forall X, E X -> W -> X * W) (n : nat) (t : itree E R) (w : W) : list (Act E) * itree E R * W :=
  match n with
  | O => ([], t, w)
  | S n' =>
      match observe t with
      | RetF _ => ([], t, w)
      | TauF u => play h n' u w
      | VisF e k => let '(a, w1) := h _ e w in
                    let '(l, u, w2) := play h n' (k a) w1 in (Do e a :: l, u, w2)
      end
  end.

Lemma play_runs {E R W} h n (t : itree E R) (w : W) l u w' : play h n t w = (l, u, w') -> runs t l u.
Proof.
  revert t w l. induction n as [|n IH]; intros t w l; cbn; [intros [= <- <- <-]; constructor|].
  destruct (observe t) as [r|t1|X e k] eqn:Et.
  - intros [= <- <- <-]. constructor.
  - intros Hp. apply (runs_step t [] t1); [unfold step; by rewrite Et|]. by eapply IH.
  - destruct (h X e w) as [a w1]. destruct (play h n (k a) w1) as [[l1 u1] w2] eqn:Ep. intros [= <- <- <-].
    apply (runs_step t [Do e a] (k a)); [unfold step; rewrite Et; by exists a|]. by eapply IH.
Qed.
