(* ===== verification/Sys.v ===== *)
(** * Requests of the guest's processes and of the host's command channel

    [Sys] has one event per request to the kernel (or, on the host, to the
    Virtualization framework).  A descriptor is a number.  The loops that
    Rust's standard library runs over [read] and [write] follow. *)

From ITree Require Import ITree.
From S2P Require Import Prelude RustStr Utf8 Proc.
Local Open Scope string_scope.
Local Open Scope Z_scope.
Local Open Scope proc_scope.

(** ** Events *)

(** [io::ErrorKind], as far as the code looks at it. *)
Inductive Kind := Interrupted | WouldBlockKind | TimedOut | NotFound | OtherKind.
Record SysError := { kind : Kind; text : string }.

(** [ExitStatus]: neither exited nor killed is possible in principle. *)
Inductive ExitStatus := Exited (code : Z) | Signaled (signal : Z) | OtherStatus.

(** Where a child's standard input comes from. *)
Inductive Stdio := Inherit | Null | Piped.

(** The threads of the guest agent and of the host. *)
Inductive Thread :=
| ShimThread
| ShimClient (client : Z)
| StdinPump (stream child_stdin : Z)
| HostPump (stdin stream : Z).

Inductive Sys : Type -> Type :=
(* files and mounts *)
| Exists (p : string) : Sys bool
| MkdirAll (p : string) : Sys (Result unit string)
| Mount (source : option string) (target : string) (fstype : option string) (bind : bool) : Sys (Result unit string)
| Chroot (p : string) : Sys (Result unit string)
| Chdir (p : string) : Sys (Result unit string)
| OpenWriteOnly (p : string) : Sys (Result Z SysError)
| Dup2 (fd to : Z) : Sys (Result unit string)
| ReadToString (p : string) : Sys (Result string string)
(* sockets *)
| VsockSocket : Sys (Result Z string)
| VsockBind (fd cid port : Z) : Sys (Result unit string)
| Listen (fd backlog : Z) : Sys (Result unit string)
| Accept (fd : Z) : Sys (Result Z string)
| VsockConnect (fd cid port : Z) : Sys (Result unit string)
| TcpBind (addr : string) (port : Z) : Sys (Result Z string)
| TcpConnect (addr : string) (port : Z) : Sys (Result Z string)
| ReadTimeout (fd : Z) (seconds : option Z) : Sys (Result unit string)
| Read (fd n : Z) : Sys (Result string SysError)
| ReadMore (fd : Z) : Sys (Result string SysError)
| Write (fd : Z) (bytes : string) : Sys (Result Z SysError)
| ShutdownWrite (fd : Z) : Sys unit
| Dup (fd : Z) : Sys (Result Z string)
| Close (fd : Z) : Sys unit
(* processes and threads *)
| SpawnShell (script : string) (stdin : Stdio) : Sys (Result (Z * option Z) string)
| KillChild (pid : Z) : Sys unit
| WaitChild (pid : Z) : Sys (Result ExitStatus string)
| StartThread (t : Thread) : Sys unit
| AwaitPump (seconds : Z) : Sys (option string)
| Sleep (micros : Z) : Sys unit
| GetEnv (name : string) : Sys (option string)
| FlushStd (stderr : bool) : Sys unit
| SyncDisks : Sys unit
| PowerOff : Sys (Result unit string)
| Park : Sys unit
(* the host's framework: [None] without a VM that has a socket device *)
| ConnectPort (port : Z) : Sys (option (Result Z string)).

Abbreviation P := (itree Sys).
Definition sys {X} (e : Sys X) : P X := ITree.trigger e.

(** A value whose drop closes [fd] at the end of the scope. *)
Definition closing {A} (fd : Z) (m : P A) : P A :=
  let* r := m in
  do* sys (Close fd) in
  Ret r.
(** The same when success moves it out of the scope. *)
Definition closing_on_error {A} (fd : Z) (m : P (Result A string)) : P (Result A string) :=
  let* r := m in
  match r with
  | Ok a => Ret (Ok a)
  | Err e => do* sys (Close fd) in Ret (Err e)
  end.
(** [.map_err(|e| format!("\{what\}: \{e\}"))] *)
Definition named {A} (what : string) (m : P (Result A string)) : P (Result A string) :=
  let* r := m in
  Ret (map_err (fun e => what +:+ ": " +:+ e) r).
Definition named_io {A} (what : string) (m : P (Result A SysError)) : P (Result A string) :=
  let* r := m in
  Ret (map_err (fun e => what +:+ ": " +:+ text e) r).

(** ** Loops over read and write *)

Fixpoint str_take (n : nat) (s : string) : string :=
  match n, s with
  | S n', String a s' => String a (str_take n' s')
  | _, _ => ""
  end.
Fixpoint str_drop (n : nat) (s : string) : string :=
  match n, s with
  | S n', String _ s' => str_drop n' s'
  | _, _ => s
  end.

Definition unexpected_eof : SysError := {| kind := OtherKind; text := "failed to fill whole buffer" |}.
Definition write_zero : SysError := {| kind := OtherKind; text := "failed to write whole buffer" |}.
Definition is_interrupted (e : SysError) : bool := match kind e with Interrupted => true | _ => false end.

(** What one [read] with room for [n] bytes delivers. *)
Definition filled (n : Z) (s : string) : string := str_take (Z.to_nat n) s.

(** [Read::read_exact] *)
Definition read_exact (fd n : Z) : P (Result string SysError) :=
  ITree.iter (fun got : string =>
    if n <=? len got then Ret (inr (Ok got))
    else
      let* r := sys (Read fd (n - len got)) in
      Ret match r with
          | Ok s => if str_is_empty (filled (n - len got) s) then inr (Err unexpected_eof)
                    else inl (got +:+ filled (n - len got) s)
          | Err e => if is_interrupted e then inl got else inr (Err e)
          end) "".

(** [Write::write_all] *)
Definition write_all (fd : Z) (bytes : string) : P (Result unit SysError) :=
  ITree.iter (fun rest : string =>
    if str_is_empty rest then Ret (inr (Ok tt))
    else
      let* r := sys (Write fd rest) in
      Ret match r with
          | Ok n => if n =? 0 then inr (Err write_zero) else inl (str_drop (Z.to_nat n) rest)
          | Err e => if is_interrupted e then inl rest else inr (Err e)
          end) bytes.

(** [Read::read_to_end] and [Read::read_to_string] *)
Definition read_to_end (fd : Z) : P (Result string SysError) :=
  ITree.iter (fun got : string =>
    let* r := sys (ReadMore fd) in
    Ret match r with
        | Ok s => if str_is_empty s then inr (Ok got) else inl (got +:+ s)
        | Err e => if is_interrupted e then inl got else inr (Err e)
        end) "".
Definition read_to_string (fd : Z) : P (Result string SysError) :=
  let* r := read_to_end fd in
  Ret match r with
      | Ok s => if utf8_valid s then Ok s else Err {| kind := OtherKind; text := "stream did not contain valid UTF-8" |}
      | Err e => Err e
      end.

(** ** Little-endian numbers *)

(** [to_le_bytes] and [u32::from_le_bytes]. *)
Definition byte_char (z : Z) : Ascii.ascii := ch (Z.to_nat (z mod 256)).
Definition le32 (z : Z) : string :=
  String (byte_char z) (String (byte_char (z / 256)) (String (byte_char (z / 65536)) (String (byte_char (z / 16777216)) ""))).
Definition of_le32 (s : string) : Z :=
  match s with
  | String a (String b (String c (String d _))) =>
      byte_of a + 256 * byte_of b + 65536 * byte_of c + 16777216 * byte_of d
  | _ => 0
  end.

#[global] Arguments le32 : simpl never.

Lemma byte_of_char z : byte_of (byte_char z) = z mod 256.
Proof. pose proof (Z.mod_pos_bound z 256 ltac:(lia)). unfold byte_char. rewrite byte_of_ch by lia. lia. Qed.
Lemma of_le32_le32 z s : of_le32 (le32 z +:+ s) = wrap 32 z.
Proof. unfold le32. cbn [String.append of_le32]. rewrite !byte_of_char. unfold wrap. Z.div_mod_to_equations. lia. Qed.

(** ** Taking and dropping bytes *)

Lemma take_drop_str n s : str_take n s +:+ str_drop n s = s.
Proof. revert s. induction n as [|n IH]; intros [|a s]; cbn; [done..|]. by rewrite IH. Qed.
Lemma take_all_str n s : (String.length s <= n)%nat -> str_take n s = s.
Proof. revert s. induction n as [|n IH]; intros [|a s] Hs; cbn in *; [done|lia|done|]. by rewrite IH by lia. Qed.
Lemma take_length_str n s : (String.length (str_take n s) <= n)%nat.
Proof. revert s. induction n as [|n IH]; intros [|a s]; cbn; [lia..|]. specialize (IH s). lia. Qed.
Lemma take_app_str s t : str_take (String.length s) (s +:+ t) = s.
Proof. induction s as [|a s IH]; cbn; [by destruct t|]. by rewrite IH. Qed.
Lemma drop_app_str s t : str_drop (String.length s) (s +:+ t) = t.
Proof. induction s as [|a s IH]; cbn; [by destruct t|done]. Qed.
Lemma filled_len n s : 0 <= n -> len (filled n s) <= n.
Proof. intros. unfold filled, len. pose proof (take_length_str (Z.to_nat n) s). lia. Qed.
Lemma filled_all n s : len s <= n -> filled n s = s.
Proof. intros. unfold filled. apply take_all_str. unfold len in *. lia. Qed.

(** ** Rules for the loops *)

(** Writing a buffer, for an automaton that counts what has gone out. *)
Lemma follows_write_all {S} (delta : S -> Act Sys -> option S) fd bytes (at_ : string -> S) :
  (forall w rest r, w +:+ rest = bytes ->
    delta (at_ w) (Do (Write fd rest) r) = Some (at_ match r with Ok n => w +:+ str_take (Z.to_nat n) rest | Err _ => w end)) ->
  Follows delta (at_ "") (write_all fd bytes) (fun r p => exists w, p = at_ w /\ match r with Ok _ => w = bytes | Err _ => True end).
Proof.
  intros Hd. unfold write_all. apply (follows_iter _ _ (fun rest p => exists w, p = at_ w /\ w +:+ rest = bytes)); [|by exists ""].
  intros [|a rest] p (w & -> & Hw); cbn [str_is_empty].
  { apply follows_ret. exists w. split; [done|]. by rewrite app_empty_r in Hw. }
  apply follows_event. intros r. eexists. split; [by apply Hd|]. apply follows_ret. destruct r as [n|e].
  - destruct (n =? 0); [eauto|]. eexists. split; [done|]. by rewrite app_assoc_s, take_drop_str.
  - destruct (is_interrupted e); eauto.
Qed.

(** Reading up to the end, for an automaton that keeps what has come in. *)
Lemma follows_read_to_end {S} (delta : S -> Act Sys -> option S) fd (at_ : string -> bool -> S) :
  (forall got r, delta (at_ got false) (Do (ReadMore fd) r) = Some match r with
    | Ok s => at_ (got +:+ s) (str_is_empty s) | Err _ => at_ got false end) ->
  Follows delta (at_ "" false) (read_to_end fd) (fun r p => match r with Ok s => p = at_ s true | Err _ => exists s, p = at_ s false end).
Proof.
  intros Hd. unfold read_to_end. apply (follows_iter _ _ (fun got p => p = at_ got false)); [|done]. intros got p ->.
  apply follows_event. intros r. eexists. split; [by apply Hd|]. apply follows_ret. destruct r as [[|a s]|e]; cbn [str_is_empty].
  - by rewrite app_empty_r.
  - done.
  - destruct (is_interrupted e); eauto.
Qed.

(** An event whose error is named. *)
Lemma named_event {S A R} (delta : S -> Act Sys -> option S) what p (e : Sys (Result A string)) (k : Result A string -> P R) Q :
  (forall r, exists p1, delta p (Do e r) = Some p1 /\ Follows delta p1 (k (map_err (fun e => what +:+ ": " +:+ e) r)) Q) ->
  Follows delta p (ITree.bind (named what (sys e)) k) Q.
Proof.
  intros Hk. set (f := fun r : Result A string => Ret (map_err (fun e => what +:+ ": " +:+ e) r) : P (Result A string)).
  apply (follows_observe _ _ (Vis e (fun r => ITree.bind (ITree.bind (Ret r) f) k))); [done|]. apply follows_vis. intros r.
  destruct (Hk r) as (p1 & Hp & Hf). exists p1. split; [done|]. by apply (follows_observe _ p1 (k (map_err (fun e => what +:+ ": " +:+ e) r))).
Qed.

(** One rule for each construct of a tree. *)
Ltac follow_step :=
  cbv beta iota zeta;
  lazymatch goal with
  | |- Follows _ _ (ITree.bind (sys _) _) _ => apply follows_event; intros ?
  | |- Follows _ _ (ITree.bind (named _ (sys _)) _) _ => apply named_event; intros ?
  | |- Follows _ _ (ITree.bind _ _) _ => eapply follows_bind
  | |- Follows _ _ (Ret _) _ => apply follows_ret
  | |- Follows _ _ (sys _) _ => apply follows_trigger; intros ?
  end.
