(* ===== verification/Agent.v ===== *)
(** * The guest agent

    guest/hephaestus-agent/src/main.rs: the init process of a guest that runs
    one command for the host, and the shim that forwards the link-local
    metadata address to the host over vsock.  Every function is a tree over
    [Sys.Sys]; loops are the source's loops.  Threads are started by an event
    and their bodies are [thread_body]. *)

From ITree Require Import ITree.
From S2P Require Import Prelude RustStr Utf8 Proc Sys.
Local Open Scope string_scope.
Local Open Scope Z_scope.
Local Open Scope proc_scope.
Local Open Scope list_scope.

Abbreviation AgentResult A := (P (Result A string)).

Definition COMMAND_PORT : Z := 1234.
Definition MMDS_VSOCK_PORT : Z := 16992.
Definition MMDS_LINKLOCAL_ADDR : string := "169.254.169.254".
Definition MMDS_LINKLOCAL_PORT : Z := 80.
Definition VMADDR_CID_HOST : Z := 2.
Definition VMADDR_CID_ANY : Z := u32_max.

(** [\{:?\}] of an [Option<&str>] and of a [Vec<u8>]. *)
Definition debug_option (o : option string) : string :=
  match o with Some s => "Some(" +:+ debug_str s +:+ ")" | None => "None" end.
Definition debug_bytes (s : string) : string := "[" +:+ join ", " (to_dec <$> bytes s) +:+ "]".

(** ** Mounts *)

Definition mkdir_p (path : string) : AgentResult unit :=
  let* there := sys (Exists path) in
  if there then Ret (Ok tt) else named ("mkdir -p " +:+ path) (sys (MkdirAll path)).

Definition do_mount (source : option string) (target : string) (fstype : option string) (bind : bool) : AgentResult unit :=
  named ("mount(" +:+ target +:+ ", fs=" +:+ debug_option fstype +:+ ")") (sys (Mount source target fstype bind)).

Definition mount_essentials : AgentResult unit :=
  try* _ := mkdir_p "/proc" in
  try* _ := mkdir_p "/sys" in
  try* _ := mkdir_p "/dev" in
  try* _ := mkdir_p "/tmp" in
  try* _ := do_mount (Some "proc") "/proc" (Some "proc") false in
  do* do_mount (Some "sys") "/sys" (Some "sysfs") false in
  do* do_mount (Some "dev") "/dev" (Some "devtmpfs") false in
  do* do_mount (Some "tmpfs") "/tmp" (Some "tmpfs") false in
  Ret (Ok tt).

Definition mount_rootfs (source target : string) : AgentResult unit :=
  try* _ := mkdir_p target in
  named ("mounting rootfs " +:+ source +:+ " → " +:+ target +:+ " as ext4")
    (do_mount (Some source) target (Some "ext4") false).

Fixpoint mkdirs (new_root : string) (subs : list string) : AgentResult unit :=
  match subs with
  | [] => Ret (Ok tt)
  | sub :: rest =>
      try* _ := mkdir_p (new_root +:+ "/" +:+ sub) in
      mkdirs new_root rest
  end.
Definition enter_rootfs (new_root : string) : AgentResult unit :=
  try* _ := mkdirs new_root ["proc"; "sys"; "dev"; "tmp"] in
  do* do_mount (Some "/proc") (new_root +:+ "/proc") None true in
  do* do_mount (Some "/sys") (new_root +:+ "/sys") None true in
  do* do_mount (Some "/dev") (new_root +:+ "/dev") None true in
  do* do_mount (Some "/tmp") (new_root +:+ "/tmp") None true in
  try* _ := named ("chroot(" +:+ new_root +:+ ")") (sys (Chroot new_root)) in
  named "chdir(/)" (sys (Chdir "/")).

Definition redirect_stderr_to_hvc1 : AgentResult unit :=
  let* r := sys (OpenWriteOnly "/dev/hvc1") in
  match r with
  | Ok hvc1 => closing hvc1 (named "dup2(/dev/hvc1, 2)" (sys (Dup2 hvc1 2)))
  | Err e => Ret match kind e with
                 | NotFound => Ok tt
                 | _ => Err ("open /dev/hvc1: " +:+ text e)
                 end
  end.

(** ** The command channel *)

Definition vsock_listen (port : Z) : AgentResult Z :=
  try* fd := named "vsock socket" (sys VsockSocket) in
  closing_on_error fd
    (try* _ := named ("vsock bind port " +:+ to_dec port) (sys (VsockBind fd VMADDR_CID_ANY port)) in
     try* _ := named "vsock listen" (sys (Listen fd 1)) in
     Ret (Ok fd)).

Definition MAX_COMMAND : Z := 2 ^ 20.

(** The only caller treats every error alike; the last one is cut short. *)
Definition read_command (stream : Z) : AgentResult string :=
  try* len_buf := named_io "reading command length" (read_exact stream 4) in
  let length := of_le32 len_buf in
  if MAX_COMMAND <? length then
    Ret (Err ("command length " +:+ to_dec length +:+ " exceeds 1 MiB sanity cap"))
  else
    try* buf := named_io "reading command body" (read_exact stream length) in
    Ret (if utf8_valid buf then Ok buf else Err "command is not UTF-8").

(** Connections without a command are dropped. *)
Definition accept_command_loop (listen_fd : Z) : AgentResult (string * Z) :=
  ITree.iter (fun _ : unit =>
    let* r := named "vsock accept" (sys (Accept listen_fd)) in
    match r with
    | Err e => Ret (inr (Err e))
    | Ok stream =>
        do* sys (ReadTimeout stream (Some 30)) in
        let* cmd := read_command stream in
        match cmd with
        | Ok (String _ _ as cmd) =>
            do* sys (ReadTimeout stream None) in
            Ret (inr (Ok (cmd, stream)))
        | _ => do* sys (Close stream) in Ret (inl tt)
        end
    end) tt.

(** [code] is an [i32]; flushing a socket does nothing. *)
Definition write_exit_code (stream code : Z) : AgentResult unit :=
  named_io "writing exit code" (write_all stream (le32 code)).

(** ** The metadata service *)

Definition fetch_mmds_vsock_response_for_request (request : string) : AgentResult string :=
  try* fd := named "mmds vsock socket" (sys VsockSocket) in
  closing fd
    (try* _ := named "mmds vsock connect" (sys (VsockConnect fd VMADDR_CID_HOST MMDS_VSOCK_PORT)) in
     try* _ := named "mmds vsock set read timeout" (sys (ReadTimeout fd (Some 5))) in
     try* _ := named_io "mmds request write" (write_all fd request) in
     named_io "mmds response read" (read_to_end fd)).

Definition crlf : string := String CR nl.
Definition http_lines (ls : list string) : string := foldr (fun l r => l +:+ crlf +:+ r) crlf ls.

Definition fetch_mmds_vsock_response : AgentResult string :=
  fetch_mmds_vsock_response_for_request
    (http_lines ["GET / HTTP/1.1"; "Host: mmds"; "Accept: application/json"; "Connection: close"]).

Definition test_mmds_vsock (needle : string) : AgentResult unit :=
  try* response := fetch_mmds_vsock_response in
  let response := from_utf8_lossy response in
  Ret (if contains needle response then Ok tt
       else Err ("mmds response did not contain " +:+ debug_str needle +:+ ": " +:+ debug_str response)).

(** [Display] of an [ExitStatus] on Linux. *)
Definition signal_names : list string :=
  ["SIGHUP"; "SIGINT"; "SIGQUIT"; "SIGILL"; "SIGTRAP"; "SIGABRT"; "SIGBUS"; "SIGFPE"; "SIGKILL"; "SIGUSR1"; "SIGSEGV";
   "SIGUSR2"; "SIGPIPE"; "SIGALRM"; "SIGTERM"; "SIGSTKFLT"; "SIGCHLD"; "SIGCONT"; "SIGSTOP"; "SIGTSTP"; "SIGTTIN";
   "SIGTTOU"; "SIGURG"; "SIGXCPU"; "SIGXFSZ"; "SIGVTALRM"; "SIGPROF"; "SIGWINCH"; "SIGIO"; "SIGPWR"; "SIGSYS"].
Definition signal_name (signal : Z) : string :=
  match (if signal <=? 0 then None else nth_error signal_names (Z.to_nat (signal - 1))) with
  | Some n => " (" +:+ n +:+ ")"
  | None => ""
  end.
Definition show_i32 (z : Z) : string := if z <? 0 then "-" +:+ to_dec (- z) else to_dec z.
Definition show_status (s : ExitStatus) : string :=
  match s with
  | Exited c => "exit status: " +:+ show_i32 c
  | Signaled n => "signal: " +:+ show_i32 n +:+ signal_name n
  | OtherStatus => "unrecognised wait status"
  end.

Definition linklocal_script : string := unlines [
  "";
  "        (ip link set lo up 2>/dev/null || ifconfig lo up 2>/dev/null || true)";
  "        (ip addr add " +:+ MMDS_LINKLOCAL_ADDR +:+ "/32 dev lo 2>/dev/null || \";
  "         ifconfig lo:heph " +:+ MMDS_LINKLOCAL_ADDR +:+ " netmask 255.255.255.255 up 2>/dev/null || true)"] +:+ "    ".

(** [Command::status]: spawn and wait. *)
Definition configure_linklocal_loopback : AgentResult unit :=
  try* status := named "configure link-local loopback"
    (try* (pid, _) := sys (SpawnShell linklocal_script Inherit) in sys (WaitChild pid)) in
  Ret match status with
      | Exited 0 => Ok tt
      | s => Err ("configure link-local loopback exited " +:+ show_status s)
      end.

Definition split_ascii_ws (s : string) : list string :=
  let ws a := existsb (Z.eqb (byte_of a)) [32; 9; 10; 12; 13] in
  let fix words (word s : string) : list string :=
    let flush := if str_is_empty word then [] else [word] in
    match s with
    | "" => flush
    | String a s' => if ws a then flush ++ words "" s' else words (word +:+ String a "") s'
    end in
  words "" s.

Definition mmds_linklocal_enabled : P bool :=
  let* v := sys (GetEnv "HEPHAESTUS_MMDS_SHIM") in
  if match v with
     | Some v => existsb (String.eqb v) ["0"; "false"; "off"; "no"]
     | None => false
     end then Ret false
  else
    let* r := sys (ReadToString "/proc/cmdline") in
    let cmdline := default "" (result_ok r) in
    Ret (negb (existsb (fun arg => existsb (String.eqb arg)
      ["hephaestus.mmds=0"; "hephaestus.mmds=off"; "hephaestus.mmds=false";
       "hephaestus.mmds_shim=0"; "hephaestus.mmds_shim=off"; "hephaestus.mmds_shim=false"]) (split_ascii_ws cmdline))).

Definition maybe_start_mmds_linklocal_shim : P unit :=
  let* enabled := mmds_linklocal_enabled in
  if enabled then sys (StartThread ShimThread) else Ret tt.

(** [listener.incoming()] never ends. *)
Definition run_mmds_linklocal_shim : AgentResult unit :=
  try* _ := configure_linklocal_loopback in
  try* listener := named ("bind " +:+ MMDS_LINKLOCAL_ADDR +:+ ":" +:+ to_dec MMDS_LINKLOCAL_PORT)
    (sys (TcpBind MMDS_LINKLOCAL_ADDR MMDS_LINKLOCAL_PORT)) in
  ITree.iter (fun _ : unit =>
    let* conn := sys (Accept listener) in
    match conn with
    | Ok client => do* sys (StartThread (ShimClient client)) in Ret (inl tt)
    | Err _ => Ret (inl tt)
    end) tt.

Definition MAX_HEAD : Z := 16 * 1024.

(** One round of the loop of [read_http_request_head]. *)
Definition read_head_round (client : Z) (request : string) : P (string + Result string string) :=
  let* r := sys (Read client 512) in
  Ret match r with
      | Ok s =>
          let s := filled 512 s in
          let request := request +:+ s in
          if str_is_empty s then inr (Ok request)
          else if contains (crlf +:+ crlf) request || (MAX_HEAD <=? len request) then inr (Ok request)
          else inl request
      | Err e =>
          match kind e with
          | WouldBlockKind | TimedOut => inr (Ok request)
          | _ => inr (Err ("mmds tcp request read: " +:+ text e))
          end
      end.
Definition default_request : string :=
  http_lines ["GET / HTTP/1.1"; "Host: 169.254.169.254"; "Connection: close"].
Definition read_http_request_head (client : Z) : AgentResult string :=
  try* request := ITree.iter (read_head_round client) "" in
  Ret (Ok (if str_is_empty request then default_request else request)).

Definition handle_mmds_linklocal_client (client : Z) : AgentResult unit :=
  closing client
    (try* _ := named "mmds tcp set timeout" (sys (ReadTimeout client (Some 2))) in
     try* request := read_http_request_head client in
     try* response := fetch_mmds_vsock_response_for_request request in
     named_io "mmds tcp response write" (write_all client response)).

Definition fetch_mmds_linklocal_response : AgentResult string :=
  try* stream := named ("connect " +:+ MMDS_LINKLOCAL_ADDR +:+ ":" +:+ to_dec MMDS_LINKLOCAL_PORT)
    (sys (TcpConnect MMDS_LINKLOCAL_ADDR MMDS_LINKLOCAL_PORT)) in
  closing stream
    (try* _ := named_io "link-local request write" (write_all stream
       (http_lines ["GET / HTTP/1.1"; "Host: 169.254.169.254"; "Accept: application/json"; "Connection: close"])) in
     named_io "link-local response read" (read_to_string stream)).

Definition test_mmds_linklocal (needle : string) : AgentResult unit :=
  let* first := fetch_mmds_linklocal_response in
  try* response :=
    match first with
    | Ok response => Ret (Ok response)
    | Err first_err =>
        do* sys (StartThread ShimThread) in
        do* sys (Sleep 50000) in
        let* retry := fetch_mmds_linklocal_response in
        Ret (map_err (fun retry_err => retry_err +:+ "; initial attempt failed with: " +:+ first_err) retry)
    end in
  Ret (if contains needle response then Ok tt
       else Err ("link-local MMDS response did not contain " +:+ debug_str needle +:+ ": " +:+ debug_str response)).

Definition test_vsock_echo (port : Z) (expected : string) : AgentResult unit :=
  try* listen_fd := vsock_listen port in
  closing listen_fd
    (try* stream := named "echo accept" (sys (Accept listen_fd)) in
     closing stream
       (try* payload := named_io "echo payload read" (read_exact stream (len expected)) in
        if negb (String.eqb payload expected) then
          Ret (Err ("echo payload mismatch: got " +:+ debug_bytes payload +:+ ", expected " +:+ debug_bytes expected))
        else named_io "echo payload write" (write_all stream payload))).

(** [args.splitn(3, ' ')]: the first part is always there. *)
Definition test_vsock_suite (args : string) : AgentResult unit :=
  match split_once (ch 32) args with
  | None => Ret (Err "missing echo port")
  | Some (needle, rest) =>
      let '(port, token) := match split_once (ch 32) rest with Some (p, t) => (p, Some t) | None => (rest, None) end in
      match parse_uint u32_max port with
      | Err e => Ret (Err ("invalid echo port: " +:+ parse_int_error e))
      | Ok echo_port =>
          match token with
          | None => Ret (Err "missing echo token")
          | Some token =>
              try* _ := test_mmds_vsock needle in
              try* _ := test_mmds_linklocal needle in
              test_vsock_echo echo_port token
          end
      end
  end.

(** ** Running the command *)

Definition exit_code (status : ExitStatus) : Z :=
  match status with
  | Exited code => code
  | Signaled signal => 128 + signal
  | OtherStatus => 128
  end.

(** [.map(|()| 0).or_else(|err| Ok(1))] *)
Definition as_code (m : AgentResult unit) : AgentResult Z :=
  let* r := m in
  Ret (Ok (if is_ok r then 0 else 1)).

Definition stdin_prefix : string := "__hephaestus_stdin__".
Definition wait_shell (pid : Z) : AgentResult Z :=
  try* status := named "wait /bin/sh" (sys (WaitChild pid)) in
  Ret (Ok (exit_code status)).

Definition run_shell (cmd : string) (stream : Z) : AgentResult Z :=
  let '(cmd, forward_stdin) := match strip_prefix stdin_prefix cmd with
                               | Some rest => (rest, true)
                               | None => (cmd, false)
                               end in
  try* (child, stdin) := named "exec /bin/sh" (sys (SpawnShell cmd (if forward_stdin then Piped else Null))) in
  match (if forward_stdin then stdin else None) with
  | Some child_stdin =>
      let* r := sys (Dup stream) in
      match r with
      | Err e =>
          do* sys (KillChild child) in
          do* sys (Close child_stdin) in
          Ret (Err ("clone stdin stream: " +:+ e))
      | Ok stream_clone =>
          do* sys (StartThread (StdinPump stream_clone child_stdin)) in
          wait_shell child
      end
  | None => wait_shell child
  end.

Definition run_command (cmd : string) (stream : Z) : AgentResult Z :=
  match strip_prefix "__hephaestus_test_mmds_vsock " cmd with
  | Some needle => as_code (test_mmds_vsock needle)
  | None =>
      match strip_prefix "__hephaestus_test_mmds_linklocal " cmd with
      | Some needle => as_code (test_mmds_linklocal needle)
      | None =>
          match strip_prefix "__hephaestus_test_vsock_suite " cmd with
          | Some args => as_code (test_vsock_suite args)
          | None => run_shell cmd stream
          end
      end
  end.

(** The thread that copies the host's standard input to the command. *)
Definition stdin_pump (stream child_stdin : Z) : P unit :=
  do* ITree.iter (fun _ : unit =>
    let* r := sys (Read stream 4096) in
    match r with
    | Err _ => Ret (inr tt)
    | Ok s =>
        if str_is_empty (filled 4096 s) then Ret (inr tt)
        else
          let* w := write_all child_stdin (filled 4096 s) in
          Ret (if is_ok w then inl tt else inr tt)
    end) tt in
  do* sys (Close stream) in
  sys (Close child_stdin).

(** ** Shutdown *)

(** [-> !]: the process parks for ever. *)
Definition halt {A} : P A :=
  do* sys (FlushStd false) in
  do* sys (FlushStd true) in
  do* sys SyncDisks in
  do* sys PowerOff in
  ITree.iter (fun _ : unit => do* sys Park in Ret (inl tt)) tt.

Definition run : AgentResult unit :=
  try* _ := mount_essentials in
  try* _ := mount_rootfs "/dev/vda" "/newroot" in
  try* _ := enter_rootfs "/newroot" in
  do* redirect_stderr_to_hvc1 in
  do* maybe_start_mmds_linklocal_shim in
  try* listen_fd := vsock_listen COMMAND_PORT in
  closing listen_fd
    (try* (command, stream) := accept_command_loop listen_fd in
     try* _ := closing stream
       (try* exit_code := run_command command stream in
        write_exit_code stream exit_code) in
     halt).

(** The exit code; as init the process never exits. *)
Definition main (args : list string) : P Z :=
  if match args with _ :: a :: _ => String.eqb a "mmds-shim" | _ => false end then
    let* r := run_mmds_linklocal_shim in
    Ret (if is_ok r then 0 else 1)
  else
    do* run in
    halt.

(** The bodies of the agent's threads; their errors are printed only.  The
    host's pump is no thread of the agent. *)
Definition thread_body (t : Thread) : P unit :=
  match t with
  | ShimThread => do* run_mmds_linklocal_shim in Ret tt
  | ShimClient client => do* handle_mmds_linklocal_client client in Ret tt
  | StdinPump stream child_stdin => stdin_pump stream child_stdin
  | HostPump _ _ => Ret tt
  end.
