(* ===== verification/HostExec.v ===== *)
(** * The host's side of the command channel

    swift/HephaestusBridge/Sources/HephaestusBridge/DirectVZ.swift, the part
    that sends a command to the guest agent and waits for its exit code. *)

From ITree Require Import ITree.
From S2P Require Import Prelude RustStr Utf8 Proc Sys.
Local Open Scope string_scope.
Local Open Scope Z_scope.
Local Open Scope proc_scope.

Definition agentCommandPort : Z := 1234.

(** Swift errors that can be thrown here; [posix] is a [POSIXError],
    [pump] what the pump threw.  A
    [UInt32] of a number that does not fit traps, which ends the process. *)
Inductive VsockError :=
| noSocketDevice
| connectTimedOut (attempts : Z)
| shortRead
| connect (e : string)
| write (e : string)
| read (e : string)
| readTimedOut (seconds : Z)
| posix (e : string)
| pump (e : string)
| trap.

Abbreviation Throws A := (P (Result A VsockError)).

(** A [write] of no bytes is repeated, and [EINTR] is not. *)
Definition writeAll (fd : Z) (bytes : string) : Throws unit :=
  ITree.iter (fun rest : string =>
    if str_is_empty rest then Ret (inr (Ok tt))
    else
      let* n := sys (Write fd rest) in
      Ret match n with
          | Err e => inr (Err (write (text e)))
          | Ok n => inl (str_drop (Z.to_nat n) rest)
          end) bytes.

Definition readAll (fd n : Z) : Throws string :=
  ITree.iter (fun got : string =>
    if n <=? len got then Ret (inr (Ok got))
    else
      let* r := sys (Read fd (n - len got)) in
      Ret match r with
          | Err e =>
              match kind e with
              | Interrupted => inl got
              | WouldBlockKind => inr (Err (readTimedOut 0))
              | _ => inr (Err (read (text e)))
              end
          | Ok s => if str_is_empty (filled (n - len got) s) then inr (Err shortRead)
                    else inl (got +:+ filled (n - len got) s)
          end) "".

Definition setRecvTimeout (fd seconds : Z) : P unit :=
  do* sys (ReadTimeout fd (Some seconds)) in Ret tt.

Definition pumpStdinToVsock (srcFd dstFd : Z) : Throws unit :=
  ITree.iter (fun _ : unit =>
    let* r := sys (Read srcFd 4096) in
    match r with
    | Err e => Ret (if is_interrupted e then inl tt else inr (Err (posix (text e))))
    | Ok s =>
        if str_is_empty (filled 4096 s) then Ret (inr (Ok tt))
        else
          let* w := writeAll dstFd (filled 4096 s) in
          Ret match w with Ok _ => inl tt | Err e => inr (Err e) end
    end) tt.

(** The block that is dispatched for the pump; its error is stored. *)
Definition host_pump (stdinFd fd : Z) : Throws unit :=
  let* r := pumpStdinToVsock stdinFd fd in
  do* sys (ShutdownWrite fd) in
  Ret r.

Definition connectOnce : Throws Z :=
  let* r := sys (ConnectPort agentCommandPort) in
  Ret match r with
      | None => Err noSocketDevice
      | Some (Ok conn) => Ok conn
      | Some (Err e) => Err (connect e)
      end.

(** [n] attempts are left. *)
Fixpoint connect_attempts (n : nat) (lastError : option VsockError) : Throws Z :=
  match n with
  | O => Ret (Err (default (connectTimedOut 50) lastError))
  | S n' =>
      let* r := connectOnce in
      match r with
      | Ok conn => Ret (Ok conn)
      | Err e => do* sys (Sleep 100000) in connect_attempts n' (Some e)
      end
  end.
Definition connectToAgent : Throws Z := connect_attempts 50 None.

(** [Int32(bitPattern:)] of four little-endian bytes. *)
Definition int32_bits (z : Z) : Z := if z <? 2 ^ 31 then z else z - 2 ^ 32.

Definition exchange (fd : Z) (command : string) (forwardStdin : bool) (stdinFd exitReadTimeoutSeconds : Z) : Throws Z :=
  if u32_max <? len command then Ret (Err trap)
  else
    try* _ := writeAll fd (le32 (len command)) in
    try* _ := writeAll fd command in
    do* (if forwardStdin then sys (StartThread (HostPump stdinFd fd)) else Ret tt) in
    do* setRecvTimeout fd exitReadTimeoutSeconds in
    let* r := readAll fd 4 in
    match r with
    | Err (readTimedOut _) => Ret (Err (readTimedOut exitReadTimeoutSeconds))
    | Err e => Ret (Err e)
    | Ok codeBytes =>
        let code := int32_bits (of_le32 codeBytes) in
        if forwardStdin then
          let* err := sys (AwaitPump 5) in
          Ret match err with Some e => Err (pump e) | None => Ok code end
        else Ret (Ok code)
    end.

Definition sendCommandAndAwaitExit (command : string) (forwardStdin : bool) (stdinFd exitReadTimeoutSeconds : Z) : Throws Z :=
  try* connection := connectToAgent in
  closing connection (exchange connection command forwardStdin stdinFd exitReadTimeoutSeconds).
