(* ===== verification/AgentSpec.v ===== *)
(** * What the guest agent promises

    The protocol of the init process as an automaton over its actions, and the
    refinement: every run of [Agent.main] follows it, whatever the kernel
    answers.  The automaton has one connection at a time; a command is run
    once it has been received completely, and its exit code is the only thing
    ever written back. *)

From ITree Require Import ITree.
From S2P Require Import Prelude RustStr Utf8 Proc Sys Agent.
Local Open Scope string_scope.
Local Open Scope Z_scope.
Local Open Scope proc_scope.
Local Open Scope list_scope.

(** A command on the wire: its length and its bytes. *)
Definition frame (cmd : string) : string := le32 (len cmd) +:+ cmd.
#[global] Arguments frame : simpl never.

(** The command that was received, if the bytes are one. *)
Definition received (got : string) : option string :=
  let body := str_drop 4 got in
  if (4 <=? len got) && (len body =? of_le32 got) && (len body <=? MAX_COMMAND) && utf8_valid body && negb (str_is_empty body)
  then Some body else None.

(** The hooks for tests, which are not run by a shell. *)
Definition is_test (cmd : string) : bool :=
  starts_with "__hephaestus_test_mmds_vsock " cmd || starts_with "__hephaestus_test_mmds_linklocal " cmd
  || starts_with "__hephaestus_test_vsock_suite " cmd.
(** What the shell is given, and its standard input. *)
Definition script (cmd : string) : string := default cmd (strip_prefix stdin_prefix cmd).
Definition stdio (cmd : string) : Stdio := if starts_with stdin_prefix cmd then Piped else Null.

#[export] Instance Stdio_eq_dec : EqDecision Stdio.
Proof. solve_decision. Defined.

Inductive Phase :=
| Waiting
| Receiving (fd : Z) (got : string)
| Commanded (fd : Z) (cmd : string)
| Running (fd : Z) (cmd : string) (pid : Z) (pumped : bool)
| Failing (fd : Z)
| Finished (fd : Z) (cmd : string) (pid : Z) (status : ExitStatus) (sent : string)
| Testing
| Leaving
| Synced
| Off.

(** The connection that a phase is about. *)
Definition phase_fd (p : Phase) : option Z :=
  match p with
  | Receiving fd _ | Commanded fd _ | Running fd _ _ _ | Failing fd | Finished fd _ _ _ _ => Some fd
  | _ => None
  end.

Definition agent_step (p : Phase) (a : Act Sys) : option Phase :=
  match p with
  | Testing => Some Testing
  | _ =>
  match a with
  | Do e r =>
    match e in Sys X return X -> option Phase with
    | Accept _ => fun r => match p with
        | Waiting => Some match r with Ok fd => Receiving fd "" | Err _ => Waiting end
        | _ => None
        end
    | Read fd n => fun r => match p with
        | Receiving c got => if fd =? c then Some (Receiving c match r with Ok s => got +:+ filled n s | Err _ => got end) else None
        | _ => None
        end
    | ReadTimeout fd None => fun _ => match p with
        | Receiving c got =>
            match received got with
            | Some cmd => if fd =? c then Some (if is_test cmd then Testing else Commanded c cmd) else None
            | None => None
            end
        | _ => None
        end
    | SpawnShell sh stdin => fun r => match p with
        | Commanded c cmd =>
            if String.eqb sh (script cmd) && bool_decide (stdin = stdio cmd)
            then Some match r with Ok (pid, _) => Running c cmd pid false | Err _ => Failing c end else None
        | _ => None
        end
    | Dup fd => fun _ => match p with
        | Running c cmd _ false => if (fd =? c) && bool_decide (stdio cmd = Piped) then Some p else None
        | _ => None
        end
    | StartThread (StdinPump _ _) => fun _ => match p with Running c cmd pid false => Some (Running c cmd pid true) | _ => None end
    | KillChild pid => fun _ => match p with Running c _ pid' _ => if pid =? pid' then Some (Failing c) else None | _ => None end
    | WaitChild pid => fun r => match p with
        | Running c cmd pid' _ =>
            if pid =? pid' then Some match r with Ok st => Finished c cmd pid st "" | Err _ => Failing c end else None
        | _ => None
        end
    | Write fd bytes => fun r => match p with
        | Finished c cmd pid st sent =>
            if (fd =? c) && String.eqb (sent +:+ bytes) (le32 (exit_code st))
            then Some match r with Ok n => Finished c cmd pid st (sent +:+ str_take (Z.to_nat n) bytes) | Err _ => p end else None
        | _ => None
        end
    | Close fd => fun _ => match p with
        | Waiting | Leaving => Some p
        | Receiving c _ => if fd =? c then Some Waiting else None
        | Failing c => Some (if fd =? c then Leaving else p)
        | Finished c _ _ _ _ => if fd =? c then Some Leaving else None
        | _ => None
        end
    | SyncDisks => fun _ => match p with Waiting | Leaving => Some Synced | _ => None end
    | PowerOff => fun _ => match p with Synced => Some Off | _ => None end
    | Park => fun _ => match p with Off => Some Off | _ => None end
    | ReadMore _ | ShutdownWrite _ | AwaitPump _ | ConnectPort _ | VsockConnect _ _ _ | TcpBind _ _ | TcpConnect _ _ => fun _ => None
    | _ => fun _ => Some p
    end r
  end
  end.

Abbreviation AgentFollows := (Follows agent_step).
Abbreviation AgentQuiet := (Quiet agent_step).

(** ** The parts of the agent *)

(** An event that does not move the automaton. *)
Lemma agent_neutral {X} (e : Sys X) : (forall p a, agent_step p (Do e a) = Some p) -> AgentQuiet (sys e).
Proof. apply quiet_trigger. Qed.
Lemma named_quiet {A} what (m : P (Result A string)) : AgentQuiet m -> AgentQuiet (named what m).
Proof. intros Hm. unfold named. quiet. Qed.
#[local] Hint Resolve named_quiet : proc.
#[local] Hint Extern 5 (Quiet agent_step (sys _)) => apply agent_neutral; intros [] ?; reflexivity : proc.

Lemma mkdir_p_quiet path : AgentQuiet (mkdir_p path).
Proof. unfold mkdir_p. quiet. Qed.
Lemma do_mount_quiet source target fstype bind : AgentQuiet (do_mount source target fstype bind).
Proof. unfold do_mount. quiet. Qed.
#[local] Hint Resolve mkdir_p_quiet do_mount_quiet : proc.
Lemma mount_essentials_quiet : AgentQuiet mount_essentials.
Proof. unfold mount_essentials. quiet. Qed.
Lemma mount_rootfs_quiet source target : AgentQuiet (mount_rootfs source target).
Proof. unfold mount_rootfs. quiet. Qed.
Lemma mkdirs_quiet root subs : AgentQuiet (mkdirs root subs).
Proof. induction subs as [|sub subs IH]; cbn [mkdirs]; quiet. Qed.
#[local] Hint Resolve mkdirs_quiet : proc.
Lemma enter_rootfs_quiet root : AgentQuiet (enter_rootfs root).
Proof. unfold enter_rootfs. quiet. Qed.
Lemma maybe_start_quiet : AgentQuiet maybe_start_mmds_linklocal_shim.
Proof. unfold maybe_start_mmds_linklocal_shim, mmds_linklocal_enabled. quiet. Qed.
#[local] Hint Resolve mount_essentials_quiet mount_rootfs_quiet enter_rootfs_quiet maybe_start_quiet : proc.

(** Quiet parts in a proof about one phase. *)
Lemma follows_quiet {R} p (t : P R) : AgentQuiet t -> AgentFollows p t (fun _ p' => p' = p).
Proof. intros Ht. apply Ht. Qed.

Lemma redirect_follows : AgentFollows Waiting redirect_stderr_to_hvc1 (fun _ p => p = Waiting).
Proof.
  unfold redirect_stderr_to_hvc1, closing. follow_step. exists Waiting. split; [done|]. destruct a as [hvc1|e]; [|by follow_step].
  do 2 (follow_step; exists Waiting; split; [done|]). by follow_step.
Qed.

Lemma vsock_listen_follows port : AgentFollows Waiting (vsock_listen port) (fun _ p => p = Waiting).
Proof.
  unfold vsock_listen, closing_on_error. follow_step. exists Waiting. split; [done|]. destruct r as [fd|e]; cbn [map_err]; [|by follow_step].
  follow_step; [apply follows_quiet; quiet|]. intros [r|e] p ->; [by follow_step|].
  follow_step. exists Waiting. split; [done|]. by follow_step.
Qed.

(** ** Reading the command *)

Lemma len_app_s s t : len (s +:+ t) = len s + len t.
Proof. unfold len. rewrite length_app_s. lia. Qed.
Lemma len_nonneg s : 0 <= len s.
Proof. unfold len. lia. Qed.

Lemma read_exact_follows fd n got0 : 0 <= n ->
  AgentFollows (Receiving fd got0) (read_exact fd n) (fun r p => exists got, p = Receiving fd (got0 +:+ got) /\
    match r with Ok b => b = got /\ len b = n | Err _ => True end).
Proof.
  intros Hn. unfold read_exact.
  apply (follows_iter _ _ (fun got p => p = Receiving fd (got0 +:+ got) /\ len got <= n)); [|by rewrite app_empty_r].
  intros got p [-> Hl]. destruct (Z.leb_spec n (len got)) as [Hd|Hd].
  { follow_step. exists got. split; [done|]. split; [done|lia]. }
  follow_step. cbn. rewrite Z.eqb_refl. eexists. split; [done|]. follow_step. destruct a as [s|e].
  - pose proof (filled_len (n - len got) s ltac:(lia)). destruct (str_is_empty (filled (n - len got) s)).
    + eexists. by rewrite app_assoc_s.
    + rewrite app_assoc_s, len_app_s. split; [done|lia].
  - destruct (is_interrupted e); [done|]. by exists got.
Qed.

Lemma of_le32_app s t : 4 <= len s -> of_le32 (s +:+ t) = of_le32 s.
Proof. intros Hs. by do 4 (destruct s as [|? s]; [unfold len in Hs; cbn in Hs; lia|]). Qed.
Lemma of_le32_nonneg s : 0 <= of_le32 s.
Proof.
  unfold of_le32. do 4 (destruct s as [|? s]; [lia|]). unfold byte_of. lia.
Qed.

Lemma received_frame header body :
  len header = 4 -> len body = of_le32 header -> of_le32 header <= MAX_COMMAND -> utf8_valid body = true -> body <> "" ->
  received (header +:+ body) = Some body.
Proof.
  intros Hh Hb Hm Hu Hn. unfold received. rewrite of_le32_app, len_app_s by lia.
  assert (Hd : str_drop 4 (header +:+ body) = body).
  { rewrite <- (drop_app_str header body) at 2. f_equal. unfold len in Hh. lia. }
  rewrite Hd, Hb, Hu. pose proof (len_nonneg body).
  rewrite (proj2 (Z.leb_le 4 _)), Z.eqb_refl, (proj2 (Z.leb_le _ _)) by lia. by destruct body.
Qed.

Lemma read_named_follows what fd n got0 : 0 <= n ->
  AgentFollows (Receiving fd got0) (named_io what (read_exact fd n)) (fun r p => exists got, p = Receiving fd (got0 +:+ got) /\
    match r with Ok b => b = got /\ len b = n | Err _ => True end).
Proof.
  intros Hn. unfold named_io. follow_step; [by apply read_exact_follows|]. intros r p (got & -> & Hr). follow_step.
  exists got. split; [done|]. by destruct r.
Qed.

Lemma read_command_follows fd :
  AgentFollows (Receiving fd "") (read_command fd) (fun r p => exists got, p = Receiving fd got /\
    match r with Ok cmd => cmd <> "" -> received got = Some cmd | Err _ => True end).
Proof.
  unfold read_command. follow_step; [by apply read_named_follows|]. intros [header|e] p (got & -> & Hr); [|follow_step; eauto].
  destruct Hr as [-> Hh]. cbv zeta. destruct (Z.ltb_spec MAX_COMMAND (of_le32 got)); [follow_step; eauto|].
  follow_step; [apply read_named_follows, of_le32_nonneg|]. intros [body|e] p (got' & -> & Hr); [|follow_step; eauto].
  destruct Hr as [-> Hb]. follow_step. eexists. split; [done|]. destruct (utf8_valid got') eqn:Hu; [|done].
  intros Hn. by apply received_frame.
Qed.

(** ** Serving one command *)

Definition command_phase (fd : Z) (cmd : string) (p : Phase) : Prop :=
  if is_test cmd then p = Testing else p = Commanded fd cmd.

Lemma accept_command_loop_follows l :
  AgentFollows Waiting (accept_command_loop l) (fun r p => match r with
    | Ok (cmd, fd) => command_phase fd cmd p
    | Err _ => p = Waiting
    end).
Proof.
  unfold accept_command_loop. apply (follows_iter _ _ (fun _ p => p = Waiting)); [|done]. intros [] p ->.
  follow_step. eexists. split; [done|]. destruct r as [fd|e]; cbn [map_err]; [|by follow_step].
  follow_step. eexists. split; [done|]. follow_step; [apply read_command_follows|]. intros r p (got & -> & Hr).
  destruct r as [[|c0 cmd]|e].
  2: { follow_step. cbn [agent_step]. rewrite (Hr ltac:(done)), Z.eqb_refl. eexists. split; [done|]. follow_step. unfold command_phase.
       by destruct (is_test _). }
  all: follow_step; cbn [agent_step]; rewrite Z.eqb_refl; eexists; split; [done|]; by follow_step.
Qed.

Lemma write_all_follows fd cmd pid st bytes :
  bytes = le32 (exit_code st) ->
  AgentFollows (Finished fd cmd pid st "") (write_all fd bytes) (fun _ p => exists sent, p = Finished fd cmd pid st sent).
Proof.
  intros ->. eapply follows_mono; [apply (follows_write_all _ _ _ (Finished fd cmd pid st))|].
  - intros w rest r Hw. cbn [agent_step]. rewrite Z.eqb_refl, (proj2 (String.eqb_eq _ _) Hw). by destruct r.
  - intros r p (w & -> & _). eauto.
Qed.

Lemma wait_shell_follows fd cmd pid b :
  AgentFollows (Running fd cmd pid b) (wait_shell pid) (fun r p => match r with
    | Ok code => exists st, p = Finished fd cmd pid st "" /\ code = exit_code st
    | Err _ => p = Failing fd
    end).
Proof.
  unfold wait_shell. follow_step. cbn [agent_step]. rewrite Z.eqb_refl. eexists. split; [done|].
  destruct r as [st|e]; cbn [map_err]; follow_step; eauto.
Qed.

Lemma stdio_script cmd :
  match strip_prefix stdin_prefix cmd with
  | Some rest => script cmd = rest /\ stdio cmd = Piped
  | None => script cmd = cmd /\ stdio cmd = Null
  end.
Proof. unfold script, stdio, starts_with. by destruct (strip_prefix stdin_prefix cmd). Qed.

Lemma run_shell_follows fd cmd :
  AgentFollows (Commanded fd cmd) (run_shell cmd fd) (fun r p => match r with
    | Ok code => exists pid st, p = Finished fd cmd pid st "" /\ code = exit_code st
    | Err _ => p = Failing fd \/ p = Leaving
    end).
Proof.
  unfold run_shell. pose proof (stdio_script cmd) as Hs.
  assert (Hw : forall pid b, AgentFollows (Running fd cmd pid b) (wait_shell pid) (fun r p => match r with
    | Ok code => exists pid st, p = Finished fd cmd pid st "" /\ code = exit_code st
    | Err _ => p = Failing fd \/ p = Leaving
    end)).
  { intros pid b. eapply follows_mono; [apply wait_shell_follows|]. intros [code|e] p Hp; [|by left]. exists pid. done. }
  destruct (strip_prefix stdin_prefix cmd) as [rest|]; destruct Hs as [Hsc Hst].
  - follow_step. cbn [agent_step]. rewrite Hsc, Hst, String.eqb_refl. eexists. split; [done|].
    destruct r as [[pid pipe]|e]; cbn [map_err]; [|follow_step; by left].
    destruct pipe as [child_stdin|]; [|apply Hw].
    follow_step. cbn [agent_step]. rewrite Hst, Z.eqb_refl. eexists. split; [done|]. destruct a as [clone|e].
    + follow_step. eexists. split; [done|]. apply Hw.
    + follow_step. cbn [agent_step]. rewrite Z.eqb_refl. eexists. split; [done|].
      follow_step. cbn [agent_step]. eexists. split; [done|]. follow_step. destruct (child_stdin =? fd); auto.
  - follow_step. cbn [agent_step]. rewrite Hsc, Hst, String.eqb_refl. eexists. split; [done|].
    destruct r as [[pid pipe]|e]; cbn [map_err]; [apply Hw|follow_step; by left].
Qed.

Lemma run_command_follows fd cmd :
  is_test cmd = false ->
  AgentFollows (Commanded fd cmd) (run_command cmd fd) (fun r p => match r with
    | Ok code => exists pid st, p = Finished fd cmd pid st "" /\ code = exit_code st
    | Err _ => p = Failing fd \/ p = Leaving
    end).
Proof.
  unfold is_test, starts_with, run_command. intros Ht.
  destruct (strip_prefix "__hephaestus_test_mmds_vsock " cmd); [done|].
  destruct (strip_prefix "__hephaestus_test_mmds_linklocal " cmd); [done|].
  destruct (strip_prefix "__hephaestus_test_vsock_suite " cmd); [done|]. apply run_shell_follows.
Qed.

(** ** Shutdown, and the whole process *)

Definition may_halt (p : Phase) : Prop := p = Waiting \/ p = Leaving \/ p = Testing.

Lemma halt_follows {A} p : may_halt p -> AgentFollows p (halt (A := A)) (fun _ _ => False).
Proof.
  intros Hp. unfold halt.
  assert (Hpark : forall q, q = Off \/ q = Testing -> AgentFollows q (ITree.iter (fun _ : unit => ITree.bind (sys Park) (fun _ => Ret (inl tt))) tt : P A) (fun _ _ => False)).
  { intros q Hq. apply (follows_iter _ _ (fun _ q' => q' = q)); [|done]. intros [] q' ->. follow_step. exists q.
    split; [by destruct Hq as [-> | ->]|]. by follow_step. }
  destruct Hp as [->|[->| ->]]; do 4 (follow_step; eexists; split; [done|]); apply Hpark; auto.
Qed.

Lemma close_halting p fd : may_halt p -> agent_step p (Do (Close fd) tt) = Some p.
Proof. by intros [->|[->| ->]]. Qed.

(** A part of the agent after which the process can halt. *)
Lemma serve_follows fd cmd p :
  command_phase fd cmd p ->
  AgentFollows p (closing fd (ITree.bind (run_command cmd fd) (fun r => match r with
    | Ok code => write_exit_code fd code
    | Err e => Ret (Err e)
    end))) (fun _ p => may_halt p).
Proof.
  unfold command_phase. destruct (is_test cmd) eqn:Ht; intros ->.
  { eapply follows_mono; [by apply follows_sink|]. intros _ p ->. by right; right. }
  unfold closing.
  eapply (follows_bind _ _ _ _ (fun _ p => (exists pid st sent, p = Finished fd cmd pid st sent) \/ p = Failing fd \/ p = Leaving)).
  { eapply follows_bind; [by apply run_command_follows|]. intros [code|e] p Hp.
    - destruct Hp as (pid & st & -> & ->). unfold write_exit_code, named_io.
      eapply follows_bind; [by apply write_all_follows|]. intros r p (sent & ->). follow_step.
      left. by exists pid, st, sent.
    - follow_step. right. exact Hp. }
  intros r p Hp. follow_step. destruct a. destruct Hp as [(pid & st & sent & ->)|[->| ->]]; cbn [agent_step].
  1,2: rewrite Z.eqb_refl.
  all: eexists; split; [done|]; follow_step; by right; left.
Qed.

Lemma run_follows : AgentFollows Waiting run (fun _ p => may_halt p).
Proof.
  unfold run. follow_step; [apply follows_quiet, mount_essentials_quiet|]. intros [[]|e] p ->; [|follow_step; by left].
  follow_step; [apply follows_quiet, mount_rootfs_quiet|]. intros [[]|e] p ->; [|follow_step; by left].
  follow_step; [apply follows_quiet, enter_rootfs_quiet|]. intros [[]|e] p ->; [|follow_step; by left].
  follow_step; [apply redirect_follows|]. intros _ p ->. follow_step; [apply follows_quiet, maybe_start_quiet|]. intros [] p ->.
  follow_step; [apply vsock_listen_follows|]. intros [listen_fd|e] p ->; [|follow_step; by left].
  unfold closing at 1. eapply (follows_bind _ _ _ _ (fun _ p => may_halt p)).
  - follow_step; [apply accept_command_loop_follows|]. intros [[cmd fd]|e] p Hp; [|follow_step; by left].
    follow_step; [by apply serve_follows|]. intros [[]|e] q Hq; [|by follow_step].
    eapply follows_mono; [by apply halt_follows|done].
  - intros r p Hp. follow_step. destruct a. exists p. split; [by apply close_halting|]. by follow_step.
Qed.

(** C14: The init process of a guest follows its protocol, whatever the kernel
    and the host answer.  It serves one connection at a time; it drops a
    connection that does not deliver a complete command (a length of at most
    1 MiB, that many bytes, valid UTF-8, not empty) and waits for the next; it
    starts exactly one shell, with exactly the command received; it writes
    nothing to the host but the four bytes of the exit code of that shell, and
    only after waiting for it; and it never returns: on every path it
    synchronizes the disks, then powers off, then parks.  (The hooks for tests
    are exempt.) *)
Theorem agent_follows_protocol (args : list string) :
  nth_error args 1 <> Some "mmds-shim" -> AgentFollows Waiting (main args) (fun _ _ => False).
Proof.
  intros Ha. unfold main.
  assert (Hs : match args with _ :: a :: _ => String.eqb a "mmds-shim" | _ => false end = false).
  { destruct args as [|a0 [|a args]]; [done..|]. apply String.eqb_neq. intros ->. by apply Ha. }
  rewrite Hs. follow_step; [apply run_follows|]. intros r p Hp. by apply halt_follows.
Qed.

(** A kernel and a host for a concrete run: the host's bytes are read one by
    one, the command exits with 3, everything else succeeds. *)
Module DemoAgent.
Definition answer {X} (e : Sys X) (input : string) : X * string :=
  match e in Sys X return X * string with
  | Read _ _ => match input with String a rest => (Ok (String a ""), rest) | "" => (Ok "", "") end
  | ReadMore _ => (Ok "", input)
  | Write _ b => (Ok (len b), input)
  | OpenWriteOnly _ => (Ok 3, input)
  | VsockSocket => (Ok 4, input)
  | Accept _ => (Ok 5, input)
  | Dup _ | TcpBind _ _ | TcpConnect _ _ => (Ok 6, input)
  | SpawnShell _ _ => (Ok (7, None), input)
  | WaitChild _ => (Ok (Exited 3), input)
  | Exists _ => (true, input)
  | ReadToString _ => (Ok "", input)
  | GetEnv _ | AwaitPump _ => (None, input)
  | ConnectPort _ => (None, input)
  | MkdirAll _ | Mount _ _ _ _ | Chroot _ | Chdir _ | Dup2 _ _ | VsockBind _ _ _ | Listen _ _ | VsockConnect _ _ _
  | ReadTimeout _ _ | PowerOff => (Ok tt, input)
  | Close _ | KillChild _ | StartThread _ | Sleep _ | FlushStd _ | SyncDisks | Park | ShutdownWrite _ => (tt, input)
  end.
End DemoAgent.

Lemma agent_follows_protocol_witness :
  let '(l, u, _) := play (@DemoAgent.answer) 200 (main ["init"]) (frame "exit 3") in
  accepts agent_step Waiting l = Some Off /\
  exists p, accepts agent_step Waiting l = Some p /\ (forall r, observe u = RetF r -> False).
Proof.
  destruct (play (@DemoAgent.answer) 200 (main ["init"]) (frame "exit 3")) as [[l u] w] eqn:E. split.
  - replace l with (fst (fst (play (@DemoAgent.answer) 200 (main ["init"]) (frame "exit 3")))) by by rewrite E. by vm_compute.
  - apply (agent_follows_protocol ["init"] ltac:(done) l u). by eapply play_runs.
Defined.
