(* ===== verification/HostSpec.v ===== *)
(** * What the host's side of the command channel promises

    The automaton of [HostExec.sendCommandAndAwaitExit] and of the pumps on
    both sides, with the refinements. *)

From ITree Require Import ITree.
From S2P Require Import Prelude RustStr Utf8 Proc Sys Agent AgentSpec HostExec.
Local Open Scope string_scope.
Local Open Scope Z_scope.
Local Open Scope proc_scope.
Local Open Scope list_scope.

(** ** The call *)

Section Host.
Variables (command : string) (forwardStdin : bool) (stdinFd : Z).

(** [sent] of the frame has been written, [got] of the answer read. *)
Inductive HPhase :=
| Idle
| Connected (fd : Z) (sent got : string) (pumping : bool)
| Closed (sent got : string).

Definition host_step (p : HPhase) (a : Act Sys) : option HPhase :=
  match a with
  | Do e r =>
    match e in Sys X return X -> option HPhase with
    | ConnectPort _ => fun r => match p with
        | Idle => Some match r with Some (Ok fd) => Connected fd "" "" false | _ => Idle end
        | _ => None
        end
    | Write fd bytes => fun r => match p with
        | Connected c sent "" false =>
            if (fd =? c) && (len command <=? u32_max) && starts_with (sent +:+ bytes) (frame command)
            then Some match r with Ok n => Connected c (sent +:+ str_take (Z.to_nat n) bytes) "" false | Err _ => p end else None
        | _ => None
        end
    | StartThread (HostPump src dst) => fun _ => match p with
        | Connected c sent "" false =>
            if forwardStdin && (src =? stdinFd) && (dst =? c) && String.eqb sent (frame command)
            then Some (Connected c sent "" true) else None
        | _ => None
        end
    | Read fd n => fun r => match p with
        | Connected c sent got b =>
            if (fd =? c) && String.eqb sent (frame command)
            then Some (Connected c sent match r with Ok s => got +:+ filled n s | Err _ => got end b) else None
        | _ => None
        end
    | Close fd => fun _ => match p with Connected c sent got _ => if fd =? c then Some (Closed sent got) else None | _ => None end
    | ReadTimeout _ _ | Sleep _ | AwaitPump _ => fun _ => Some p
    | _ => fun _ => None
    end r
  end.

Abbreviation HostFollows := (Follows host_step).

(** What every reachable phase satisfies. *)
Definition phase_ok (p : HPhase) : Prop :=
  match p with
  | Idle => True
  | Connected _ sent got _ | Closed sent got => (exists rest, frame command = sent +:+ rest) /\ (got <> "" -> sent = frame command) /\
      (sent <> "" -> len command <= u32_max)
  end.

Lemma take_prefix n sent bytes rest : exists rest', (sent +:+ bytes) +:+ rest = (sent +:+ str_take n bytes) +:+ rest'.
Proof. exists (str_drop n bytes +:+ rest). rewrite !app_assoc_s. by rewrite <- (app_assoc_s (str_take n bytes)), take_drop_str. Qed.

Lemma host_step_ok p a p' : phase_ok p -> host_step p a = Some p' -> phase_ok p'.
Proof.
  destruct a as [X e r]. destruct e; cbn; try done; destruct p as [|c sent got b|sent got]; try done; intros Hp.
  all: try (intros [= <-]; exact Hp); try by destruct t.
  - destruct (_ && _) eqn:Hc; [|done]. apply andb_true_iff in Hc as [_ Hs]. apply String.eqb_eq in Hs as ->.
    intros [= <-]. destruct Hp as (_ & _ & Hl). split; [exists ""; by rewrite app_empty_r|done].
  - destruct got, b; try done. destruct (_ && _) eqn:Hc; [|done]. apply andb_true_iff in Hc as [Hc Hs].
    apply andb_true_iff in Hc as [_ Hl%Z.leb_le].
    apply starts_with_spec in Hs as (rest & Hs). intros [= <-]. destruct r as [n|]; [|exact Hp]. split; [|done].
    rewrite Hs. apply take_prefix.
  - destruct (fd =? c); [|done]. intros [= <-]. exact Hp.
  - destruct t; try done. destruct got, b; try done. destruct (_ && _); [|done]. intros [= <-]. exact Hp.
  - destruct r as [[|]|]; intros [= <-]; try done. by split; [exists (frame command)|].
Qed.

(** Writing a part of the frame. *)
Lemma writeAll_follows fd sent bytes rest0 :
  len command <= u32_max -> sent +:+ bytes +:+ rest0 = frame command ->
  HostFollows (Connected fd sent "" false) (writeAll fd bytes) (fun r p => exists w, p = Connected fd (sent +:+ w) "" false /\
    match r with Ok _ => w = bytes | Err _ => True end).
Proof.
  intros Hlen%Z.leb_le Hf. unfold writeAll.
  apply (follows_iter _ _ (fun rest p => exists w, p = Connected fd (sent +:+ w) "" false /\ w +:+ rest = bytes)).
  2: { exists "". by rewrite app_empty_r. }
  intros rest p (w & -> & Hw). destruct rest as [|a rest]; cbn [str_is_empty].
  { follow_step. exists w. split; [done|]. by rewrite app_empty_r in Hw. }
  assert (Hs : starts_with ((sent +:+ w) +:+ String a rest) (frame command) = true).
  { apply starts_with_spec. exists rest0. by rewrite <- Hf, <- Hw, !app_assoc_s. }
  follow_step. cbn [host_step]. rewrite Z.eqb_refl, Hlen, Hs. eexists. split; [done|]. follow_step. destruct a0 as [n|e]; [|eauto].
  eexists. rewrite app_assoc_s. split; [done|]. by rewrite app_assoc_s, take_drop_str.
Qed.

Lemma readAll_follows fd n b : 0 <= n ->
  HostFollows (Connected fd (frame command) "" b) (readAll fd n) (fun r p => exists got, p = Connected fd (frame command) got b /\
    match r with Ok s => s = got /\ len s = n | Err _ => True end).
Proof.
  intros Hn. unfold readAll.
  apply (follows_iter _ _ (fun got p => p = Connected fd (frame command) got b /\ len got <= n)); [|done].
  intros got p [-> Hl]. destruct (Z.leb_spec n (len got)) as [Hd|Hd].
  { follow_step. exists got. split; [done|]. split; [done|lia]. }
  follow_step. cbn [host_step]. rewrite Z.eqb_refl, String.eqb_refl. eexists. split; [done|]. follow_step. destruct a as [s|e].
  - pose proof (filled_len (n - len got) s ltac:(lia)). destruct (str_is_empty (filled (n - len got) s)); [eauto|].
    rewrite len_app_s. split; [done|lia].
  - destruct (kind e); eauto.
Qed.

Definition host_done (r : Result Z VsockError) (p : HPhase) : Prop :=
  match r with
  | Ok code => exists got, p = Closed (frame command) got /\ len got = 4 /\ code = int32_bits (of_le32 got)
  | Err _ => True
  end.

Lemma connect_follows n last :
  HostFollows Idle (connect_attempts n last) (fun r p => match r with Ok fd => p = Connected fd "" "" false | Err _ => p = Idle end).
Proof.
  revert last. induction n as [|n IH]; intros last; cbn [connect_attempts]; [by follow_step|].
  eapply follows_bind.
  - unfold connectOnce. follow_step. eexists. split; [done|].
    apply (follows_ret _ _ _ (fun r p => match r with Ok fd => p = Connected fd "" "" false | Err _ => p = Idle end)).
    by destruct a as [[fd|e]|].
  - intros [fd|e] p ->; [by follow_step|]. follow_step. eexists. split; [done|]. apply IH.
Qed.

Lemma exchange_follows fd timeout :
  HostFollows (Connected fd "" "" false) (exchange fd command forwardStdin stdinFd timeout) (fun r p => exists sent got b,
    p = Connected fd sent got b /\
    match r with Ok code => sent = frame command /\ len got = 4 /\ code = int32_bits (of_le32 got) | Err _ => True end).
Proof.
  unfold exchange. destruct (Z.ltb_spec u32_max (len command)); [follow_step; eauto|].
  follow_step; [by apply (writeAll_follows fd "" _ command)|]. intros [[]|e] p (w & -> & Hw); [subst w|follow_step; eauto].
  follow_step; [apply (writeAll_follows fd _ _ ""); [done|by rewrite app_empty_r]|]. intros [[]|e] p (w & -> & Hw); [subst w|follow_step; eauto].
  change (("" +:+ le32 (len command)) +:+ command) with (frame command).
  eapply (follows_bind _ _ _ _ (fun _ p => p = Connected fd (frame command) "" forwardStdin)).
  { destruct forwardStdin eqn:Ef; [|by follow_step]. apply follows_trigger. intros []. cbn [host_step]. rewrite Ef, !Z.eqb_refl, String.eqb_refl. eauto. }
  intros [] p ->. eapply (follows_bind _ _ _ _ (fun _ p => p = Connected fd (frame command) "" forwardStdin)).
  { unfold setRecvTimeout. follow_step. eexists. split; [done|]. by follow_step. }
  intros [] p ->. follow_step; [by apply readAll_follows|]. intros [s|e] p (got & -> & Hr).
  - destruct Hr as [-> Hl]. cbv zeta. destruct forwardStdin.
    + follow_step. eexists. split; [done|]. follow_step. destruct a; eauto 10.
    + follow_step. eauto 10.
  - destruct e; follow_step; eauto.
Qed.

(** Every run follows the automaton, and the code returned is the one read. *)
Lemma send_follows timeout : HostFollows Idle (sendCommandAndAwaitExit command forwardStdin stdinFd timeout) host_done.
Proof.
  unfold sendCommandAndAwaitExit, connectToAgent. follow_step; [apply connect_follows|]. intros [fd|e] p ->; [|by follow_step].
  unfold closing. follow_step; [apply exchange_follows|]. intros r p (sent & got & b & -> & Hr).
  follow_step. cbn [host_step]. rewrite Z.eqb_refl. eexists. split; [done|]. follow_step.
  destruct r as [code|]; [|done]. destruct Hr as (-> & ? & ?). cbn. eauto.
Qed.
End Host.

(** ** The pumps *)

(** Bytes read from [src] and bytes written to [dst]. *)
Section Copy.
Variables (src dst : Z).

Definition copy_step (p : string * string) (a : Act Sys) : option (string * string) :=
  let '(inp, out) := p in
  match a with
  | Do e r =>
    match e in Sys X return X -> option (string * string) with
    | Read fd n => fun r =>
        if (fd =? src) && String.eqb inp out then Some (match r with Ok s => inp +:+ filled n s | Err _ => inp end, out) else None
    | Write fd bytes => fun r =>
        if (fd =? dst) && String.eqb (out +:+ bytes) inp
        then Some (inp, match r with Ok n => out +:+ str_take (Z.to_nat n) bytes | Err _ => out end) else None
    | Close _ | ShutdownWrite _ => fun _ => Some (inp, out)
    | _ => fun _ => None
    end r
  end.

Definition copied (p : string * string) : Prop := exists rest, fst p = snd p +:+ rest.

Lemma copy_step_ok p a p' : copied p -> copy_step p a = Some p' -> copied p'.
Proof.
  destruct p as [inp out], a as [X e r]. intros [rest Hp]. cbn in Hp. destruct e; cbn; try done; try (intros [= <-]; by exists rest).
  - destruct (_ && _) eqn:Hc; [|done]. apply andb_true_iff in Hc as [_ Hs]. apply String.eqb_eq in Hs as ->. intros [= <-].
    destruct r as [s|]; [by exists (filled n s)|]. exists "". cbn. by rewrite app_empty_r.
  - destruct (_ && _) eqn:Hc; [|done]. apply andb_true_iff in Hc as [_ Hs]. apply String.eqb_eq in Hs as <-. intros [= <-].
    destruct r as [n|]; [|by exists bytes]. exists (str_drop (Z.to_nat n) bytes). cbn. by rewrite app_assoc_s, take_drop_str.
Qed.

Lemma write_all_copies inp out bytes : inp = out +:+ bytes ->
  Follows copy_step (inp, out) (write_all dst bytes) (fun r p => match r with Ok _ => p = (inp, inp) | Err _ => True end).
Proof.
  intros ->. rewrite <- (app_empty_r out) at 2.
  eapply follows_mono; [apply (follows_write_all _ _ _ (fun w => (out +:+ bytes, out +:+ w)))|].
  - intros w rest r Hw. cbn [copy_step]. rewrite Z.eqb_refl, app_assoc_s, Hw, String.eqb_refl. destruct r as [n|]; by rewrite ?app_assoc_s.
  - intros [[]|e] p (w & -> & Hw); [by subst w|done].
Qed.
Lemma writeAll_copies inp out bytes : inp = out +:+ bytes ->
  Follows copy_step (inp, out) (writeAll dst bytes) (fun r p => match r with Ok _ => p = (inp, inp) | Err _ => True end).
Proof.
  intros Hi. unfold writeAll. apply (follows_iter _ _ (fun rest p => exists o, p = (inp, o) /\ o +:+ rest = inp)); [|by exists out].
  intros [|a rest] p (o & -> & Ho); cbn [str_is_empty].
  { follow_step. rewrite app_empty_r in Ho. by subst o. }
  follow_step. cbn [copy_step]. rewrite Z.eqb_refl, (proj2 (String.eqb_eq _ _) Ho). eexists. split; [done|]. follow_step.
  destruct a0 as [n|e]; [|done]. eexists. split; [done|]. by rewrite app_assoc_s, take_drop_str.
Qed.

(** Reading once, then writing what was read. *)
Lemma stdin_pump_follows : Follows copy_step ("", "") (stdin_pump src dst) (fun _ _ => True).
Proof.
  unfold stdin_pump. eapply (follows_bind _ _ _ _ (fun _ _ => True)).
  - apply (follows_iter _ _ (fun _ p => exists b, p = (b, b))); [|by exists ""]. intros [] p (b & ->).
    follow_step. cbn [copy_step]. rewrite Z.eqb_refl, String.eqb_refl. eexists. split; [done|].
    destruct a as [s|e]; [|by follow_step]. destruct (str_is_empty _); [by follow_step|].
    follow_step; [by apply write_all_copies|]. intros [[]|e] p Hp; follow_step; cbn; eauto.
  - intros [] [inp out] _. follow_step. eexists. split; [done|]. apply follows_trigger. intros ?. eexists. by split.
Qed.
Lemma host_pump_follows : Follows copy_step ("", "") (host_pump src dst) (fun _ _ => True).
Proof.
  unfold host_pump, pumpStdinToVsock. eapply (follows_bind _ _ _ _ (fun _ _ => True)).
  - apply (follows_iter _ _ (fun _ p => exists b, p = (b, b))); [|by exists ""]. intros [] p (b & ->).
    follow_step. cbn [copy_step]. rewrite Z.eqb_refl, String.eqb_refl. eexists. split; [done|].
    destruct a as [s|e]; [|follow_step; destruct (is_interrupted e); eauto]. destruct (str_is_empty _); [by follow_step|].
    follow_step; [by apply writeAll_copies|]. intros [[]|e] p Hp; follow_step; cbn; eauto.
  - intros r [inp out] _. follow_step. eexists. split; [done|]. by follow_step.
Qed.
End Copy.
