(* ===== verification/Channel.v ===== *)
(** * The command channel, host and guest together

    A call of [HostExec.sendCommandAndAwaitExit] on the host, the init process
    [Agent.main] in the guest, and the two pumps for standard input, connected
    by a stream socket.  Every interleaving and every splitting of reads and
    writes is a run of the system; other clients may connect to the agent
    before the host does, and reads may end or fail at any time. *)

From ITree Require Import ITree.
From S2P Require Import Prelude RustStr Utf8 Proc Sys Agent AgentSpec HostExec HostSpec.
Local Open Scope string_scope.
Local Open Scope Z_scope.
Local Open Scope list_scope.

(** ** The socket *)

(** The host's connection: not made, made and not accepted, accepted by the
    guest under a descriptor, closed by the guest. *)
Inductive Conn := NotMade | Pending (hfd : Z) | Accepted (hfd gfd : Z) | Shut (hfd : Z).

(** Bytes under way to the guest and to the host, and the guest's duplicate of
    its descriptor. *)
Record Chan := { up : string; down : string; conn : Conn; clone : option Z }.
Definition set_up u c := {| up := u; down := down c; conn := conn c; clone := clone c |}.
Definition set_down d c := {| up := up c; down := d; conn := conn c; clone := clone c |}.
Definition set_conn n c := {| up := up c; down := down c; conn := n; clone := clone c |}.
Definition set_clone d c := {| up := up c; down := down c; conn := conn c; clone := d |}.

Definition host_fd (c : Chan) : option Z :=
  match conn c with NotMade => None | Pending h | Accepted h _ | Shut h => Some h end.
Definition guest_fd (c : Chan) : option Z := match conn c with Accepted _ g => Some g | _ => None end.

(** A read takes bytes from the front; a write of [n] bytes adds them. *)
Definition takes (have : string) (n : Z) (s rest : string) : Prop := have = s +:+ rest /\ len s <= n.
Definition accepted (n : Z) (bytes : string) : string := str_take (Z.to_nat n) bytes.

Definition status_ok (st : ExitStatus) : Prop :=
  match st with Exited c => 0 <= c <= 255 | Signaled s => 0 <= s <= 127 | OtherStatus => True end.

Section System.
Variables (command : string) (forwardStdin : bool) (stdinFd timeout : Z).

(** What an action of a process of the host does to the socket. *)
Definition host_effect (c : Chan) (a : Act Sys) (c' : Chan) : Prop :=
  match a with
  | Do e r =>
    match e in Sys X return X -> Prop with
    | ConnectPort _ => fun r => match r with
        | Some (Ok fd) => conn c = NotMade /\ fd <> stdinFd /\ c' = set_conn (Pending fd) c
        | _ => c' = c
        end
    | Read fd n => fun r => match r with
        | Ok s => if bool_decide (host_fd c = Some fd) then exists rest, takes (down c) n s rest /\ c' = set_down rest c else c' = c
        | Err _ => c' = c
        end
    | Write fd bytes => fun r => match r with
        | Ok n => if bool_decide (host_fd c = Some fd) then c' = set_up (up c +:+ accepted n bytes) c else c' = c
        | Err _ => c' = c
        end
    | _ => fun _ => c' = c
    end r
  end.

(** The same for the init process; [Accept] gives the host's connection or
    that of another client. *)
Definition guest_effect (c : Chan) (a : Act Sys) (c' : Chan) : Prop :=
  match a with
  | Do e r =>
    match e in Sys X return X -> Prop with
    | Accept _ => fun r => match r with
        | Ok fd => (exists h, conn c = Pending h /\ c' = set_conn (Accepted h fd) c) \/ (guest_fd c <> Some fd /\ c' = c)
        | Err _ => c' = c
        end
    | Read fd n => fun r => match r with
        | Ok s => if bool_decide (guest_fd c = Some fd) then exists rest, takes (up c) n s rest /\ c' = set_up rest c else c' = c
        | Err _ => c' = c
        end
    | Write fd bytes => fun r => match r with
        | Ok n => if bool_decide (guest_fd c = Some fd) then c' = set_down (down c +:+ accepted n bytes) c else c' = c
        | Err _ => c' = c
        end
    | Close fd => fun _ => match conn c with
        | Accepted h g => c' = if fd =? g then set_conn (Shut h) c else c
        | _ => c' = c
        end
    | Dup fd => fun r => match r with
        | Ok d => c' = if bool_decide (guest_fd c = Some fd) then set_clone (Some d) c else c
        | Err _ => c' = c
        end
    | WaitChild _ => fun r => match r with Ok st => status_ok st /\ c' = c | Err _ => c' = c end
    | _ => fun _ => c' = c
    end r
  end.

(** The guest's pump reads from the duplicate. *)
Definition pump_effect (c : Chan) (a : Act Sys) (c' : Chan) : Prop :=
  match a with
  | Do e r =>
    match e in Sys X return X -> Prop with
    | Read fd n => fun r => match r with
        | Ok s => if bool_decide (clone c = Some fd) then exists rest, takes (up c) n s rest /\ c' = set_up rest c else c' = c
        | Err _ => c' = c
        end
    | _ => fun _ => c' = c
    end r
  end.

Definition effect (f : Chan -> Act Sys -> Chan -> Prop) (c : Chan) (l : list (Act Sys)) (c' : Chan) : Prop :=
  match l with
  | [] => c' = c
  | [a] => f c a c'
  | _ => False
  end.

(** ** The system *)

Record State := {
  host : P (Result Z VsockError); host_acts : list (Act Sys);
  hpump : option (Z * P (Result unit VsockError)); hpump_acts : list (Act Sys);
  guest : P Z; guest_acts : list (Act Sys);
  gpump : option (Z * Z * P unit); gpump_acts : list (Act Sys);
  chan : Chan }.

(** The pumps are started by their threads' events. *)
Definition start_hpump (l : list (Act Sys)) (p : option (Z * P (Result unit VsockError))) :=
  match l with
  | [Do e _] => match e with StartThread (HostPump src dst) => Some (dst, host_pump src dst) | _ => p end
  | _ => p
  end.
Definition start_gpump (l : list (Act Sys)) (p : option (Z * Z * P unit)) :=
  match l with
  | [Do e _] => match e with StartThread (StdinPump src dst) => Some (src, dst, stdin_pump src dst) | _ => p end
  | _ => p
  end.

Inductive chan_step : State -> State -> Prop :=
| host_moves s l t c : step (host s) l t -> effect host_effect (chan s) l c ->
    chan_step s {| host := t; host_acts := host_acts s ++ l; hpump := start_hpump l (hpump s); hpump_acts := hpump_acts s;
      guest := guest s; guest_acts := guest_acts s; gpump := gpump s; gpump_acts := gpump_acts s; chan := c |}
| guest_moves s l t c : step (guest s) l t -> effect guest_effect (chan s) l c ->
    chan_step s {| host := host s; host_acts := host_acts s; hpump := hpump s; hpump_acts := hpump_acts s;
      guest := t; guest_acts := guest_acts s ++ l; gpump := start_gpump l (gpump s); gpump_acts := gpump_acts s; chan := c |}
| hpump_moves s l d p t c : hpump s = Some (d, p) -> step p l t -> effect host_effect (chan s) l c ->
    chan_step s {| host := host s; host_acts := host_acts s; hpump := Some (d, t); hpump_acts := hpump_acts s ++ l;
      guest := guest s; guest_acts := guest_acts s; gpump := gpump s; gpump_acts := gpump_acts s; chan := c |}
| gpump_moves s l a b p t c : gpump s = Some (a, b, p) -> step p l t -> effect pump_effect (chan s) l c ->
    chan_step s {| host := host s; host_acts := host_acts s; hpump := hpump s; hpump_acts := hpump_acts s;
      guest := guest s; guest_acts := guest_acts s; gpump := Some (a, b, t); gpump_acts := gpump_acts s ++ l; chan := c |}.

Definition initial : State := {|
  host := sendCommandAndAwaitExit command forwardStdin stdinFd timeout; host_acts := [];
  hpump := None; hpump_acts := [];
  guest := main ["/init"]; guest_acts := [];
  gpump := None; gpump_acts := [];
  chan := {| up := ""; down := ""; conn := NotMade; clone := None |} |}.

Inductive reached : State -> Prop :=
| reached_init : reached initial
| reached_step s s' : reached s -> chan_step s s' -> reached s'.
End System.
