(* ===== verification/ChannelSafe.v ===== *)
(** * The command channel delivers commands and exit codes

    The invariant of the system of [Channel]: what the host has sent is what
    the guest has taken and what is under way, in order; then the theorem on
    the code that the host returns and on the standard input, and a run. *)

From ITree Require Import ITree.
From S2P Require Import Prelude RustStr Utf8 Proc Sys Agent AgentSpec HostExec HostSpec Channel.
Local Open Scope string_scope.
Local Open Scope Z_scope.
Local Open Scope list_scope.

(** ** Frames *)

Lemma append_split a b c d : len a = len c -> a +:+ b = c +:+ d -> a = c /\ b = d.
Proof.
  unfold len. revert c. induction a as [|x a IH]; intros [|y c] Hl; cbn [String.length String.append] in *; [done|lia|lia|].
  intros [= -> H]. destruct (IH c) as [-> ->]; [lia|done|done].
Qed.
Lemma len_le32 z : len (le32 z) = 4.
Proof. done. Qed.
Lemma byte_char_of a z : z mod 256 = byte_of a -> byte_char z = a.
Proof.
  intros Hz. unfold byte_char, byte_of in *. unfold ch, Ascii.ascii_of_nat. rewrite Hz, <- Z_N_nat, N2Z.id, N2Nat.id. apply Ascii.ascii_N_embedding.
Qed.
Lemma byte_range a : 0 <= byte_of a < 256.
Proof. unfold byte_of. pose proof (Ascii.N_ascii_bounded a). lia. Qed.
Lemma le32_of_le32 s : len s = 4 -> le32 (of_le32 s) = s.
Proof.
  intros Hs. unfold len in Hs. do 4 (destruct s as [|? s]; [cbn in Hs; lia|]). destruct s; [|cbn [String.length] in Hs; lia].
  cbn [of_le32]. pose proof (byte_range a). pose proof (byte_range a0). pose proof (byte_range a1). pose proof (byte_range a2).
  unfold le32. repeat f_equal; apply byte_char_of; Z.div_mod_to_equations; lia.
Qed.

Lemma received_is_frame got cmd : received got = Some cmd -> got = frame cmd /\ 0 <= len cmd <= MAX_COMMAND.
Proof.
  unfold received. destruct (_ && _) eqn:Hc; [|done]. intros <-%(inj Some).
  apply andb_true_iff in Hc as [Hc _]. apply andb_true_iff in Hc as [Hc _]. apply andb_true_iff in Hc as [Hc Hm].
  apply andb_true_iff in Hc as [H4 Hl]. apply Z.leb_le in H4, Hm. apply Z.eqb_eq in Hl.
  pose proof (len_nonneg (str_drop 4 got)). split; [|lia].
  rewrite <- (take_drop_str 4 got) at 1. unfold frame. f_equal. rewrite Hl.
  assert (Ht : len (str_take 4 got) = 4).
  { unfold len in *. do 4 (destruct got as [|? got]; [cbn in H4; lia|]). by destruct got. }
  rewrite <- (take_drop_str 4 got) at 2. rewrite of_le32_app by lia. by rewrite le32_of_le32.
Qed.

(** A frame that begins a stream which begins like another one is that one. *)
Lemma frame_prefix c1 c2 sent extra rest more :
  len c1 <= u32_max -> len c2 <= u32_max -> frame c2 = sent +:+ rest -> (extra <> "" -> rest = "") ->
  sent +:+ extra = frame c1 +:+ more -> c1 = c2 /\ rest = "" /\ extra = more.
Proof.
  intros H1 H2 Hs He Hw. pose proof (len_nonneg c1). pose proof (len_nonneg c2).
  assert (Hf : exists tail, frame c2 +:+ tail = frame c1 +:+ more +:+ rest /\ (tail = "" \/ rest = "" /\ tail = extra)).
  { destruct extra as [|x extra].
    - exists "". rewrite app_empty_r in *. split; [by rewrite Hs, Hw, app_assoc_s|by left].
    - specialize (He ltac:(done)). subst rest. exists (String x extra). rewrite app_empty_r in *. subst sent. split; [done|]. by right. }
  destruct Hf as (tail & Ht & Htail). unfold frame in Ht. rewrite !app_assoc_s in Ht.
  apply append_split in Ht as [Hh Ht]; [|done].
  assert (Hl : len c1 = len c2).
  { apply (f_equal (fun s => of_le32 (s +:+ ""))) in Hh. rewrite !of_le32_le32, !wrap_small in Hh by (unfold u32_max in *; lia). lia. }
  apply append_split in Ht as [-> Ht]; [|done]. split; [done|].
  destruct Htail as [-> |[-> ->]].
  - destruct more, rest; try done. split; [done|]. rewrite app_empty_r in Hs, Hw. subst sent.
    apply (append_cancel (frame c1)). by rewrite Hw, app_empty_r.
  - split; [done|]. rewrite app_empty_r in Ht. done.
Qed.

(** ** The moves of the guest

    The automaton of the agent, case by case. *)

Abbreviation Acts := (list (Act Sys)).

(** An action that does nothing to the socket and starts no pump. *)
Definition still (a : Act Sys) : Prop :=
  (forall c c', guest_effect c a c' -> c' = c) /\ forall p, start_gpump [a] p = p.

Inductive move : Phase -> Act Sys -> Phase -> Prop :=
| mv_still p a : still a -> move p a p
| mv_accept l fd : move Waiting (Do (Accept l) (Ok fd)) (Receiving fd "")
| mv_read c got n s : move (Receiving c got) (Do (Read c n) (Ok s)) (Receiving c (got +:+ filled n s))
| mv_command c got cmd a : still a -> received got = Some cmd -> move (Receiving c got) a (Commanded c cmd)
| mv_test p a : move p a Testing
| mv_spawn c cmd pid pipe :
    move (Commanded c cmd) (Do (SpawnShell (script cmd) (stdio cmd)) (Ok (pid, pipe))) (Running c cmd pid false)
| mv_fail p c a : phase_fd p = Some c -> (exists cmd, p = Commanded c cmd \/ exists pid b, p = Running c cmd pid b) -> still a -> move p a (Failing c)
| mv_dup c cmd pid d : move (Running c cmd pid false) (Do (Dup c) (Ok d)) (Running c cmd pid false)
| mv_pump c cmd pid a b : move (Running c cmd pid false) (Do (StartThread (StdinPump a b)) tt) (Running c cmd pid true)
| mv_wait c cmd pid b st : move (Running c cmd pid b) (Do (WaitChild pid) (Ok st)) (Finished c cmd pid st "")
| mv_write c cmd pid st sent bytes n : sent +:+ bytes = le32 (exit_code st) ->
    move (Finished c cmd pid st sent) (Do (Write c bytes) (Ok n)) (Finished c cmd pid st (sent +:+ accepted n bytes))
| mv_drop c got : move (Receiving c got) (Do (Close c) tt) Waiting
| mv_close p c : phase_fd p = Some c -> (forall got, p <> Receiving c got) -> move p (Do (Close c) tt) Leaving
| mv_close_other p fd : phase_fd p <> Some fd -> move p (Do (Close fd) tt) p
| mv_down p p' a : still a -> phase_fd p = None -> p' = Synced \/ p' = Off -> move p a p'.

Lemma chan_step_move p a p' : agent_step p a = Some p' -> p' = Testing \/ move p a p'.
Proof.
  destruct a as [X e r]. intros Hs. destruct p; cbn in Hs; try (injection Hs as <-; by left).
  all: destruct e; cbn in Hs; try discriminate Hs; try (injection Hs as <-).
  all: try (right; apply mv_still; split; cbn; [done|done]).
  all: try (destruct seconds; [injection Hs as <-; right; by apply mv_still|]; try discriminate Hs).
  all: try (destruct t; cbn in Hs; try discriminate Hs; try (injection Hs as <-; right; by apply mv_still)).
  all: try (destruct r; right; by apply mv_close_other).
  all: try (right; apply mv_down; by auto).
  - destruct r; right; [apply mv_accept|by apply mv_still].
  - destruct (received got) as [cmd|] eqn:Hr; [|done]. destruct (fd0 =? fd); [|done]. injection Hs as <-.
    destruct (is_test cmd); [by left|]. right. by apply mv_command.
  - destruct (Z.eqb_spec fd0 fd) as [->|]; [|done]. injection Hs as <-. right. destruct r; [apply mv_read|by apply mv_still].
  - destruct (Z.eqb_spec fd0 fd) as [->|]; [|done]. injection Hs as <-. right. destruct r. apply mv_drop.
  - destruct (_ && _) eqn:Hc; [|done]. apply andb_true_iff in Hc as [->%String.eqb_eq ->%bool_decide_eq_true]. injection Hs as <-.
    right. destruct r as [[pid pipe]|e]; [apply mv_spawn|apply mv_fail; eauto; done].
  - destruct pumped; [done|]. destruct (_ && _) eqn:Hc; [|done]. apply andb_true_iff in Hc as [->%Z.eqb_eq _]. injection Hs as <-.
    right. destruct r; [apply mv_dup|by apply mv_still].
  - destruct (pid0 =? pid); [|done]. injection Hs as <-. right. apply mv_fail; eauto; done.
  - destruct (Z.eqb_spec pid0 pid) as [->|]; [|done]. injection Hs as <-. right. destruct r; [apply mv_wait|apply mv_fail; eauto; done].
  - destruct pumped; [done|]. injection Hs as <-. right. destruct r. apply mv_pump.
  - right. destruct r. destruct (Z.eqb_spec fd0 fd) as [->|Hne]; [by apply mv_close|]. apply mv_close_other. cbn. congruence.
  - destruct (_ && _) eqn:Hc; [|done]. apply andb_true_iff in Hc as [->%Z.eqb_eq Hb%String.eqb_eq]. injection Hs as <-.
    right. destruct r; [by apply mv_write|by apply mv_still].
  - destruct (Z.eqb_spec fd0 fd) as [->|]; [|done]. injection Hs as <-. right. destruct r. by apply mv_close.
Qed.

(** ** What the guest has done so far *)

(** The shell of a command was started, and waited for. *)
Definition spawned (l : Acts) (cmd : string) (pid : Z) : Prop :=
  exists pipe, Do (SpawnShell (script cmd) (stdio cmd)) (Ok (pid, pipe)) ∈ l.
Definition waited (l : Acts) (pid : Z) (st : ExitStatus) : Prop :=
  Do (WaitChild pid) (Ok st) ∈ l /\ status_ok st.

Definition past (l : Acts) (p : Phase) : Prop :=
  match p with
  | Commanded _ cmd => len cmd <= MAX_COMMAND
  | Running _ cmd pid _ => len cmd <= MAX_COMMAND /\ spawned l cmd pid
  | Finished _ cmd pid st sent =>
      len cmd <= MAX_COMMAND /\ spawned l cmd pid /\ waited l pid st /\ exists rest, sent +:+ rest = le32 (exit_code st)
  | _ => True
  end.

Lemma spawned_mono l l' cmd pid : spawned l cmd pid -> spawned (l ++ l') cmd pid.
Proof. intros [pipe Hp]. exists pipe. apply elem_of_app. by left. Qed.
Lemma waited_mono l l' pid st : waited l pid st -> waited (l ++ l') pid st.
Proof. intros [Hw Hs]. split; [apply elem_of_app; by left|done]. Qed.
Lemma past_mono l l' p : past l p -> past (l ++ l') p.
Proof.
  destruct p; cbn; try done.
  - intros [? ?]. split; [done|]. by apply spawned_mono.
  - intros (? & ? & ? & ?). split_and!; [done|by apply spawned_mono|by apply waited_mono|done].
Qed.

Lemma past_move l p a p' c c' : past l p -> move p a p' -> guest_effect c a c' -> past (l ++ [a]) p'.
Proof.
  intros Hp Hm He. apply (past_mono _ [a]) in Hp. destruct Hm; cbn in Hp |- *; try done.
  - cbn. by apply received_is_frame in H0 as [_ [_ ?]].
  - split; [done|]. exists pipe. set_solver.
  - destruct Hp as [? ?]. split_and!; [done..| |by eexists]. split; [set_solver|].
    by destruct He.
  - destruct Hp as (? & ? & ? & ?). split_and!; [done..|]. exists (str_drop (Z.to_nat n) bytes).
    unfold accepted. by rewrite app_assoc_s, take_drop_str.
  - destruct H1 as [-> | ->]; done.
Qed.

(** ** Streams

    [sent] and [hout] are the bytes that the host and its pump have written,
    [got] those the host has read; [gm] and [pin] are the bytes that the guest
    and its pump have taken from the host's connection. *)

Definition told (l : Acts) (gm t : string) : Prop :=
  t = "" \/ exists cmd pid st rest, gm = frame cmd /\ len cmd <= MAX_COMMAND /\ spawned l cmd pid /\ waited l pid st /\
    t +:+ rest = le32 (exit_code st).

Definition serving (p : Phase) (g : Z) (gm t : string) (cl : option Z) : Prop :=
  phase_fd p = Some g /\
  match p with
  | Receiving _ got => gm = got /\ t = "" /\ cl = None
  | Commanded _ cmd => gm = frame cmd /\ t = "" /\ cl = None
  | Running _ cmd _ _ => gm = frame cmd /\ t = ""
  | Failing _ => t = ""
  | Finished _ cmd _ _ sent => gm = frame cmd /\ t = sent
  | _ => False
  end.

Record Link (sent hout got : string) (l : Acts) (p : Phase) (c : Chan) (gm pin : string) : Prop := {
  lk_stream : sent +:+ hout = gm +:+ pin +:+ up c;
  lk_pin : clone c = None -> pin = "";
  lk_clone : clone c <> None -> exists cmd, gm = frame cmd /\ len cmd <= MAX_COMMAND;
  lk_told : told l gm (got +:+ down c);
  lk_conn : match conn c with
            | NotMade | Pending _ => gm = "" /\ got +:+ down c = "" /\ clone c = None
            | Accepted _ g => serving p g gm (got +:+ down c) (clone c)
            | Shut _ => True
            end }.

Lemma told_mono l l' gm t : told l gm t -> told (l ++ l') gm t.
Proof.
  intros [?|(cmd & pid & st & rest & ? & ? & ? & ? & ?)]; [by left|]. right. exists cmd, pid, st, rest.
  split_and!; [done|done|by apply spawned_mono|by apply waited_mono|done].
Qed.

(** The socket does not change. *)
Lemma link_same sent hout got l a p p' c gm pin :
  Link sent hout got l p c gm pin ->
  (forall h g, conn c = Accepted h g -> serving p g gm (got +:+ down c) (clone c) -> serving p' g gm (got +:+ down c) (clone c)) ->
  Link sent hout got (l ++ [a]) p' c gm pin.
Proof.
  intros [] Hs. split; [done..|by apply told_mono|]. destruct (conn c) eqn:Hc; [done..|eauto|done].
Qed.


(** The guest reads from the connection, writes to it, closes it. *)
Lemma link_read sent hout got l c c' gm pin cf gt n s :
  Link sent hout got l (Receiving cf gt) c gm pin -> guest_effect c (Do (Read cf n) (Ok s)) c' ->
  exists gm', Link sent hout got (l ++ [Do (Read cf n) (Ok s)]) (Receiving cf (gt +:+ filled n s)) c' gm' pin.
Proof.
  intros HL He. cbn in He. case_bool_decide as Hg.
  - destruct He as (rest & [Hu Hl] & ->). exists (gm +:+ s). unfold guest_fd in Hg. destruct HL as [Hst Hpin Hcl Htl Hco].
    destruct (conn c) as [| |h g|] eqn:Hc; [done..| |done]. destruct Hco as (_ & -> & Ht & Hcn). rewrite (filled_all n s Hl).
    rewrite (Hpin Hcn) in *. split; cbn; [by rewrite Hst, Hu, !app_assoc_s|done|by rewrite Hcn|left; done|]. rewrite Hc. done.
  - subst c'. exists gm. apply (link_same _ _ _ _ _ (Receiving cf gt)); [done|]. intros h g Hc [[= ->] _].
    unfold guest_fd in Hg. by rewrite Hc in Hg.
Qed.

Lemma link_write sent hout got l c c' gm pin cf cmd pid st sn bytes n :
  let a := Do (Write cf bytes) (Ok n) in
  let p' := Finished cf cmd pid st (sn +:+ accepted n bytes) in
  Link sent hout got l (Finished cf cmd pid st sn) c gm pin -> past (l ++ [a]) p' -> guest_effect c a c' ->
  Link sent hout got (l ++ [a]) p' c' gm pin.
Proof.
  intros a p' HL Hp' He. cbn in He. case_bool_decide as Hg; subst c'.
  - unfold guest_fd in Hg. destruct HL as [Hst Hpin Hcl Htl Hco]. destruct (conn c) as [| |h g|] eqn:Hc; [done..| |done].
    destruct Hco as (Hfd & -> & Ht). destruct Hp' as (Hlen & Hsp & Hw & rest & Hrest).
    assert (Hout : got +:+ down c +:+ accepted n bytes = sn +:+ accepted n bytes) by (by rewrite <- Ht, app_assoc_s).
    split; cbn; [done..| |].
    + right. exists cmd, pid, st, rest. split_and!; [done..|]. by rewrite Hout.
    + rewrite Hc. split; [done|]. by rewrite Hout.
  - apply (link_same _ _ _ _ _ (Finished cf cmd pid st sn)); [done|]. intros h g Hc [[= ->] _]. unfold guest_fd in Hg. by rewrite Hc in Hg.
Qed.

Lemma link_close sent hout got l c c' gm pin cf p p' :
  phase_fd p = Some cf -> Link sent hout got l p c gm pin -> guest_effect c (Do (Close cf) tt) c' ->
  Link sent hout got (l ++ [Do (Close cf) tt]) p' c' gm pin.
Proof.
  intros Hf HL He. cbn in He. destruct (conn c) as [| |h g|] eqn:Hc.
  1,2,4: subst c'; apply (link_same _ _ _ _ _ p); [done|]; by rewrite Hc.
  destruct (Z.eqb_spec cf g) as [->|Hne]; subst c'.
  - destruct HL. split; cbn; [done..|by apply told_mono|done].
  - apply (link_same _ _ _ _ _ p); [done|]. rewrite Hc. intros ? ? [= <- <-] (Hg & _). congruence.
Qed.

Lemma link_accept sent hout got l c c' gm pin ls fd :
  Link sent hout got l Waiting c gm pin -> guest_effect c (Do (Accept ls) (Ok fd)) c' ->
  Link sent hout got (l ++ [Do (Accept ls) (Ok fd)]) (Receiving fd "") c' gm pin.
Proof.
  intros HL [(h & Hc & ->)|[Hg ->]].
  - destruct HL as [? ? ? ? Hl]. rewrite Hc in Hl. destruct Hl as (-> & Ht & Hcl).
    split; cbn; [done..|by apply told_mono|]. by rewrite Ht.
  - apply (link_same _ _ _ _ _ Waiting); [done|]. by intros h g _ [? _].
Qed.

Lemma link_dup sent hout got l c c' gm pin cf cmd pid d :
  Link sent hout got l (Running cf cmd pid false) c gm pin -> len cmd <= MAX_COMMAND -> guest_effect c (Do (Dup cf) (Ok d)) c' ->
  Link sent hout got (l ++ [Do (Dup cf) (Ok d)]) (Running cf cmd pid false) c' gm pin.
Proof.
  intros HL Hlen He. cbn in He. case_bool_decide as Hg; subst c'; [|by apply (link_same _ _ _ _ _ (Running cf cmd pid false))].
  unfold guest_fd in Hg. destruct HL as [Hst Hpin Hcl Htl Hco]. destruct (conn c) as [| |h g|] eqn:Hc; [done..| |done].
  destruct Hco as (Hfd & -> & Ht). split; cbn; [done|done|intros _; by exists cmd|by apply told_mono|]. by rewrite Hc.
Qed.

Lemma link_guest sent hout got l p a p' c c' gm pin :
  Link sent hout got l p c gm pin -> past l p -> past (l ++ [a]) p' -> move p a p' -> guest_effect c a c' -> p' <> Testing ->
  exists gm', Link sent hout got (l ++ [a]) p' c' gm' pin.
Proof.
  intros HL Hp Hp' Hm He Hn. destruct Hm as [p a [Hs _]|ls fd|cf gt n s|cf gt cmd a [Hs _] Hr|p a|cf cmd pid pipe|p cf a Hf Hpr [Hs _]
    |cf cmd pid d|cf cmd pid x y|cf cmd pid b st|cf cmd pid st sn bytes n Hb|cf gt|p cf Hf Hnr|p fd Hf|p p' a [Hs _] Hf Hd].
  - apply Hs in He as ->. exists gm. by apply (link_same _ _ _ _ _ p).
  - exists gm. by eapply link_accept.
  - by eapply link_read.
  - apply Hs in He as ->. exists gm. apply (link_same _ _ _ _ _ (Receiving cf gt)); [done|]. intros h g _ ([= ->] & -> & ? & ?).
    apply received_is_frame in Hr as [Hr _]. done.
  - done.
  - cbn in He. subst c'. exists gm. apply (link_same _ _ _ _ _ (Commanded cf cmd)); [done|]. by intros h g _ ([= ->] & ? & ? & ?).
  - apply Hs in He as ->. exists gm. apply (link_same _ _ _ _ _ p); [done|].
    intros h g _ [Hg Hsv]. rewrite Hf in Hg. injection Hg as ->. destruct Hpr as (cmd & [-> |(pid & b & ->)]); split; [done|naive_solver|done|naive_solver].
  - exists gm. eapply link_dup; [done| |done]. by destruct Hp.
  - cbn in He. subst c'. exists gm. apply (link_same _ _ _ _ _ (Running cf cmd pid false)); [done|]. by intros h g _ ([= ->] & ? & ?).
  - destruct He as [_ ->]. exists gm. apply (link_same _ _ _ _ _ (Running cf cmd pid b)); [done|]. by intros h g _ ([= ->] & ? & ?).
  - exists gm. by eapply link_write.
  - exists gm. by apply (link_close _ _ _ _ c _ _ _ _ (Receiving cf gt)).
  - exists gm. by apply (link_close _ _ _ _ c _ _ _ _ p).
  - cbn in He. exists gm. destruct (conn c) as [| |h g|] eqn:Hc; try (subst c'; by apply (link_same _ _ _ _ _ p)).
    destruct (Z.eqb_spec fd g) as [->|Hne]; subst c'; [|by apply (link_same _ _ _ _ _ p)].
    destruct HL as [_ _ _ _ Hco]. rewrite Hc in Hco. by destruct Hco as [? _].
  - apply Hs in He as ->. exists gm. apply (link_same _ _ _ _ _ p); [done|]. intros h g _ [Hg _]. congruence.
Qed.

(** ** The host *)

Section Invariant.
Variables (command : string) (forwardStdin : bool) (stdinFd timeout : Z).

Definition host_sent (p : HPhase) : string := match p with Idle => "" | Connected _ s _ _ | Closed s _ => s end.
Definition host_got (p : HPhase) : string := match p with Idle => "" | Connected _ _ g _ | Closed _ g => g end.
Definition host_conn (p : HPhase) (c : Chan) : Prop :=
  host_fd c <> Some stdinFd /\
  match p with
  | Idle => host_fd c = None
  | Connected fd _ _ _ => host_fd c = Some fd
  | Closed _ _ => host_fd c <> None
  end.
(** The pump has not been started. *)
Definition unpumped (p : HPhase) : Prop :=
  match p with Idle | Connected _ _ _ false => True | _ => False end.

Lemma link_host hout l p hp hp' a c c' gm pin :
  Link (host_sent hp) hout (host_got hp) l p c gm pin -> host_conn hp c -> (unpumped hp -> hout = "") ->
  host_step command forwardStdin stdinFd hp a = Some hp' -> host_effect stdinFd c a c' ->
  Link (host_sent hp') hout (host_got hp') l p c' gm pin /\ host_conn hp' c'.
Proof.
  intros HL [Hsf Hc] Hu Hs He. destruct a as [X e r].
  destruct e; cbn in Hs; try discriminate Hs; try (injection Hs as <-; cbn in He; by subst c').
  - (* Read *) destruct hp as [|cf sn gt b|]; try done. destruct (_ && _) eqn:Hb; [|done]. apply andb_true_iff in Hb as [->%Z.eqb_eq _].
    injection Hs as <-. cbn in He, Hc. rewrite (bool_decide_eq_true_2 _ Hc) in He. destruct r as [s|]; [|by subst c'].
    destruct He as (rest & [Hd Hl] & ->). rewrite (filled_all n s Hl). split; [|by split].
    destruct HL as [? ? ? Ht Hco]. cbn in Ht, Hco. rewrite Hd, <- app_assoc_s in Ht, Hco. by split.
  - (* Write *) destruct hp as [|cf sn gt b|]; try done. destruct gt, b; try done. destruct (_ && _) eqn:Hb; [|done].
    apply andb_true_iff in Hb as [[->%Z.eqb_eq _]%andb_true_iff _]. injection Hs as <-. cbn in He, Hc.
    rewrite (bool_decide_eq_true_2 _ Hc) in He. destruct r as [n|]; [|by subst c']. subst c'. split; [|by split].
    rewrite (Hu I) in *. destruct HL as [Hst ? ? ? ?]. cbn in *. rewrite app_empty_r in Hst. split; cbn; [|done..].
    unfold accepted. by rewrite app_empty_r, Hst, !app_assoc_s.
  - (* Close *) destruct hp as [|cf sn gt b|]; try done. destruct (_ =? _); [|done]. injection Hs as <-. cbn in He. subst c'.
    split; [done|]. split; [done|]. cbn in *. congruence.
  - (* StartThread *) destruct t; try done. destruct hp as [|cf sn gt b|]; try done. destruct gt, b; try done. destruct (_ && _); [|done].
    injection Hs as <-. cbn in He. by subst c'.
  - (* ConnectPort *) destruct hp; try done. cbn in Hc. injection Hs as <-. cbn in He. destruct r as [[fd|]|]; [|by subst c'..].
    destruct He as (Hc' & Hne & ->). split; [|split; [cbn; congruence|done]].
    destruct HL as [? ? ? ? Hco]. rewrite Hc' in Hco. by split.
Qed.

(** The host's pump adds to the stream, the guest's pump takes from it. *)
Lemma link_hpump sent hin hout got l p dst a c c' hio' gm pin :
  Link sent hout got l p c gm pin -> host_fd c = Some dst -> host_fd c <> Some stdinFd ->
  copy_step stdinFd dst (hin, hout) a = Some hio' -> host_effect stdinFd c a c' ->
  Link sent (snd hio') got l p c' gm pin /\ conn c' = conn c /\ clone c' = clone c.
Proof.
  intros HL Hfd Hne Hs He. destruct a as [X e r]. destruct e; cbn in Hs; try discriminate Hs; try (injection Hs as <-; cbn in He; by subst c').
  - destruct (_ && _) eqn:Hb; [|done]. apply andb_true_iff in Hb as [->%Z.eqb_eq _]. injection Hs as <-. cbn in He.
    rewrite (bool_decide_eq_false_2 _ Hne) in He. destruct r; by subst c'.
  - destruct (_ && _) eqn:Hb; [|done]. apply andb_true_iff in Hb as [->%Z.eqb_eq _]. injection Hs as <-. cbn in He.
    rewrite (bool_decide_eq_true_2 _ Hfd) in He. destruct r as [n|]; [|by subst c']. subst c'. split; [|done].
    destruct HL as [Hst ? ? ? ?]. split; cbn; [|done..]. unfold accepted. by rewrite <- app_assoc_s, Hst, !app_assoc_s.
Qed.

Lemma link_gpump sent hout got l p src dst a c c' gio gio' gm :
  let pin gio := if bool_decide (clone c = Some src) then fst gio else "" in
  Link sent hout got l p c gm (pin gio) ->
  copy_step src dst gio a = Some gio' -> pump_effect c a c' ->
  Link sent hout got l p c' gm (pin gio') /\ conn c' = conn c /\ clone c' = clone c.
Proof.
  intros pin HL Hs He. destruct gio as [gin gout], a as [X e r].
  destruct e; cbn in Hs; try discriminate Hs; try (injection Hs as <-; cbn in He; by subst c').
  - destruct (_ && _) eqn:Hb; [|done]. apply andb_true_iff in Hb as [->%Z.eqb_eq _]. injection Hs as <-. cbn in He.
    destruct r as [s|]; [|by subst c']. unfold pin in *. case_bool_decide as Hcl; [|by subst c']. destruct He as (rest & [Hu Hl] & ->).
    rewrite (filled_all n s Hl). split; [|done]. destruct HL as [Hst ? ? ? ?]. cbn in Hst. rewrite Hu in Hst.
    split; cbn; [by rewrite Hst, !app_assoc_s|by rewrite Hcl|done..].
  - destruct (_ && _) eqn:Hb; [|done]. injection Hs as <-. cbn in He. by subst c'.
Qed.

(** The phases in which the guest's pump may run. *)
Definition started (p : Phase) : bool :=
  match p with Waiting | Receiving _ _ | Commanded _ _ | Running _ _ _ false => false | _ => true end.
Lemma started_move p a p' : move p a p' -> started p = true -> started p' = true.
Proof. destruct 1; cbn; try done; try (by destruct b). by destruct H1 as [-> | ->]. Qed.
(** Then its descriptor has been duplicated already. *)
Lemma clone_move p a p' c c' : move p a p' -> guest_effect c a c' -> p' <> Testing -> started p = true -> clone c' = clone c.
Proof.
  intros Hm He Hn Hs. destruct Hm as [p a [Hst _]|ls fd|cf gt n s|cf gt cmd a [Hst _] Hr|p a|cf cmd pid pipe|p cf a Hf Hpr [Hst _]
    |cf cmd pid d|cf cmd pid x y|cf cmd pid b st|cf cmd pid st sn bytes n Hb|cf gt|p cf Hf Hnr|p fd Hf|p p' a [Hst _] Hf Hd].
  all: try done; try (by apply Hst in He as ->); cbn in He.
  - by destruct He as [_ ->].
  - case_bool_decide; by subst c'.
  - destruct (conn c); subst c'; try done. by destruct (_ =? _).
  - destruct (conn c); subst c'; try done. by destruct (_ =? _).
Qed.

Lemma guest_host_fd c a c' : guest_effect c a c' -> host_fd c' = host_fd c.
Proof.
  destruct a as [X e r]. destruct e; cbn; try (by intros ->).
  - destruct r; [|by intros ->]. intros [(h & Hc & ->)|[_ ->]]; [|done]. unfold host_fd. cbn. by rewrite Hc.
  - destruct r; [|by intros ->]. case_bool_decide; [|by intros ->]. by intros (rest & _ & ->).
  - destruct r; [|by intros ->]. case_bool_decide; by intros ->.
  - destruct r; [|by intros ->]. case_bool_decide; by intros ->.
  - unfold host_fd. destruct (conn c) as [| |h g|] eqn:Hc; intros ->; rewrite ?Hc; try done. destruct (_ =? _); cbn; by rewrite ?Hc.
  - destruct r; [|by intros ->]. by intros [_ ->].
Qed.

Lemma host_conn_fd hp c c' : host_fd c' = host_fd c -> host_conn hp c -> host_conn hp c'.
Proof. intros Hf [? ?]. split; [congruence|]. destruct hp; congruence. Qed.

(** Once the pump runs, the call only reads. *)
Lemma pumped_step hp a hp' : host_step command forwardStdin stdinFd hp a = Some hp' -> ~ unpumped hp ->
  ~ unpumped hp' /\ host_sent hp' = host_sent hp.
Proof.
  destruct a as [X e r]. intros Hs Hu. destruct hp as [|cf sn gt b|]; [done| |].
  - destruct b; [|done]. destruct e; cbn in Hs; try done; try (by injection Hs as <-).
    + destruct (_ && _); [|done]. by injection Hs as <-.
    + by destruct gt.
    + destruct (_ =? _); [|done]. by injection Hs as <-.
    + destruct t; try done. by destruct gt.
  - destruct e; cbn in Hs; try done; try (by injection Hs as <-). by destruct t.
Qed.

Lemma decide_testing p : p = Testing \/ p <> Testing.
Proof. destruct p; auto. Qed.

(** ** The invariant of the system *)

Record Inv (s : State) (hp : HPhase) (gp : Phase) (hio gio : string * string) (gm pin : string) : Prop := {
  i_host : accepts (host_step command forwardStdin stdinFd) Idle (host_acts s) = Some hp;
  i_hostf : Follows (host_step command forwardStdin stdinFd) hp (host s) (host_done command);
  i_hok : phase_ok command hp;
  i_hconn : host_conn hp (chan s);
  i_guest : accepts agent_step Waiting (guest_acts s) = Some gp;
  i_guestf : AgentFollows gp (guest s) (fun _ _ => False);
  i_past : past (guest_acts s) gp;
  i_hpump : match hpump s with
            | None => hio = ("", "") /\ hpump_acts s = []
            | Some (dst, t) =>
                host_fd (chan s) = Some dst /\ host_sent hp = frame command /\ ~ unpumped hp /\
                accepts (copy_step stdinFd dst) ("", "") (hpump_acts s) = Some hio /\
                Follows (copy_step stdinFd dst) hio t (fun _ _ => True) /\ copied hio
            end;
  i_gpump : match gpump s with
            | None => gio = ("", "") /\ gpump_acts s = [] /\ pin = ""
            | Some (src, dst, t) =>
                started gp = true /\ accepts (copy_step src dst) ("", "") (gpump_acts s) = Some gio /\
                Follows (copy_step src dst) gio t (fun _ _ => True) /\ copied gio /\
                pin = if bool_decide (clone (chan s) = Some src) then fst gio else ""
            end;
  i_link : Link (host_sent hp) (snd hio) (host_got hp) (guest_acts s) gp (chan s) gm pin }.

(** A step of a process is followed by its automaton. *)
Lemma follow_one {S R} (delta : S -> Act Sys -> option S) s0 acts s (t t' : P R) l Q :
  accepts delta s0 acts = Some s -> Follows delta s t Q -> step t l t' ->
  exists s', accepts delta s0 (acts ++ l) = Some s' /\ Follows delta s' t' Q /\
    (l = [] /\ s' = s \/ exists a, l = [a] /\ delta s a = Some s').
Proof.
  intros Ha Hf Hs. destruct (follows_step delta s t t' l Q Hf Hs) as (s' & Hl & Hf'). exists s'. rewrite accepts_app, Ha.
  split_and!; [done..|]. unfold step in Hs. destruct (observe t); [done|destruct Hs as [-> ->]; left; by injection Hl|].
  destruct Hs as (a & -> & ->). right. exists (Do e a). split; [done|]. cbn in Hl. by destruct (delta s (Do e a)).
Qed.

Lemma host_effect_fd c a c' d : host_effect stdinFd c a c' -> host_fd c = Some d -> host_fd c' = Some d.
Proof.
  destruct a as [X e r]. destruct e; cbn; try (by intros ->).
  - destruct r; [|by intros ->]. case_bool_decide; [|by intros ->]. by intros (rest & _ & ->).
  - destruct r; [|by intros ->]. case_bool_decide; by intros ->.
  - destruct r as [[fd|]|]; try (by intros ->). intros (Hc & _ & ->). unfold host_fd. by rewrite Hc.
Qed.
Lemma host_effect_clone c a c' : host_effect stdinFd c a c' -> clone c' = clone c.
Proof.
  destruct a as [X e r]. destruct e; cbn; try (by intros ->).
  - destruct r; [|by intros ->]. case_bool_decide; [|by intros ->]. by intros (rest & _ & ->).
  - destruct r; [|by intros ->]. case_bool_decide; by intros ->.
  - destruct r as [[fd|]|]; try (by intros ->). by intros (Hc & _ & ->).
Qed.

(** The host's pump starts, or goes on. *)
Lemma start_hpump_cases a p :
  start_hpump [a] p = p \/ exists src dst, a = Do (StartThread (HostPump src dst)) tt /\ start_hpump [a] p = Some (dst, host_pump src dst).
Proof. destruct a as [X e r]. destruct e; try (by left). destruct t; try (by left). right. exists stdin, stream. by destruct r. Qed.
Lemma start_gpump_cases a p :
  start_gpump [a] p = p \/ exists src dst, a = Do (StartThread (StdinPump src dst)) tt /\ start_gpump [a] p = Some (src, dst, stdin_pump src dst).
Proof. destruct a as [X e r]. destruct e; try (by left). destruct t; try (by left). right. exists stream, child_stdin. by destruct r. Qed.

#[local] Arguments start_hpump : simpl never.
#[local] Arguments start_gpump : simpl never.

Lemma inv_host s hp gp hio gio gm pin l t c :
  Inv s hp gp hio gio gm pin -> step (host s) l t -> effect (host_effect stdinFd) (chan s) l c ->
  exists hp' hio', Inv {| host := t; host_acts := host_acts s ++ l; hpump := start_hpump l (hpump s); hpump_acts := hpump_acts s;
      guest := guest s; guest_acts := guest_acts s; gpump := gpump s; gpump_acts := gpump_acts s; chan := c |} hp' gp hio' gio gm pin.
Proof.
  intros [Hh Hhf Hok Hco Hg Hgf Hp Hhp Hgp HL] Hs He.
  destruct (follow_one _ _ _ _ _ _ _ _ Hh Hhf Hs) as (hp' & Hh' & Hf' & [[-> ->]|(a & -> & Hd)]).
  { cbn in He. subst c. exists hp, hio. by split. }
  cbn [effect] in He.
  assert (Hu : unpumped hp -> snd hio = "").
  { intros Hu. destruct (hpump s) as [[dst tp]|]; [by destruct Hhp as (_ & _ & ? & _)|by destruct Hhp as [-> _]]. }
  destruct (link_host _ _ _ _ _ _ _ _ _ _ HL Hco Hu Hd He) as [HL' Hco'].
  exists hp', hio. split; cbn; try done.
  - by eapply host_step_ok.
  - destruct (start_hpump_cases a (hpump s)) as [-> |(src & dst & -> & ->)].
    + destruct (hpump s) as [[dst tp]|]; [|done]. destruct Hhp as (? & ? & Hnu & ? & ? & ?).
      destruct (pumped_step _ _ _ Hd Hnu) as [? Hse]. rewrite Hse. split_and!; try done. by eapply host_effect_fd.
    + destruct hp as [|cf sn gt b|]; try done. cbn in Hd. destruct gt, b; try done. destruct (_ && _) eqn:Hb; [|done].
      apply andb_true_iff in Hb as [Hb ->%String.eqb_eq]. apply andb_true_iff in Hb as [Hb ->%Z.eqb_eq].
      apply andb_true_iff in Hb as [_ ->%Z.eqb_eq]. injection Hd as <-.
      destruct (hpump s) as [[dst tp]|]; [by destruct Hhp as (_ & _ & [] & _)|]. destruct Hhp as [-> ->].
      split_and!; [by destruct Hco'|done|by intros []|done|apply host_pump_follows|by exists ""].
  - by rewrite (host_effect_clone _ _ _ He).
Qed.

Lemma inv_guest s hp gp hio gio gm pin l t c :
  Inv s hp gp hio gio gm pin -> gp <> Testing -> step (guest s) l t -> effect guest_effect (chan s) l c ->
  exists gp' gm', (gp' = Testing /\ accepts agent_step Waiting (guest_acts s ++ l) = Some Testing) \/
    Inv {| host := host s; host_acts := host_acts s; hpump := hpump s; hpump_acts := hpump_acts s;
      guest := t; guest_acts := guest_acts s ++ l; gpump := start_gpump l (gpump s); gpump_acts := gpump_acts s; chan := c |} hp gp' hio gio gm' pin.
Proof.
  intros [Hh Hhf Hok Hco Hg Hgf Hp Hhp Hgp HL] Hnt Hs He.
  destruct (follow_one _ _ _ _ _ _ _ _ Hg Hgf Hs) as (gp' & Hg' & Hf' & [[-> ->]|(a & -> & Hd)]).
  { cbn in He. subst c. exists gp, gm. right. rewrite app_nil_r in *. by split. }
  cbn [effect] in He. destruct (decide_testing gp') as [->|Hn]; [by exists Testing, gm; left|].
  destruct (chan_step_move _ _ _ Hd) as [?|Hm]; [done|].
  assert (Hp' : past (guest_acts s ++ [a]) gp') by by eapply past_move.
  destruct (link_guest _ _ _ _ _ _ _ _ _ _ _ HL Hp Hp' Hm He Hn) as (gm' & HL').
  exists gp', gm'. right. split; cbn; try done.
  - eapply host_conn_fd; [|done]. by eapply guest_host_fd.
  - destruct (hpump s) as [[dst tp]|]; [|done]. by rewrite (guest_host_fd _ _ _ He).
  - destruct (start_gpump_cases a (gpump s)) as [-> |(src & dst & -> & ->)].
    + destruct (gpump s) as [[[src dst] tp]|]; [|done]. destruct Hgp as (Hst & ? & ? & ? & ?).
      rewrite (clone_move _ _ _ _ _ Hm He Hn Hst). split_and!; try done. by eapply started_move.
    + destruct gp as [| | |cf cmd pid b| | | | | |]; try done. cbn in Hd. destruct b; [done|]. injection Hd as <-.
      destruct (gpump s) as [[[src' dst'] tp]|]; [by destruct Hgp|]. destruct Hgp as (-> & -> & ->).
      split_and!; [done|done|apply stdin_pump_follows|by exists ""|by destruct (bool_decide _)].
Qed.

Lemma inv_hpump s hp gp hio gio gm pin l d p t c :
  Inv s hp gp hio gio gm pin -> hpump s = Some (d, p) -> step p l t -> effect (host_effect stdinFd) (chan s) l c ->
  exists hio', Inv {| host := host s; host_acts := host_acts s; hpump := Some (d, t); hpump_acts := hpump_acts s ++ l;
      guest := guest s; guest_acts := guest_acts s; gpump := gpump s; gpump_acts := gpump_acts s; chan := c |} hp gp hio' gio gm pin.
Proof.
  intros [Hh Hhf Hok Hco Hg Hgf Hp Hhp Hgp HL] Ep Hs He. rewrite Ep in Hhp. destruct Hhp as (Hfd & Hse & Hnu & Hac & Hf & Hcp).
  destruct (follow_one _ _ _ _ _ _ _ _ Hac Hf Hs) as (hio' & Ha' & Hf' & [[-> ->]|(a & -> & Hd)]).
  { cbn in He. subst c. exists hio. by split. }
  cbn [effect] in He. exists hio'. destruct hio as [hin hout]. destruct Hco as [Hne Hco].
  destruct (link_hpump _ _ _ _ _ _ _ _ _ _ _ _ _ HL Hfd Hne Hd He) as (HL' & Hcn & Hcl).
  assert (Hfc : host_fd c = host_fd (chan s)) by (unfold host_fd; by rewrite Hcn).
  split; cbn; try done.
  - by eapply host_conn_fd; [|split].
  - rewrite Hfc. split_and!; try done. by eapply copy_step_ok.
  - by rewrite Hcl.
Qed.

Lemma inv_gpump s hp gp hio gio gm pin l x y p t c :
  Inv s hp gp hio gio gm pin -> gpump s = Some (x, y, p) -> step p l t -> effect pump_effect (chan s) l c ->
  exists gio' pin', Inv {| host := host s; host_acts := host_acts s; hpump := hpump s; hpump_acts := hpump_acts s;
      guest := guest s; guest_acts := guest_acts s; gpump := Some (x, y, t); gpump_acts := gpump_acts s ++ l; chan := c |} hp gp hio gio' gm pin'.
Proof.
  intros [Hh Hhf Hok Hco Hg Hgf Hp Hhp Hgp HL] Ep Hs He. rewrite Ep in Hgp. destruct Hgp as (Hst & Hac & Hf & Hcp & ->).
  destruct (follow_one _ _ _ _ _ _ _ _ Hac Hf Hs) as (gio' & Ha' & Hf' & [[-> ->]|(a & -> & Hd)]).
  { cbn in He. subst c. eexists gio, _. by split. }
  cbn [effect] in He. destruct (link_gpump _ _ _ _ _ _ _ _ _ _ _ _ _ HL Hd He) as (HL' & Hcn & Hcl).
  assert (Hfc : host_fd c = host_fd (chan s)) by (unfold host_fd; by rewrite Hcn).
  eexists gio', _. split; cbn; [done..| |done|done|done| | |exact HL'].
  - by eapply host_conn_fd.
  - destruct (hpump s) as [[dst tp]|]; [|done]. by rewrite Hfc.
  - rewrite Hcl. split_and!; try done. by eapply copy_step_ok.
Qed.

(** The invariant, unless a client has used a hook for tests. *)
Definition tested (l : Acts) : Prop := accepts agent_step Waiting l = Some Testing.
Definition Fine (s : State) : Prop := tested (guest_acts s) \/ exists hp gp hio gio gm pin, gp <> Testing /\ Inv s hp gp hio gio gm pin.

Lemma tested_app l l' : tested l -> tested (l ++ l').
Proof.
  unfold tested. intros Hl. rewrite accepts_app, Hl. induction l' as [|a l' IH]; [done|]. cbn. apply IH.
Qed.

Lemma fine_initial : Fine (initial command forwardStdin stdinFd timeout).
Proof.
  right. exists Idle, Waiting, ("", ""), ("", ""), "", "". split; [done|]. split; cbn; try done.
  - apply send_follows.
  - unfold main. cbn. eapply follows_bind; [apply run_follows|]. intros r p Hp. by apply halt_follows.
  - split; cbn; try done. by left.
Qed.

Lemma fine_step s s' : Fine s -> chan_step stdinFd s s' -> Fine s'.
Proof.
  intros [Ht|(hp & gp & hio & gio & gm & pin & Hn & HI)] Hs; [left; destruct Hs; cbn; try done; by apply tested_app|].
  destruct Hs as [s l t c Hs He|s l t c Hs He|s l d p t c Ep Hs He|s l x y p t c Ep Hs He].
  - destruct (inv_host _ _ _ _ _ _ _ _ _ _ HI Hs He) as (hp' & hio' & HI'). right. eauto 10.
  - destruct (inv_guest _ _ _ _ _ _ _ _ _ _ HI Hn Hs He) as (gp' & gm' & [[-> Ht]|HI']); [by left|].
    destruct (decide_testing gp') as [->|Hn']; [left; apply (i_guest _ _ _ _ _ _ _ HI')|]. right. eauto 10.
  - destruct (inv_hpump _ _ _ _ _ _ _ _ _ _ _ _ HI Ep Hs He) as (hio' & HI'). right. eauto 10.
  - destruct (inv_gpump _ _ _ _ _ _ _ _ _ _ _ _ _ HI Ep Hs He) as (gio' & pin' & HI'). right. eauto 10.
Qed.

Lemma fine_reached s : reached command forwardStdin stdinFd timeout s -> Fine s.
Proof. induction 1; [apply fine_initial|by eapply fine_step]. Qed.

(** ** What follows for the host *)

(** The guest has read a whole frame: it is the host's. *)
Lemma link_command hp hout l p c gm pin cmd :
  Link (host_sent hp) hout (host_got hp) l p c gm pin -> phase_ok command hp -> (hout <> "" -> host_sent hp = frame command) ->
  gm = frame cmd -> len cmd <= MAX_COMMAND -> cmd = command /\ hout = pin +:+ up c.
Proof.
  intros [Hst _ _ _ _] Hok Ho -> Hl. destruct hp as [|cf sb gt b|sb gt]; cbn in *.
  { apply (f_equal len) in Hst. rewrite len_app_s in Hst. destruct hout as [|x hout]; [|discriminate (Ho ltac:(done))].
    rewrite !len_app_s in Hst. unfold frame in Hst. rewrite len_app_s, len_le32 in Hst. pose proof (len_nonneg cmd).
    pose proof (len_nonneg pin). pose proof (len_nonneg (up c)). change (len "") with 0 in Hst. lia. }
  all: destruct Hok as ((rest & Hf) & _ & Hlen).
  all: assert (Hs : sb <> "") by (intros ->; destruct hout; [done|discriminate (Ho ltac:(done))]).
  all: destruct (frame_prefix cmd command sb hout rest (pin +:+ up c)) as (-> & _ & ->); [unfold MAX_COMMAND, u32_max in *; lia|auto|done| |done|done].
  all: intros Hh; specialize (Ho Hh); subst sb; apply (f_equal len) in Hf; rewrite len_app_s in Hf; destruct rest; [done|unfold len in Hf; cbn [String.length] in Hf; lia].
Qed.
End Invariant.

(** ** The theorem *)

(** The bytes that a process has read from, or written to, a descriptor. *)
Definition read_from (fd : Z) (l : Acts) : string :=
  foldr (fun a rest => match a with
    | Do e r => match e in Sys X return X -> string with
        | Read f n => fun r => if f =? fd then match r with Ok s => filled n s | Err _ => "" end else ""
        | _ => fun _ => ""
        end r
    end +:+ rest) "" l.
Definition written_to (fd : Z) (l : Acts) : string :=
  foldr (fun a rest => match a with
    | Do e r => match e in Sys X return X -> string with
        | Write f bytes => fun r => if f =? fd then match r with Ok n => accepted n bytes | Err _ => "" end else ""
        | _ => fun _ => ""
        end r
    end +:+ rest) "" l.

Lemma copy_bytes src dst l inp out inp' out' :
  accepts (copy_step src dst) (inp, out) l = Some (inp', out') ->
  inp' = inp +:+ read_from src l /\ out' = out +:+ written_to dst l.
Proof.
  revert inp out. induction l as [|[X e r] l IH]; intros inp out.
  - intros [= <- <-]. cbn. by rewrite !app_empty_r.
  - cbn [accepts]. destruct (copy_step src dst (inp, out) (Do e r)) as [[i o]|] eqn:Hs; [|done].
    intros Hl. apply IH in Hl as [-> ->]. destruct e; cbn in Hs |- *; try discriminate Hs; try (by injection Hs as <- <-).
    + destruct (_ && _) eqn:Hb; [|done]. apply andb_true_iff in Hb as [->%Z.eqb_eq _]. injection Hs as <- <-.
      rewrite Z.eqb_refl. destruct r; [by rewrite app_assoc_s|done].
    + destruct (_ && _) eqn:Hb; [|done]. apply andb_true_iff in Hb as [->%Z.eqb_eq _]. injection Hs as <- <-.
      rewrite Z.eqb_refl. destruct r; [unfold accepted; by rewrite app_assoc_s|done].
Qed.

Lemma exit_code_range st : status_ok st -> 0 <= exit_code st < 2 ^ 31.
Proof. destruct st; cbn; lia. Qed.
Lemma exit_code_read st got rest : status_ok st -> len got = 4 -> got +:+ rest = le32 (exit_code st) -> int32_bits (of_le32 got) = exit_code st.
Proof.
  intros Hs%exit_code_range Hl He. rewrite <- (app_empty_r (le32 _)) in He. apply append_split in He as [-> _]; [|done].
  rewrite <- (app_empty_r (le32 _)), of_le32_le32, wrap_small by lia. unfold int32_bits. rewrite (proj2 (Z.ltb_lt _ _)); lia.
Qed.

(** C5: A command that the host sends is the command that the guest runs, and
    its exit code is the code that the host returns, as long as the guest has
    not been sent one of the agent's test commands (those that begin with
    [__hephaestus_test_], which the agent answers itself).  In every such
    state that the host's call, the guest's init process and the pumps can
    reach, in any interleaving, with reads and writes split in any way,
    interrupted or failing, and with other clients before this one: when the call has
    returned a code, the guest has started a shell with the command (without
    the marker for standard input), has waited for it, and the code is its
    exit status or 128 plus the signal; and what the guest has written to the
    standard input of the command is a prefix of what the host has read from
    its own. *)
Theorem command_channel command forwardStdin stdinFd timeout s :
  reached command forwardStdin stdinFd timeout s -> ~ tested (guest_acts s) ->
  (forall code, observe (host s) = RetF (Ok code) ->
    exists pid pipe st, Do (SpawnShell (script command) (stdio command)) (Ok (pid, pipe)) ∈ guest_acts s /\
      Do (WaitChild pid) (Ok st) ∈ guest_acts s /\ code = exit_code st) /\
  (forall src dst t, gpump s = Some (src, dst, t) -> clone (chan s) = Some src ->
    exists rest, read_from stdinFd (hpump_acts s) = written_to dst (gpump_acts s) +:+ rest).
Proof.
  intros [Ht|(hp & gp & [hin hout] & [gin gout] & gm & pin & _ & HI)]%fine_reached Hn; [done|].
  destruct HI as [Hh Hhf Hok Hco Hg Hgf Hp Hhp Hgp HL].
  assert (Ho : snd (hin, hout) <> "" -> host_sent hp = frame command).
  { destruct (hpump s) as [[d t]|]; [by destruct Hhp as (_ & ? & _)|by destruct Hhp as [[= -> ->] _]]. }
  split.
  - intros code Hr. apply (follows_returned _ _ _ _ _ Hhf) in Hr as (got & -> & Hl & ->).
    destruct (lk_told _ _ _ _ _ _ _ _ HL) as [Ht|(cmd & pid & st & rest & Hgm & Hlen & [pipe Hs] & [Hw Hst] & Ht)]; cbn in Ht.
    { apply (f_equal len) in Ht. rewrite len_app_s in Ht. pose proof (len_nonneg (down (chan s))). change (len "") with 0 in Ht. lia. }
    destruct (link_command _ _ _ _ _ _ _ _ _ HL Hok Ho Hgm Hlen) as [-> _]. exists pid, pipe, st. split_and!; [done..|].
    rewrite app_assoc_s in Ht. by eapply exit_code_read.
  - intros src dst t Ep Hcl. rewrite Ep in Hgp. destruct Hgp as (_ & Hac & _ & [r1 Hc1] & ->).
    rewrite (bool_decide_eq_true_2 _ Hcl) in HL. destruct (lk_clone _ _ _ _ _ _ _ _ HL) as (cmd & Hgm & Hlen); [by rewrite Hcl|].
    destruct (link_command _ _ _ _ _ _ _ _ _ HL Hok Ho Hgm Hlen) as [_ Hout]. cbn in Hout, Hc1.
    apply copy_bytes in Hac as [_ Hgo]. cbn in Hgo. subst gout.
    destruct (hpump s) as [[d tp]|].
    + destruct Hhp as (_ & _ & _ & Hac & _ & [r2 Hc2]). apply copy_bytes in Hac as [Hi _]. cbn in Hi, Hc2.
      exists (r1 +:+ up (chan s) +:+ r2). by rewrite <- Hi, Hc2, Hout, Hc1, !app_assoc_s.
    + destruct Hhp as [[= -> ->] ->]. destruct gin; [|done]. destruct (written_to dst (gpump_acts s)); [by exists ""|done].
Qed.

(** ** A concrete run *)

Module DemoChannel.
(** Answers of a kernel that delivers what is under way. *)
Definition host_answer {X} (e : Sys X) (c : Chan) : X * Chan :=
  match e in Sys X return X * Chan with
  | ConnectPort _ => match conn c with NotMade => (Some (Ok 9), set_conn (Pending 9) c) | _ => (None, c) end
  | Read fd n =>
      if bool_decide (host_fd c = Some fd) && (0 <=? n)
      then (Ok (str_take (Z.to_nat n) (down c)), set_down (str_drop (Z.to_nat n) (down c)) c)
      else (Err unexpected_eof, c)
  | Write fd bytes => if bool_decide (host_fd c = Some fd) then (Ok 3, set_up (up c +:+ accepted 3 bytes) c) else (Err write_zero, c)
  | e => (fst (DemoAgent.answer e ""), c)
  end.
Definition guest_answer {X} (e : Sys X) (c : Chan) : X * Chan :=
  match e in Sys X return X * Chan with
  | Accept _ => match conn c with Pending h => (Ok 5, set_conn (Accepted h 5) c) | _ => (Err "", c) end
  | Read fd n =>
      if bool_decide (guest_fd c = Some fd) && (0 <=? n)
      then (Ok (str_take (Z.to_nat n) (up c)), set_up (str_drop (Z.to_nat n) (up c)) c)
      else (Err unexpected_eof, c)
  | Write fd bytes => if bool_decide (guest_fd c = Some fd) then (Ok 1, set_down (down c +:+ accepted 1 bytes) c) else (Err write_zero, c)
  | Close fd => (tt, match conn c with Accepted h g => if fd =? g then set_conn (Shut h) c else c | _ => c end)
  | Dup _ => (Err "", c)
  | WaitChild _ => (Ok (Exited 3), c)
  | e => (fst (DemoAgent.answer e ""), c)
  end.

Lemma len_take n s : 0 <= n -> len (str_take (Z.to_nat n) s) <= n.
Proof. apply filled_len. Qed.
Lemma host_answer_ok {X} (e : Sys X) c : host_effect 0 c (Do e (fst (host_answer e c))) (snd (host_answer e c)).
Proof.
  destruct e; cbn; try done.
  - case_bool_decide; cbn; [|done]. destruct (Z.leb_spec 0 n); cbn; [|done].
    eexists. split; [split; [by rewrite take_drop_str|by apply len_take]|done].
  - by case_bool_decide.
  - by destruct (conn c).
Qed.
Lemma guest_answer_ok {X} (e : Sys X) c : guest_effect c (Do e (fst (guest_answer e c))) (snd (guest_answer e c)).
Proof.
  destruct e; cbn; try done.
  - destruct (conn c) eqn:Hc; cbn; try done. left. by eexists.
  - case_bool_decide; cbn; [|done]. destruct (Z.leb_spec 0 n); cbn; [|done].
    eexists. split; [split; [by rewrite take_drop_str|by apply len_take]|done].
  - by case_bool_decide.
  - by destruct (conn c).
Qed.

(** [n] steps of the host, and of the guest. *)
Fixpoint run_host (n : nat) (s : State) : State :=
  match n with
  | O => s
  | S n' =>
      let next l t c := run_host n' {| host := t; host_acts := host_acts s ++ l; hpump := start_hpump l (hpump s); hpump_acts := hpump_acts s;
        guest := guest s; guest_acts := guest_acts s; gpump := gpump s; gpump_acts := gpump_acts s; chan := c |} in
      match observe (host s) with
      | RetF _ => s
      | TauF t => next [] t (chan s)
      | VisF e k => next [Do e (fst (host_answer e (chan s)))] (k (fst (host_answer e (chan s)))) (snd (host_answer e (chan s)))
      end
  end.
Fixpoint run_guest (n : nat) (s : State) : State :=
  match n with
  | O => s
  | S n' =>
      let next l t c := run_guest n' {| host := host s; host_acts := host_acts s; hpump := hpump s; hpump_acts := hpump_acts s;
        guest := t; guest_acts := guest_acts s ++ l; gpump := start_gpump l (gpump s); gpump_acts := gpump_acts s; chan := c |} in
      match observe (guest s) with
      | RetF _ => s
      | TauF t => next [] t (chan s)
      | VisF e k => next [Do e (fst (guest_answer e (chan s)))] (k (fst (guest_answer e (chan s)))) (snd (guest_answer e (chan s)))
      end
  end.

Lemma run_host_reached command n s : reached command false 0 30 s -> reached command false 0 30 (run_host n s).
Proof.
  revert s. induction n as [|n IH]; intros s Hs; cbn; [done|]. destruct (observe (host s)) as [r|t|X e k] eqn:Ho; [done|..]; apply IH.
  - eapply reached_step; [done|]. apply host_moves; [unfold step; by rewrite Ho|done].
  - eapply reached_step; [done|]. apply host_moves; [unfold step; rewrite Ho; eauto|apply host_answer_ok].
Qed.
Lemma run_guest_reached command n s : reached command false 0 30 s -> reached command false 0 30 (run_guest n s).
Proof.
  revert s. induction n as [|n IH]; intros s Hs; cbn; [done|]. destruct (observe (guest s)) as [r|t|X e k] eqn:Ho; [done|..]; apply IH.
  - eapply reached_step; [done|]. apply guest_moves; [unfold step; by rewrite Ho|done].
  - eapply reached_step; [done|]. apply guest_moves; [unfold step; rewrite Ho; eauto|apply guest_answer_ok].
Qed.

(** The host sends, the guest boots, runs the command and answers, the host
    reads the answer. *)
Definition final : State := run_host 60 (run_guest 200 (run_host 9 (initial "exit 3" false 0 30))).
Lemma final_reached : reached "exit 3" false 0 30 final.
Proof. apply run_host_reached, run_guest_reached, run_host_reached, reached_init. Qed.
End DemoChannel.

Lemma command_channel_witness :
  observe (host DemoChannel.final) = RetF (Ok 3) /\
  exists pid pipe st, Do (SpawnShell "exit 3" Null) (Ok (pid, pipe)) ∈ guest_acts DemoChannel.final /\
      Do (WaitChild pid) (Ok st) ∈ guest_acts DemoChannel.final /\ 3 = exit_code st.
Proof.
  assert (Hr : observe (host DemoChannel.final) = RetF (Ok 3)) by by vm_compute.
  split; [done|]. assert (Hn : ~ tested (guest_acts DemoChannel.final)) by (vm_compute; discriminate).
  apply (proj1 (command_channel "exit 3" false 0 30 DemoChannel.final DemoChannel.final_reached Hn) 3 Hr).
Defined.
