(* ===== verification/AgentShim.v ===== *)
(** * The metadata shim of the guest agent

    One client of the link-local metadata address: its request head is read
    with a bound on the number of reads and on its size ([request_head_bounded]),
    and what the client is sent is what the host answered on vsock to that
    request ([shim_relays]). *)

From ITree Require Import ITree.
From ITree.Props Require Import Leaf Finite.
From S2P Require Import Prelude RustStr Utf8 Proc Sys Agent AgentSpec.
Local Open Scope string_scope.
Local Open Scope Z_scope.
Local Open Scope proc_scope.
Local Open Scope list_scope.

(** ** Termination *)

Lemma all_finite_observe {E R} (t u : itree E R) : observe t = observe u -> all_finite t -> all_finite u.
Proof.
  intros Ho Ht. destruct Ht as [a t Ha|t t1 H1 Hf|X e t k H1 Hf]; rewrite Ho in *;
    [by eapply all_finiteRet|by eapply all_finiteTau|by eapply all_finiteVis].
Qed.

(** A loop each round of which ends, and lowers a measure when it goes on. *)
Lemma all_finite_iter {E I R} (f : I -> itree E (I + R)) (m : I -> nat) i :
  (forall i, all_finite (f i)) -> (forall i i', Leaf (inl i') (f i) -> (m i' < m i)%nat) -> all_finite (ITree.iter f i).
Proof.
  intros Hf Hm. remember (m i) as n eqn:Hn. revert i Hn. induction (lt_wf n) as [n _ IH]. intros i ->.
  eapply (all_finite_observe (ITree.bind (f i) (fun lr => match lr with inl l => Tau (ITree.iter f l) | inr r => Ret r end))); [done|].
  apply all_finite_bind; [apply Hf|]. intros [i'|r] Hl; [|apply all_finite_Ret].
  apply all_finite_Tau. eapply IH; [|done]. by apply Hm.
Qed.

(** ** Reading the head of a request *)

Lemma str_len_zero s : str_is_empty s = false -> 1 <= len s.
Proof. destruct s; [done|]. unfold len. cbn. lia. Qed.

Definition head_room (request : string) : nat := Z.to_nat (MAX_HEAD - len request).

(** A round that goes on has made progress, with room left. *)
Lemma round_progress client request request' :
  Leaf (inl request') (read_head_round client request) -> len request < len request' < MAX_HEAD.
Proof.
  intros Hl. apply Leaf_bind_inv in Hl as (r & _ & Hl). apply Leaf_Ret_inv in Hl. destruct r as [s|e]; [|by destruct (kind e)].
  cbv zeta in Hl. destruct (str_is_empty (filled 512 s)) eqn:Hs; [done|]. apply str_len_zero in Hs.
  destruct (contains _ _); cbn [orb] in Hl; [done|]. destruct (Z.leb_spec MAX_HEAD (len (request +:+ filled 512 s))); [done|].
  injection Hl as ->. rewrite len_app_s in *. lia.
Qed.

Lemma read_http_request_head_finite client : all_finite (read_http_request_head client).
Proof.
  unfold read_http_request_head. apply all_finite_bind; [|intros [r|e] _; apply all_finite_Ret].
  apply (all_finite_iter _ head_room).
  - intros request. apply all_finite_bind; [apply all_finite_trigger|]. intros a _. apply all_finite_Ret.
  - intros request request' Hp%round_progress. unfold head_room. lia.
Qed.

(** An automaton that allows so many actions. *)
Definition at_most (n : nat) (_ : Act Sys) : option nat := match n with O => None | S n' => Some n' end.
Lemma at_most_length n l n' : accepts at_most n l = Some n' -> (length l <= n)%nat.
Proof. revert n. induction l as [|a l IH]; intros [|n]; cbn; [lia..|done|]. intros Hn%IH. lia. Qed.

Lemma default_request_len : 0 < len default_request <= MAX_HEAD.
Proof. vm_compute. split; done. Qed.

Lemma head_follows client :
  Follows at_most (Z.to_nat MAX_HEAD) (read_http_request_head client)
    (fun r _ => match r with Ok request => 0 < len request <= MAX_HEAD + 511 | Err _ => True end).
Proof.
  unfold read_http_request_head.
  apply (follows_bind _ _ _ _ (fun r _ => match r with Ok request => len request <= MAX_HEAD + 511 | Err _ => True end)).
  - apply (follows_iter _ _ (fun request n => len request < MAX_HEAD /\ (head_room request <= n)%nat)); [|done].
    intros request n [Hl Hn]. unfold head_room in Hn. destruct n as [|n]; [lia|]. unfold read_head_round. follow_step.
    exists n. split; [done|]. follow_step. destruct a as [s|e]; [|by destruct (kind e); cbn; try lia].
    pose proof (filled_len 512 s ltac:(lia)). destruct (str_is_empty (filled 512 s)) eqn:Hs; [rewrite len_app_s; lia|].
    apply str_len_zero in Hs. destruct (contains _ _); cbn [orb]; [rewrite len_app_s; lia|].
    destruct (Z.leb_spec MAX_HEAD (len (request +:+ filled 512 s))); rewrite len_app_s in *; [lia|]. unfold head_room. rewrite len_app_s. lia.
  - intros [request|e] n Hr; follow_step; [|done]. destruct (str_is_empty request) eqn:He; [pose proof default_request_len; lia|].
    apply str_len_zero in He. lia.
Qed.

(** C39: [read_http_request_head] ends on every sequence of answers of the
    kernel: it makes at most 16384 reads, and a request it returns is not
    empty and has at most 16895 bytes. *)
Theorem request_head_bounded client :
  all_finite (read_http_request_head client) /\
  forall l u, runs (read_http_request_head client) l u ->
    (length l <= Z.to_nat (16 * 1024))%nat /\
    forall request, observe u = RetF (Ok request) -> 0 < len request <= 16 * 1024 + 511.
Proof.
  split; [apply read_http_request_head_finite|]. intros l u Hr. destruct (head_follows client l u Hr) as (n & Hn & Hq).
  split; [exact (at_most_length _ _ _ Hn)|]. intros request Ho. exact (Hq _ Ho).
Qed.

(** ** The relay *)

(** What is sent to the host for the bytes a client has sent. *)
Definition head_of (got : string) : string := if str_is_empty got then default_request else got.

Inductive Relay :=
| Opened
| Heard (got : string)
| Dialling (fd : Z) (request : string)
| Dialled (fd : Z) (request : string)
| Asking (fd : Z) (request sent response : string) (ended : bool)
| Replying (request response out : string)
| Lost
| Served (request response out : string)
| Dropped.

Definition relay_step (client : Z) (p : Relay) (a : Act Sys) : option Relay :=
  match a with
  | Do e r =>
    match e in Sys X return X -> option Relay with
    | ReadTimeout fd (Some n) => fun r => match p with
        | Opened => if (fd =? client) && (n =? 2) then Some match r with Ok _ => Heard "" | Err _ => Lost end else None
        | Dialled c req => if (fd =? c) && (n =? 5) then Some match r with Ok _ => Asking c req "" "" false | Err _ => p end else None
        | _ => None
        end
    | Read fd n => fun r => match p with
        | Heard got => if fd =? client then Some (Heard match r with Ok s => got +:+ filled n s | Err _ => got end) else None
        | _ => None
        end
    | VsockSocket => fun r => match p with
        | Heard got => Some match r with Ok fd => Dialling fd (head_of got) | Err _ => Lost end
        | _ => None
        end
    | VsockConnect fd cid port => fun r => match p with
        | Dialling c req =>
            if (fd =? c) && (cid =? VMADDR_CID_HOST) && (port =? MMDS_VSOCK_PORT)
            then Some match r with Ok _ => Dialled c req | Err _ => p end else None
        | _ => None
        end
    | Write fd bytes => fun r =>
        let n := match r with Ok n => Z.to_nat n | Err _ => 0%nat end in
        match p with
        | Asking c req sent "" false =>
            if (fd =? c) && String.eqb (sent +:+ bytes) req then Some (Asking c req (sent +:+ str_take n bytes) "" false) else None
        | Replying req resp out =>
            if (fd =? client) && String.eqb (out +:+ bytes) resp then Some (Replying req resp (out +:+ str_take n bytes)) else None
        | _ => None
        end
    | ReadMore fd => fun r => match p with
        | Asking c req sent resp false =>
            if (fd =? c) && String.eqb sent req
            then Some match r with Ok s => Asking c req sent (resp +:+ s) (str_is_empty s) | Err _ => p end else None
        | _ => None
        end
    | Close fd => fun _ => match p with
        | Dialling c _ | Dialled c _ | Asking c _ _ _ false => if fd =? c then Some Lost else None
        | Asking c req _ resp true => if fd =? c then Some (Replying req resp "") else None
        | Replying req resp out => if fd =? client then Some (Served req resp out) else None
        | Heard _ | Lost => if fd =? client then Some Dropped else None
        | _ => None
        end
    | _ => fun _ => None
    end r
  end.

Section Relay.
Variable client : Z.
Abbreviation RelayFollows := (Follows (relay_step client)).

Lemma relay_head :
  RelayFollows (Heard "") (read_http_request_head client) (fun r p => exists got, p = Heard got /\ match r with Ok req => req = head_of got | Err _ => True end).
Proof.
  unfold read_http_request_head.
  apply (follows_bind _ _ _ _ (fun r p => exists got, p = Heard got /\ match r with Ok req => req = got | Err _ => True end)).
  - apply (follows_iter _ _ (fun got p => p = Heard got)); [|done]. intros got p ->. unfold read_head_round. follow_step.
    cbn [relay_step]. rewrite Z.eqb_refl. eexists. split; [done|]. follow_step. destruct a as [s|e]; [|destruct (kind e); eauto].
    destruct (str_is_empty (filled 512 s)); [eauto|]. destruct (contains _ _ || _); eauto.
  - intros [req|e] p (got & -> & Hr); follow_step; exists got; by subst.
Qed.

Lemma relay_ask fd req what :
  RelayFollows (Asking fd req "" "" false) (named_io what (write_all fd req)) (fun r p => match r with
    | Ok _ => p = Asking fd req req "" false
    | Err _ => relay_step client p (Do (Close fd) tt) = Some Lost end).
Proof.
  unfold named_io. follow_step; [apply (follows_write_all _ _ _ (fun w => Asking fd req w "" false))|].
  - intros w rest r Hw. cbn [relay_step]. rewrite Z.eqb_refl, Hw, String.eqb_refl. destruct r; [done|]. by rewrite app_empty_r.
  - intros [[]|e] p (w & -> & Hw); follow_step; cbn [map_err]; [by subst w|]. cbn. by rewrite Z.eqb_refl.
Qed.
Lemma relay_answer fd req what :
  RelayFollows (Asking fd req req "" false) (named_io what (read_to_end fd)) (fun r p => match r with
    | Ok resp => p = Asking fd req req resp true
    | Err _ => relay_step client p (Do (Close fd) tt) = Some Lost end).
Proof.
  unfold named_io. follow_step; [apply (follows_read_to_end _ _ (Asking fd req req))|].
  - intros got r. cbn [relay_step]. rewrite Z.eqb_refl, String.eqb_refl. by destruct r.
  - intros [resp|e] p Hp; follow_step; cbn [map_err]; [done|]. destruct Hp as (s & ->). cbn. by rewrite Z.eqb_refl.
Qed.

(** Asking the host, once the request is known. *)
Lemma relay_fetch got :
  RelayFollows (Heard got) (fetch_mmds_vsock_response_for_request (head_of got))
    (fun r p => match r with Ok resp => p = Replying (head_of got) resp "" | Err _ => p = Lost end).
Proof.
  unfold fetch_mmds_vsock_response_for_request, closing. set (req := head_of got). follow_step. eexists. split; [done|].
  destruct r as [fd|e]; cbn [map_err]; [|by follow_step].
  apply (follows_bind _ _ _ _ (fun r p => match r with
    | Ok resp => p = Asking fd req req resp true
    | Err _ => relay_step client p (Do (Close fd) tt) = Some Lost end)).
  - follow_step. cbn [relay_step]. rewrite !Z.eqb_refl. eexists. split; [done|].
    destruct r as [[]|e]; cbn [map_err]; [|follow_step; cbn; by rewrite Z.eqb_refl].
    follow_step. cbn [relay_step]. rewrite !Z.eqb_refl. eexists. split; [done|].
    destruct r as [[]|e]; cbn [map_err]; [|follow_step; cbn; by rewrite Z.eqb_refl].
    eapply follows_bind; [by apply (relay_ask fd req)|]. intros [[]|e] p Hp; [subst p|by follow_step].
    by apply relay_answer.
  - intros [resp|e] p Hp; follow_step; destruct a.
    + subst p. cbn [relay_step]. rewrite Z.eqb_refl. eexists. split; [done|]. by follow_step.
    + rewrite Hp. eexists. split; [done|]. by follow_step.
Qed.

(** Every run of one client. *)
Lemma relay_follows :
  RelayFollows Opened (handle_mmds_linklocal_client client) (fun r p => match r with
    | Ok _ => exists request response, p = Served request response response
    | Err _ => True
    end).
Proof.
  unfold handle_mmds_linklocal_client, closing.
  apply (follows_bind _ _ _ _ (fun r p => exists p', relay_step client p (Do (Close client) tt) = Some p' /\
    match r with Ok _ => exists request response, p' = Served request response response | Err _ => True end)).
  2: { intros r p (p' & Hp & Hr). follow_step. destruct a. exists p'. split; [done|]. by follow_step. }
  follow_step. cbn [relay_step]. rewrite !Z.eqb_refl. eexists. split; [done|].
  destruct r as [[]|e]; cbn [map_err]; [|follow_step; cbn; rewrite ?Z.eqb_refl; eauto].
  follow_step; [apply relay_head|]. intros [req|e] p (got & -> & Hr); [subst req|follow_step; cbn; rewrite ?Z.eqb_refl; eauto].
  follow_step; [apply relay_fetch|]. intros [resp|e] p ->; [|follow_step; cbn; rewrite ?Z.eqb_refl; eauto].
  unfold named_io. follow_step; [apply (follows_write_all _ _ _ (Replying (head_of got) resp))|].
  - intros w rest r Hw. cbn [relay_step]. rewrite Z.eqb_refl, Hw, String.eqb_refl. destruct r; [done|]. by rewrite app_empty_r.
  - intros r p (w & -> & Hw). follow_step. cbn. rewrite ?Z.eqb_refl. eexists. split; [done|]. destruct r; [subst w|]; cbn; eauto.
Qed.
End Relay.

(** A client of the link-local metadata address is served as follows,
    whatever the kernel answers: its bytes are read under a timeout of two
    seconds; the host's metadata port is sent exactly those bytes, or the
    default request if there were none; the answer is read up to the end of
    the stream, and only a complete answer is passed on, in order and with
    nothing added.  On success the client has been sent all of it. *)
Theorem shim_relays client l u :
  runs (handle_mmds_linklocal_client client) l u ->
  exists p, accepts (relay_step client) Opened l = Some p /\
    (observe u = RetF (Ok tt) -> exists request response, p = Served request response response).
Proof. intros Hr. destruct (relay_follows client l u Hr) as (p & Hp & Hq). exists p. split; [done|]. apply (Hq (Ok tt)). Qed.

(** A client that sends its request in two parts, and a host that answers in two. *)
Module DemoShim.
Definition request : string := http_lines ["GET /latest HTTP/1.1"].
Definition answer {X} (e : Sys X) (w : list string * list string) : X * (list string * list string) :=
  match e in Sys X return X * (list string * list string) with
  | Read _ _ => match w with (s :: rest, out) => (Ok s, (rest, out)) | _ => (Ok "", w) end
  | ReadMore _ => match w with (ins, s :: rest) => (Ok s, (ins, rest)) | _ => (Ok "", w) end
  | e => (fst (DemoAgent.answer e ""), w)
  end.
Definition start : list string * list string := ([str_take 9 request; str_drop 9 request], ["HTTP/1.1 200 OK"; "{}"]).
End DemoShim.

Lemma shim_relays_witness :
  let '(l, u, _) := play (@DemoShim.answer) 60 (handle_mmds_linklocal_client 9) DemoShim.start in
  observe u = RetF (Ok tt) /\
  accepts (relay_step 9) Opened l = Some (Served DemoShim.request "HTTP/1.1 200 OK{}" "HTTP/1.1 200 OK{}") /\
  exists p, accepts (relay_step 9) Opened l = Some p /\
    (observe u = RetF (Ok tt) -> exists request response, p = Served request response response).
Proof.
  destruct (play (@DemoShim.answer) 60 (handle_mmds_linklocal_client 9) DemoShim.start) as [[l u] w] eqn:E. split; [|split].
  - replace u with (snd (fst (play (@DemoShim.answer) 60 (handle_mmds_linklocal_client 9) DemoShim.start))) by by rewrite E. by vm_compute.
  - replace l with (fst (fst (play (@DemoShim.answer) 60 (handle_mmds_linklocal_client 9) DemoShim.start))) by by rewrite E. by vm_compute.
  - apply (shim_relays 9 l u). by eapply play_runs.
Defined.
