(* ===== verification/VsockMmds.v ===== *)
(** * The metadata service on vsock

    swift/HephaestusBridge/Sources/HephaestusBridge/DirectVZ.swift, the class
    [MmdsSocketService]: what it answers to a request ([response]) and the
    block that serves one connection ([serve_connection]).  The agent of the
    guest forwards requests to it.

    Swift's [String] is text of Unicode characters, whose operations depend on
    the tables of Unicode, and the documents are read and written by
    Foundation: both are parameters ([SwiftText], [Foundation]), with what they
    do on ASCII text, and for JSON, as laws. *)

From ITree Require Import ITree.
From S2P Require Import Prelude RustStr Utf8 Json HostMmds Proc Sys HostExec.
Local Open Scope string_scope.
Local Open Scope Z_scope.
Local Open Scope proc_scope.

(** ** What the code uses of Swift and Foundation *)

(** [split_at] is [split(separator:)] with the empty parts kept, [same] is [==],
    [precedes] is [<] of strings. *)
Class SwiftText := {
  uppercased : string -> string;
  lowercased : string -> string;
  components : string -> string -> list string;
  split_at : Ascii.ascii -> string -> list string;
  hasPrefix : string -> string -> bool;
  hasSuffix : string -> string -> bool;
  includes : string -> string -> bool;
  replacing : string -> string -> string -> string;
  same : string -> string -> bool;
  precedes : string -> string -> bool }.

(** [url_path] is the path of an URL with a scheme that is not empty. *)
Class Foundation := {
  url_path : string -> option string;
  jsonObject : string -> option Value;
  json_data : Value -> option string }.

Definition trim_cr (s : string) : string := trim_end_char CR (trim_start_char CR s).
Definition nonempty (l : list string) : list string := filter (fun x => str_is_empty x = false) l.
Fixpoint drop_last (s : string) : string :=
  match s with
  | "" => ""
  | String a s' => if str_is_empty s' then "" else String a (drop_last s')
  end.

(** [Int(key)]: a sign and at least one digit, within 64 bits. *)
Definition Int_of (key : string) : option Z :=
  match strip_prefix "-" key with
  | Some digits =>
      if str_is_empty digits then None
      else match parse_digits 10 (2 ^ 63) 0 digits with Ok n => Some (- n) | Err _ => None end
  | None => match parse_uint (2 ^ 63 - 1) key with Ok n => Some n | Err _ => None end
  end.

(** ** Requests and responses *)

Inductive MmdsOutputFormat := json | imds.
Record MmdsHttpRequest := { method : string; path : string; outputFormat : MmdsOutputFormat }.
Record MmdsHttpResponse := { status : string; contentType : string; body : string }.

Definition textResponse (status text : string) : MmdsHttpResponse :=
  {| status := status; contentType := "text/plain"; body := text |}.

Definition endOfHeaders : string := crlf +:+ crlf.

Section Service.
Context `{SwiftText, Foundation}.

(** [while path.contains("//")]; for ASCII text every round shortens the path. *)
Fixpoint without_doubles (n : nat) (path : string) : string :=
  match n with
  | O => path
  | S n' => if includes "//" path then without_doubles n' (replacing "//" "/" path) else path
  end.

Definition sanitizePath (target : string) : string :=
  let rawPath := match url_path target with
    | Some p => if str_is_empty p then "/" else p
    | None => default "/" (head (split_at (ch 63) target))
    end in
  let path := if str_is_empty rawPath then "/" else rawPath in
  without_doubles (String.length path) path.

Definition parseRequest (data : string) : option MmdsHttpRequest :=
  if negb (utf8_valid data) then None
  else
    match trim_cr <$> components nl data with
    | [] => None
    | requestLine :: headers =>
        match nonempty (split_at (ch 32) requestLine) with
        | method :: target :: _ =>
            let acceptsJson := existsb (fun line =>
              let lower := lowercased line in
              hasPrefix "accept:" lower && includes "application/json" lower) headers in
            Some {| method := uppercased method; path := sanitizePath target;
                    outputFormat := if acceptsJson then json else imds |}
        | _ => None
        end
    end.

Fixpoint dict_get (key : string) (dict : list (string * Value)) : option Value :=
  match dict with
  | [] => None
  | (k, v) :: dict' => if same k key then Some v else dict_get key dict'
  end.

Definition key_of (component : string) : string := replacing "~0" "~" (replacing "~1" "/" component).
Definition member (value : Value) (key : string) : option Value :=
  match value with
  | Object dict => dict_get key dict
  | Array array =>
      match Int_of key with
      | Some idx => if (0 <=? idx) && (idx <? Z.of_nat (length array)) then array !! Z.to_nat idx else None
      | None => None
      end
  | _ => None
  end.
Fixpoint members (value : Value) (components : list string) : option Value :=
  match components with
  | [] => Some value
  | c :: rest => match member value (key_of c) with Some v => members v rest | None => None end
  end.
Definition lookupAny (root : Value) (path : string) : option Value :=
  if same path "/" || str_is_empty path then Some root
  else members root (nonempty (split_at SLASH (if hasSuffix "/" path then drop_last path else path))).

(** [sorted()]: the keys in the order of [<], which no two of them share. *)
Fixpoint place (key : string) (keys : list string) : list string :=
  match keys with
  | [] => [key]
  | k :: rest => if precedes k key then k :: place key rest else key :: keys
  end.
Definition sorted_keys (keys : list string) : list string := foldr place [] keys.

Definition formatImds (value : Value) : option string :=
  match value with
  | Object dict =>
      Some (join nl ((fun key => if match dict_get key dict with Some v => is_object v | None => false end
                                 then key +:+ "/" else key) <$> sorted_keys (fst <$> dict)))
  | Str s => Some s
  | _ => None
  end.

Definition response (fallbackBody requestBytes : string) : MmdsHttpResponse :=
  let fallback := {| status := "200 OK"; contentType := "application/json"; body := fallbackBody |} in
  match parseRequest requestBytes with
  | None => fallback
  | Some request =>
      if negb (same (method request) "GET") then textResponse "405 Method Not Allowed" "Method not allowed"
      else match jsonObject fallbackBody with
      | None => fallback
      | Some root =>
          match lookupAny root (path request) with
          | None => textResponse "404 Not Found" ("The MMDS resource does not exist: " +:+ path request)
          | Some value =>
              match outputFormat request with
              | json =>
                  match json_data value with
                  | Some data => {| status := "200 OK"; contentType := "application/json"; body := data |}
                  | None => textResponse "500 Internal Server Error" "MMDS JSON serialization failed"
                  end
              | imds =>
                  match formatImds value with
                  | None => textResponse "501 Not Implemented" "Cannot retrieve value. The value has an unsupported type."
                  | Some text => textResponse "200 OK" text
                  end
              end
          end
      end
  end.

(** The bytes of a response. *)
Definition http_out (r : MmdsHttpResponse) : string :=
  "HTTP/1.1 " +:+ status r +:+ crlf +:+ "Content-Type: " +:+ contentType r +:+ crlf +:+
  "Content-Length: " +:+ to_dec (len (body r)) +:+ crlf +:+ "Connection: close" +:+ crlf +:+ crlf +:+ body r.

(** ** One connection *)

Definition head_complete (got : string) : bool := (8192 <=? len got) || contains endOfHeaders got.

Definition read_request (fd : Z) : P string :=
  ITree.iter (fun got : string =>
    if head_complete got then Ret (inr got)
    else
      let* r := sys (Read fd 4096) in
      Ret match r with
          | Err e => if is_interrupted e then inl got else inr got
          | Ok s => if str_is_empty (filled 4096 s) then inr got else inl (got +:+ filled 4096 s)
          end) "".

Definition write_response (fd : Z) (out : string) : P unit :=
  ITree.iter (fun rest : string =>
    if str_is_empty rest then Ret (inr tt)
    else
      let* r := sys (Write fd rest) in
      Ret match r with
          | Err e => if is_interrupted e then inl rest else inr tt
          | Ok n => if n <=? 0 then inr tt else inl (str_drop (Z.to_nat n) rest)
          end) out.

(** The block of [listener(_:shouldAcceptNewConnection:from:)]; the service
    keeps the connection until the block has closed it. *)
Definition serve_connection (fallbackBody : string) (fd : Z) : P unit :=
  do* setRecvTimeout fd 2 in
  let* requestBytes := read_request fd in
  do* write_response fd (http_out (response fallbackBody requestBytes)) in
  sys (Close fd).
End Service.

(** ** The protocol of one connection *)

(** [Hearing got]: reading; [Heard got]: the client's part is over;
    [Telling got sent]: answering; [Broken got sent]: a write failed. *)
Inductive ServicePhase :=
| Accepted
| Hearing (got : string)
| Heard (got : string)
| Telling (got sent : string)
| Broken (got sent : string)
| Answered (got : string)
| Abandoned (got sent : string).

Section Protocol.
Context `{SwiftText, Foundation}.
Variables (document : string) (fd : Z).
Definition reply (got : string) : string := http_out (response document got).

(** The bytes of a write come next in the reply; one that stores nothing
    ends the answer. *)
Definition tell (got sent bytes : string) (r : Result Z SysError) : option ServicePhase :=
  if String.eqb (sent +:+ bytes) (reply got)
  then Some match r with
       | Ok n => if n <=? 0 then Broken got sent else Telling got (sent +:+ str_take (Z.to_nat n) bytes)
       | Err e => if is_interrupted e then Telling got sent else Broken got sent
       end
  else None.

Definition service_step (p : ServicePhase) (a : Act Sys) : option ServicePhase :=
  match a with
  | Do e r =>
    match e in Sys X return X -> option ServicePhase with
    | ReadTimeout f seconds => fun _ => match p with
        | Accepted => if (f =? fd) && bool_decide (seconds = Some 2) then Some (Hearing "") else None
        | _ => None
        end
    | Read f n => fun r => match p with
        | Hearing got =>
            if (f =? fd) && (n =? 4096) && negb (head_complete got)
            then Some match r with
                 | Ok s => if str_is_empty (filled 4096 s) then Heard got else Hearing (got +:+ filled 4096 s)
                 | Err e => if is_interrupted e then Hearing got else Heard got
                 end
            else None
        | _ => None
        end
    | Write f bytes => fun r =>
        if f =? fd then
          match p with
          | Hearing got => if head_complete got then tell got "" bytes r else None
          | Heard got => tell got "" bytes r
          | Telling got sent => tell got sent bytes r
          | _ => None
          end
        else None
    | Close f => fun _ =>
        if f =? fd then
          match p with
          | Telling got sent => if String.eqb sent (reply got) then Some (Answered got) else None
          | Broken got sent => Some (Abandoned got sent)
          | _ => None
          end
        else None
    | _ => fun _ => None
    end r
  end.

Abbreviation ServiceFollows := (Follows service_step).

(** A request that has been read, and how many bytes it can have. *)
Definition ready (got : string) (p : ServicePhase) : Prop :=
  len got < 8192 + 4096 /\ (p = Heard got \/ p = Hearing got /\ head_complete got = true).

Lemma read_request_follows : ServiceFollows (Hearing "") (read_request fd) ready.
Proof.
  unfold read_request. apply (follows_iter _ _ (fun got p => p = Hearing got /\ len got < 8192 + 4096)); [|done].
  intros got p [-> Hl]. destruct (head_complete got) eqn:Eh; [apply follows_ret; split; auto|]. apply follows_event. intros r.
  cbn [service_step]. rewrite !Z.eqb_refl, Eh. cbn [andb negb]. eexists. split; [done|]. apply follows_ret.
  assert (len got < 8192) by (unfold head_complete in Eh; lia).
  destruct r as [s|e].
  - destruct (str_is_empty (filled 4096 s)); [split; auto|]. split; [done|].
    pose proof (filled_len 4096 s ltac:(lia)). unfold len in *. rewrite length_app_s. lia.
  - destruct (is_interrupted e); [done|split; auto].
Qed.

Lemma reply_nonempty got : str_is_empty (reply got) = false.
Proof. reflexivity. Qed.

(** Where an answer stands: [sent] is out and [rest] is to come. *)
Definition telling (got sent : string) (p : ServicePhase) : Prop :=
  p = Telling got sent \/ sent = "" /\ (p = Heard got \/ p = Hearing got /\ head_complete got = true).

Lemma telling_write got sent p bytes r : telling got sent p -> service_step p (Do (Write fd bytes) r) = tell got sent bytes r.
Proof. intros [->|[-> [->|[-> Hh]]]]; cbn [service_step]; rewrite Z.eqb_refl, ?Hh; done. Qed.

Lemma write_response_follows got p : ready got p ->
  ServiceFollows p (write_response fd (reply got)) (fun _ p' => p' = Telling got (reply got) \/ exists sent, p' = Broken got sent).
Proof.
  intros [_ Hp]. unfold write_response.
  apply (follows_iter _ _ (fun rest p => exists sent, sent +:+ rest = reply got /\ telling got sent p)).
  2: { exists "". split; [done|]. right. auto. }
  clear p Hp. intros rest p (sent & Hs & Hp). destruct (str_is_empty rest) eqn:Er.
  - destruct rest; [|done]. rewrite app_empty_r in Hs. subst sent. apply follows_ret. left. destruct Hp as [->|[He _]]; [done|].
    pose proof (reply_nonempty got) as Hr. by rewrite He in Hr.
  - apply follows_event. intros r. rewrite (telling_write got sent) by done. unfold tell. rewrite Hs, String.eqb_refl.
    eexists. split; [done|]. apply follows_ret. destruct r as [n|e].
    + destruct (n <=? 0); [eauto|]. eexists. split; [|by left]. by rewrite app_assoc_s, take_drop_str.
    + destruct (is_interrupted e); [|eauto]. exists sent. split; [done|by left].
Qed.

(** Every run of one connection. *)
Lemma service_follows : ServiceFollows Accepted (serve_connection document fd) (fun _ p =>
  exists got, len got < 12288 /\ (p = Answered got \/ exists sent, p = Abandoned got sent)).
Proof.
  unfold serve_connection. apply (follows_bind _ _ _ _ (fun _ p => p = Hearing "")).
  { unfold setRecvTimeout. apply follows_event. intros r. cbn [service_step]. rewrite Z.eqb_refl. eexists. split; [done|by apply follows_ret]. }
  intros [] p ->.
  eapply follows_bind; [apply read_request_follows|]. intros got p1 Hp. eapply follows_bind; [by apply write_response_follows|].
  intros [] p' Hp'. apply follows_trigger. intros []. destruct Hp as [Hl _].
  destruct Hp' as [->|[sent ->]]; cbn [service_step]; rewrite ?Z.eqb_refl, ?String.eqb_refl; eexists; (split; [done|eauto]).
Qed.
End Protocol.

(** One connection of the vsock metadata service, whatever the kernel
    answers: it reads under a timeout of two seconds until the head of a
    request is complete, fewer than 12288 bytes in all; then it writes, in
    order and with nothing added, the response to what it has read, and
    nothing else; the connection is closed at the end.  Unless a write
    failed, all of the response has been written. *)
Theorem vsock_mmds_serves `{SwiftText, Foundation} document fd l u :
  runs (serve_connection document fd) l u ->
  exists p, accepts (service_step document fd) Accepted l = Some p /\
    (observe u = RetF tt -> exists got, len got < 12288 /\ (p = Answered got \/ exists sent, p = Abandoned got sent)).
Proof. intros Hr. destruct (service_follows document fd l u Hr) as (p & Hp & Hq). exists p. split; [done|]. apply (Hq tt). Qed.
