(* ===== verification/MmdsAgree.v ===== *)
(** * The two metadata services answer alike

    A guest can ask for metadata on its network ([HostMmds], served by the
    daemon) and on vsock ([VsockMmds], served by the Swift bridge).  The file
    compares the two on the requests that HTTP clients send: the path is found
    alike, and the answers are the same but for two kinds of value
    ([answers_agree]). *)

From stdpp Require Import sorting countable.
From S2P Require Import Prelude RustStr Utf8 Json Backend HostMmds VsockMmds.
Local Open Scope string_scope.
Local Open Scope Z_scope.
Local Open Scope list_scope.

(** ** Swift's text and Foundation, on ASCII *)

Definition ascii (s : string) : bool := str_forall (fun a => byte_of a <? 128) s.
(** Text without line feeds: in it no two bytes make one character of Swift. *)
Definition one_line (s : string) : bool := str_forall (fun a => (byte_of a <? 128) && negb (Ascii.eqb a NL)) s.

Class AsciiText `{SwiftText} := {
  uppercased_ascii s : one_line s = true -> uppercased s = to_ascii_uppercase s;
  lowercased_ascii s : one_line s = true -> lowercased s = to_ascii_lowercase s;
  components_ascii s : ascii s = true -> components nl s = split_char NL s;
  split_at_ascii c s : one_line (String c "") = true -> one_line s = true -> split_at c s = split_char c s;
  hasPrefix_ascii p s : one_line p = true -> p <> "" -> one_line s = true -> hasPrefix p s = starts_with p s;
  hasSuffix_ascii c s : one_line (String c "") = true -> one_line s = true -> hasSuffix (String c "") s = ends_with_char c s;
  includes_ascii p s : one_line p = true -> p <> "" -> one_line s = true -> includes p s = contains p s;
  replacing_ascii p t s : one_line p = true -> p <> "" -> one_line s = true -> replacing p t s = replace p t s;
  same_ascii a b : ascii a = true -> ascii b = true -> same a b = String.eqb a b;
  precedes_ascii a b : ascii a = true -> ascii b = true -> precedes a b = str_ltb a b }.

(** Documents that Foundation keeps as they are: their keys are ASCII, their
    numbers are 64-bit integers, and they nest no deeper than serde_json reads. *)
Fixpoint kept (v : Value) : bool :=
  match v with
  | Num (PosInt n) => (0 <=? n) && (n <=? u64_max)
  | Num (NegInt n) => (- 2 ^ 63 <=? n) && (n <? 0)
  | Num (Float _) => false
  | Array l => forallb kept l
  | Object m => forallb (fun e => ascii e.1 && kept e.2) m
  | _ => true
  end.
Fixpoint nesting (v : Value) : nat :=
  match v with
  | Array l => S (foldr (fun x n => Nat.max (nesting x) n) 0%nat l)
  | Object m => S (foldr (fun e n => Nat.max (nesting e.2) n) 0%nat m)
  | _ => 0
  end.
Definition plain_doc (v : Value) : Prop := wf_value v = true /\ kept v = true /\ (nesting v <= 128)%nat.

(** Foundation reads JSON as it and serde_json write it; a target that starts
    with a slash has no scheme. *)
Class JsonText `{Foundation, Serde} := {
  url_path_rooted t : starts_with "/" t = true -> url_path t = None;
  jsonObject_reads v t : plain_doc v -> json_to_vec v = Ok t -> jsonObject t = Some v;
  json_data_writes v : plain_doc v -> exists t, json_data v = Some t /\ jsonObject t = Some v }.

(** ** Keys *)

(** A key both services read alike as an index: not a zero with a minus sign,
    and below 2^63. *)
Definition plain_key (k : string) : bool :=
  negb (starts_with "-0" k) && match parse_uint usize_max k with Ok i => i <? 2 ^ 63 | Err _ => true end.


(** The key -0 is an index for Swift and none for Rust. *)
Example minus_zero : Int_of "-0" = Some 0 /\ parse_uint usize_max "-0" = Err InvalidDigit.
Proof. done. Qed.

Lemma same_index k (l : list Value) : plain_key k = true ->
  match Int_of k with Some i => if (0 <=? i) && (i <? Z.of_nat (length l)) then l !! Z.to_nat i else None | None => None end =
  match parse_uint usize_max k with Ok i => l !! Z.to_nat i | Err _ => None end.
Proof.
  intros [Hz Hu]%andb_true_iff. unfold Int_of. destruct (strip_prefix "-" k) as [ds|] eqn:Em.
  - apply strip_prefix_Some in Em. subst k. replace (parse_uint usize_max ("-" +:+ ds)) with (@Err Z _ InvalidDigit) by by destruct ds.
    destruct (str_is_empty ds) eqn:Ed; [done|]. destruct (parse_digits 10 (2 ^ 63) 0 ds) as [n|] eqn:En; [|done].
    destruct (Z.leb_spec 0 (- n)); [|done]. pose proof (parse_digits_grows _ _ _ _ (Z.le_refl 0) En). assert (n = 0) as -> by lia.
    apply digits_zero in En; [|by destruct ds]. apply starts_with_spec in En as [r ->]. done.
  - destruct (parse_uint usize_max k) as [i|e] eqn:Ei.
    + pose proof (parse_uint_range usize_max k i ltac:(done) Ei). rewrite (parse_uint_max usize_max (2 ^ 63 - 1) k i ltac:(lia) Ei).
      destruct (Z.ltb_spec i (Z.of_nat (length l))); cbn [andb]; [by rewrite (proj2 (Z.leb_le 0 i)) by lia|].
      rewrite andb_false_r. symmetry. apply lookup_ge_None_2. lia.
    + destruct (parse_uint (2 ^ 63 - 1) k) as [i|] eqn:E; [|done]. exfalso.
      pose proof (parse_uint_range (2 ^ 63 - 1) k i ltac:(done) E) as Hr. apply (parse_uint_max _ usize_max) in E; [congruence|]. unfold usize_max, u64_max. lia.
Qed.

(** ** Paths *)

Lemma one_line_ascii s : one_line s = true -> ascii s = true.
Proof. apply str_forall_impl. intros a. by rewrite andb_true_iff; intros [? _]. Qed.
Lemma graphic_one_line s : str_forall graphic s = true -> one_line s = true.
Proof. apply str_forall_impl. intros a Ha. destruct (graphic_ascii a Ha) as [-> ->]. done. Qed.
Lemma collapse_one_line n s : one_line s = true -> one_line (collapse n s) = true.
Proof. intros Hs. apply collapse_keeps; [|done]. intros r Hr. by apply replace_forall. Qed.

(** What a path is before its doubled slashes go. *)
Definition raw_path (t : string) : string := if str_is_empty (before_query t) then "/" else before_query t.
Lemma raw_one_line t : one_line t = true -> one_line (raw_path t) = true.
Proof.
  intros Ht. pose proof (split_char_forall _ (ch 63) t Ht) as Hf. pose proof (split_head (ch 63) t) as Hh. unfold raw_path, before_query.
  destruct (split_char (ch 63) t) as [|h r]; [done|]. injection Hh as <-. apply Forall_cons in Hf as [Hf _]. by destruct (str_is_empty h).
Qed.
Lemma sanitized_one_line t : one_line t = true -> one_line (sanitize_path t) = true.
Proof. intros Ht. apply collapse_one_line. by apply raw_one_line. Qed.

Section Ascii.
Context `{AsciiText}.

Lemma without_doubles_ascii n s : one_line s = true -> without_doubles n s = collapse n s.
Proof.
  revert s. induction n as [|n IH]; intros s Hs; [done|]. cbn [without_doubles collapse]. rewrite includes_ascii by done.
  destruct (contains "//" s); [|done]. rewrite replacing_ascii by done. apply IH. by apply replace_forall.
Qed.

Lemma sanitizePath_ascii `{JsonText} t : one_line t = true -> starts_with "/" t = true -> sanitizePath t = sanitize_path t.
Proof.
  intros Ht Hs. unfold sanitizePath. rewrite url_path_rooted, split_at_ascii, split_head by done. cbn [default from_option id].
  apply without_doubles_ascii. by apply raw_one_line.
Qed.

(** ** Looking up *)

Lemma key_of_ascii c : one_line c = true -> key_of c = segment_key c.
Proof. intros Hc. unfold key_of, segment_key. rewrite (replacing_ascii "~1") by done. apply replacing_ascii; [done..|]. by apply replace_forall. Qed.
Lemma key_ascii c : one_line c = true -> ascii (segment_key c) = true.
Proof. intros Hc. apply one_line_ascii. unfold segment_key. by apply replace_forall, replace_forall. Qed.

Lemma dict_get_ascii {k m} : ascii k = true -> forallb (fun e => ascii e.1 && kept e.2) m = true -> dict_get k m = map_get k m.
Proof.
  intros Hk. induction m as [|[k' v] m IH]; [done|]. cbn. intros [[Ha _]%andb_true_iff Hm]%andb_true_iff.
  rewrite same_ascii, String.eqb_sym by done. destruct (String.eqb k k'); [done|by apply IH].
Qed.

Lemma max_le {A} (f : A -> nat) l x : x ∈ l -> (f x <= foldr (fun y n => Nat.max (f y) n) 0 l)%nat.
Proof. induction 1; cbn; lia. Qed.
Lemma child_plain v k v' : plain_doc v -> child v k = Some v' -> plain_doc v'.
Proof.
  intros (Hw & Ha & Hn). destruct v as [| | | |l|m]; cbn in *; try done.
  - destruct (parse_uint usize_max k) as [i|]; [|done]. intros Hi%list_elem_of_lookup_2. pose proof (max_le nesting l v' Hi).
    apply list_elem_of_In in Hi. split_and!; [by eapply forallb_forall..|lia].
  - apply andb_true_iff in Hw as [_ Hw]. intros Hi%map_get_In.
    pose proof (proj1 (forallb_forall _ _) Ha _ Hi) as [_ He]%andb_true_iff. split_and!; [exact (proj1 (forallb_forall _ _) Hw _ Hi)|done|].
    apply list_elem_of_In in Hi. pose proof (max_le (fun e => nesting e.2) m _ Hi) as Hl. cbn in Hl. lia.
Qed.

Lemma member_child v c : plain_doc v -> one_line c = true -> plain_key (segment_key c) = true -> member v (key_of c) = child v (segment_key c).
Proof.
  intros (_ & Ha & _) Hc Hk. rewrite key_of_ascii by done. destruct v as [| | | |l|m]; cbn; try done; [by apply same_index|].
  apply dict_get_ascii; [by apply key_ascii|done].
Qed.

(** The keys of a path can be read alike by both services. *)
Definition plain_keys (t : string) : bool := forallb (fun c => plain_key (segment_key c)) (segments (before_query t)).

Lemma members_descend v cs : plain_doc v -> Forall (fun c => one_line c = true) cs -> forallb (fun c => plain_key (segment_key c)) cs = true ->
  members v cs = descend v (segment_key <$> cs).
Proof.
  intros Hv Hc. revert v Hv. induction Hc as [|c cs Hc _ IH]; intros v Hv; [done|]. cbn. intros [Hk Hks]%andb_true_iff.
  rewrite member_child by done. destruct (child v (segment_key c)) as [v'|] eqn:E; [|done]. apply IH; [by eapply child_plain|done].
Qed.

Lemma drop_last_trim s : ends_with_char SLASH s = true -> exists r, s = r +:+ "/" /\ drop_last s = r.
Proof.
  induction s as [|a s IH]; [done|]. destruct s as [|b s].
  - cbn. intros ->%Ascii.eqb_eq. by exists "".
  - intros He. destruct IH as (r & Hr & Hd); [exact He|]. exists (String a r). cbn [drop_last str_is_empty]. rewrite Hr at 1. split; [done|]. by rewrite <- Hd.
Qed.

Lemma lookupAny_lookup doc p : plain_doc doc -> one_line p = true -> contains "//" p = false ->
  forallb (fun c => plain_key (segment_key c)) (segments p) = true -> lookupAny doc p = lookup doc p.
Proof.
  intros Hd Hp Hc Hk. rewrite lookup_segments by done. unfold lookupAny. rewrite same_ascii by (by apply one_line_ascii || done).
  destruct (String.eqb_spec p "/") as [->|_]; [done|]. destruct (str_is_empty p) eqn:He; [by destruct p|]. cbn [orb].
  assert (Hq : forall q, one_line q = true -> segments q = segments p -> members doc (nonempty (split_at SLASH q)) = descend doc (segment_key <$> segments p)).
  { intros q Hq Hs. rewrite split_at_ascii by done. change (nonempty (split_char SLASH q)) with (segments q). rewrite Hs.
    apply members_descend; [done| |done]. rewrite <- Hs. unfold segments. apply Forall_forall.
    intros x [_ Hx]%list_elem_of_filter. by apply (proj1 (Forall_forall _ _) (split_char_forall _ SLASH q Hq)). }
  rewrite (hasSuffix_ascii SLASH) by done. destruct (ends_with_char SLASH p) eqn:Ee; [|by apply Hq].
  apply drop_last_trim in Ee as (r & -> & ->). apply Hq; [|symmetry; apply segments_slash].
  unfold one_line in *. rewrite str_forall_app in Hp. by apply andb_true_iff in Hp as [Hp _].
Qed.

(** ** Listings *)

Lemma sorted_keys_id m : sorted m = true -> forallb (fun e => ascii e.1 && kept e.2) m = true ->
  sorted_keys (fst <$> m) = fst <$> m.
Proof.
  induction m as [|[k v] m IH]; [done|]. cbn. intros [Ha Hs]%andb_true_iff [[Hk _]%andb_true_iff Hm]%andb_true_iff.
  unfold sorted_keys in *. rewrite IH by done. destruct m as [|[k' v'] m]; [done|]. cbn in *.
  apply andb_true_iff in Ha as [Ha _], Hm as [[Hk' _]%andb_true_iff _]. by rewrite precedes_ascii, (str_ltb_asym _ _ Ha).
Qed.
Lemma map_get_elem (m : list (string * Value)) k v : sorted m = true -> (k, v) ∈ m -> map_get k m = Some v.
Proof.
  induction m as [|[k' v'] m IH]; [by intros _ ?%elem_of_nil|]. cbn. intros [Ha Hs]%andb_true_iff [[= -> ->]|Hi]%elem_of_cons; [by rewrite String.eqb_refl|].
  destruct (String.eqb_spec k k') as [->|]; [|by apply IH]. apply above_get in Ha. by rewrite IH in Ha.
Qed.

(** The vsock service lists the members in the order of their keys. *)
Lemma formatImds_ascii m : plain_doc (Object m) -> formatImds (Object m) = Some (join nl (imds_keys m)).
Proof.
  intros ([Hs _]%andb_true_iff & Ha & _). cbn in Ha. cbn [formatImds]. rewrite sorted_keys_id by done. f_equal. f_equal. unfold imds_keys.
  rewrite <- list_fmap_compose. apply list_fmap_ext. intros i [k v] Hi%list_elem_of_lookup_2. cbn [compose fst snd].
  assert (Hk : ascii k = true).
  { apply list_elem_of_In in Hi. pose proof (proj1 (forallb_forall _ _) Ha _ Hi) as He. by apply andb_true_iff in He as [He _]. }
  by rewrite (dict_get_ascii Hk Ha), (map_get_elem m k v Hs Hi).
Qed.
End Ascii.

(** No object is listed under a name that begins another name. *)
Definition prefix_free (m : list (string * Value)) : Prop :=
  forall k v k' v', (k, v) ∈ m -> (k', v') ∈ m -> is_object v = true -> starts_with k k' = true -> k' = k.

Lemma str_ltb_app a b x y : str_ltb a b = true -> starts_with a b = false -> str_ltb (a +:+ x) (b +:+ y) = true.
Proof.
  revert b. induction a as [|c a IH]; intros [|d b]; try done. cbn. intros Hl Hs. destruct (byte_of c <? byte_of d) eqn:E1; [done|].
  destruct (byte_of d <? byte_of c) eqn:E2; [done|]. apply IH; [done|]. assert (c = d) as -> by (apply byte_of_inj; lia).
  unfold starts_with in *. cbn in Hs. by rewrite Ascii.eqb_refl in Hs.
Qed.
Lemma str_ltb_app_r a b y : str_ltb a b = true -> str_ltb a (b +:+ y) = true.
Proof.
  revert b. induction a as [|c a IH]; intros [|d b]; try done. cbn. destruct (byte_of c <? byte_of d); [done|].
  destruct (byte_of d <? byte_of c); [done|]. apply IH.
Qed.

Definition listed (e : string * Value) : string := if is_object (snd e) then fst e +:+ "/" else fst e.
Lemma listed_le m e e' : prefix_free m -> e ∈ m -> e' ∈ m -> str_ltb e.1 e'.1 = true -> str_le (listed e) (listed e').
Proof.
  destruct e as [k v], e' as [k' v']. cbn [fst]. intros Hp He He' Hl. apply str_ltb_asym. unfold listed. cbn [fst snd].
  assert (Hk : forall y, str_ltb k (k' +:+ y) = true) by (intros; by apply str_ltb_app_r).
  destruct (is_object v) eqn:Ev.
  - assert (Hs : starts_with k k' = false).
    { destruct (starts_with k k') eqn:E; [|done]. rewrite (Hp k v k' v') in Hl by done. by rewrite str_ltb_irrefl in Hl. }
    destruct (is_object v'); [by apply str_ltb_app|]. rewrite <- (app_empty_r k'). by apply str_ltb_app.
  - destruct (is_object v'); [done|]. by rewrite <- (app_empty_r k').
Qed.
#[local] Instance str_le_antisymm : AntiSymm (=) str_le.
Proof. intros a b Hab Hba. symmetry. by apply str_ltb_total. Qed.
#[local] Instance str_le_trans : Transitive str_le.
Proof.
  intros a b c Hab Hbc. unfold str_le in *. destruct (str_ltb c a) eqn:E; [|done].
  destruct (str_ltb b c) eqn:Ebc; [by rewrite (str_ltb_trans _ _ _ Ebc E) in Hab|]. assert (b = c) as -> by by apply str_ltb_total. congruence.
Qed.

Lemma imds_keys_sorted m : sorted m = true -> prefix_free m -> merge_sort str_le (imds_keys m) = imds_keys m.
Proof.
  intros Hs Hp. apply (Sorted_unique str_le); [by apply Sorted_merge_sort; apply _| |apply merge_sort_Permutation].
  change (imds_keys m) with (listed <$> m). induction m as [|[k v] m IH]; [constructor|]. cbn in Hs. apply andb_true_iff in Hs as [Ha Hs].
  cbn [fmap list_fmap]. constructor.
  - apply IH; [done|]. intros k1 v1 k2 v2 H1 H2. by apply (Hp k1 v1 k2 v2); right.
  - destruct m as [|[k' v'] m]; constructor. cbn in Ha. apply andb_true_iff in Ha as [Ha _].
    apply (listed_le _ _ _ Hp); [left|right; left|done].
Qed.

(** ** Both services *)

Section Agree.
Context `{AsciiText, JsonText}.

Lemma trim_cr_line l : contains_char CR l = false -> trim_cr (l +:+ String CR "") = l.
Proof.
  intros Hl. unfold trim_cr. destruct l as [|a l]; [done|]. cbn in Hl |- *. apply orb_false_iff in Hl as [Ha Hl]. rewrite Ha.
  change (String a (l +:+ String CR "")) with (String a l +:+ String CR ""). unfold trim_end_char. rewrite trim_end_snoc by done.
  apply trim_end_none. cbn. rewrite Ha. cbn. clear Ha. induction l as [|b l IH]; [done|]. cbn in *. apply orb_false_iff in Hl as [-> Hl]. by apply IH.
Qed.

(** What the service makes of a request as HTTP clients send it. *)
Lemma get_components t hs : str_forall graphic t = true -> forallb header_line hs = true ->
  ascii (get_request t hs) = true /\ trim_cr <$> split_char NL (get_request t hs) = request_lines t hs ++ [""].
Proof.
  intros Ht Hh. pose proof (request_lines_printable t hs Ht Hh) as Hl. split; [by apply unlines_ascii|].
  unfold get_request. rewrite split_unlines by by apply with_cr_no_nl. rewrite fmap_app. f_equal. rewrite <- list_fmap_compose.
  rewrite <- (list_fmap_id (request_lines t hs)) at 2. apply list_fmap_ext. intros i l Hi%list_elem_of_lookup_2.
  apply trim_cr_line. by apply printable_no_nl, (proj1 (Forall_forall _ _) Hl).
Qed.

Lemma printable_one_line s : str_forall printable s = true -> one_line s = true.
Proof. apply str_forall_impl. intros a Ha. by destruct (printable_ascii a Ha) as (-> & -> & _). Qed.
Lemma lower_one_line s : one_line s = true -> one_line (to_ascii_lowercase s) = true.
Proof.
  unfold one_line. induction s as [|a s IH]; [done|]. cbn [to_ascii_lowercase str_forall]. intros [Ha Hs]%andb_true_iff.
  rewrite IH, andb_true_r by done. clear IH Hs.
  by destruct a as [[] [] [] [] [] [] [] []].
Qed.

Lemma accept_ascii h : one_line h = true ->
  hasPrefix "accept:" (lowercased h) && includes "application/json" (lowercased h) = accepts_header h.
Proof. intros Hh. rewrite lowercased_ascii, hasPrefix_ascii, includes_ascii by (done || by apply lower_one_line). done. Qed.

Lemma accept_lines hs : forallb header_line hs = true ->
  existsb (fun line => hasPrefix "accept:" (lowercased line) && includes "application/json" (lowercased line)) (hs ++ ["";""]) = existsb accepts_header hs.
Proof.
  intros Hh. rewrite existsb_app. cbn [existsb]. rewrite !(accept_ascii "") by done. change (accepts_header "") with false. rewrite !orb_false_r.
  induction hs as [|h hs IH]; [done|]. cbn in Hh |- *. apply andb_true_iff in Hh as [[_ Hh]%andb_true_iff Hs].
  by rewrite accept_ascii, IH by (done || by apply printable_one_line).
Qed.

Lemma parse_get t hs : str_forall graphic t = true -> starts_with "/" t = true -> forallb header_line hs = true ->
  parseRequest (get_request t hs) =
  Some {| method := "GET"; path := sanitize_path t; outputFormat := if existsb accepts_header hs then json else imds |}.
Proof.
  intros Ht Hs Hh. destruct (get_components t hs Ht Hh) as [Ha Hl]. unfold parseRequest. rewrite components_ascii, Hl, (ascii_valid _ Ha) by done.
  cbn [negb request_lines app]. rewrite split_at_ascii by (done || by apply printable_one_line, request_line_printable).
  assert (Hsp : contains_char (ch 32) t = false) by (by apply (contains_char_forall (ch 32) graphic)).
  change ("GET " +:+ t +:+ " HTTP/1.1") with ("GET" +:+ String (ch 32) (t +:+ String (ch 32) "HTTP/1.1")).
  rewrite !split_char_app by done. unfold nonempty. cbn [split_char]. destruct t as [|a t]; [done|].
  rewrite !filter_cons_True by done. rewrite uppercased_ascii, sanitizePath_ascii by (done || by apply graphic_one_line). f_equal. f_equal.
  rewrite <- (app_assoc hs). change ([""] ++ [""]) with [""; ""]. cbv zeta. by rewrite (accept_lines hs Hh).
Qed.

(** The answers of both services to a GET, by the value that is found. *)
Definition answers_agree (j : bool) (found : option Value) (vsock network : string) : Prop :=
  match found with
  | None => vsock = network
  | Some v =>
      if j then
        exists data, jsonObject data = Some v /\ vsock = http_response (200, "application/json", data) /\
          network = http_response (200, "application/json", json_bytes v)
      else match v with
      | Str _ => vsock = network
      | Object m =>
          exists l l', l ≡ₚ l' /\ (prefix_free m -> l = l') /\ vsock = http_response (200, "text/plain", join nl l) /\
            network = http_response (200, "text/plain", join nl l')
      | _ =>
          vsock = http_out (textResponse "501 Not Implemented" "Cannot retrieve value. The value has an unsupported type.") /\
          network = http_response (200, "application/json", json_bytes v)
      end
  end.

Lemma descend_plain v ks v' : plain_doc v -> descend v ks = Some v' -> plain_doc v'.
Proof.
  revert v. induction ks as [|k ks IH]; intros v Hv; cbn; [by intros [= <-]|]. destruct (child v k) as [w|] eqn:E; [|done].
  apply IH. by eapply child_plain.
Qed.

Lemma services_agree t hs doc text :
  str_forall graphic t = true -> starts_with "/" t = true -> plain_keys t = true -> forallb header_line hs = true ->
  plain_doc doc -> json_to_vec doc = Ok text ->
  answers_agree (existsb accepts_header hs) (lookup doc (sanitize_path t))
    (http_out (response text (get_request t hs))) (render_raw_http (get_request t hs) doc).
Proof.
  intros Ht Hs Hk Hh Hd Hj. rewrite render_get by (done || by intros ->). unfold response. rewrite parse_get by done. cbn [method path outputFormat].
  destruct (sanitize_path_segments t) as (Hc & _ & Hseg & _). unfold plain_keys in Hk. rewrite <- Hseg in Hk.
  rewrite same_ascii, (jsonObject_reads doc text), lookupAny_lookup by (done || by apply sanitized_one_line, graphic_one_line).
  cbn [String.eqb Ascii.eqb Bool.eqb negb]. unfold answer_for. cbn [String.eqb Ascii.eqb Bool.eqb negb].
  destruct (lookup doc (sanitize_path t)) as [v|] eqn:El; [|done].
  assert (Hv : plain_doc v) by (rewrite lookup_segments in El by done; by eapply descend_plain).
  destruct (existsb accepts_header hs); cbn [answers_agree].
  - destruct (json_data_writes v Hv) as (d & -> & Hr). by exists d.
  - destruct v as [| | |s|l|m]; try done. rewrite formatImds_ascii by done. exists (imds_keys m), (merge_sort str_le (imds_keys m)).
    split; [symmetry; apply merge_sort_Permutation|]. split; [|done]. intros Hp. symmetry. apply imds_keys_sorted; [|done].
    by destruct Hv as ([? _]%andb_true_iff & _).
Qed.

(** C17: The vsock service and the one on the guest's network answer a GET alike,
    within these bounds: the target starts with a slash and is of graphic ASCII
    characters, with queries and repeated slashes in it; no key of its path
    begins with -0 or is a number of 2^63 or more (Swift reads the key -0 as
    the index 0, Rust does not); the headers are lines of printable ASCII; and
    the document has ASCII keys and no numbers but 64-bit integers, nests no
    deeper than 128 and is served as serde_json writes it.  Then both look up
    the same value of the document and both say 404 when there is none; a
    string is the same response byte for byte, and so is an object none of
    whose object members has a name that begins another name; otherwise the
    two lists have the same lines, perhaps in another order; as JSON both give
    the value that was found.  A number, a boolean, an array or a null is an
    error on vsock, and JSON on the network, if the client did not ask for
    JSON. *)
Theorem mmds_services_agree t hs doc text :
  str_forall graphic t = true -> starts_with "/" t = true -> plain_keys t = true -> forallb header_line hs = true ->
  plain_doc doc -> json_to_vec doc = Ok text ->
  answers_agree (existsb accepts_header hs) (lookup doc (sanitize_path t))
    (http_out (response text (get_request t hs))) (render_raw_http (get_request t hs) doc).
Proof. apply services_agree. Qed.
End Agree.

(** A text of Swift, and a form of documents that can be read back: the bits
    of a number that stands for the value. *)
Module DemoMmds.
#[export] Instance number_eq_dec : EqDecision Number.
Proof. solve_decision. Defined.
Definition leaf := (unit + bool + (Z + Z + string) + string)%type.
Fixpoint tree (v : Value) : gen_tree leaf :=
  match v with
  | Null => GenLeaf (inl (inl (inl tt)))
  | Bool b => GenLeaf (inl (inl (inr b)))
  | Num (PosInt n) => GenLeaf (inl (inr (inl (inl n))))
  | Num (NegInt n) => GenLeaf (inl (inr (inl (inr n))))
  | Num (Float t) => GenLeaf (inl (inr (inr t)))
  | Str s => GenLeaf (inr s)
  | Array l => GenNode 0 (tree <$> l)
  | Object m => GenNode 1 ((fun e => GenNode 2 [GenLeaf (inr e.1); tree e.2]) <$> m)
  end.
Fixpoint untree (t : gen_tree leaf) : Value :=
  match t with
  | GenLeaf (inl (inl (inl _))) => Null
  | GenLeaf (inl (inl (inr b))) => Bool b
  | GenLeaf (inl (inr (inl (inl n)))) => Num (PosInt n)
  | GenLeaf (inl (inr (inl (inr n)))) => Num (NegInt n)
  | GenLeaf (inl (inr (inr t))) => Num (Float t)
  | GenLeaf (inr s) => Str s
  | GenNode 0 ts => Array (untree <$> ts)
  | GenNode _ ts => Object ((fun t => match t with GenNode _ [GenLeaf (inr k); v] => (k, untree v) | _ => ("", Null) end) <$> ts)
  end.
Lemma untree_tree v : untree (tree v) = v.
Proof.
  induction v as [| |[]| |l IH|m IH] using Value_ind'; try done; cbn; f_equal.
  - induction IH; [done|]. cbn. by f_equal.
  - induction IH as [|[k v] m Hv _ IH]; [done|]. cbn in *. by rewrite Hv, IH.
Qed.
Fixpoint bits (p : positive) : string :=
  match p with xH => "" | xO q => String (ch 48) (bits q) | xI q => String (ch 49) (bits q) end.
Fixpoint unbits (s : string) : positive :=
  match s with "" => xH | String a r => if Ascii.eqb a (ch 49) then xI (unbits r) else xO (unbits r) end.
Lemma unbits_bits p : unbits (bits p) = p.
Proof. induction p as [p IH|p IH|]; cbn; by rewrite ?IH. Qed.
Definition written (v : Value) : string := bits (encode (tree v)).
Definition read (s : string) : option Value := untree <$> decode (unbits s).
Lemma read_written v : read (written v) = Some v.
Proof. unfold read, written. rewrite unbits_bits, decode_encode. cbn. by rewrite untree_tree. Qed.

#[export] Instance serde : Serde := {| json_to_vec v := Ok (written v); json_display := written |}.
#[export] Instance foundation : Foundation := {| url_path _ := None; jsonObject := read; json_data v := Some (written v) |}.
#[export] Instance swift : SwiftText := {|
  uppercased := to_ascii_uppercase; lowercased := to_ascii_lowercase; components _ s := split_char NL s; split_at := split_char;
  hasPrefix := starts_with; hasSuffix p s := match p with String c _ => ends_with_char c s | "" => true end;
  includes := contains; replacing := replace; same := String.eqb; precedes := str_ltb |}.
#[export] Instance swift_ascii : AsciiText.
Proof. by split. Qed.
#[export] Instance demo_json : JsonText.
Proof.
  split; [done|intros v t _ [= <-]; apply read_written|]. intros v _. exists (written v). split; [done|apply read_written].
Qed.
Definition doc : Value := Object [("latest", Object [("meta-data", Object [("id", Str "i-1"); ("tags", Array [Str "a"])])])].
Definition headers : list string := ["Host: 169.254.169.254"; "User-Agent: curl/8.0"].
End DemoMmds.
Import DemoMmds.

Lemma mmds_services_agree_witness :
  let request := get_request "//latest/meta-data/tags/0?v=1" headers in
  http_out (response (written doc) request) = render_raw_http request doc /\
  render_raw_http request doc = http_response (200, "text/plain", "a").
Proof.
  split; [|by vm_compute].
  refine (mmds_services_agree "//latest/meta-data/tags/0?v=1" headers doc (written doc) _ _ _ _ _ _); [by vm_compute..| |done].
  split_and!; [by vm_compute..|]. vm_compute. lia.
Defined.
