(* ===== verification/MmdsPath.v ===== *)
(** * Metadata from the host's document to a client in the guest

    One client of the agent's link-local shim ([Agent]) and the block of the
    host's vsock service that answers it ([VsockMmds]), joined by a stream
    socket.  Reads and writes may be split, interrupted or fail at any time,
    and the two sides may move in any order.  What the client is sent is the
    service's answer to the client's own request ([metadata_end_to_end]), so a
    guest sees on the shim what it sees on the network ([MmdsAgree]). *)

From ITree Require Import ITree.
From S2P Require Import Prelude RustStr Utf8 Json Backend HostMmds Proc Sys Agent AgentSpec AgentShim VsockMmds MmdsAgree.
Local Open Scope string_scope.
Local Open Scope Z_scope.
Local Open Scope list_scope.

(** ** The connection *)

(** Bytes under way to the service and to the shim, the shim's descriptor once
    it is connected, and whether the service has closed its end. *)
Record Wire := { up : string; down : string; linked : option Z; closed : bool }.

Section System.
Context `{SwiftText, Foundation}.
Variables (document : string) (client fd : Z).

(** What the shim's actions do.  The end of the stream is read only when the
    service has closed and everything has been read. *)
Definition shim_effect (c : Wire) (a : Act Sys) (c' : Wire) : Prop :=
  match a with
  | Do e r =>
    match e in Sys X return X -> Prop with
    | VsockConnect f _ _ => fun r => match r with
        | Ok _ => c' = {| up := ""; down := ""; linked := Some f; closed := false |}
        | Err _ => c' = c
        end
    | Write f bytes => fun r => match r with
        | Ok n => c' = if bool_decide (linked c = Some f)
                       then {| up := up c +:+ str_take (Z.to_nat n) bytes; down := down c; linked := linked c; closed := closed c |} else c
        | Err _ => c' = c
        end
    | ReadMore f => fun r => match r with
        | Ok s => if bool_decide (linked c = Some f)
                  then (s = "" -> closed c = true /\ down c = "") /\ exists rest, down c = s +:+ rest /\
                    c' = {| up := up c; down := rest; linked := linked c; closed := closed c |}
                  else c' = c
        | Err _ => c' = c
        end
    | _ => fun _ => c' = c
    end r
  end.

(** What the service's actions do; a read may also end early. *)
Definition service_effect (c : Wire) (a : Act Sys) (c' : Wire) : Prop :=
  match a with
  | Do e r =>
    match e in Sys X return X -> Prop with
    | Read _ n => fun r => match r with
        | Ok s => exists rest, up c = s +:+ rest /\ len s <= n /\ c' = {| up := rest; down := down c; linked := linked c; closed := closed c |}
        | Err _ => c' = c
        end
    | Write _ bytes => fun r => match r with
        | Ok n => c' = {| up := up c; down := down c +:+ str_take (Z.to_nat n) bytes; linked := linked c; closed := closed c |}
        | Err _ => c' = c
        end
    | Close _ => fun _ => c' = {| up := up c; down := down c; linked := linked c; closed := true |}
    | _ => fun _ => c' = c
    end r
  end.

Definition on_wire (f : Wire -> Act Sys -> Wire -> Prop) (c : Wire) (l : list (Act Sys)) (c' : Wire) : Prop :=
  match l with
  | [] => c' = c
  | [a] => f c a c'
  | _ => False
  end.

Record Path := {
  shim : P (Result unit string); shim_acts : list (Act Sys);
  service : P unit; service_acts : list (Act Sys);
  wire : Wire }.

(** The service's block is dispatched when the connection has come in. *)
Inductive path_step : Path -> Path -> Prop :=
| shim_moves s l t c : step (shim s) l t -> on_wire shim_effect (wire s) l c ->
    path_step s {| shim := t; shim_acts := shim_acts s ++ l; service := service s; service_acts := service_acts s; wire := c |}
| service_moves s l t c : linked (wire s) <> None -> step (service s) l t -> on_wire service_effect (wire s) l c ->
    path_step s {| shim := shim s; shim_acts := shim_acts s; service := t; service_acts := service_acts s ++ l; wire := c |}.

Definition before : Path := {|
  shim := handle_mmds_linklocal_client client; shim_acts := [];
  service := serve_connection document fd; service_acts := [];
  wire := {| up := ""; down := ""; linked := None; closed := false |} |}.

Inductive reachable : Path -> Prop :=
| reachable_init : reachable before
| reachable_step s s' : reachable s -> path_step s s' -> reachable s'.

(** ** What the two sides have of each other's bytes *)

Definition heard (q : ServicePhase) : string :=
  match q with
  | Accepted => ""
  | Hearing got | VsockMmds.Heard got | Telling got _ | Broken got _ | Answered got | Abandoned got _ => got
  end.
Definition told (q : ServicePhase) : string :=
  match q with
  | Telling _ sent | Broken _ sent | Abandoned _ sent => sent
  | Answered got => reply document got
  | _ => ""
  end.
Definition over (q : ServicePhase) : bool := match q with Answered _ | Abandoned _ _ => true | _ => false end.

(** The service has only told what comes in its reply. *)
Definition truthful (q : ServicePhase) : Prop := exists rest, reply document (heard q) = told q +:+ rest.

(** The service is done, and its answer to a part of the request is the response. *)
Definition settled (q : ServicePhase) (request response : string) : Prop :=
  over q = true /\ response = told q /\ exists rest, request = heard q +:+ rest.

Definition linked_to (p : Relay) (q : ServicePhase) (c : Wire) : Prop :=
  match p with
  | Opened | AgentShim.Heard _ | Dialling _ _ => linked c = None /\ q = Accepted
  | Dialled f _ => linked c = Some f /\ heard q = "" /\ up c = "" /\ told q = down c /\ (closed c = true -> over q = true)
  | Asking f request sent response ended =>
      linked c = Some f /\ heard q +:+ up c = sent /\ response +:+ down c = told q /\ (closed c = true -> over q = true) /\
      (exists rest, request = sent +:+ rest) /\ (ended = true -> over q = true /\ response = told q)
  | Replying request response _ | Served request response _ => settled q request response
  | Lost | Dropped => True
  end.

(** Bytes move between the service and the wire, and only so. *)
Record Moved (q : ServicePhase) (c : Wire) (q' : ServicePhase) (c' : Wire) : Prop := {
  mv_open : over q = false;
  mv_heard : heard q +:+ up c = heard q' +:+ up c';
  mv_told : exists x, told q' = told q +:+ x /\ down c' = down c +:+ x;
  mv_linked : linked c' = linked c;
  mv_closed : closed c' = true -> closed c = true \/ over q' = true;
  mv_truthful : truthful q' }.

Lemma moved_stays q c q' c' : over q = false -> heard q +:+ up c = heard q' +:+ up c' -> told q' = told q -> down c' = down c ->
  linked c' = linked c -> (closed c' = true -> closed c = true \/ over q' = true) -> truthful q' -> Moved q c q' c'.
Proof. intros. split; try done. exists "". by rewrite !app_empty_r. Qed.

Lemma tell_moves q got sent bytes r q' c c' :
  heard q = got -> told q = sent -> over q = false -> tell document got sent bytes r = Some q' ->
  service_effect c (Do (Write fd bytes) r) c' -> Moved q c q' c'.
Proof.
  intros Hh Ht Ho. unfold tell. destruct (String.eqb_spec (sent +:+ bytes) (reply document got)) as [Hb|]; [|done].
  intros Hq%(inj Some) He. cbn in He.
  assert (Hr : forall n, exists rest, reply document got = (sent +:+ str_take n bytes) +:+ rest).
  { intros n. exists (str_drop n bytes). by rewrite app_assoc_s, take_drop_str, Hb. }
  assert (Hs0 : exists rest, reply document got = sent +:+ rest) by eauto.
  destruct r as [n|e]; subst c'.
  - destruct (Z.leb_spec n 0); subst q'.
    + rewrite Z2Nat.nonpos, app_empty_r by done. apply moved_stays; cbn; rewrite ?Hh; auto.
    + split; cbn; rewrite ?Hh, ?Ht; eauto. unfold truthful. cbn. eauto.
  - destruct (is_interrupted e); subst q'; apply moved_stays; cbn; rewrite ?Hh; auto.
Qed.

Lemma service_moved q c a q' c' : truthful q -> service_step document fd q a = Some q' -> service_effect c a c' -> Moved q c q' c'.
Proof.
  intros Hq. destruct a as [X e r]. destruct e; cbn [service_step]; try done.
  - destruct q; try done. destruct (_ && _); [|done]. intros [= <-] ->. by apply moved_stays; cbn; auto.
  - destruct q as [|got| | | | |]; try done. destruct (_ && _ && _) eqn:Hb; [|done]. apply andb_true_iff in Hb as [[_ ->%Z.eqb_eq]%andb_true_iff _].
    intros <-%(inj Some) He. cbn in He. destruct r as [s|e]; [|subst c'; destruct (is_interrupted e); by apply moved_stays; cbn; eauto].
    destruct He as (rest & Hu & Hl & ->). rewrite (filled_all 4096 s Hl). destruct s as [|x s]; cbn [str_is_empty].
    + by apply moved_stays; cbn; eauto; rewrite Hu.
    + apply moved_stays; cbn; try done; [by rewrite Hu, app_assoc_s|auto|by eexists].
  - destruct (Z.eqb_spec fd0 fd) as [->|]; [|done].
    destruct q as [|got|got|got sent| | |]; try done; [destruct (head_complete got); [|done]|..]; by apply tell_moves.
  - destruct (Z.eqb_spec fd0 fd) as [->|]; [|done]. destruct q as [| | |got sent|got sent| |]; try done.
    + destruct (String.eqb_spec sent (reply document got)) as [->|]; [|done]. intros [= <-] ->. by apply moved_stays; cbn; auto.
    + intros [= <-] ->. by apply moved_stays; cbn; auto.
Qed.

Lemma service_link p q c a q' c' :
  linked_to p q c -> truthful q -> linked c <> None -> service_step document fd q a = Some q' -> service_effect c a c' ->
  linked_to p q' c' /\ truthful q'.
Proof.
  intros Hl Hq Hn Hs He. destruct (service_moved q c a q' c' Hq Hs He) as [Ho Hh (x & Hx & Hd) Hk Hc Ht]. split; [|done].
  assert (Hcl : (closed c = true -> over q = true) -> closed c' = true -> over q' = true) by (intros Hw [Hy|Hy]%Hc; [apply Hw in Hy; congruence|done]).
  destruct p as [|g|f r|f r|f r sent resp b|r resp out| |r resp out|]; cbn in *; try done; try (by destruct Hl as [? _]).
  - destruct Hl as (Hf & Hg & Hu & Hdn & Hw). rewrite Hg, Hu in Hh. destruct (heard q') eqn:E1, (up c') eqn:E2; try done.
    split_and!; [congruence|done|done| |auto]. by rewrite Hx, Hdn, Hd.
  - destruct Hl as (Hf & Hg & Hr & Hw & Hrest & Hb). split_and!; [congruence|congruence| |auto|done|].
    + by rewrite Hx, <- Hr, Hd, app_assoc_s.
    + intros Hbt. destruct (Hb Hbt). congruence.
  - destruct Hl as (? & _). congruence.
  - destruct Hl as (? & _). congruence.
Qed.

Lemma shim_link p q c a p' c' : linked_to p q c -> relay_step client p a = Some p' -> shim_effect c a c' -> linked_to p' q c'.
Proof.
  intros Hl. destruct a as [X e r]. destruct e; cbn [relay_step]; try done.
  - (* VsockSocket *) destruct p; try done. intros [= <-] ->. destruct r; [done|exact I].
  - (* VsockConnect *) destruct p as [| |f req| | | | | |]; try done. destruct (_ && _) eqn:Hb; [|done].
    apply andb_true_iff in Hb as [[->%Z.eqb_eq _]%andb_true_iff _]. intros [= <-] He. cbn in He.
    destruct r; [|by subst c']. destruct Hl as [_ ->]. subst c'. by cbn.
  - (* ReadTimeout *) destruct seconds as [n|]; [|done]. destruct p as [| | |f req| | | | |]; try done; destruct (_ && _); try done; intros [= <-] ->.
    + destruct r; [done|exact I].
    + destruct r; [|done]. destruct Hl as (Hf & Hg & Hu & Hd & Hw). cbn. rewrite Hg, Hu. split_and!; try done. by eexists.
  - (* Read *) destruct p; try done. destruct (_ =? _); [|done]. intros [= <-] ->. done.
  - (* ReadMore *) destruct p as [| | | |f req sent resp b| | | |]; try done. destruct b; [done|]. destruct (_ && _) eqn:Hb; [|done].
    apply andb_true_iff in Hb as [->%Z.eqb_eq _]. intros [= <-] He. destruct Hl as (Hf & Hg & Hr & Hw & Hrest & _). cbn in He.
    destruct r as [s|e]; [|subst c'; by cbn]. rewrite Hf, bool_decide_eq_true_2 in He by done. destruct He as (Hend & rest & Hd & ->). cbn.
    split_and!; try done; [by rewrite app_assoc_s, <- Hd|]. destruct s; [|done]. intros _. destruct (Hend eq_refl) as [Hcl Hdn].
    split; [auto|]. rewrite Hdn, app_empty_r in Hr. by rewrite app_empty_r.
  - (* Write *) destruct p as [| | | |f req sent resp b|req resp out| | |]; try done.
    + destruct resp; [|done]. destruct b; [done|]. destruct (_ && _) eqn:Hb; [|done]. apply andb_true_iff in Hb as [->%Z.eqb_eq Hs%String.eqb_eq].
      intros [= <-] He. destruct Hl as (Hf & Hg & Hr & Hw & Hrest & _). cbn in He.
      destruct r as [n|e]; [|subst c'; rewrite app_empty_r; by cbn; split_and!].
      rewrite Hf, bool_decide_eq_true_2 in He by done. subst c'. cbn. split_and!; try done; [by rewrite <- Hg, app_assoc_s|].
      exists (str_drop (Z.to_nat n) bytes). by rewrite app_assoc_s, take_drop_str.
    + destruct (_ && _); [|done]. by intros [= <-] _.
  - (* Close *) destruct p as [|g|f req|f req|f req sent resp b|req resp out| |req resp out|]; try done; try (destruct (_ =? _); [|done]);
      try (by intros [= <-] _).
    destruct b; (destruct (_ =? _); [|done]); intros [= <-] _; [|done].
    destruct Hl as (Hf & Hg & Hr & Hw & [rest Hrest] & Hb). destruct (Hb eq_refl) as [Ho Hre]. split_and!; [done..|].
    exists (up c +:+ rest). by rewrite Hrest, <- Hg, app_assoc_s.
Qed.

(** ** The invariant *)

Definition shim_done (r : Result unit string) (p : Relay) : Prop :=
  match r with Ok _ => exists request response, p = Served request response response | Err _ => True end.
Definition service_done (_ : unit) (q : ServicePhase) : Prop :=
  exists got, len got < 12288 /\ (q = Answered got \/ exists sent, q = Abandoned got sent).

Record Fit (s : Path) (p : Relay) (q : ServicePhase) : Prop := {
  fit_relay : accepts (relay_step client) Opened (shim_acts s) = Some p;
  fit_shim : Follows (relay_step client) p (shim s) shim_done;
  fit_phase : accepts (service_step document fd) Accepted (service_acts s) = Some q;
  fit_service : Follows (service_step document fd) q (service s) service_done;
  fit_truthful : truthful q;
  fit_link : linked_to p q (wire s) }.

Lemma fit_reachable s : reachable s -> exists p q, Fit s p q.
Proof.
  induction 1 as [|s s' _ (p & q & [Hp Hs Hq Hv Ht Hl]) Hm].
  - exists Opened, Accepted. split; try done; [apply relay_follows|apply service_follows|]. by exists (reply document "").
  - destruct Hm as [s l t c Hst He|s l t c Hn Hst He].
    + destruct (follows_step _ _ _ _ _ _ Hs Hst) as (p' & Ha & Hf). exists p', q.
      split; cbn; try done; [by rewrite accepts_app, Hp|]. destruct l as [|a [|]]; cbn in He, Ha; [|by destruct (relay_step client p a) eqn:E; [simplify_eq; eapply shim_link|]|done].
      by simplify_eq.
    + destruct (follows_step _ _ _ _ _ _ Hv Hst) as (q' & Ha & Hf). exists p, q'.
      assert (linked_to p q' c /\ truthful q') as [Hl' Ht'].
      { destruct l as [|a [|]]; cbn in He, Ha; [by simplify_eq| |done].
        destruct (service_step document fd q a) eqn:E; [|done]. simplify_eq. by eapply service_link. }
      split; cbn; try done. by rewrite accepts_app, Hq.
Qed.

(** ** A connection that is neither cut off nor times out *)

Definition steady_act (a : Act Sys) : bool :=
  match a with
  | Do e r =>
    match e in Sys X return X -> bool with
    | Read _ n => fun r => match r with Ok s => negb (str_is_empty (filled n s)) | Err e => is_interrupted e end
    | Write _ _ => fun r => match r with Ok n => 0 <? n | Err e => is_interrupted e end
    | _ => fun _ => true
    end r
  end.
Definition steady (l : list (Act Sys)) : bool := forallb steady_act l.

Definition complete (q : ServicePhase) : Prop :=
  match q with
  | VsockMmds.Heard _ | Broken _ _ | Abandoned _ _ => False
  | Telling got _ | Answered got => head_complete got = true
  | _ => True
  end.

Lemma steady_tell got sent bytes r q : head_complete got = true -> steady_act (Do (Write fd bytes) r) = true ->
  tell document got sent bytes r = Some q -> complete q.
Proof.
  intros Hg Hs. unfold tell. destruct (String.eqb _ _); [|done]. intros [= <-]. cbn in Hs. destruct r as [n|e].
  - destruct (Z.leb_spec n 0); [lia|done].
  - by rewrite Hs.
Qed.
Lemma steady_step q a q' : complete q -> steady_act a = true -> service_step document fd q a = Some q' -> complete q'.
Proof.
  intros Hc. destruct a as [X e r]. destruct e; cbn [service_step]; try done; intros Hs.
  - destruct q; try done. destruct (_ && _); [|done]. by intros [= <-].
  - destruct q; try done. destruct (_ && _ && _) eqn:Hb; [|done]. apply andb_true_iff in Hb as [[_ ->%Z.eqb_eq]%andb_true_iff _]. intros [= <-].
    cbn in Hs. destruct r as [s|e]; [by destruct (str_is_empty _)|by rewrite Hs].
  - destruct (Z.eqb_spec fd0 fd) as [->|]; [|done]. destruct q as [|got|got|got sent| | |]; try done; [destruct (head_complete got) eqn:Hh; [|done]|];
      by eapply steady_tell.
  - destruct (fd0 =? fd); [|done]. destruct q; try done. destruct (String.eqb _ _); [|done]. by intros [= <-].
Qed.
Lemma steady_complete l q q' : complete q -> steady l = true -> accepts (service_step document fd) q l = Some q' -> complete q'.
Proof.
  revert q. induction l as [|a l IH]; intros q Hc; cbn; [by intros _ [= <-]|]. intros [Ha Hl]%andb_true_iff.
  destruct (service_step document fd q a) as [q1|] eqn:E; [|done]. apply IH; [by eapply steady_step|done].
Qed.

Lemma served_by s : reachable s -> observe (shim s) = RetF (Ok tt) ->
  exists request got rest answer cut,
    accepts (relay_step client) Opened (shim_acts s) = Some (Served request answer answer) /\
    request = got +:+ rest /\ http_out (response document got) = answer +:+ cut /\
    (steady (service_acts s) = true -> head_complete got = true /\ cut = "").
Proof.
  intros (p & q & [Hp Hs Hq Hv [cut Ht] Hl])%fit_reachable Hr. apply (follows_returned _ _ _ _ _ Hs) in Hr as (request & answer & ->).
  destruct Hl as (Ho & -> & rest & Hrest). exists request, (heard q), rest, (told q), cut. split_and!; try done.
  intros Hst. pose proof (steady_complete _ Accepted _ I Hst Hq) as Hc. destruct q as [| | | | |got|]; try done. split; [done|].
  change (reply document got = reply document got +:+ cut) in Ht. rewrite <- (app_empty_r (reply document got)) in Ht at 1. by apply append_cancel in Ht.
Qed.
End System.

(** ** The end of a request's head *)

Lemma contains_split p s : contains p s = true -> exists a b, s = a +:+ p +:+ b.
Proof.
  induction s as [|x s IH]; cbn; rewrite ?orb_true_iff.
  - intros [Hs|]; [|done]. apply starts_with_spec in Hs as [r ->]. by exists "", r.
  - intros [Hs|(a & b & ->)%IH]; [|by exists (String x a), b]. apply starts_with_spec in Hs as [r ->]. by exists "", r.
Qed.

(** Where a blank line stands in text that starts with a line: at its end, or further on. *)
Lemma blank_after l text a x : contains_char CR l = false ->
  l +:+ String CR (String NL text) = a +:+ endOfHeaders +:+ x ->
  text = crlf +:+ x \/ exists a', text = a' +:+ endOfHeaders +:+ x.
Proof.
  revert a. induction l as [|c l IH]; cbn; intros a Hl Ha.
  - destruct a as [|c1 [|c2 a]]; cbn in Ha; [by left; injection Ha|by injection Ha|]. injection Ha as _ _ ->. right. by exists a.
  - apply orb_false_iff in Hl as [Hc Hl]. destruct a as [|c' a]; [|injection Ha as _ Ha; by eapply IH].
    cbn in Ha. injection Ha as -> _. done.
Qed.
Definition request_text (ls : list string) : string := unlines ((fun l => l +:+ String CR "") <$> ls).
Lemma request_text_cons l ls : request_text (l :: ls) = l +:+ String CR (String NL (request_text ls)).
Proof. unfold request_text. cbn [fmap list_fmap unlines]. by rewrite app_assoc_s. Qed.
Lemma blank_at_end ls a x : Forall (fun l => l <> "" /\ contains_char CR l = false) ls ->
  request_text (ls ++ [""]) = a +:+ endOfHeaders +:+ x -> x = "".
Proof.
  intros Hl. revert a. induction Hl as [|l ls [Hne Hc] Hls IH]; intros a; cbn [app]; rewrite request_text_cons.
  - intros [Ht|[a' Ht]]%blank_after; [done| |done]. by destruct a'.
  - intros [Ht|[a' Ht]]%blank_after; [|by eapply IH|done]. clear IH. destruct Hls as [|l' ls [Hne' Hc'] _]; cbn [app] in Ht; rewrite request_text_cons in Ht.
    + cbn in Ht. by injection Ht.
    + destruct l' as [|c l']; [done|]. cbn in Ht, Hc'. injection Ht as -> _. done.
Qed.

(** What has come in of a request, once its head is complete, is the request. *)
Lemma complete_request t hs got rest : str_forall graphic t = true -> forallb header_line hs = true -> len (get_request t hs) < 8192 ->
  get_request t hs = got +:+ rest -> head_complete got = true -> got = get_request t hs.
Proof.
  intros Ht Hh Hl Hg [Hb|Hb]%orb_true_iff.
  - apply Z.leb_le in Hb. rewrite Hg, len_app_s in Hl. pose proof (len_nonneg rest). lia.
  - apply contains_split in Hb as (a & b & ->). rewrite !app_assoc_s in Hg.
    assert (b +:+ rest = "") as Hbr.
    { apply (blank_at_end (("GET " +:+ t +:+ " HTTP/1.1") :: hs) a); [|exact Hg].
      pose proof (request_lines_printable t hs Ht Hh) as Hp. unfold request_lines in Hp. apply Forall_cons in Hp as [Hp1 Hp].
      constructor; [split; [done|by apply printable_no_nl]|]. apply Forall_forall. intros h Hi. split.
      - apply list_elem_of_In in Hi. pose proof (proj1 (forallb_forall _ _) Hh h Hi) as He. by destruct h.
      - apply Forall_app in Hp as [Hp _]. by apply printable_no_nl, (proj1 (Forall_forall _ _) Hp). }
    destruct b; [|done]. cbn in Hbr. subst rest. by rewrite Hg.
Qed.

(** C15: A client of the metadata shim is served by the host's document.  In
    every state that the shim and the vsock service can reach, in any
    interleaving, with reads and writes split, interrupted or failing: when
    the shim has served a client, the client was sent bytes that begin the
    service's response to bytes that begin the client's request, and nothing
    else.  If no read of the service ended early and no write failed, the
    client was sent all of the response to a request whose head was complete. *)
Theorem metadata_end_to_end `{SwiftText, Foundation} document client fd s :
  reachable document client fd s -> observe (shim s) = RetF (Ok tt) ->
  exists request got rest answer cut,
    accepts (relay_step client) Opened (shim_acts s) = Some (Served request answer answer) /\
    request = got +:+ rest /\ http_out (response document got) = answer +:+ cut /\
    (steady (service_acts s) = true -> head_complete got = true /\ cut = "").
Proof. apply served_by. Qed.

(** A guest reads through the shim what it reads on its network.  A client
    of the shim that sends a GET for a path, with any headers, in fewer than
    8192 bytes, and is served without a read or write cut short, has been
    sent what the daemon's own responder answers to the same request for the
    same document, up to the differences of [answers_agree]. *)
Theorem guest_get_end_to_end `{AsciiText, JsonText} document doc client fd s t hs answer :
  reachable document client fd s -> observe (shim s) = RetF (Ok tt) -> steady (service_acts s) = true ->
  accepts (relay_step client) Opened (shim_acts s) = Some (Served (get_request t hs) answer answer) ->
  str_forall graphic t = true -> starts_with "/" t = true -> plain_keys t = true -> forallb header_line hs = true ->
  len (get_request t hs) < 8192 -> plain_doc doc -> json_to_vec doc = Ok document ->
  answers_agree (existsb accepts_header hs) (lookup doc (sanitize_path t)) answer (render_raw_http (get_request t hs) doc).
Proof.
  intros Hr Ho Hs Ha Ht Hs' Hk Hh Hl Hd Hj. destruct (served_by _ _ _ _ Hr Ho) as (request & got & rest & answer' & cut & Ha' & Hg & Hw & Hst).
  rewrite Ha in Ha'. injection Ha' as <- <-. destruct (Hst Hs) as [Hc ->]. rewrite app_empty_r in Hw. subst answer.
  rewrite (complete_request t hs got rest) by done. by apply services_agree.
Qed.

(** ** A concrete run *)

Import DemoMmds.

Module DemoPath.
Definition target : string := "/latest/meta-data/?pretty".
Definition request : string := get_request target headers.

(** A client that sends its request at once, and a kernel that splits writes
    and lets a reader wait. *)
Definition shim_answer {X} (e : Sys X) (c : Wire) : X * Wire :=
  match e in Sys X return X * Wire with
  | Read _ _ => (Ok request, c)
  | VsockSocket => (Ok 7, c)
  | VsockConnect f _ _ => (Ok tt, {| up := ""; down := ""; linked := Some f; closed := false |})
  | Write f bytes => (Ok 50, if bool_decide (linked c = Some f)
      then {| up := up c +:+ str_take 50 bytes; down := down c; linked := linked c; closed := closed c |} else c)
  | ReadMore f =>
      if bool_decide (linked c = Some f) && (closed c || negb (str_is_empty (down c)))
      then (Ok (str_take 60 (down c)), {| up := up c; down := str_drop 60 (down c); linked := linked c; closed := closed c |})
      else (Err {| kind := Interrupted; text := "" |}, c)
  | e => (fst (DemoAgent.answer e ""), c)
  end.
Definition service_answer {X} (e : Sys X) (c : Wire) : X * Wire :=
  match e in Sys X return X * Wire with
  | Read _ n =>
      if 0 <=? n then (Ok (str_take (Z.to_nat n) (up c)), {| up := str_drop (Z.to_nat n) (up c); down := down c; linked := linked c; closed := closed c |})
      else (Err unexpected_eof, c)
  | Write _ bytes => (Ok 40, {| up := up c; down := down c +:+ str_take 40 bytes; linked := linked c; closed := closed c |})
  | Close _ => (tt, {| up := up c; down := down c; linked := linked c; closed := true |})
  | e => (fst (DemoAgent.answer e ""), c)
  end.

Lemma shim_answer_ok {X} (e : Sys X) c : shim_effect c (Do e (fst (shim_answer e c))) (snd (shim_answer e c)).
Proof.
  destruct e; cbn; try done. case_bool_decide as Hl; cbn; [|done].
  destruct (closed c || negb (str_is_empty (down c))) eqn:Hc; cbn; [|done]. split.
  - destruct (down c) as [|x r]; [by rewrite orb_false_r in Hc|done].
  - exists (str_drop 60 (down c)). split; [|done]. exact (eq_sym (take_drop_str 60 (down c))).
Qed.
Lemma service_answer_ok {X} (e : Sys X) c : service_effect c (Do e (fst (service_answer e c))) (snd (service_answer e c)).
Proof.
  destruct e; cbn; try done. destruct (Z.leb_spec 0 n); cbn; [|done]. eexists. split; [|split; [|done]]; [by rewrite take_drop_str|by apply filled_len].
Qed.

(** [n] steps of the shim, and of the service. *)
Fixpoint run_shim (n : nat) (s : Path) : Path :=
  match n with
  | O => s
  | S n' =>
      let next l t c := run_shim n' {| shim := t; shim_acts := shim_acts s ++ l; service := service s; service_acts := service_acts s; wire := c |} in
      match observe (shim s) with
      | RetF _ => s
      | TauF t => next [] t (wire s)
      | VisF e k => next [Do e (fst (shim_answer e (wire s)))] (k (fst (shim_answer e (wire s)))) (snd (shim_answer e (wire s)))
      end
  end.
Fixpoint run_service (n : nat) (s : Path) : Path :=
  match n with
  | O => s
  | S n' =>
      let next l t c := run_service n' {| shim := shim s; shim_acts := shim_acts s; service := t; service_acts := service_acts s ++ l; wire := c |} in
      match linked (wire s), observe (service s) with
      | None, _ | _, RetF _ => s
      | _, TauF t => next [] t (wire s)
      | _, VisF e k => next [Do e (fst (service_answer e (wire s)))] (k (fst (service_answer e (wire s)))) (snd (service_answer e (wire s)))
      end
  end.
Lemma run_shim_reachable document n s : reachable document 4 9 s -> reachable document 4 9 (run_shim n s).
Proof.
  revert s. induction n as [|n IH]; intros s Hs; cbn; [done|]. destruct (observe (shim s)) as [r|t|X e k] eqn:Ho; [done|..]; apply IH.
  - eapply reachable_step; [done|]. apply shim_moves; [unfold step; by rewrite Ho|done].
  - eapply reachable_step; [done|]. apply shim_moves; [unfold step; rewrite Ho; eauto|apply shim_answer_ok].
Qed.
Lemma run_service_reachable document n s : reachable document 4 9 s -> reachable document 4 9 (run_service n s).
Proof.
  revert s. induction n as [|n IH]; intros s Hs; cbn; [done|]. destruct (linked (wire s)) eqn:Hl; [|done].
  destruct (observe (service s)) as [r|t|X e k] eqn:Ho; [done|..]; apply IH.
  - eapply reachable_step; [done|]. apply service_moves; [by rewrite Hl|unfold step; by rewrite Ho|done].
  - eapply reachable_step; [done|]. apply service_moves; [by rewrite Hl|unfold step; rewrite Ho; eauto|apply service_answer_ok].
Qed.

Definition document : string := written doc.
Definition final : Path := run_shim 80 (run_service 40 (run_shim 30 (before document 4 9))).
Lemma final_reachable : reachable document 4 9 final.
Proof. apply run_shim_reachable, run_service_reachable, run_shim_reachable, reachable_init. Qed.
Definition listing : string := http_response (200, "text/plain", "id" +:+ nl +:+ "tags").
Lemma doc_plain : plain_doc doc.
Proof. split_and!; [by vm_compute..|]. vm_compute. lia. Qed.
End DemoPath.

Lemma metadata_end_to_end_witness :
  exists request got rest answer cut,
    accepts (relay_step 4) Opened (shim_acts DemoPath.final) = Some (Served request answer answer) /\
    request = got +:+ rest /\ http_out (response DemoPath.document got) = answer +:+ cut /\
    (steady (service_acts DemoPath.final) = true -> head_complete got = true /\ cut = "").
Proof.
  assert (Ho : observe (shim DemoPath.final) = RetF (Ok tt)) by (vm_compute; reflexivity).
  exact (metadata_end_to_end DemoPath.document 4 9 DemoPath.final DemoPath.final_reachable Ho).
Defined.

Lemma guest_get_end_to_end_witness :
  accepts (relay_step 4) Opened (shim_acts DemoPath.final) = Some (Served DemoPath.request DemoPath.listing DemoPath.listing) /\
  answers_agree false (lookup doc (sanitize_path DemoPath.target)) DemoPath.listing (render_raw_http DemoPath.request doc).
Proof.
  assert (Ha : accepts (relay_step 4) Opened (shim_acts DemoPath.final) = Some (Served DemoPath.request DemoPath.listing DemoPath.listing))
    by (vm_compute; reflexivity).
  split; [exact Ha|].
  refine (guest_get_end_to_end DemoPath.document doc 4 9 DemoPath.final DemoPath.target headers DemoPath.listing DemoPath.final_reachable
    _ _ Ha _ _ _ _ _ DemoPath.doc_plain eq_refl); vm_compute; reflexivity.
Defined.
