(* ===== verification/MmdsLive.v ===== *)
(** * From the API to the guest (backend.rs, DirectVZ.swift)

    The document a client of the API puts is what the guest reads: the backend
    hands it to Swift at every change and at every start of a VM, Swift
    installs a listener with it on the VM's socket device, and the guest's
    shim reads from that listener ([MmdsPath]).  The Swift side's state is
    computed from the calls of a trace; a small logic, [Told], carries it
    through the code of the backend. *)

From S2P Require Import Prelude RustStr Utf8 Json World Calls Bridge FcApi Pool Telemetry BackendState Backend Ledger BackendBoot BackendSpec BackendProps.
Local Open Scope string_scope.
Local Open Scope Z_scope.
Local Open Scope list_scope.

(** ** The Swift side *)

(** A [VzVmHandle] of DirectVZ.swift as far as its vsock listeners: whether
    the VM has a socket device, the document of the listener on each port,
    and the services the handle keeps alive. *)
Record SwiftVm := { socket_device : bool; listener : gmap Z string; socketListeners : list string }.

(** Every configuration has [socketDevices = [VZVirtioSocketDeviceConfiguration()]]. *)
Definition new_handle : SwiftVm := {| socket_device := true; listener := ∅; socketListeners := [] |}.

(** The status, the error it writes, and the handle afterwards; [None] is a
    null pointer.  [setSocketListener] replaces the listener of the port. *)
Definition hb_vz_long_serve_mmds (port : Z) (json : option string) (vm : option SwiftVm) : HbStatus * option string * option SwiftVm :=
  match vm, json with
  | Some vm, Some data =>
      if negb (socket_device vm) then (HbSwiftError, Some "VM has no virtio-vsock device configured", Some vm)
      else (HbOk, None, Some {| socket_device := socket_device vm; listener := <[port := data]> (listener vm);
                                socketListeners := socketListeners vm ++ [data] |})
  | _, _ => (HbInvalidArgument, Some "null vm/json", vm)
  end.

Abbreviation Handles := (gmap Z SwiftVm).
(** A call of the bridge, on the Swift side.  (The entry of a freed VM stays
    until its address is used again.) *)
Definition swift_call (e : Event) (g : Handles) : Handles :=
  match e with
  | Ev (HbLongServeMmds h port json) _ => partial_alter (K := Z) (fun vm => snd (hb_vz_long_serve_mmds port (Some json) vm)) h g
  | _ => foldr (fun h g => <[h := new_handle]> g) g (created_by e)
  end.
Definition swift_run (t : Trace) (g : Handles) : Handles := fold_left (fun g e => swift_call e g) t g.

Lemma swift_run_app t1 t2 g : swift_run (t1 ++ t2) g = swift_run t2 (swift_run t1 g).
Proof. apply fold_left_app. Qed.

(** The VM is there; and its guest is served the document [v]. *)
Definition alive (g : Handles) (h : Z) : Prop := exists vm, g !! h = Some vm /\ socket_device vm = true.
Definition serves `{Serde} (g : Handles) (h : Z) (v : Value) : Prop :=
  exists vm text, g !! h = Some vm /\ socket_device vm = true /\ json_to_vec v = Ok text /\ listener vm !! MMDS_VSOCK_PORT = Some text.

(** ** Computations and the Swift side's state *)

Definition Told {W} `{Outside W} {S E A} (P : S -> Handles -> Prop) (m : M W S E A) (Q : Result A E -> S -> Handles -> Prop) : Prop :=
  forall s w g, P s g -> wp m (fun r s' _ t => Q r s' (swift_run t g)) s w.

(** Calls that leave the Swift side's state alone. *)
Definition silent_call (A : Type) (c : Call A) : Prop :=
  match c with
  | HbLongServeMmds _ _ _ | HbLongNew _ | HbLongRestore _ _ _ | HbPoolRestoreLong _ _ _ _ _ _ _ | HbStockPoolRestoreLong _ _ _ _ _ _ => False
  | _ => True
  end.
Lemma silent_run t g : Only silent_call t -> swift_run t g = g.
Proof.
  intros Ht. revert g. induction Ht as [|[A c a] t Hc _ IH]; intros g; [done|]. cbn [swift_run fold_left]. change (swift_run t (swift_call (Ev c a) g) = g).
  rewrite IH. by destruct c.
Qed.

Section Logic.
Context {W : Type} `{Outside W} {S E : Type}.

Lemma told_weaken {A} (P P' : S -> Handles -> Prop) (m : M W S E A) (Q Q' : Result A E -> S -> Handles -> Prop) :
  Told P m Q -> (forall s g, P' s g -> P s g) -> (forall r s g, Q r s g -> Q' r s g) -> Told P' m Q'.
Proof. intros Hm HP HQ s w g Hs. eapply wp_mono; [by apply Hm, HP|]. intros. by apply HQ. Qed.
Lemma told_ret {A} (a : A) (Q : Result A E -> S -> Handles -> Prop) : Told (Q (Ok a)) (ret a) Q.
Proof. intros s w g Hs. by wp_step. Qed.
Lemma told_fail {A} e (Q : Result A E -> S -> Handles -> Prop) : Told (Q (Err e)) (fail e) Q.
Proof. intros s w g Hs. by wp_step. Qed.
Lemma told_lift {A} (r : Result A E) (Q : Result A E -> S -> Handles -> Prop) : Told (Q r) (lift r) Q.
Proof. intros s w g Hs. by wp_step. Qed.
Lemma told_modify f (Q : Result unit E -> S -> Handles -> Prop) : Told (fun s g => Q (Ok tt) (f s) g) (modify f) Q.
Proof. intros s w g Hs. by wp_step. Qed.
Lemma told_get {B} (k : S -> M W S E B) P Q : (forall s0, Told (fun s g => s = s0 /\ P s g) (k s0) Q) -> Told P (bind get k) Q.
Proof. intros Hk s w g Hs. do 2 wp_step. by apply Hk. Qed.
Lemma told_read {B} (k : S -> M W S E B) P Q : (forall s0, Told P (k s0) Q) -> Told P (bind get k) Q.
Proof. intros Hk s w g Hs. do 2 wp_step. by apply Hk. Qed.
Lemma told_bind {A B} (m : M W S E A) (k : A -> M W S E B) P (R : Result A E -> S -> Handles -> Prop) Q :
  Told P m R -> (forall a, Told (R (Ok a)) (k a) Q) -> (forall e s g, R (Err e) s g -> Q (Err e) s g) -> Told P (bind m k) Q.
Proof.
  intros Hm Hk He s w g Hs. wp_step. eapply wp_mono; [by apply Hm|]. intros [a|e] s1 w1 t1 Hr; [|by apply He].
  eapply wp_mono; [by apply (Hk a)|]. intros r s2 w2 t2 Hr2. by rewrite swift_run_app.
Qed.
Lemma told_set {B} (f : S -> S) (k : unit -> M W S E B) (P R : S -> Handles -> Prop) Q :
  (forall s g, P s g -> R (f s) g) -> Told R (k tt) Q -> Told P (bind (modify f) k) Q.
Proof. intros Hf Hk s w g Hs. do 2 wp_step. by apply Hk, Hf. Qed.
Lemma told_with_err {E' A} (f : E -> E') (m : M W S E A) P (Q : Result A E' -> S -> Handles -> Prop) :
  Told P m (fun r => Q (map_err f r)) -> Told P (with_err f m) Q.
Proof. intros Hm s w g Hs. wp_step. by apply Hm. Qed.
Lemma told_attempt {E' A} (m : M W S E A) P (Q : Result (Result A E) E' -> S -> Handles -> Prop) :
  Told P m (fun r => Q (Ok r)) -> Told P (attempt m) Q.
Proof. intros Hm s w g Hs. wp_step. by apply Hm. Qed.
Lemma told_bind_attempt {E' A B} (m : M W S E' A) (k : Result A E' -> M W S E B) P R Q :
  Told P m R -> (forall r, Told (R r) (k r) Q) -> Told P (bind (attempt m) k) Q.
Proof. intros Hm Hk. apply (told_bind _ _ _ (fun r s g => match r with Ok r => R r s g | Err _ => False end)); [intros s w g Hs; wp_step; by apply Hm|done|done]. Qed.
(** A computation that leaves the Swift side alone, and some of the state. *)
Lemma told_silent {A C} (m : M W S E A) (f : S -> C) (P : S -> Handles -> Prop) (R : C -> Handles -> Prop) :
  (forall c, Keeps (fun s => f s = c) silent_call m whatever) -> (forall s g, P s g -> R (f s) g) -> Told P m (fun _ s g => R (f s) g).
Proof.
  intros Hm HP s w g Hs. eapply wp_mono; [by apply (Hm (f s))|]. intros r s' w' t (-> & Ho & _). rewrite silent_run by done. by apply HP.
Qed.
(** A call that creates a VM. *)
Lemma told_creates {A} (c : Call (FfiReply A)) (h : A -> Handle) P (Q : Result A VmError -> S -> Handles -> Prop) :
  (forall a g, swift_call (Ev c a) g = foldr (fun h g => <[h := new_handle]> g) g (made a h)) ->
  (forall a s g, P s g -> alive (<[h a := new_handle]> g) (h a) -> Q (Ok a) s (<[h a := new_handle]> g)) ->
  (forall e s g, P s g -> Q (Err e) s g) -> Told P (ffi c : M W S VmError A) Q.
Proof.
  intros Hc HOk HErr s w g Hs. apply wp_ffi.
  - intros a w' Ha. cbn [swift_run fold_left]. rewrite Hc. unfold made. rewrite Ha. cbn [foldr]. apply HOk; [done|]. exists new_handle. split; [apply lookup_insert_eq|done].
  - intros a e w' Ha. cbn [swift_run fold_left]. rewrite Hc. unfold made. destruct (status a); try done; by apply HErr.
Qed.
End Logic.

(** ** What leaves the VM and the document alone *)

Definition core (b : VzBackend) : option Handle * Value := (vm b, mmds b).

Section Silent.
Context {W : Type} `{Outside W} `{Serde} {S : Type}.

Section Bridge.
Context {I : S -> Prop}.
Abbreviation Silent m := (Keeps (W := W) I silent_call m whatever).
Lemma ffi_silent {A} (c : Call (FfiReply A)) : silent_call _ c -> Silent (ffi c).
Proof. intros Hc. unfold ffi. keeps. Qed.
Lemma vm_save_silent vm p : Silent (vm_save_state vm p).
Proof. unfold vm_save_state. keeps. by apply ffi_silent. Qed.
Lemma drop_vm_silent {E} vm : Silent (drop_vm (E := E) vm).
Proof. unfold drop_vm. keeps. Qed.
Lemma claim_silent d i n : Silent (claim_from d i n).
Proof. revert i. induction n; cbn [claim_from]; keeps. Qed.
Lemma clone_silent a b : Silent (clone_file a b).
Proof. unfold clone_file. keeps. Qed.
Lemma drop_slot_silent {E} slot : Silent (drop_slot (E := E) slot).
Proof. unfold drop_slot. keeps. Qed.
#[local] Hint Resolve claim_silent clone_silent : keeps.
Lemma claim_matching_silent p spec : Silent (try_claim_matching_slot p spec).
Proof. unfold try_claim_matching_slot, try_claim_slot. keeps. Qed.
Lemma canonicalize_silent {E} spec : Silent (canonicalize_spec (E := E) spec).
Proof. unfold canonicalize_spec, canonicalize_or. keeps. Qed.
End Bridge.
End Silent.
#[local] Hint Resolve ffi_silent vm_save_silent drop_vm_silent claim_silent clone_silent drop_slot_silent claim_matching_silent canonicalize_silent : keeps.

#[local] Hint Extern 1 (silent_call _ _) => exact Logic.I : keeps.

Section Backend.
Context {W : Type} `{Outside W} `{Serde} {c : option Handle * Value}.
Abbreviation Silent m := (Keeps (W := W) (fun b => core b = c) silent_call m whatever).

Lemma preboot_silent : Silent require_preboot.
Proof. unfold require_preboot. keeps. Qed.
Lemma balloon_amount_silent n : Silent (validate_balloon_amount n).
Proof. unfold validate_balloon_amount. keeps. Qed.
Lemma drop_arc_silent h : Silent (drop_arc h).
Proof. unfold drop_arc. keeps. Qed.
#[local] Hint Resolve preboot_silent balloon_amount_silent drop_arc_silent : keeps.
Lemma put_vmnet_silent x : Silent (put_vmnet_mmds x).
Proof. unfold put_vmnet_mmds, drop_responder. keeps. Qed.
Lemma put_bridge_silent x : Silent (put_vsock_bridge x).
Proof. unfold put_vsock_bridge, drop_bridge. keeps. Qed.
Lemma put_slot_silent x : Silent (put_pool_slot x).
Proof. unfold put_pool_slot. keeps. Qed.
Lemma write_log_silent l o n m : Silent (write_log l o n m).
Proof. unfold write_log. keeps. Qed.
Lemma flush_silent : Silent flush_metrics.
Proof. unfold flush_metrics. keeps. Qed.
Lemma balloon_target_silent : Silent apply_balloon_target.
Proof. unfold apply_balloon_target, vm_set_balloon_target. keeps. Qed.
#[local] Hint Resolve put_vmnet_silent put_bridge_silent put_slot_silent write_log_silent flush_silent balloon_target_silent : keeps.
Lemma vmnet_start_silent h : Silent (start_vmnet_mmds h).
Proof. unfold start_vmnet_mmds, responder_start. keeps. Qed.
Lemma initial_balloon_silent : Silent apply_initial_balloon.
Proof. unfold apply_initial_balloon. keeps. Qed.
Lemma log_path_silent : Silent serial_log_path.
Proof. unfold serial_log_path. keeps. Qed.
Lemma configured_balloon_silent : Silent validate_configured_balloon.
Proof. unfold validate_configured_balloon. keeps. Qed.
Lemma bridge_start_silent h p : Silent (bridge_start h p).
Proof. unfold bridge_start. keeps. Qed.
Lemma mem_backend_silent p : Silent (check_mem_backend p).
Proof. unfold check_mem_backend. keeps. Qed.
Lemma machine_silent cfg : Silent (put_machine_config cfg).
Proof. unfold put_machine_config. keeps. Qed.

(** The requests that neither set the document nor start a VM. *)
Definition plain_request (r : Request) : bool :=
  match r with PutMmds _ | PatchMmds _ | StartMicroVm | LoadSnapshot _ => false | _ => true end.
#[local] Hint Resolve machine_silent : keeps.
Lemma exec_silent r : plain_request r = true -> Silent (exec r).
Proof.
  intros Hr. destruct r; try done; cbn [exec]; try solve [eauto with keeps].
  - unfold configure_boot_source. keeps.
  - unfold insert_block_device. keeps.
  - unfold update_block_device. keeps.
  - unfold insert_network_device. keeps.
  - unfold update_network_device. keeps.
  - unfold configure_logger, logger_path, logger_level, logger_flags, set_logger_field, log_info. keeps.
  - unfold configure_metrics. keeps.
  - unfold configure_mmds. keeps.
  - unfold configure_vsock. keeps.
  - unfold patch_machine_config. keeps.
  - unfold configure_balloon. keeps.
  - unfold update_balloon. keeps.
  - unfold send_ctrl_alt_del, log_info, vm_request_stop. keeps.
  - unfold create_snapshot. keeps.
  - unfold pause, log_info, vm_pause. keeps.
  - unfold resume, log_info, vm_resume. keeps.
  - unfold observe_request. keeps.
Qed.
End Backend.

(** ** Starting a VM and setting the document *)

Section Current.
Context {W : Type} `{Outside W} `{Serde}.
(** serde_json writes every value. *)
Hypothesis writes : forall v, exists text, json_to_vec v = Ok text.

Definition Live (b : VzBackend) (g : Handles) : Prop := forall h, vm b = Some h -> alive g h.
Definition Current (b : VzBackend) (g : Handles) : Prop := forall h, vm b = Some h -> serves g h (mmds b).
Definition no_vm (b : VzBackend) (g : Handles) : Prop := vm b = None.

Lemma current_live b g : Current b g -> Live b g.
Proof. intros Hc h Hh. destruct (Hc h Hh) as (vm & text & Hg & Hd & _). by exists vm. Qed.
Lemma no_vm_current b g : no_vm b g -> Current b g.
Proof. unfold no_vm, Current. intros -> h Hh. done. Qed.

Lemma served_now g h v text r : alive g h -> json_to_vec v = Ok text -> serves (swift_run [Ev (HbLongServeMmds h MMDS_VSOCK_PORT text) r] g) h v.
Proof.
  intros (vm & Hg & Hd) Hj. unfold swift_run. cbn [fold_left swift_call]. unfold serves. rewrite lookup_partial_alter_eq, Hg.
  unfold hb_vz_long_serve_mmds. rewrite Hd. cbn [snd negb]. eexists _, text. split; [done|]. split_and!; [done|done|]. apply lookup_insert_eq.
Qed.
Lemma refresh_told : Told (W := W) Live refresh_mmds_vsock_service (fun _ b g => Current b g).
Proof.
  intros b w g Hl. unfold refresh_mmds_vsock_service. do 2 wp_step. destruct (vm b) as [h|] eqn:Hv; [|by wp_step; intros h; rewrite Hv].
  destruct (writes (mmds b)) as [text Ht]. rewrite Ht. do 2 wp_step. cbn [map_err]. wp_step.
  assert (Hs : forall r, Current b (swift_run [Ev (HbLongServeMmds h MMDS_VSOCK_PORT text) r] g)).
  { intros r h' Hh. rewrite Hv in Hh. injection Hh as <-. apply served_now; [by apply Hl|done]. }
  apply wp_ffi; intros; apply Hs.
Qed.

(** A part that leaves VM and document alone keeps what is known of them. *)
Lemma silent_current {A E} (m : M W VzBackend E A) :
  (forall c, Keeps (fun b => core b = c) silent_call m whatever) -> Told Current m (fun _ b g => Current b g).
Proof.
  intros Hm. apply (told_silent m core _ (fun c g => forall h, fst c = Some h -> serves g h (snd c)) Hm). by intros b g Hc.
Qed.
Lemma silent_no_vm {A E} (m : M W VzBackend E A) :
  (forall c, Keeps (fun b => core b = c) silent_call m whatever) -> Told no_vm m (fun _ b g => no_vm b g).
Proof. intros Hm. by apply (told_silent m core _ (fun c g => fst c = None) Hm). Qed.

Lemma bridge_told : Told (W := W) Live start_vsock_bridge (fun _ b g => Current b g).
Proof.
  unfold start_vsock_bridge. apply told_get. intros b0. destruct (vsock b0) as [cfg|].
  - eapply (told_bind _ _ _ (fun _ b g => Current b g)); [eapply told_weaken; [apply refresh_told|naive_solver|done]| |done].
    intros []. apply silent_current. intros c. unfold put_vsock_bridge, drop_bridge. keeps; by apply bridge_start_silent || by apply drop_arc_silent.
  - eapply (told_bind _ _ _ (fun _ b g => Current b g)); [|intros ? b w g Hb; by wp_step|done].
    apply told_attempt. eapply told_weaken; [apply refresh_told|naive_solver|done].
Qed.

(** A part that cannot fail. *)
Definition surely {A E} (P : VzBackend -> Handles -> Prop) (r : Result A E) (b : VzBackend) (g : Handles) : Prop :=
  match r with Ok _ => P b g | Err _ => False end.
Lemma put_vm_told h : Told (W := W) (fun b g => no_vm b g /\ alive g h) (put_vm (Some h)) (surely Live).
Proof.
  intros b w g [Hb Ha]. unfold put_vm, no_vm in *. do 4 wp_step. rewrite Hb. do 3 wp_step. by intros h' [= <-].
Qed.
Lemma put_no_vm_told P : Told (W := W) P (put_vm None) (fun _ b g => no_vm b g).
Proof.
  unfold put_vm. apply told_get. intros b0. eapply (told_bind _ _ _ (fun _ b g => no_vm b g)); [intros b w g _; by wp_step| |done].
  intros []. eapply (told_bind _ _ _ (fun _ b g => no_vm b g)); [|intros [] b w g _; by wp_step|done].
  apply silent_no_vm. intros c. keeps. by apply drop_arc_silent.
Qed.
Lemma told_true {A E} (m : M W VzBackend E A) P : (forall c, Keeps (fun b => core b = c) silent_call m whatever) -> Told P m (fun _ _ _ => True).
Proof. intros Hm. by apply (told_silent m core _ (fun _ _ => True) Hm). Qed.
Lemma abort_told P : Told (W := W) P abort_boot (fun r b g => match r with Ok _ => no_vm b g | Err _ => True end).
Proof.
  unfold abort_boot. do 2 (eapply told_bind; [apply told_true; intros c; apply put_vmnet_silent || apply put_bridge_silent|intros []|done]).
  eapply told_bind; [apply put_no_vm_told|intros []|done].
  eapply told_weaken; [apply silent_no_vm|done|by intros []]. intros c. keeps. by apply put_slot_silent.
Qed.
Lemma abort_ok b w : wp (W := W) abort_boot (fun r _ _ _ => r = Ok tt) b w.
Proof.
  assert (Hd : forall h b w, wp (W := W) (drop_arc h) (fun r _ _ _ => r = Ok tt) b w) by (intros; unfold drop_arc, drop_vm; wp_run; by repeat match goal with u : unit |- _ => destruct u end).
  unfold abort_boot, put_vmnet_mmds, put_vsock_bridge, put_vm, put_pool_slot, drop_responder, drop_bridge, drop_slot.
  repeat first [wp_step|eapply wp_mono; [apply Hd|intros ? ? ? ? ->]|done].
Qed.
Lemma put_slot_told x : Told (W := W) Live (put_pool_slot x) (surely Live).
Proof.
  intros b w g Hl. eapply wp_mono; [apply (wp_and _ (fun r _ _ _ => r = Ok tt)); [unfold put_pool_slot, drop_slot; by wp_run|]|].
  - by apply (told_silent (put_pool_slot x) core Live (fun c g => forall h, fst c = Some h -> alive g h)); [intros c; apply put_slot_silent|..].
  - by intros r b' w' t [-> Hb].
Qed.
Lemma bridge_or_abort_told : Told (W := W) Live bridge_or_abort (fun _ b g => Current b g).
Proof.
  unfold bridge_or_abort. eapply (told_bind _ _ _ (fun _ b g => Current b g)); [apply told_attempt, bridge_told| |done].
  intros [[]|e]; [intros b w g Hb; by wp_step|]. intros b w g _. wp_step. eapply wp_mono; [apply (wp_and _ _ _ _ _ (abort_ok b w) (abort_told (fun _ _ => True) b w g Logic.I))|].
  intros r b' w' t [-> Hn]. wp_step. rewrite app_nil_r. by apply no_vm_current.
Qed.

(** A new VM that runs, not yet recorded. *)
Definition fresh (h : Handle) (b : VzBackend) (g : Handles) : Prop := no_vm b g /\ alive g h.
Lemma silent_fresh {A E} h (m : M W VzBackend E A) :
  (forall c, Keeps (fun b => core b = c) silent_call m whatever) -> Told (fresh h) m (fun _ b g => fresh h b g).
Proof. intros Hm. by apply (told_silent m core _ (fun c g => fst c = None /\ alive g h) Hm). Qed.
Lemma silent_live {A E} (m : M W VzBackend E A) :
  (forall c, Keeps (fun b => core b = c) silent_call m whatever) -> Told Live m (fun _ b g => Live b g).
Proof. intros Hm. by apply (told_silent m core _ (fun c g => forall h, fst c = Some h -> alive g h) Hm). Qed.

(** What comes after a part, when that keeps what is known. *)
Lemma told_then {A B E} (I : VzBackend -> Handles -> Prop) (m : M W VzBackend E A) (k : A -> M W VzBackend E B) Q :
  Told I m (fun _ b g => I b g) -> (forall a, Told I (k a) Q) -> (forall e b g, I b g -> Q (Err e) b g) -> Told I (bind m k) Q.
Proof. intros Hm Hk He. by eapply told_bind. Qed.

Lemma install_told h st o : Told (W := W) (fresh h) (install_vm h st o) (fun _ b g => Current b g).
Proof.
  unfold install_vm. eapply told_then; [apply told_attempt, silent_fresh; intros c; apply vmnet_start_silent| |by intros e b g [Hn _]; apply no_vm_current].
  intros [[]|e].
  - eapply told_bind; [apply put_vm_told|intros u|done].
    do 2 (apply (told_set _ _ _ Live); [done|]).
    eapply told_bind; [apply bridge_or_abort_told| |done]. intros ?. apply silent_current. intros c. apply initial_balloon_silent.
  - eapply told_weaken; [apply silent_no_vm; intros c; keeps; by apply drop_arc_silent|by intros b g [Hn _]|by intros r b g Hn; apply no_vm_current].
Qed.

(** What a part that makes a VM leaves. *)
Definition made_vm {A E} (vm_of : A -> Handle) (r : Result A E) (b : VzBackend) (g : Handles) : Prop :=
  match r with Ok a => fresh (vm_of a) b g | Err _ => no_vm b g end.
Lemma made_current {A E} (vm_of : A -> Handle) (e : E) b g : made_vm vm_of (Err e) b g -> Current b g.
Proof. apply no_vm_current. Qed.
Lemma told_made {A} (c : Call (FfiReply A)) (h : A -> Handle) :
  (forall a g, swift_call (Ev c a) g = foldr (fun h g => <[h := new_handle]> g) g (made a h)) ->
  Told (W := W) no_vm (ffi c) (made_vm h).
Proof. intros Hc. by apply (told_creates c h no_vm); [|by intros a s g Hn Ha; split|]. Qed.
Lemma told_made_err {A E E'} (f : E -> E') (vm_of : A -> Handle) (m : M W VzBackend E A) :
  Told no_vm m (made_vm vm_of) -> Told no_vm (with_err f m) (made_vm vm_of).
Proof. intros Hm. apply told_with_err. eapply told_weaken; [exact Hm|done|]. by intros []. Qed.
Lemma told_marshalled {A B E} (r : Result A E) (k : A -> M W VzBackend E B) (vm_of : B -> Handle) :
  (forall a, Told no_vm (k a) (made_vm vm_of)) -> Told no_vm (bind (lift r) k) (made_vm vm_of).
Proof. intros Hk b w g Hb. do 2 wp_step. destruct r; [by apply Hk|done]. Qed.

Lemma build_told spec : Told (W := W) no_vm (build spec) (made_vm (fun h => h)).
Proof. unfold build, VzVm_new. apply told_marshalled. intros args. by apply told_made. Qed.
Lemma long_restore_told k r i log ba save n m ro net host mac ds resume :
  Told (W := W) no_vm (vz_long_restore k r i log ba save n m ro net host mac ds resume) (made_vm fst).
Proof. unfold vz_long_restore. repeat (apply told_marshalled; intros ?). by apply told_made. Qed.
Lemma pool_restore_told k i r save log n m : Told (W := W) no_vm (vz_pool_restore_long k i r save log n m) (made_vm fst).
Proof. unfold vz_pool_restore_long. repeat (apply told_marshalled; intros ?). by apply told_made. Qed.
Lemma stock_restore_told k r save log n m : Told (W := W) no_vm (vz_stock_pool_restore_long k r save log n m) (made_vm fst).
Proof. unfold vz_stock_pool_restore_long. repeat (apply told_marshalled; intros ?). by apply told_made. Qed.

Lemma cold_boot_told boot k r log ba n m : Told (W := W) no_vm (cold_boot boot k r log ba n m) (fun _ b g => Current b g).
Proof.
  unfold cold_boot. apply told_read. intros b0. cbv zeta.
  eapply told_bind; [apply told_made_err, build_told| |by intros e b g Hn; apply no_vm_current]. intros h.
  eapply told_then; [apply told_attempt, silent_fresh; intros c; by apply ffi_silent| |by intros e b g [Hn _]; apply no_vm_current].
  intros [[]|e].
  - eapply told_bind; [apply install_told| |done]. intros ?. apply silent_current. intros c. apply write_log_silent.
  - eapply told_weaken; [apply silent_no_vm; intros c; keeps; by apply drop_vm_silent|by intros b g [Hn _]|by intros r' b g Hn; apply no_vm_current].
Qed.

Lemma restore_told p slot log : Told (W := W) no_vm (restore_into_vm p slot log) (made_vm fst).
Proof.
  unfold restore_into_vm. 
  do 3 (eapply told_then; [apply silent_no_vm; intros c; keeps; by apply clone_silent|intros ?|done]).
  eapply (told_bind _ _ _ (fun r b g => match r with Ok r => made_vm fst r b g | Err _ => no_vm b g end)); [| |done].
  - destruct (m_flavor (meta p)); [|by apply told_attempt, stock_restore_told].
    intros b w g Hb. do 2 wp_step. destruct (ok_or _ _); [|done]. wp_step. by apply pool_restore_told.
  - intros [[h z]|e]; intros b w g Hb; [by wp_step|by do 3 wp_step].
Qed.

Lemma try_pool_told p spec log : Told (W := W) no_vm (try_pool p spec log)
  (fun r b g => match r with Ok false => no_vm b g | _ => Current b g end).
Proof.
  unfold try_pool. eapply told_then; [apply silent_no_vm; intros c; apply canonicalize_silent| |by intros e b g; apply no_vm_current]. intros spec'.
  eapply told_then; [apply told_attempt, silent_no_vm; intros c; apply claim_matching_silent| |by intros e b g; apply no_vm_current].
  intros [[slot|]|e]; [|by intros b w g Hb; do 3 wp_step|by intros b w g Hb; wp_step].
  eapply told_bind_attempt; [apply restore_told|]. intros [[h z]|e].
  - eapply told_bind; [apply put_vm_told|intros u|done].
    eapply told_bind; [apply put_slot_told|intros u'|done]. do 3 (apply (told_set _ _ _ Live); [done|]).
    eapply told_bind; [apply bridge_or_abort_told| |done]. intros ?.
    do 2 (eapply told_then; [apply silent_current; intros c; apply initial_balloon_silent || apply flush_silent|intros ?|done]).
    intros b w g Hb. by wp_step.
  - eapply told_weaken; [apply silent_no_vm; intros c; keeps; by apply drop_slot_silent|done|]. intros [[]|] b g Hb; by try apply no_vm_current.
Qed.

(** Before the boot there is no VM. *)
Definition unbooted (b : VzBackend) (g : Handles) : Prop := Current b g /\ (state b = NotStarted -> vm b = None).
Lemma preboot_told : Told (W := W) unbooted require_preboot (fun r b g => match r with Ok _ => no_vm b g | Err _ => Current b g end).
Proof. intros b w g [Hc Hn]. unfold require_preboot. wp_run; try exact Hc. by apply Hn. Qed.
Lemma lift_told {A B} (r : Result A VmmBackendError) (k : A -> M W VzBackend VmmBackendError B) :
  (forall a, Told no_vm (k a) (fun _ b g => Current b g)) -> Told no_vm (bind (lift r) k) (fun _ b g => Current b g).
Proof. intros Hk b w g Hb. do 2 wp_step. destruct r; [by apply Hk|by apply no_vm_current]. Qed.
Lemma quietly_told {A B} (m : M W VzBackend VmmBackendError A) (k : A -> M W VzBackend VmmBackendError B) :
  (forall c, Keeps (fun b => core b = c) silent_call m whatever) -> (forall a, Told no_vm (k a) (fun _ b g => Current b g)) ->
  Told no_vm (bind m k) (fun _ b g => Current b g).
Proof. intros Hm Hk. eapply told_then; [by apply silent_no_vm|done|]. intros e b g. apply no_vm_current. Qed.

Lemma start_told : Told (W := W) unbooted start_micro_vm (fun _ b g => Current b g).
Proof.
  unfold start_micro_vm. eapply told_bind; [apply preboot_told|intros ?|done].
  apply quietly_told; [intros c; apply configured_balloon_silent|intros ?]. apply told_read. intros b0.
  do 2 (apply lift_told; intros ?). cbv zeta. apply lift_told. intros ?. apply quietly_told; [intros c; apply log_path_silent|intros ?].
  eapply (told_bind _ _ _ (fun r b g => match r with Ok false => no_vm b g | _ => Current b g end)); [| |done].
  - destruct (extra_drives b0), (pool b0); try (intros b w g Hb; by wp_step). destruct (negb _); [apply try_pool_told|intros b w g Hb; by wp_step].
  - intros [|]; [intros b w g Hb; by wp_step|apply cold_boot_told].
Qed.
Lemma load_told params : Told (W := W) unbooted (load_snapshot params) (fun _ b g => Current b g).
Proof.
  unfold load_snapshot. eapply told_bind; [apply preboot_told|intros ?|done].
  apply quietly_told; [intros c; apply configured_balloon_silent|intros ?]. destruct (_ || _); [intros b w g Hb; wp_step; by apply no_vm_current|].
  apply quietly_told; [intros c; apply mem_backend_silent|intros ?]. apply told_read. intros b0.
  do 2 (apply lift_told; intros ?). cbv zeta. apply lift_told. intros ?. apply quietly_told; [intros c; apply log_path_silent|intros ?].
  eapply told_bind; [apply told_made_err, long_restore_told| |by intros e b g; apply no_vm_current]. intros [h z].
  eapply told_bind; [apply install_told| |done]. intros ?. apply silent_current. intros c. unfold log_info. keeps; by apply flush_silent || by apply write_log_silent.
Qed.

Lemma set_document_told f : Told (W := W) (fun b g => Current b g /\ poisoned (mmds_shared b) = false)
  (do! modify (fun b => set_mmds (f b) b) in do! publish_mmds in refresh_mmds_vsock_service) (fun _ b g => Current b g).
Proof.
  apply (told_set _ _ _ (fun b g => Live b g /\ poisoned (mmds_shared b) = false)).
  { intros b g [Hc Hp]. split; [exact (current_live _ _ Hc)|done]. }
  eapply (told_bind _ _ _ (surely Live)); [|intros ?; apply refresh_told|done].
  intros b w g [Hl Hp]. unfold publish_mmds. do 2 wp_step. rewrite Hp. by wp_step.
Qed.

Lemma exec_current r b w g : wf b -> wf_request r -> Current b g -> wp (exec r) (fun _ b' _ t => Current b' (swift_run t g)) b w.
Proof.
  intros Hb Hr Hc. assert (Hp : poisoned (mmds_shared b) = false) by (by rewrite (wf_shared _ Hb)).
  destruct (plain_request r) eqn:Hk; [by apply (silent_current (exec r)); [intros c; apply exec_silent|]|].
  destruct r; try done; cbn [exec].
  - by apply (set_document_told (fun _ => data)).
  - by apply (set_document_told (fun b => merge_json (mmds b) data)).
  - apply start_told. split; [done|]. by apply preboot_no_vm.
  - apply load_told. split; [done|]. by apply preboot_no_vm.
Qed.
End Current.

Section History.
Context {W : Type} `{Outside W} `{Serde}.
Hypothesis writes : forall v, exists text, json_to_vec v = Ok text.

Lemma serve_current rs b w g : wf b -> Forall wf_request rs -> Current b g ->
  wp (serve rs) (fun _ b' _ t => Current b' (swift_run t g)) b w.
Proof.
  revert b w g. induction rs as [|r rs IH]; intros b w g Hb Hrs Hc; cbn [serve]; [by wp_step|].
  apply Forall_cons in Hrs as [Hr Hrs]. do 2 wp_step. eapply wp_mono; [by apply (wp_and _ _ _ _ _ (exec_refines r b w Hb Hr) (exec_current writes r b w g Hb Hr Hc))|].
  intros res b1 w1 t1 [[He _] Hc1]. wp_step. eapply wp_mono; [apply IH; [by eapply effect_wf|done|exact Hc1]|].
  intros out b2 w2 t2 Hc2. destruct out; [wp_step|]; by rewrite ?app_nil_r, swift_run_app.
Qed.

Lemma history_served id now vmnet host p rs w out b' w' t : Forall wf_request rs ->
  serve rs (assemble id now vmnet host p) w = (out, b', w', t) -> Current b' (swift_run t ∅).
Proof.
  intros Hrs E. refine (wp_result _ (fun _ b' _ t => Current b' (swift_run t ∅)) _ _ _ _ _ _ _ E).
  apply serve_current; [apply wf_assemble|done|]. intros h. by destruct p.
Qed.
End History.

(** The guest is served the current document.  After any history of
    requests, whichever of them failed, and however the VM was started: the
    listener Swift has on the metadata port of the running VM serves the
    bytes of the document the API would return now. *)
Theorem guest_served_current_document {W} `{Outside W} `{Serde} id now vmnet host p rs (w : W) out b' w' t h :
  (forall v, exists text, json_to_vec v = Ok text) -> Forall wf_request rs ->
  serve rs (assemble id now vmnet host p) w = (out, b', w', t) -> vm b' = Some h ->
  exists vm text, swift_run t ∅ !! h = Some vm /\ json_to_vec (get_mmds b') = Ok text /\ listener vm !! MMDS_VSOCK_PORT = Some text.
Proof.
  intros Hw Hrs E Hv. destruct (history_served Hw id now vmnet host p rs w out b' w' t Hrs E h Hv) as (vm & text & Hg & _ & Ht & Hl). by exists vm, text.
Qed.

(** Swift keeps every service it was given: a VM whose document is set [n]
    times holds [n] copies until it is freed. *)
Lemma services_kept n h port text r g vm : g !! h = Some vm -> socket_device vm = true ->
  exists vm', swift_run (repeat (Ev (HbLongServeMmds h port text) r) n) g !! h = Some vm' /\ socket_device vm' = true /\
    length (socketListeners vm') = (length (socketListeners vm) + n)%nat.
Proof.
  revert g vm. induction n as [|n IH]; intros g vm Hg Hd; [exists vm; by rewrite Nat.add_0_r|].
  cbn [repeat swift_run fold_left]. change (fold_left _ ?l ?g) with (swift_run l g).
  destruct (IH (swift_call (Ev (HbLongServeMmds h port text) r) g) {| socket_device := true; listener := <[port := text]> (listener vm);
    socketListeners := socketListeners vm ++ [text] |}) as (vm' & Hg' & Hd' & Hl).
  - cbn [swift_call]. rewrite lookup_partial_alter_eq, Hg. unfold hb_vz_long_serve_mmds. by rewrite Hd.
  - done.
  - exists vm'. split_and!; [done..|]. rewrite Hl. cbn. rewrite length_app. cbn. lia.
Qed.

Lemma guest_served_current_document_witness : exists vm,
  swift_run (snd (@serve unit calm Demo.serde Demo.history Demo.fresh tt)) ∅ !! 1 = Some vm /\ listener vm !! MMDS_VSOCK_PORT = Some "{}".
Proof.
  destruct (@guest_served_current_document unit calm Demo.serde "demo" 0 false false None Demo.history tt _ (Demo.after Demo.history) tt
    (snd (@serve unit calm Demo.serde Demo.history Demo.fresh tt)) 1 (fun _ => ex_intro _ "{}" eq_refl) Demo.history_wf ltac:(vm_compute; reflexivity) ltac:(vm_compute; reflexivity))
    as (vm & text & Hg & [= <-] & Hl).
  exists vm. split; [exact Hg|exact Hl].
Defined.
