(* ===== verification/MmdsGuest.v ===== *)
(** * A document's way from the API to a program in the guest

    The parts joined: requests set the document ([Backend]), Swift listens
    with it ([MmdsLive]), the guest's shim relays a client to that listener
    ([MmdsPath]), and the service there answers as the daemon's own responder
    does ([MmdsAgree]). *)

From S2P Require Import Prelude RustStr Utf8 Json World Bridge FcApi Pool Telemetry BackendState Backend BackendSpec BackendProps Server HostMmds Proc Sys Agent AgentShim VsockMmds MmdsAgree MmdsPath MmdsLive.
From ITree Require Import ITree.
Local Open Scope string_scope.
Local Open Scope Z_scope.
Local Open Scope list_scope.

(** A listener with the document answers the guest. *)
Lemma listener_answers `{AsciiText, JsonText} g h doc : serves g h doc ->
  exists vm document, g !! h = Some vm /\ listener vm !! Agent.MMDS_VSOCK_PORT = Some document /\
    forall client fd s t hs answer,
      reachable document client fd s -> observe (shim s) = RetF (Ok tt) -> steady (service_acts s) = true ->
      accepts (relay_step client) Opened (shim_acts s) = Some (Served (get_request t hs) answer answer) ->
      str_forall graphic t = true -> starts_with "/" t = true -> plain_keys t = true -> forallb header_line hs = true ->
      len (get_request t hs) < 8192 -> plain_doc doc ->
      answers_agree (existsb accepts_header hs) (lookup doc (sanitize_path t)) answer (render_raw_http (get_request t hs) doc).
Proof.
  intros (vm & document & Hg & _ & Ht & Hl). exists vm, document. split; [done|]. split; [exact Hl|].
  intros client fd s t hs answer Hr Ho Hs Ha Hg' Hs' Hk Hh Hlen Hp. by apply (guest_get_end_to_end document doc client fd s t hs answer).
Qed.

(** The document of a history: what the requests put and patched, in order. *)
Theorem history_document_reaches_guest `{AsciiText, JsonText} {W} `{Outside W} id now vmnet host p rs (w : W) out b' w' tr h :
  (forall v, exists text, json_to_vec v = Ok text) -> Forall wf_request rs ->
  serve rs (assemble id now vmnet host p) w = (out, b', w', tr) -> vm b' = Some h ->
  let doc := foldl mmds_after (Object []) rs in
  exists vm document, swift_run tr ∅ !! h = Some vm /\ listener vm !! Agent.MMDS_VSOCK_PORT = Some document /\
    forall client fd s t hs answer,
      reachable document client fd s -> observe (shim s) = RetF (Ok tt) -> steady (service_acts s) = true ->
      accepts (relay_step client) Opened (shim_acts s) = Some (Served (get_request t hs) answer answer) ->
      str_forall graphic t = true -> starts_with "/" t = true -> plain_keys t = true -> forallb header_line hs = true ->
      len (get_request t hs) < 8192 -> plain_doc doc ->
      answers_agree (existsb accepts_header hs) (lookup doc (sanitize_path t)) answer (render_raw_http (get_request t hs) doc).
Proof.
  intros Hw Hrs E Hv. apply listener_answers. destruct (history_document id now vmnet host p rs w out b' w' tr Hrs E) as [<- _].
  by apply (history_served Hw id now vmnet host p rs w out b' w' tr Hrs E h).
Qed.

(** ** Concurrent requests *)

Section Server.
Context `{TypedDecoders} {W : Type} `{Outside W} `{Serde}.
Hypothesis writes : forall v, exists text, json_to_vec v = Ok text.

Lemma answer_current req b (w : W) g : wf b -> Current b g -> wp (Server.answer (plan req)) (fun _ b' _ t => Current b' (swift_run t g)) b w.
Proof.
  intros Hb Hc. destruct (plan req) as [r|r|q|r k] eqn:Hp; cbn [Server.answer]; [by wp_run..|].
  apply plan_Operate in Hp as [Hr _]. do 2 wp_step. eapply wp_mono; [by apply exec_current|].
  intros res b' w' t Hc'. wp_step. by rewrite app_nil_r.
Qed.
Lemma server_step_current srv (w : W) t srv' w' g : server_step srv w t srv' w' -> server_ok srv -> Current (backend srv) g ->
  Current (backend srv') (swift_run t g).
Proof.
  intros Hs (Hb & _) Hc. set (Q := fun b (t : Trace) => Current b (swift_run t g)).
  destruct Hs as [srv w req|srv w i id req resp b' w' t Hi E|srv w i id req resp u b' w' t Hi E|srv w u b' w' t E]; [done|..]; cbn [backend task_update].
  - exact (wp_result _ (fun _ b _ t => Q b t) _ _ _ _ _ _ (answer_current req _ w g Hb Hc) E).
  - exact (wp_result _ (fun _ b _ t => Q b t) _ _ _ _ _ _ (exec_current writes (ObserveRequest _ _ _ _) _ w g Hb Logic.I Hc) E).
  - exact (wp_result _ (fun _ b _ t => Q b t) _ _ _ _ _ _ (exec_current writes FlushMetrics _ w g Hb Logic.I Hc) E).
Qed.
Lemma server_run_current srv (w : W) t srv' w' g : server_run srv w t srv' w' -> server_ok srv -> Current (backend srv) g ->
  Current (backend srv') (swift_run t g).
Proof.
  intros Hr. revert g. induction Hr as [|srv w t srv1 w1 t1 srv2 w2 Hs _ IH]; intros g Hok Hc; [done|].
  rewrite swift_run_app. apply IH; [by apply (server_step_ok _ _ _ _ _ Hs)|by eapply server_step_current].
Qed.
End Server.

(** C16: What clients of the API put, a program in the guest gets.  However the
    requests of any number of connections interleave, whichever of them fail
    and however the VM was started: Swift has a listener on the port the shim
    connects to; and whenever a program in the guest sends a GET through the
    shim and is served without a read or write cut short, it has been sent
    what the host's responder answers for the document that GET /mmds would
    return now, up to the differences of [answers_agree].  The bounds are
    those of the comparison of the two services: the request has fewer than
    8192 bytes; its target starts with a slash and is of graphic ASCII
    characters; no key of its path begins with -0 or is a number of 2^63 or
    more; its headers are lines of printable ASCII; the document has ASCII
    keys, no numbers but 64-bit integers, and nests no deeper than 128; and
    serde_json writes every document. *)
Theorem api_document_reaches_guest `{AsciiText, JsonText, TypedDecoders} {W} `{Outside W} id now vmnet host p (w : W) tr srv w' h :
  (forall v, exists text, json_to_vec v = Ok text) ->
  server_run (listening (assemble id now vmnet host p)) w tr srv w' -> vm (backend srv) = Some h ->
  let doc := get_mmds (backend srv) in
  exists vm document, swift_run tr ∅ !! h = Some vm /\ listener vm !! Agent.MMDS_VSOCK_PORT = Some document /\
    forall client fd s t hs answer,
      reachable document client fd s -> observe (shim s) = RetF (Ok tt) -> steady (service_acts s) = true ->
      accepts (relay_step client) Opened (shim_acts s) = Some (Served (get_request t hs) answer answer) ->
      str_forall graphic t = true -> starts_with "/" t = true -> plain_keys t = true -> forallb header_line hs = true ->
      len (get_request t hs) < 8192 -> plain_doc doc ->
      answers_agree (existsb accepts_header hs) (lookup doc (sanitize_path t)) answer (render_raw_http (get_request t hs) doc).
Proof.
  intros Hw Hr Hv. apply listener_answers. apply (server_run_current Hw _ _ _ _ _ ∅ Hr (listening_ok id now vmnet host p)); [|done].
  intros h'. by destruct p.
Qed.

(** ** A document put before the boot, and read in the guest *)

Import DemoMmds.

Module DemoGuest.
(** A decoder for the bodies of the example. *)
Definition decoders : Decoders := {|
  de_machine := DemoServer.no; de_machine_update := DemoServer.no; de_boot_source := fun _ => Ok Demo.boot;
  de_drive := fun _ => Ok (Demo.disk "rootfs" "/vm/root.img" true);
  de_drive_update := DemoServer.no; de_vm := DemoServer.no; de_logger := DemoServer.no; de_net := DemoServer.no; de_metrics := DemoServer.no;
  de_value := fun _ => Ok doc; de_mmds_config := DemoServer.no; de_create_snapshot := DemoServer.no; de_load_snapshot := DemoServer.no;
  de_action := fun _ => Ok InstanceStart; de_balloon := DemoServer.no; de_balloon_update := DemoServer.no; de_vsock := DemoServer.no |}.
Lemma decoders_typed : @TypedDecoders decoders.
Proof. split; try done. by intros s v [= <-]. Qed.

Definition put (p : string) : HttpRequest := {| Server.method := "PUT"; Server.path := p; Server.body := DemoServer.bytes "{}" |}.
(** The boot is asked for before the document is put, and answered after it. *)
Lemma document_served : exists t srv, @server_run decoders unit calm serde (listening Demo.fresh) tt t srv tt /\ vm (backend srv) = Some 1 /\
  get_mmds (backend srv) = doc /\ listener <$> swift_run t ∅ !! 1 = Some {[ Agent.MMDS_VSOCK_PORT := DemoPath.document ]}.
Proof.
  eexists _, _. split.
  - eapply run_cons; [apply (step_arrive _ _ (put "/boot-source"))|]. eapply run_cons; [apply (step_arrive _ _ (put "/drives/rootfs"))|].
    eapply run_cons; [apply (step_arrive _ _ (put "/actions"))|]. eapply run_cons; [apply (step_arrive _ _ (put "/mmds"))|].
    eapply run_cons; [eapply (step_answer _ _ 1); [reflexivity|vm_compute; reflexivity]|].
    eapply run_cons; [eapply (step_answer _ _ 0); [reflexivity|vm_compute; reflexivity]|].
    eapply run_cons; [eapply (step_answer _ _ 3); [reflexivity|vm_compute; reflexivity]|].
    eapply run_cons; [eapply (step_answer _ _ 2); [reflexivity|vm_compute; reflexivity]|].
    apply run_nil.
  - vm_compute. done.
Qed.
End DemoGuest.

Lemma api_document_reaches_guest_witness : exists t srv vm,
  @server_run DemoGuest.decoders unit calm serde (listening Demo.fresh) tt t srv tt /\ swift_run t ∅ !! 1 = Some vm /\
  listener vm !! Agent.MMDS_VSOCK_PORT = Some DemoPath.document /\
  answers_agree false (lookup doc (sanitize_path DemoPath.target)) DemoPath.listing (render_raw_http DemoPath.request doc).
Proof.
  destruct DemoGuest.document_served as (t & srv & Hr & Hv & Hd & Hs). exists t, srv.
  destruct (@api_document_reaches_guest swift swift_ascii foundation serde demo_json DemoGuest.decoders DemoGuest.decoders_typed unit calm "demo" 0 false false None
    tt t srv tt 1 (fun v => ex_intro _ (written v) eq_refl) Hr Hv) as (vm & document & Hg & Hl & Hall).
  rewrite Hd in Hall.
  assert (Hm : listener vm = {[ Agent.MMDS_VSOCK_PORT := DemoPath.document ]}) by (apply (inj Some); rewrite <- Hs; exact (f_equal (fmap listener) (eq_sym Hg))).
  assert (document = DemoPath.document) as -> by (rewrite Hm, lookup_singleton_eq in Hl; by injection Hl).
  exists vm. split; [exact Hr|]. split; [exact Hg|]. split; [exact Hl|].
  refine (Hall 4 9 DemoPath.final DemoPath.target headers DemoPath.listing DemoPath.final_reachable _ _ _ _ _ _ _ _ DemoPath.doc_plain);
    vm_compute; reflexivity.
Defined.
