(* ===== verification/CliHelp.v ===== *)
(** * The help of the command line (hephaestus-cli/src/main.rs)

    The texts, and the function that decides before anything else whether one
    of them is printed. *)

From S2P Require Import Prelude RustStr.
Local Open Scope string_scope.

Definition help_lines (ls : list string) : string := join nl ls.

Definition TOP_HELP : string := help_lines [
  "Run Linux microVMs on Apple Silicon.";
  "";
  "Usage: hephaestus <COMMAND>";
  "";
  "Commands:";
  "  ping         Test the Rust/Swift bridge";
  "  run          Run a process using the Containerization path";
  "  rootfs       Build an ext4 root filesystem from a tar archive";
  "  vz-boot      Boot a VM through Virtualization.framework directly";
  "  vz-exec      Run a command through the direct-VZ guest agent";
  "  vz-sh        Open a direct-VZ guest shell";
  "  vz-snapshot  Save or restore stock guest state";
  "  vz-warm      Save or run an agent-ready VM snapshot";
  "  pool         Manage persistent warm-pool slots";
  "";
  "Options:";
  "  -h, --help     Print help";
  "  -V, --version  Print version";
  "";
  "Use `hephaestus <COMMAND> --help` for command-specific help."].

Definition PING_HELP : string := help_lines [
  "Test the Rust/Swift bridge.";
  "";
  "Usage: hephaestus ping";
  "";
  "Options:";
  "  -h, --help  Print help"].

Definition RUN_USAGE : string := help_lines [
  "Run a guest process using Apple's Containerization path.";
  "";
  "Usage: hephaestus run --kernel <PATH> --initfs <PATH> --rootfs <PATH> [OPTIONS] -- <ARGV>...";
  "";
  "Options:";
  "      --id <ID>              VM identifier [default: hephaestus-vm]";
  "      --kernel <PATH>        Guest kernel image";
  "      --initfs <PATH>        Containerization init filesystem";
  "      --rootfs <PATH>        Writable guest ext4 root filesystem";
  "      --cpus <N>             vCPU count [default: VZ default]";
  "      --memory-mib <N>       Guest memory in MiB [default: VZ default]";
  "      --cwd <PATH>           Guest working directory";
  "      --network              Attach VZ NAT networking";
  "      --ip <OCTET|ADDRESS>   Guest address in 192.168.64.0/24";
  "      --tty                  Attach an interactive terminal";
  "  -h, --help                 Print help"].

Definition ROOTFS_USAGE : string := help_lines [
  "Build an ext4 root filesystem from a tar archive.";
  "";
  "Usage: hephaestus rootfs --from-tar <PATH> --output <PATH> [OPTIONS]";
  "";
  "Options:";
  "      --from-tar <PATH>       Input tar archive";
  "      --output <PATH>         Output ext4 image";
  "      --size-mib <N>          Filesystem size in MiB [default: 512]";
  "      --compression <FORMAT>  none, gzip, or zstd [default: auto-detect]";
  "  -h, --help                  Print help"].

Definition VZ_BOOT_USAGE : string := help_lines [
  "Boot a VM directly through Virtualization.framework.";
  "";
  "Usage: hephaestus vz-boot --kernel <PATH> --rootfs <PATH> --log <PATH> [OPTIONS]";
  "";
  "Options:";
  "      --kernel <PATH>       Guest kernel image";
  "      --rootfs <PATH>       Guest ext4 root filesystem";
  "      --log <PATH>          Guest serial log";
  "      --cpus <N>            vCPU count [default: VZ default]";
  "      --memory-mib <N>      Guest memory in MiB [default: VZ default]";
  "      --run-seconds <N>     Time to run before stopping [default: bridge default]";
  "  -h, --help                Print help"].

Definition VZ_EXEC_USAGE : string := help_lines [
  "Run a command through the direct-VZ guest agent.";
  "";
  "Usage: hephaestus vz-exec --kernel <PATH> --rootfs <PATH> --cmd <COMMAND> [OPTIONS]";
  "";
  "Options:";
  "      --kernel <PATH>          Guest kernel image";
  "      --rootfs <PATH>          Guest ext4 root filesystem";
  "      --cmd <COMMAND>          Shell command to run in the guest";
  "      --initramfs <PATH>       Agent initramfs [default: build/agent.cpio.gz]";
  "      --log <PATH>             Guest serial log";
  "      --cpus <N>               vCPU count [default: VZ default]";
  "      --memory-mib <N>         Guest memory in MiB [default: VZ default]";
  "      --timeout-seconds <N>    Agent connection timeout [default: bridge default]";
  "      --stdin                  Forward host stdin to the guest command";
  "  -h, --help                   Print help"].

Definition POOL_USAGE : string := help_lines [
  "Manage a disk-persistent pool of pre-warmed VMs.";
  "";
  "Usage: hephaestus pool <COMMAND>";
  "";
  "Commands:";
  "  init     Create and warm a pool";
  "  run      Claim a slot and run a guest command";
  "  stats    Show ready and busy slot counts";
  "  destroy  Remove a pool";
  "";
  "Options:";
  "  -h, --help  Print help";
  "";
  "Use `hephaestus pool <COMMAND> --help` for command-specific help."].

Definition POOL_INIT_HELP : string := help_lines [
  "Create and warm a persistent VM pool.";
  "";
  "Usage: hephaestus pool init --dir <DIR> --kernel <PATH> --rootfs <PATH> [OPTIONS]";
  "";
  "Required:";
  "      --dir <DIR>              Pool directory";
  "      --kernel <PATH>          Guest kernel image";
  "      --rootfs <PATH>          Guest ext4 root filesystem";
  "";
  "Options:";
  "      --initramfs <PATH>       Agent initramfs [default: build/agent.cpio.gz]";
  "      --size <N>               Number of slots [default: 4]";
  "      --cpus <N>               vCPU count [default: VZ default]";
  "      --memory-mib <N>         Guest memory in MiB [default: VZ default]";
  "      --stock-init             Boot the rootfs init instead of the guest agent";
  "      --settle-seconds <N>     Stock-init delay before save [default: 3]";
  "  -h, --help                   Print help"].

Definition POOL_RUN_HELP : string := help_lines [
  "Claim an agent-flavor pool slot and run a guest command.";
  "";
  "Usage: hephaestus pool run --dir <DIR> --cmd <COMMAND>";
  "";
  "Options:";
  "      --dir <DIR>      Pool directory";
  "      --cmd <COMMAND>  Shell command to run in the guest";
  "  -h, --help           Print help";
  "";
  "Returns status 75 when every slot is busy. Set HEPHAESTUS_POOL_LOG=<PATH>";
  "to capture guest serial output."].

Definition POOL_STATS_HELP : string := help_lines [
  "Show ready and busy pool slot counts.";
  "";
  "Usage: hephaestus pool stats --dir <DIR>";
  "";
  "Options:";
  "      --dir <DIR>  Pool directory";
  "  -h, --help       Print help"].

Definition POOL_DESTROY_HELP : string := help_lines [
  "Remove a persistent VM pool.";
  "";
  "Usage: hephaestus pool destroy --dir <DIR>";
  "";
  "Options:";
  "      --dir <DIR>  Pool directory";
  "  -h, --help       Print help"].

Definition VZ_WARM_USAGE : string := help_lines [
  "Save or run an agent-ready VM snapshot.";
  "";
  "Usage: hephaestus vz-warm <COMMAND>";
  "";
  "Commands:";
  "  save  Boot the agent and save it while ready for a command";
  "  run   Restore an agent-ready save and run a command";
  "";
  "Options:";
  "  -h, --help  Print help";
  "";
  "Use `hephaestus vz-warm <COMMAND> --help` for command-specific help."].

Definition VZ_WARM_SAVE_HELP : string := help_lines [
  "Boot the guest agent and save the VM while it is ready for a command.";
  "";
  "Usage: hephaestus vz-warm save --kernel <PATH> --rootfs <PATH> --save <PATH> [OPTIONS]";
  "";
  "Options:";
  "      --kernel <PATH>       Guest kernel image";
  "      --rootfs <PATH>       Guest ext4 root filesystem";
  "      --save <PATH>         Output VZ save file";
  "      --initramfs <PATH>    Agent initramfs [default: build/agent.cpio.gz]";
  "      --log <PATH>          Guest serial log";
  "      --cpus <N>            vCPU count [default: VZ default]";
  "      --memory-mib <N>      Guest memory in MiB [default: VZ default]";
  "  -h, --help                Print help"].

Definition VZ_WARM_RUN_HELP : string := help_lines [
  "Restore an agent-ready VM and run a command.";
  "";
  "Usage: hephaestus vz-warm run --kernel <PATH> --rootfs <PATH> --save <PATH> --cmd <COMMAND> [OPTIONS]";
  "";
  "Options:";
  "      --kernel <PATH>       Guest kernel image";
  "      --rootfs <PATH>       Guest ext4 root filesystem";
  "      --save <PATH>         Existing VZ save file";
  "      --cmd <COMMAND>       Shell command to run in the guest";
  "      --initramfs <PATH>    Agent initramfs [default: build/agent.cpio.gz]";
  "      --log <PATH>          Guest serial log";
  "      --cpus <N>            vCPU count [default: VZ default]";
  "      --memory-mib <N>      Guest memory in MiB [default: VZ default]";
  "  -h, --help                Print help";
  "";
  "Kernel, rootfs, initramfs, CPU, and memory configuration must match the save."].

Definition VZ_SH_USAGE : string := help_lines [
  "Open an interactive shell through the direct-VZ path.";
  "";
  "Usage: hephaestus vz-sh --kernel <PATH> --rootfs <PATH> [OPTIONS]";
  "";
  "Options:";
  "      --kernel <PATH>          Guest kernel image";
  "      --rootfs <PATH>          Guest ext4 root filesystem";
  "      --cpus <N>               vCPU count [default: VZ default]";
  "      --memory-mib <N>         Guest memory in MiB [default: VZ default]";
  "      --timeout-seconds <N>    Shell connection timeout [default: bridge default]";
  "  -h, --help                   Print help"].

Definition VZ_SNAP_USAGE : string := help_lines [
  "Save or restore stock guest state.";
  "";
  "Usage: hephaestus vz-snapshot <COMMAND>";
  "";
  "Commands:";
  "  save     Boot and save a stock guest";
  "  restore  Restore a stock guest save";
  "";
  "Options:";
  "  -h, --help  Print help";
  "";
  "Use `hephaestus vz-snapshot <COMMAND> --help` for command-specific help."].

Definition VZ_SNAP_SAVE_HELP : string := help_lines [
  "Boot and save a stock guest.";
  "";
  "Usage: hephaestus vz-snapshot save --kernel <PATH> --rootfs <PATH> --log <PATH> --save <PATH> [OPTIONS]";
  "";
  "Options:";
  "      --kernel <PATH>          Guest kernel image";
  "      --rootfs <PATH>          Guest ext4 root filesystem";
  "      --log <PATH>             Guest serial log";
  "      --save <PATH>            Output VZ save file";
  "      --cpus <N>               vCPU count [default: VZ default]";
  "      --memory-mib <N>         Guest memory in MiB [default: VZ default]";
  "      --settle-seconds <N>     Delay before save [default: 3]";
  "  -h, --help                   Print help"].

Definition VZ_SNAP_RESTORE_HELP : string := help_lines [
  "Restore a stock guest save.";
  "";
  "Usage: hephaestus vz-snapshot restore --kernel <PATH> --rootfs <PATH> --log <PATH> --save <PATH> [OPTIONS]";
  "";
  "Options:";
  "      --kernel <PATH>       Guest kernel image";
  "      --rootfs <PATH>       Guest ext4 root filesystem";
  "      --log <PATH>          Guest serial log";
  "      --save <PATH>         Existing VZ save file";
  "      --cpus <N>            vCPU count [default: VZ default]";
  "      --memory-mib <N>      Guest memory in MiB [default: VZ default]";
  "      --run-seconds <N>     Time to run after restore [default: 3]";
  "  -h, --help                Print help"].

(** ** Which help is asked for *)

Definition is_help (a : string) : bool := String.eqb a "-h" || String.eqb a "--help".

(** Arguments behind [--] belong to the guest. *)
Fixpoint contains_help (args : list string) : bool :=
  match args with
  | [] => false
  | a :: rest => if String.eqb a "--" then false else is_help a || contains_help rest
  end.

Definition nested_help (args : list string) (group_help : string) (commands : list (string * string)) : option string :=
  match args with
  | [] => None
  | command :: rest =>
      if is_help command then Some group_help
      else if negb (contains_help rest) then None
      else match entry command commands with Some help => Some help | None => Some group_help end
  end.

Definition flat_helps : list (string * string) :=
  [("ping", PING_HELP); ("run", RUN_USAGE); ("rootfs", ROOTFS_USAGE); ("vz-boot", VZ_BOOT_USAGE);
   ("vz-exec", VZ_EXEC_USAGE); ("vz-sh", VZ_SH_USAGE)].
Definition nested_helps : list (string * (string * list (string * string))) :=
  [("pool", (POOL_USAGE, [("init", POOL_INIT_HELP); ("run", POOL_RUN_HELP); ("stats", POOL_STATS_HELP);
                          ("destroy", POOL_DESTROY_HELP)]));
   ("vz-warm", (VZ_WARM_USAGE, [("save", VZ_WARM_SAVE_HELP); ("run", VZ_WARM_RUN_HELP)]));
   ("vz-snapshot", (VZ_SNAP_USAGE, [("save", VZ_SNAP_SAVE_HELP); ("restore", VZ_SNAP_RESTORE_HELP)]))].

Definition help_text (args : list string) : option string :=
  match args with
  | [] => None
  | first :: rest =>
      if is_help first then Some TOP_HELP
      else match entry first flat_helps with
           | Some help => if contains_help rest then Some help else None
           | None => match entry first nested_helps with
                     | Some (group_help, commands) => nested_help rest group_help commands
                     | None => None
                     end
           end
  end.
