(* ===== verification/CliArgs.v ===== *)
(** * The options of the command line (hephaestus-cli/src/main.rs)

    One record per subcommand, its table of flags, and its parser.  All
    parsers run the same loop over their arguments ([parse_loop]): a flag is
    looked up in the table, and takes the next argument as its value when it
    has one.  Then required options are checked and paths are looked at. *)

From S2P Require Import Prelude RustStr Utf8 World Bridge.
Local Open Scope string_scope.
Local Open Scope Z_scope.

(** ** The loop *)

(** What an arm of the [match] on a flag does. *)
Inductive Arm (O : Type) :=
| Switch (f : O -> O)
| Valued (f : string -> O -> Result O string)
| Rest (f : list string -> O -> O).
Arguments Switch {O}. Arguments Valued {O}. Arguments Rest {O}.

(** [require_value] on no argument. *)
Definition missing_value (flag : string) : string := "missing value for " +:+ flag.

Section Loop.
Context {O : Type}.

(** [while let Some(arg) = args.next()]: a flag with a value takes two
    arguments, [require_value] written out. *)
Fixpoint parse_loop (arms : list (string * Arm O)) (o : O) (args : list string) : Result O string :=
  match args with
  | [] => Ok o
  | a :: rest =>
      match entry a arms with
      | None => Err ("unknown flag `" +:+ a +:+ "`")
      | Some (Switch f) => parse_loop arms (f o) rest
      | Some (Rest f) => Ok (f rest o)
      | Some (Valued f) =>
          match rest with
          | [] => Err (missing_value a)
          | v :: rest' => match f v o with Ok o' => parse_loop arms o' rest' | Err e => Err e end
          end
      end
  end.
End Loop.

(** [.parse().map_err(|e| format!("invalid \{what\}: \{e\}"))] *)
Definition number (what : string) (max : Z) (v : string) : Result Z string :=
  map_err (fun e => "invalid " +:+ what +:+ ": " +:+ parse_int_error e) (parse_uint max v).

(** An arm that stores its value as it is. *)
Definition stores {O} (set : string -> O -> O) : Arm O := Valued (fun v o => Ok (set v o)).
(** An arm that stores a number. *)
Definition stores_number {O} (what : string) (max : Z) (set : Z -> O -> O) : Arm O :=
  Valued (fun v o => let? n := number what max v in Ok (set n o)).

(** ** Checks *)

Section Checks.
Context {W : Type} `{Outside W}.
Abbreviation P := (M W unit string).

Definition not_empty (label v : string) : P unit :=
  if str_is_empty v then fail ("missing " +:+ label) else ret tt.
Definition path_exists (label path : string) : P unit :=
  let! there := ask (PathExists path) in
  if there then ret tt else fail (label +:+ " path does not exist: " +:+ from_utf8_lossy path).

Fixpoint all_exist (paths : list (string * string)) : P unit :=
  match paths with
  | [] => ret tt
  | (label, path) :: rest => do! path_exists label path in all_exist rest
  end.
Fixpoint exist_where (paths : list (string * string * bool)) : P unit :=
  match paths with
  | [] => ret tt
  | (label, path, must_exist) :: rest =>
      do! (if must_exist then path_exists label path else ret tt) in
      exist_where rest
  end.
Fixpoint all_given (paths : list (string * string * bool)) : P unit :=
  match paths with
  | [] => ret tt
  | (label, path, must_exist) :: rest =>
      do! not_empty label path in
      do! (if must_exist then path_exists label path else ret tt) in
      all_given rest
  end.
End Checks.

(** ** run *)

Record RunOptions := {
  ro_id : string; ro_kernel : string; ro_initfs : string; ro_rootfs : string; ro_cpus : option Z;
    ro_memory_mib : option Z; ro_cwd : option string; ro_argv : list string; ro_network : bool;
    ro_ip_octet : option Z; ro_tty : bool }.
#[export] Instance eta_RunOptions : Eta RunOptions :=
  ((fun _ => Build_RunOptions) <+> ro_id <+> ro_kernel <+> ro_initfs <+> ro_rootfs <+> ro_cpus
    <+> ro_memory_mib <+> ro_cwd <+> ro_argv <+> ro_network <+> ro_ip_octet <+> ro_tty)%fields.

Definition run_defaults : RunOptions :=
  {| ro_id := "hephaestus-vm"; ro_kernel := ""; ro_initfs := ""; ro_rootfs := ""; ro_cpus := None;
    ro_memory_mib := None; ro_cwd := None; ro_argv := []; ro_network := false; ro_ip_octet := None;
    ro_tty := false |}.
(** [--ip]: the text behind the last dot. *)
Definition ip_arg (raw : string) : Result Z string :=
  let last := List.last (split_char (ch 46) raw) raw in
  let? n := number "--ip" u8_max last in
  if (2 <=? n) && (n <=? 254) then Ok n else Err ("--ip " +:+ to_dec n +:+ " out of range [2, 254]").
Definition run_arms : list (string * Arm RunOptions) := [
  ("--", Rest (fun argv o => o <| ro_argv := (ro_argv o ++ argv)%list |>));
  ("--id", stores (fun v o => o <| ro_id := v |>));
  ("--kernel", stores (fun v o => o <| ro_kernel := v |>));
  ("--initfs", stores (fun v o => o <| ro_initfs := v |>));
  ("--rootfs", stores (fun v o => o <| ro_rootfs := v |>));
  ("--cpus", stores_number "--cpus" u32_max (fun n o => o <| ro_cpus := Some n |>));
  ("--memory-mib", stores_number "--memory-mib" u64_max (fun n o => o <| ro_memory_mib := Some n |>));
  ("--cwd", stores (fun v o => o <| ro_cwd := Some v |>));
  ("--network", Switch (fun o => o <| ro_network := true |>));
  ("--ip", Valued (fun v o => let? n := ip_arg v in Ok (o <| ro_ip_octet := Some n |>)));
  ("--tty", Switch (fun o => o <| ro_tty := true |>))].

Definition parse_run_args {W} `{Outside W} (args : list string) : M W unit string RunOptions :=
  let! o := lift (parse_loop run_arms run_defaults args) in
  do! not_empty "--kernel" (ro_kernel o) in
  do! not_empty "--initfs" (ro_initfs o) in
  do! not_empty "--rootfs" (ro_rootfs o) in
  do! all_exist [("--kernel", ro_kernel o); ("--initfs", ro_initfs o); ("--rootfs", ro_rootfs o)] in
  ret o.

(** ** rootfs *)

Record RootfsOptions := {
  rf_tar : string; rf_output : string; rf_size_mib : Z; rf_compression : option Compression }.
#[export] Instance eta_RootfsOptions : Eta RootfsOptions :=
  ((fun _ => Build_RootfsOptions) <+> rf_tar <+> rf_output <+> rf_size_mib <+> rf_compression)%fields.

Definition rootfs_defaults : RootfsOptions :=
  {| rf_tar := ""; rf_output := ""; rf_size_mib := 512; rf_compression := None |}.
Definition compression_arg (v : string) : Result Compression string :=
  if String.eqb v "auto" then Err "--compression=auto is the default; omit the flag"
  else if String.eqb v "none" then Ok CNone
  else if String.eqb v "gzip" then Ok Gzip
  else if String.eqb v "zstd" then Ok Zstd
  else Err ("unknown compression `" +:+ v +:+ "`").
Definition rootfs_arms : list (string * Arm RootfsOptions) := [
  ("--from-tar", stores (fun v o => o <| rf_tar := v |>));
  ("--output", stores (fun v o => o <| rf_output := v |>));
  ("--size-mib", stores_number "--size-mib" u64_max (fun n o => o <| rf_size_mib := n |>));
  ("--compression", Valued (fun v o => let? c := compression_arg v in Ok (o <| rf_compression := Some c |>)))].

Definition parse_rootfs_args {W} `{Outside W} (args : list string) : M W unit string RootfsOptions :=
  let! o := lift (parse_loop rootfs_arms rootfs_defaults args) in
  do! not_empty "--from-tar" (rf_tar o) in
  do! not_empty "--output" (rf_output o) in
  do! path_exists "--from-tar" (rf_tar o) in
  ret o.

(** ** vz-boot *)

Record VzBootOptions := {
  vb_kernel : string; vb_rootfs : string; vb_log : string; vb_cpus : Z; vb_memory_mib : Z; vb_run_seconds : Z }.
#[export] Instance eta_VzBootOptions : Eta VzBootOptions :=
  ((fun _ => Build_VzBootOptions) <+> vb_kernel <+> vb_rootfs <+> vb_log <+> vb_cpus <+> vb_memory_mib
    <+> vb_run_seconds)%fields.

Definition vz_boot_defaults : VzBootOptions :=
  {| vb_kernel := ""; vb_rootfs := ""; vb_log := ""; vb_cpus := 0; vb_memory_mib := 0; vb_run_seconds := 0 |}.
Definition vz_boot_arms : list (string * Arm VzBootOptions) := [
  ("--kernel", stores (fun v o => o <| vb_kernel := v |>));
  ("--rootfs", stores (fun v o => o <| vb_rootfs := v |>));
  ("--log", stores (fun v o => o <| vb_log := v |>));
  ("--cpus", stores_number "--cpus" u32_max (fun n o => o <| vb_cpus := n |>));
  ("--memory-mib", stores_number "--memory-mib" u64_max (fun n o => o <| vb_memory_mib := n |>));
  ("--run-seconds", stores_number "--run-seconds" u32_max (fun n o => o <| vb_run_seconds := n |>))].

Definition parse_vz_boot_args {W} `{Outside W} (args : list string) : M W unit string VzBootOptions :=
  let! o := lift (parse_loop vz_boot_arms vz_boot_defaults args) in
  do! not_empty "--kernel" (vb_kernel o) in
  do! not_empty "--rootfs" (vb_rootfs o) in
  do! not_empty "--log" (vb_log o) in
  do! all_exist [("--kernel", vb_kernel o); ("--rootfs", vb_rootfs o)] in
  ret o.

(** ** vz-exec *)

Record VzExecOptions := {
  ve_kernel : string; ve_rootfs : string; ve_initramfs : string; ve_log : option string; ve_command : string;
    ve_cpus : Z; ve_memory_mib : Z; ve_timeout_seconds : Z; ve_stdin : bool }.
#[export] Instance eta_VzExecOptions : Eta VzExecOptions :=
  ((fun _ => Build_VzExecOptions) <+> ve_kernel <+> ve_rootfs <+> ve_initramfs <+> ve_log <+> ve_command
    <+> ve_cpus <+> ve_memory_mib <+> ve_timeout_seconds <+> ve_stdin)%fields.

Definition vz_exec_defaults : VzExecOptions :=
  {| ve_kernel := ""; ve_rootfs := ""; ve_initramfs := "build/agent.cpio.gz"; ve_log := None; ve_command := "";
    ve_cpus := 0; ve_memory_mib := 0; ve_timeout_seconds := 0; ve_stdin := false |}.
Definition vz_exec_arms : list (string * Arm VzExecOptions) := [
  ("--kernel", stores (fun v o => o <| ve_kernel := v |>));
  ("--rootfs", stores (fun v o => o <| ve_rootfs := v |>));
  ("--initramfs", stores (fun v o => o <| ve_initramfs := v |>));
  ("--log", stores (fun v o => o <| ve_log := Some v |>));
  ("--cmd", stores (fun v o => o <| ve_command := v |>));
  ("--cpus", stores_number "--cpus" u32_max (fun n o => o <| ve_cpus := n |>));
  ("--memory-mib", stores_number "--memory-mib" u64_max (fun n o => o <| ve_memory_mib := n |>));
  ("--timeout-seconds", stores_number "--timeout-seconds" u32_max (fun n o => o <| ve_timeout_seconds := n |>));
  ("--stdin", Switch (fun o => o <| ve_stdin := true |>))].

Definition parse_vz_exec_args {W} `{Outside W} (args : list string) : M W unit string VzExecOptions :=
  let! o := lift (parse_loop vz_exec_arms vz_exec_defaults args) in
  do! not_empty "--kernel" (ve_kernel o) in
  do! not_empty "--rootfs" (ve_rootfs o) in
  do! not_empty "--cmd" (ve_command o) in
  do! all_exist [("--kernel", ve_kernel o); ("--rootfs", ve_rootfs o); ("--initramfs", ve_initramfs o)] in
  ret o.

(** ** pool *)

Record PoolInitOptions := {
  pn_dir : string; pn_kernel : string; pn_rootfs : string; pn_initramfs : string; pn_size : Z; pn_cpus : Z;
    pn_memory_mib : Z; pn_stock_init : bool; pn_settle_seconds : Z }.
#[export] Instance eta_PoolInitOptions : Eta PoolInitOptions :=
  ((fun _ => Build_PoolInitOptions) <+> pn_dir <+> pn_kernel <+> pn_rootfs <+> pn_initramfs <+> pn_size
    <+> pn_cpus <+> pn_memory_mib <+> pn_stock_init <+> pn_settle_seconds)%fields.

Definition pool_init_defaults : PoolInitOptions :=
  {| pn_dir := ""; pn_kernel := ""; pn_rootfs := ""; pn_initramfs := "build/agent.cpio.gz"; pn_size := 4;
    pn_cpus := 0; pn_memory_mib := 0; pn_stock_init := false; pn_settle_seconds := 3 |}.
Definition pool_init_arms : list (string * Arm PoolInitOptions) := [
  ("--dir", stores (fun v o => o <| pn_dir := v |>));
  ("--kernel", stores (fun v o => o <| pn_kernel := v |>));
  ("--rootfs", stores (fun v o => o <| pn_rootfs := v |>));
  ("--initramfs", stores (fun v o => o <| pn_initramfs := v |>));
  ("--size", stores_number "--size" u32_max (fun n o => o <| pn_size := n |>));
  ("--cpus", stores_number "--cpus" u32_max (fun n o => o <| pn_cpus := n |>));
  ("--memory-mib", stores_number "--memory-mib" u64_max (fun n o => o <| pn_memory_mib := n |>));
  ("--stock-init", Switch (fun o => o <| pn_stock_init := true |>));
  ("--settle-seconds", stores_number "--settle-seconds" u32_max (fun n o => o <| pn_settle_seconds := n |>))].

Definition parse_pool_init {W} `{Outside W} (args : list string) : M W unit string PoolInitOptions :=
  let! o := lift (parse_loop pool_init_arms pool_init_defaults args) in
  do! all_given ([("--dir", pn_dir o, false); ("--kernel", pn_kernel o, true); ("--rootfs", pn_rootfs o, true)]
                 ++ if negb (pn_stock_init o) then [("--initramfs", pn_initramfs o, true)] else [])%list in
  ret o.

Record PoolRunOptions := {
  pu_dir : string; pu_command : string }.
#[export] Instance eta_PoolRunOptions : Eta PoolRunOptions :=
  ((fun _ => Build_PoolRunOptions) <+> pu_dir <+> pu_command)%fields.

Definition pool_run_defaults : PoolRunOptions := {| pu_dir := ""; pu_command := "" |}.
Definition pool_run_arms : list (string * Arm PoolRunOptions) := [
  ("--dir", stores (fun v o => o <| pu_dir := v |>));
  ("--cmd", stores (fun v o => o <| pu_command := v |>))].

Definition parse_pool_run {W} `{Outside W} (args : list string) : M W unit string PoolRunOptions :=
  let! o := lift (parse_loop pool_run_arms pool_run_defaults args) in
  do! not_empty "--dir" (pu_dir o) in
  do! not_empty "--cmd" (pu_command o) in
  ret o.

Definition pool_dir_arms : list (string * Arm string) := [("--dir", stores (fun v _ => v))].
Definition parse_pool_dir_only {W} `{Outside W} (args : list string) : M W unit string string :=
  let! o := lift (parse_loop pool_dir_arms "" args) in
  do! not_empty "--dir" o in
  ret o.

(** ** vz-warm *)

Record VzWarmOptions := {
  vw_kernel : string; vw_rootfs : string; vw_initramfs : string; vw_save : string; vw_log : option string;
    vw_command : string; vw_cpus : Z; vw_memory_mib : Z }.
#[export] Instance eta_VzWarmOptions : Eta VzWarmOptions :=
  ((fun _ => Build_VzWarmOptions) <+> vw_kernel <+> vw_rootfs <+> vw_initramfs <+> vw_save <+> vw_log
    <+> vw_command <+> vw_cpus <+> vw_memory_mib)%fields.

Definition vz_warm_defaults : VzWarmOptions :=
  {| vw_kernel := ""; vw_rootfs := ""; vw_initramfs := "build/agent.cpio.gz"; vw_save := ""; vw_log := None;
    vw_command := ""; vw_cpus := 0; vw_memory_mib := 0 |}.
Definition vz_warm_arms : list (string * Arm VzWarmOptions) := [
  ("--kernel", stores (fun v o => o <| vw_kernel := v |>));
  ("--rootfs", stores (fun v o => o <| vw_rootfs := v |>));
  ("--initramfs", stores (fun v o => o <| vw_initramfs := v |>));
  ("--save", stores (fun v o => o <| vw_save := v |>));
  ("--log", stores (fun v o => o <| vw_log := Some v |>));
  ("--cmd", stores (fun v o => o <| vw_command := v |>));
  ("--cpus", stores_number "--cpus" u32_max (fun n o => o <| vw_cpus := n |>));
  ("--memory-mib", stores_number "--memory-mib" u64_max (fun n o => o <| vw_memory_mib := n |>))].

Definition parse_vz_warm_args {W} `{Outside W} (restoring : bool) (args : list string) : M W unit string VzWarmOptions :=
  let! o := lift (parse_loop vz_warm_arms vz_warm_defaults args) in
  do! not_empty "--kernel" (vw_kernel o) in
  do! not_empty "--rootfs" (vw_rootfs o) in
  do! not_empty "--save" (vw_save o) in
  do! (if restoring && str_is_empty (vw_command o) then fail "missing --cmd (required for `vz-warm run`)" else ret tt) in
  do! exist_where [("--kernel", vw_kernel o, true); ("--rootfs", vw_rootfs o, true);
                   ("--initramfs", vw_initramfs o, true); ("--save", vw_save o, restoring)] in
  ret o.

(** ** vz-sh *)

Record VzShOptions := {
  vh_kernel : string; vh_rootfs : string; vh_cpus : Z; vh_memory_mib : Z; vh_timeout_seconds : Z }.
#[export] Instance eta_VzShOptions : Eta VzShOptions :=
  ((fun _ => Build_VzShOptions) <+> vh_kernel <+> vh_rootfs <+> vh_cpus <+> vh_memory_mib
    <+> vh_timeout_seconds)%fields.

Definition vz_sh_defaults : VzShOptions :=
  {| vh_kernel := ""; vh_rootfs := ""; vh_cpus := 0; vh_memory_mib := 0; vh_timeout_seconds := 0 |}.
Definition vz_sh_arms : list (string * Arm VzShOptions) := [
  ("--kernel", stores (fun v o => o <| vh_kernel := v |>));
  ("--rootfs", stores (fun v o => o <| vh_rootfs := v |>));
  ("--cpus", stores_number "--cpus" u32_max (fun n o => o <| vh_cpus := n |>));
  ("--memory-mib", stores_number "--memory-mib" u64_max (fun n o => o <| vh_memory_mib := n |>));
  ("--timeout-seconds", stores_number "--timeout-seconds" u32_max (fun n o => o <| vh_timeout_seconds := n |>))].

Definition parse_vz_sh_args {W} `{Outside W} (args : list string) : M W unit string VzShOptions :=
  let! o := lift (parse_loop vz_sh_arms vz_sh_defaults args) in
  do! not_empty "--kernel" (vh_kernel o) in
  do! not_empty "--rootfs" (vh_rootfs o) in
  do! all_exist [("--kernel", vh_kernel o); ("--rootfs", vh_rootfs o)] in
  ret o.

(** ** vz-snapshot *)

Record VzSnapOptions := {
  vp_kernel : string; vp_rootfs : string; vp_log : string; vp_save : string; vp_cpus : Z; vp_memory_mib : Z;
    vp_seconds : Z }.
#[export] Instance eta_VzSnapOptions : Eta VzSnapOptions :=
  ((fun _ => Build_VzSnapOptions) <+> vp_kernel <+> vp_rootfs <+> vp_log <+> vp_save <+> vp_cpus
    <+> vp_memory_mib <+> vp_seconds)%fields.

Definition vz_snap_defaults : VzSnapOptions :=
  {| vp_kernel := ""; vp_rootfs := ""; vp_log := ""; vp_save := ""; vp_cpus := 0; vp_memory_mib := 0;
    vp_seconds := 0 |}.
Definition vz_snap_arms : list (string * Arm VzSnapOptions) := [
  ("--kernel", stores (fun v o => o <| vp_kernel := v |>));
  ("--rootfs", stores (fun v o => o <| vp_rootfs := v |>));
  ("--log", stores (fun v o => o <| vp_log := v |>));
  ("--save", stores (fun v o => o <| vp_save := v |>));
  ("--cpus", stores_number "--cpus" u32_max (fun n o => o <| vp_cpus := n |>));
  ("--memory-mib", stores_number "--memory-mib" u64_max (fun n o => o <| vp_memory_mib := n |>));
  ("--settle-seconds", stores_number "seconds value" u32_max (fun n o => o <| vp_seconds := n |>));
  ("--run-seconds", stores_number "seconds value" u32_max (fun n o => o <| vp_seconds := n |>))].

Definition parse_vz_snap_args {W} `{Outside W} (saving : bool) (args : list string) : M W unit string VzSnapOptions :=
  let! o := lift (parse_loop vz_snap_arms vz_snap_defaults args) in
  do! all_given [("--kernel", vp_kernel o, true); ("--rootfs", vp_rootfs o, true); ("--log", vp_log o, false);
                 ("--save", vp_save o, negb saving)] in
  ret o.

(** ** What a parser makes of its arguments

    The last occurrence of a flag decides its option, whatever stands
    between. *)

(** The flags of an argument list, with their values. *)
Fixpoint occurrences {O} (arms : list (string * Arm O)) (args : list string) : list (string * option string) :=
  match args with
  | [] => []
  | a :: rest =>
      match entry a arms with
      | Some (Switch _) => (a, None) :: occurrences arms rest
      | Some (Valued _) =>
          match rest with
          | v :: rest' => (a, Some v) :: occurrences arms rest'
          | [] => []
          end
      | _ => []
      end
  end.
(** The last value of a flag. *)
Fixpoint given (flag : string) (l : list (string * option string)) : option (option string) :=
  match l with
  | [] => None
  | (n, v) :: rest =>
      match given flag rest with
      | Some v' => Some v'
      | None => if String.eqb n flag then Some v else None
      end
  end.

(** The field is set by the flag and by nothing else. *)
Definition arm_sets {O T} (get : O -> T) (flag : string) (val : option string -> T) (name : string) (arm : Arm O) : Prop :=
  match arm with
  | Switch f => forall o, get (f o) = if String.eqb name flag then val None else get o
  | Valued f => forall v o o', f v o = Ok o' -> get o' = if String.eqb name flag then val (Some v) else get o
  | Rest f => forall l o, get (f l o) = get o
  end.

Definition or_given {T} (val : option string -> T) (d : T) (g : option (option string)) : T :=
  match g with Some v => val v | None => d end.

Lemma parse_loop_field {O T} (arms : list (string * Arm O)) (get : O -> T) flag val o args o' :
  Forall (fun e => arm_sets get flag val e.1 e.2) arms -> parse_loop arms o args = Ok o' ->
  get o' = or_given val (get o) (given flag (occurrences arms args)).
Proof.
  unfold or_given. intros Ha. assert (Hl : exists n, (length args <= n)%nat) by eauto. destruct Hl as [n Hl]. revert o args Hl.
  induction n as [|n IH]; intros o [|a rest] Hl; cbn [length] in Hl; try (by intros [= <-]); [lia|]. cbn [parse_loop occurrences].
  destruct (entry a arms) as [arm|] eqn:He; [|done]. pose proof (entry_Forall _ _ _ _ Ha He) as Hs. destruct arm as [f|f|f]; cbn in Hs.
  - intros Hp. rewrite (IH (f o) rest ltac:(lia) Hp). cbn [given]. rewrite Hs. destruct (given flag _), (String.eqb a flag); done.
  - destruct rest as [|v rest']; [done|]. destruct (f v o) as [o1|e] eqn:Hf; [|done]. intros Hp. cbn [length] in Hl.
    rewrite (IH o1 rest' ltac:(lia) Hp). cbn [given]. rewrite (Hs _ _ _ Hf). destruct (given flag _), (String.eqb a flag); done.
  - intros [= <-]. apply Hs.
Qed.

(** Values of the kinds of fields. *)
Definition text_value (v : option string) : string := default "" v.
Definition number_value (max : Z) (v : option string) : Z :=
  match parse_uint max (default "" v) with Ok n => n | Err _ => 0 end.
Definition switch_value (_ : option string) : bool := true.
(** An arm of a table: its function computed, a number parsed. *)
Ltac arm_field :=
  cbn; intros; unfold number in *;
  repeat match goal with
  | H : context [map_err _ (parse_uint ?m ?v)] |- _ => destruct (parse_uint m v) eqn:?; cbn in H; [|discriminate H]
  end;
  simplify_eq/=; unfold number_value; cbn;
  repeat match goal with H : parse_uint _ _ = Ok _ |- _ => rewrite H end; reflexivity.
Ltac table_field := repeat (apply Forall_cons_2; [arm_field|]); apply Forall_nil_2.

Ltac field get flag val parse := refine (parse_loop_field _ get flag val _ _ _ _ parse); table_field.

Section VzExec.
Variables (args : list string) (o : VzExecOptions).
Hypothesis parse : parse_loop vz_exec_arms vz_exec_defaults args = Ok o.
Let g flag := given flag (occurrences vz_exec_arms args).

Lemma vz_exec_fields :
  ve_kernel o = or_given text_value "" (g "--kernel") /\ ve_rootfs o = or_given text_value "" (g "--rootfs") /\
  ve_initramfs o = or_given text_value "build/agent.cpio.gz" (g "--initramfs") /\ ve_log o = or_given id None (g "--log") /\
  ve_command o = or_given text_value "" (g "--cmd") /\ ve_cpus o = or_given (number_value u32_max) 0 (g "--cpus") /\
  ve_memory_mib o = or_given (number_value u64_max) 0 (g "--memory-mib") /\
  ve_timeout_seconds o = or_given (number_value u32_max) 0 (g "--timeout-seconds") /\
  ve_stdin o = or_given switch_value false (g "--stdin").
Proof.
  split_and!.
  - field ve_kernel "--kernel" text_value parse.
  - field ve_rootfs "--rootfs" text_value parse.
  - field ve_initramfs "--initramfs" text_value parse.
  - field ve_log "--log" (@id (option string)) parse.
  - field ve_command "--cmd" text_value parse.
  - field ve_cpus "--cpus" (number_value u32_max) parse.
  - field ve_memory_mib "--memory-mib" (number_value u64_max) parse.
  - field ve_timeout_seconds "--timeout-seconds" (number_value u32_max) parse.
  - field ve_stdin "--stdin" switch_value parse.
Qed.
End VzExec.
