(* ===== verification/Cli.v ===== *)
(** * The command line (hephaestus-cli/src/main.rs)

    The subcommands and [main].  A command is code over calls to the outside;
    its value is the exit status.  What it prints on standard output is a
    call, text on standard error is left out, and with it the clock that only
    that text shows. *)

From S2P Require Import Prelude RustStr Utf8 World Bridge Pool CliHelp CliArgs.
Local Open Scope string_scope.
Local Open Scope Z_scope.

Definition PKG_VERSION : string := "0.4.0-alpha.3".

(** The exit status of a guest command: [u8::try_from(code)], else 1. *)
Definition exit_status (code : Z) : Z := if (0 <=? code) && (code <=? u8_max) then code else 1.
Definition wire_command (o : VzExecOptions) : string :=
  if ve_stdin o then "__hephaestus_stdin__" +:+ ve_command o else ve_command o.

(** The specification that [run] builds. *)
Definition run_spec (o : RunOptions) : Spec :=
  let spec := Spec_new (ro_id o) (ro_kernel o) (ro_initfs o) (ro_rootfs o) in
  let spec := match ro_argv o with [] => spec | argv => container_argv argv spec end in
  let spec := match ro_cpus o with Some c => container_cpus c spec | None => spec end in
  let spec := match ro_memory_mib o with Some m => container_memory_mib m spec | None => spec end in
  let spec := match ro_cwd o with Some cwd => container_cwd cwd spec | None => spec end in
  let spec := container_tty (ro_tty o) (container_networking (ro_network o) spec) in
  match ro_ip_octet o with Some octet => container_ip_octet octet spec | None => spec end.

(** A panic ends the process; nothing else makes a command fail. *)
Inductive Panic := Panicked (why : string).

Section Commands.
Context {W : Type} `{Outside W}.
Abbreviation C := (M W unit Panic).

(** [println!] panics when standard output cannot be written. *)
Definition println (text : string) : C unit :=
  let! r := ask (PrintOut (text +:+ nl)) in
  match r with Ok _ => ret tt | Err e => fail (Panicked ("failed printing to stdout: " +:+ e)) end.

(** A result reported by the exit status 1 when it is an error. *)
Definition reported {E A} (m : M W unit E A) (k : A -> C Z) : C Z :=
  let! r := attempt m in
  match r with Ok a => k a | Err _ => ret 1 end.

(** ** run *)

(** The VM is dropped at the end, on every path. *)
Definition run (o : RunOptions) : C Z :=
  reported (container_build (run_spec o)) (fun vm =>
    guarded (drop_Vm vm)
      (reported (Vm_create vm) (fun _ =>
       reported (Vm_start vm) (fun _ =>
       reported (Vm_wait vm) (fun exit_code =>
         do! attempt (Vm_stop vm) in
         ret (exit_status exit_code)))))).

(** ** rootfs *)

(** [Compression::auto_detect] opens the file and reads its first bytes. *)
Definition detect (tar : string) : M W unit string (option Compression) :=
  let! r := ask (ReadHead tar 4) in
  let! head := lift r in
  ret (auto_detect head).

Definition rootfs (o : RootfsOptions) : C Z :=
  let k (c : Compression) := reported (build_rootfs_from_tar (rf_tar o) (rf_output o) (rf_size_mib o) c) (fun _ => ret 0) in
  match rf_compression o with
  | Some c => k c
  | None => reported (detect (rf_tar o)) (fun found => k (default CNone found))
  end.

(** ** The direct path *)

Definition vz_boot_cmd (o : VzBootOptions) : C Z :=
  reported (vz_boot (vb_kernel o) (vb_rootfs o) (vb_log o) (vb_cpus o) (vb_memory_mib o) (vb_run_seconds o)) (fun _ => ret 0).

Definition vz_exec_cmd (o : VzExecOptions) : C Z :=
  reported (vz_exec (ve_kernel o) (ve_initramfs o) (ve_rootfs o) (wire_command o) (ve_log o) (ve_cpus o)
              (ve_memory_mib o) (ve_timeout_seconds o) (ve_stdin o))
    (fun code => ret (exit_status code)).

Definition vz_warm_save_cmd (o : VzWarmOptions) : C Z :=
  reported (vz_exec_snapshot_save (vw_kernel o) (vw_initramfs o) (vw_rootfs o) (vw_save o) (vw_log o) (vw_cpus o)
              (vw_memory_mib o))
    (fun _ => do! ask (FileSize (vw_save o)) in ret 0).

Definition vz_warm_run_cmd (o : VzWarmOptions) : C Z :=
  reported (vz_exec_snapshot_restore (vw_kernel o) (vw_initramfs o) (vw_rootfs o) (vw_save o) (vw_command o) (vw_log o)
              (vw_cpus o) (vw_memory_mib o))
    (fun '(code, _) => ret (exit_status code)).

Definition vz_sh_cmd (o : VzShOptions) : C Z :=
  reported (vz_sh (vh_kernel o) (vh_rootfs o) (vh_cpus o) (vh_memory_mib o) (vh_timeout_seconds o)) (fun _ => ret 0).

Definition vz_snap_save_cmd (o : VzSnapOptions) : C Z :=
  reported (vz_snapshot_save (vp_kernel o) (vp_rootfs o) (vp_log o) (vp_save o) (vp_cpus o) (vp_memory_mib o) (vp_seconds o))
    (fun _ => do! ask (FileSize (vp_save o)) in ret 0).

Definition vz_snap_restore_cmd (o : VzSnapOptions) : C Z :=
  reported (vz_snapshot_restore (vp_kernel o) (vp_rootfs o) (vp_log o) (vp_save o) (vp_cpus o) (vp_memory_mib o) (vp_seconds o))
    (fun _ => ret 0).

(** ** pool *)

Definition pool_init_args (o : PoolInitOptions) : PoolInit :=
  {| pi_dir := pn_dir o; pi_kernel := pn_kernel o; pi_rootfs_source := pn_rootfs o; pi_slots := pn_size o;
     pi_cpus := pn_cpus o; pi_memory_mib := pn_memory_mib o;
     pi_flavor := if pn_stock_init o then StockInit else Agent;
     pi_initramfs := if pn_stock_init o then None else Some (pn_initramfs o);
     pi_settle_seconds := pn_settle_seconds o |}.
Definition pool_init_cmd (o : PoolInitOptions) : C Z := reported (Pool.init (pool_init_args o)) (fun _ => ret 0).

(** The slot is dropped, and with it its lock, when the command is done. *)
Definition pool_run_cmd (o : PoolRunOptions) : C Z :=
  reported (Pool.open (pu_dir o)) (fun pool =>
  reported (try_claim_slot pool) (fun slot =>
    match slot with
    | None => ret 75
    | Some slot =>
        guarded (drop_slot slot)
          (reported (Pool.run pool slot (pu_command o)) (fun code => ret (exit_status code)))
    end)).

Definition count_busy (slots : list SlotState) : Z := Z.of_nat (length (filter (fun s => st_busy s = true) slots)).
Definition slot_line (s : SlotState) : string :=
  "  slot-" +:+ to_dec (st_index s) +:+ ": " +:+ (if st_busy s then "BUSY" else "free")
  +:+ (if st_has_rootfs s then "  (lingering rootfs)" else "").

Fixpoint print_lines (ls : list string) : C unit :=
  match ls with
  | [] => ret tt
  | l :: rest => do! println l in print_lines rest
  end.

Definition pool_stats_cmd (d : string) : C Z :=
  reported (Pool.open d) (fun pool =>
  reported (stats pool) (fun slots =>
    let busy := count_busy slots in
    if m_slots (meta pool) <? busy then fail (Panicked "attempt to subtract with overflow") else
    do! println ("pool: " +:+ from_utf8_lossy (dir pool) +:+ "  total: " +:+ to_dec (m_slots (meta pool)) +:+ "  busy: "
                 +:+ to_dec busy +:+ "  free: " +:+ to_dec (m_slots (meta pool) - busy)) in
    do! print_lines (slot_line <$> slots) in
    ret 0)).

Definition pool_destroy_cmd (d : string) : C Z := reported (destroy d) (fun _ => ret 0).

(** ** main *)

(** A command line that is not understood: the exit status 2. *)
Definition parsed {O} (m : M W unit string O) (k : O -> C Z) : C Z :=
  let! r := attempt m in
  match r with Ok o => k o | Err _ => ret 2 end.

(** The first argument selects the command, which gets the others. *)
Definition dispatch (table : list (string * (list string -> C Z))) (args : list string) : C Z :=
  match args with
  | [] => ret 2
  | name :: rest => match entry name table with Some command => command rest | None => ret 2 end
  end.

Definition pool_commands : list (string * (list string -> C Z)) := [
  ("init", fun args => parsed (parse_pool_init args) pool_init_cmd);
  ("run", fun args => parsed (parse_pool_run args) pool_run_cmd);
  ("stats", fun args => parsed (parse_pool_dir_only args) pool_stats_cmd);
  ("destroy", fun args => parsed (parse_pool_dir_only args) pool_destroy_cmd)].
Definition vz_warm_commands : list (string * (list string -> C Z)) := [
  ("save", fun args => parsed (parse_vz_warm_args false args) vz_warm_save_cmd);
  ("run", fun args => parsed (parse_vz_warm_args true args) vz_warm_run_cmd)].
Definition vz_snapshot_commands : list (string * (list string -> C Z)) := [
  ("save", fun args => parsed (parse_vz_snap_args true args) vz_snap_save_cmd);
  ("restore", fun args => parsed (parse_vz_snap_args false args) vz_snap_restore_cmd)].

Definition ping_cmd : C Z :=
  let! pong := ping in
  match pong with
  | Some text => do! println text in ret 0
  | None => fail (Panicked "hb_ping returned null")
  end.

Definition commands : list (string * (list string -> C Z)) := [
  ("ping", fun _ => ping_cmd);
  ("run", fun args => parsed (parse_run_args args) run);
  ("rootfs", fun args => parsed (parse_rootfs_args args) rootfs);
  ("vz-boot", fun args => parsed (parse_vz_boot_args args) vz_boot_cmd);
  ("vz-exec", fun args => parsed (parse_vz_exec_args args) vz_exec_cmd);
  ("pool", dispatch pool_commands);
  ("vz-warm", dispatch vz_warm_commands);
  ("vz-sh", fun args => parsed (parse_vz_sh_args args) vz_sh_cmd);
  ("vz-snapshot", dispatch vz_snapshot_commands)].

(** [std::env::args] panics on an argument that is not UTF-8. *)
Definition main (raw_args : list string) : C Z :=
  if negb (forallb utf8_valid raw_args) then fail (Panicked "called `Result::unwrap()` on an `Err` value") else
  match help_text raw_args with
  | Some help => do! println help in ret 0
  | None =>
      match raw_args with
      | first :: _ =>
          if String.eqb first "-V" || String.eqb first "--version"
          then do! println ("hephaestus " +:+ PKG_VERSION) in ret 0
          else dispatch commands raw_args
      | [] => dispatch commands raw_args
      end
  end.
End Commands.
