(* ===== verification/CliProps.v ===== *)
(** * What the command line promises

    The meaning of the exit status and the release of what a command
    acquires, for every command. *)

From S2P Require Import Prelude RustStr Utf8 World Bridge Pool Ledger CliHelp CliArgs Cli.
Local Open Scope string_scope.
Local Open Scope Z_scope.
Local Open Scope list_scope.

(** ** What a trace shows *)

(** The containers that were made and freed. *)
Definition container_made (e : Event) : list Handle :=
  match e with
  | Ev c a => match c in Call A return A -> list Handle with
              | HbVmNew _ => fun r => made r (fun h => h)
              | _ => fun _ => []
              end a
  end.
Definition container_freed (e : Event) : list Handle := match e with Ev (HbVmFree h) _ => [h] | _ => [] end.

(** The exit code that the guest reported. *)
Definition guest_code (e : Event) : option Z :=
  match e with
  | Ev c a => match c in Call A return A -> option Z with
              | HbExec _ _ _ _ _ _ _ _ _ => fun r => Some (out r)
              | HbExecSnapshotRestore _ _ _ _ _ _ _ _ => fun r => Some (fst (out r))
              | HbVmWait _ => fun r => Some (out r)
              | _ => fun _ => None
              end a
  end.
Definition guest_exited (code : Z) (t : Trace) : Prop := exists e, e ∈ t /\ guest_code e = Some code.

(** Looking whether files exist. *)
Definition probes : forall A, Call A -> Prop := fun _ c => match c with PathExists _ => True | _ => False end.
(** Opening the pool [d]: its directory is [d'], and [f] is its metadata file. *)
Definition opening (d d' : string) (f : FileData) : Trace :=
  [Ev (Canonicalize d) (Ok d'); Ev (PathExists (path_join d' "meta")) true; Ev (ReadFile (path_join d' "meta")) (Ok f)].
(** A pool was opened, and each of its slots was found locked by another. *)
Definition exhausted (t : Trace) : Prop :=
  exists t0 d d' f m, t = t0 ++ opening d d' f ++ busy_probes d' 0 (Z.to_nat (m_slots m)) /\
    Only probes t0 /\ meta_parse f = Ok m.
(** The bridge's [ping] had no text. *)
Definition mute (t : Trace) : Prop := exists a, Ev HbPing a ∈ t /\ match a with Some s => utf8_valid s = false | None => True end.

(** Nothing acquired or released; everything acquired released. *)
Definition idle (t : Trace) : Prop :=
  locked t = [] /\ unlocked t = [] /\ t ≫= container_made = [] /\ t ≫= container_freed = [].
Definition settled (t : Trace) : Prop :=
  locked t ≡ₚ unlocked t /\ t ≫= container_made ≡ₚ t ≫= container_freed.

Lemma idle_nil : idle [].
Proof. done. Qed.
Lemma idle_app t1 t2 : idle t1 -> idle t2 -> idle (t1 ++ t2).
Proof.
  unfold idle, locked, unlocked. rewrite !bind_app. by intros (-> & -> & -> & ->) (-> & -> & -> & ->).
Qed.
Lemma idle_settled t : idle t -> settled t.
Proof. intros (Hl & Hu & Hm & Hf). unfold settled. by rewrite Hl, Hu, Hm, Hf. Qed.
Lemma settled_app t1 t2 : settled t1 -> settled t2 -> settled (t1 ++ t2).
Proof. unfold settled, locked, unlocked. rewrite !bind_app. by intros [-> ->] [-> ->]. Qed.
Lemma probes_idle t : Only probes t -> idle t.
Proof.
  induction 1 as [|[A c a] t Hc Ht IH]; [done|]. change (idle ([Ev c a] ++ t)). apply idle_app; [|done].
  by destruct c; try done.
Qed.
Lemma idle_busy d i k : idle (busy_probes d i k).
Proof. revert i. induction k as [|k IH]; intros i; [done|]. apply idle_app; [done|apply IH]. Qed.
#[local] Hint Resolve idle_nil idle_app idle_settled settled_app idle_busy : heph.
#[local] Hint Extern 1 (idle (_ :: _)) => (split_and!; reflexivity) : heph.

(** What holds of every run of a command. *)
Definition reads_well (r : Result Z Panic) (t : Trace) : Prop :=
  match r with
  | Err _ => (mute t \/ unprinted t) /\ settled t
  | Ok st => u8_range st /\ (st = 2 -> Only probes t \/ guest_exited 2 t) /\
             (st = 75 -> exhausted t \/ guest_exited 75 t) /\ settled t
  end.

Section Good.
Context {W : Type} `{Outside W}.
Definition Good (m : M W unit Panic Z) : Prop := forall w, wp m (fun r _ _ t => reads_well r t) tt w.

(** A status that is neither 2 nor 75. *)
Lemma plain_status st t : u8_range st -> st <> 2 -> st <> 75 -> settled t -> reads_well (Ok st) t.
Proof. intros. split_and!; [done|by intros ->..|done]. Qed.
Lemma guest_status code t : guest_exited code t -> settled t -> reads_well (Ok (exit_status code)) t.
Proof.
  intros Hg Ht. unfold exit_status, reads_well, u8_range, u8_max. destruct ((0 <=? code) && (code <=? 255)) eqn:E.
  - split_and!; [lia|lia|by intros ->; right|by intros ->; right|done].
  - by split_and!.
Qed.

(** A command that fails where it is reported with the status 1. *)
Lemma wp_reported {E A} (m : M W unit E A) (k : A -> M W unit Panic Z) Q w :
  wp m (fun r s1 w1 t1 => match r with
                          | Ok a => wp (k a) (fun r2 s2 w2 t2 => Q r2 s2 w2 (t1 ++ t2)) s1 w1
                          | Err _ => Q (Ok 1) s1 w1 t1
                          end) tt w ->
  wp (reported m k) Q tt w.
Proof.
  intros Hm. unfold reported. do 2 wp_step. eapply wp_mono; [exact Hm|]. intros [a|e] s1 w1 t1 Hr; [done|].
  wp_step. by rewrite app_nil_r.
Qed.

Lemma failed_status t : settled t -> reads_well (Ok 1) t.
Proof. intros. by apply plain_status. Qed.
Lemma done_status t : settled t -> reads_well (Ok 0) t.
Proof. intros. by apply plain_status. Qed.
#[local] Hint Resolve failed_status done_status : heph.

(** The bridge's functions make one call. *)
Ltac bridged := repeat wp_step; try (apply wp_ffi; intros).
Ltac settle := rewrite ?app_nil_r; eauto 10 with heph.

Lemma good_vz_boot o : Good (vz_boot_cmd o).
Proof. intros w. unfold vz_boot_cmd. apply wp_reported. unfold vz_boot. bridged; wp_run; settle. Qed.
Lemma good_vz_sh o : Good (vz_sh_cmd o).
Proof. intros w. unfold vz_sh_cmd. apply wp_reported. unfold vz_sh. bridged; wp_run; settle. Qed.
Lemma good_vz_warm_save o : Good (vz_warm_save_cmd o).
Proof. intros w. unfold vz_warm_save_cmd. apply wp_reported. unfold vz_exec_snapshot_save. bridged; wp_run; settle. Qed.
Lemma good_vz_snap_save o : Good (vz_snap_save_cmd o).
Proof. intros w. unfold vz_snap_save_cmd. apply wp_reported. unfold vz_snapshot_save. bridged; wp_run; settle. Qed.
Lemma good_vz_snap_restore o : Good (vz_snap_restore_cmd o).
Proof. intros w. unfold vz_snap_restore_cmd. apply wp_reported. unfold vz_snapshot_restore. bridged; wp_run; settle. Qed.
Lemma good_rootfs o : Good (rootfs o).
Proof.
  intros w. unfold rootfs. cbv zeta.
  assert (Hb : forall c pre w', idle pre ->
    wp (reported (build_rootfs_from_tar (rf_tar o) (rf_output o) (rf_size_mib o) c) (fun _ => ret 0))
      (fun r _ _ t => reads_well r (pre ++ t)) tt w').
  { intros c pre w' Hp. apply wp_reported. unfold build_rootfs_from_tar. bridged; wp_run; settle. }
  destruct (rf_compression o) as [c|]; [by apply (Hb c [])|]. apply wp_reported. unfold detect. do 4 wp_step.
  destruct a as [head|e]; [|settle]. wp_step. by apply (Hb _ [_]).
Qed.

Lemma guest_here e t code : guest_code e = Some code -> guest_exited code (e :: t).
Proof. intros He. exists e. split; [set_solver|done]. Qed.

Lemma good_vz_exec o : Good (vz_exec_cmd o).
Proof.
  intros w. unfold vz_exec_cmd. apply wp_reported. unfold vz_exec. bridged; wp_run; settle.
  apply guest_status; [by apply guest_here|settle].
Qed.
Lemma good_vz_warm_run o : Good (vz_warm_run_cmd o).
Proof.
  intros w. unfold vz_warm_run_cmd. apply wp_reported. unfold vz_exec_snapshot_restore. bridged; wp_run; settle.
  apply guest_status; [|settle]. apply guest_here. cbn. match goal with E : out _ = _ |- _ => by rewrite E end.
Qed.

(** What a guest command leads to. *)
Definition outcome (r : Result Z Panic) (t : Trace) : Prop :=
  idle t /\ exists st, r = Ok st /\ (st = 1 \/ exists code, guest_exited code t /\ st = exit_status code).

Lemma outcome_reads_well r t pre post :
  outcome r t -> settled (pre ++ t ++ post) -> reads_well r (pre ++ t ++ post).
Proof.
  intros (_ & st & -> & [->|(code & (e & He & Hc) & ->)]) Hs; [by apply failed_status|].
  apply guest_status; [|done]. exists e. split; [set_solver|done].
Qed.
Lemma outcome_failed t : idle t -> outcome (Ok 1) t.
Proof. intros. split; [done|]. eauto. Qed.
Lemma outcome_exited code t : idle t -> guest_exited code t -> outcome (Ok (exit_status code)) t.
Proof. intros. split; [done|]. eauto 10. Qed.

Definition container_body (vm : Handle) : M W unit Panic Z :=
  reported (Vm_create vm) (fun _ =>
  reported (Vm_start vm) (fun _ =>
  reported (Vm_wait vm) (fun exit_code =>
    do! attempt (Vm_stop vm) in
    ret (exit_status exit_code)))).
Lemma container_outcome vm w : wp (container_body vm) (fun r _ _ t => outcome r t) tt w.
Proof.
  unfold container_body, Vm_create, Vm_start, Vm_wait, Vm_stop.
  apply wp_reported, wp_ffi; [intros a1 w1 _|intros; by apply outcome_failed].
  apply wp_reported, wp_ffi; [intros a2 w2 _|intros; by apply outcome_failed].
  apply wp_reported, wp_ffi; [intros a3 w3 _|intros; by apply outcome_failed].
  do 2 wp_step. apply wp_ffi; intros; wp_step; (apply outcome_exited; [settle|]);
    (exists (Ev (HbVmWait vm) a3); split; [set_solver|done]).
Qed.

(** The VM is stopped and freed behind whatever ran. *)
Lemma good_run o : Good (run o).
Proof.
  intros w. unfold run. apply wp_reported. unfold container_build, Vm_new. wp_run; [|settle].
  apply wp_ffi; [intros vm w1 Hs|intros reply e w1 Hs].
  - unfold guarded. do 2 wp_step. eapply wp_mono; [apply container_outcome|]. intros r s1 w2 t Hr. destruct s1.
    unfold drop_Vm. do 4 wp_step. apply wp_lift. apply outcome_reads_well; [done|].
    destruct Hr as [(Hl & Hu & Hm & Hf) _]. unfold settled, locked, unlocked in *. rewrite !bind_app, Hl, Hu, Hm, Hf.
    cbn. unfold made. by rewrite Hs.
  - apply failed_status, idle_settled. split_and!; try done. cbn. unfold made. by destruct (status reply).
Qed.

(** ** The pool *)

Lemma meta_parse_slots f m : meta_parse f = Ok m -> 0 <= m_slots m.
Proof.
  unfold meta_parse, meta_of_map, result_bind. intros. run_cases; eapply (parse_key_range _ _ u32_max); eauto; done.
Qed.

Definition idly {E A} (m : M W unit E A) : Prop := forall w, wp m (fun _ _ _ t => idle t) tt w.
Lemma idly_bind {E A B} (m : M W unit E A) (k : A -> M W unit E B) : idly m -> (forall a, idly (k a)) -> idly (bind m k).
Proof.
  intros Hm Hk w. wp_step. eapply wp_mono; [apply Hm|]. intros [a|e] [] w' t Ht; [|done].
  eapply wp_mono; [apply Hk|]. intros. by apply idle_app.
Qed.
Lemma idly_lift {E A} (r : Result A E) : idly (lift r).
Proof. intros w. by wp_step. Qed.
Lemma idly_ret {E A} (a : A) : idly (ret (E := E) a).
Proof. intros w. by wp_step. Qed.
Lemma idly_fail {E A} (e : E) : idly (fail (A := A) e).
Proof. intros w. by wp_step. Qed.
Lemma idly_ask {E A} (c : Call A) : (forall a, idle [Ev c a]) -> idly (ask (E := E) c).
Proof. intros Hc w. wp_step. apply Hc. Qed.
Lemma idly_attempt {E E' A} (m : M W unit E A) : idly m -> idly (attempt (E' := E') m).
Proof. intros Hm w. wp_step. apply Hm. Qed.
Lemma idly_with_err {E E' A} (f : E -> E') (m : M W unit E A) : idly m -> idly (with_err f m).
Proof. intros Hm w. wp_step. apply Hm. Qed.
Lemma idly_reported {E A} (m : M W unit E A) (k : A -> M W unit Panic Z) : idly m -> (forall a, idly (k a)) -> idly (reported m k).
Proof. intros Hm Hk. apply idly_bind; [by apply idly_attempt|]. intros [a|e]; [apply Hk|apply idly_ret]. Qed.

Ltac idly :=
  repeat lazymatch goal with
  | |- forall _, _ => intros ?
  | |- idly (bind _ _) => apply idly_bind
  | |- idly (lift _) => apply idly_lift
  | |- idly (ret _) => apply idly_ret
  | |- idly (fail _) => apply idly_fail
  | |- idly (attempt _) => apply idly_attempt
  | |- idly (with_err _ _) => apply idly_with_err
  | |- idly (ask _) => apply idly_ask; intros ?; split_and!; reflexivity
  | |- idly (match ?x with _ => _ end) => destruct x
  | |- idly _ => solve [auto with heph]
  end.

Lemma idly_clone src dst : idly (clone_file src dst).
Proof. unfold clone_file. idly. Qed.
#[local] Hint Resolve idly_clone : heph.
Lemma idly_warm_up args d pristine save cpus memory : idly (warm_up args d pristine save cpus memory).
Proof. unfold warm_up, vz_exec_snapshot_save, vz_snapshot_save, ffi. idly. Qed.
Lemma idly_create_slots d i n : idly (create_slots d i n).
Proof. revert i. induction n as [|n IH]; intros i; cbn [create_slots]; idly. Qed.
#[local] Hint Resolve idly_warm_up idly_create_slots : heph.
Lemma idly_init args : idly (Pool.init args).
Proof. unfold Pool.init, PoolMeta_write, canonicalize_or. idly. Qed.
Lemma idly_open d : idly (Pool.open d).
Proof. unfold Pool.open, PoolMeta_read. idly. Qed.
Lemma idly_destroy d : idly (destroy d).
Proof. unfold destroy. idly. Qed.
Lemma guest_in t t' code : guest_exited code t -> t ⊆ t' -> guest_exited code t'.
Proof. intros (e & He & Hc) Ht. exists e. set_solver. Qed.
Lemma restore_guest_code kernel initramfs rootfs save command log cpus memory w :
  wp (vz_exec_snapshot_restore (S := unit) kernel initramfs rootfs save command log cpus memory)
    (fun r _ _ t => match r with Ok (code, _) => guest_exited code t | Err _ => True end) tt w.
Proof.
  unfold vz_exec_snapshot_restore. bridged; try done. cbn [app]. destruct (out a5) eqn:E0. apply guest_here. cbn. by rewrite E0.
Qed.
Lemma run_guest_code p slot command w :
  wp (Pool.run (S := unit) p slot command) (fun r _ _ t => match r with Ok code => guest_exited code t | Err _ => True end) tt w.
Proof.
  unfold Pool.run. wp_run; try done. eapply wp_mono; [apply idly_clone|]. intros [[]|e] [] w1 t1 _; [|done]. do 4 wp_step.
  eapply wp_mono; [apply restore_guest_code|]. intros r [] w2 t2 Hr. do 3 wp_step. destruct r as [[code n]|e]; [|done].
  eapply guest_in; [done|set_solver].
Qed.
Lemma idly_run p slot command : idly (Pool.run p slot command).
Proof. unfold Pool.run, vz_exec_snapshot_restore, ffi. idly. Qed.

Lemma good_idly {E A} (m : M W unit E A) : idly m -> Good (reported m (fun _ => ret 0)).
Proof. intros Hm w. apply wp_reported. eapply wp_mono; [apply Hm|]. intros [a|e] [] w' t Ht; [wp_step|]; settle. Qed.
Lemma good_pool_init o : Good (pool_init_cmd o).
Proof. apply good_idly, idly_init. Qed.
Lemma good_pool_destroy d : Good (pool_destroy_cmd d).
Proof. apply good_idly, idly_destroy. Qed.

(** Opening a pool looks at its directory and its metadata. *)
Lemma wp_open d (Q : Result Pool PoolError -> unit -> W -> Trace -> Prop) w :
  (forall p f w', meta_parse f = Ok (meta p) -> 0 <= m_slots (meta p) -> Q (Ok p) tt w' (opening d (dir p) f)) ->
  (forall e w' t, idle t -> Q (Err e) tt w' t) ->
  wp (Pool.open d) Q tt w.
Proof.
  intros HOk HErr. unfold Pool.open, PoolMeta_read. do 4 wp_step. destruct a as [d'|e]; cbn [map_err]; [|by apply HErr].
  do 2 wp_step. destruct a; cbn [negb]; [|wp_step; by apply HErr]. do 5 wp_step. destruct a as [f|e]; cbn [map_err]; [|by apply HErr].
  wp_step. destruct (meta_parse f) as [m|e] eqn:Em; [|by apply HErr]. wp_step. apply (HOk {| dir := d'; meta := m |}); [done|].
  by eapply meta_parse_slots.
Qed.
Lemma idle_opening d d' f : idle (opening d d' f).
Proof. done. Qed.

Lemma run_outcome p slot command w :
  wp (reported (Pool.run p slot command) (fun code => ret (exit_status code))) (fun r _ _ t => outcome r t) tt w.
Proof.
  apply wp_reported. eapply wp_mono; [apply wp_and; [apply idly_run|apply run_guest_code]|].
  intros [code|e] [] w' t [Ht Hg]; [|by apply outcome_failed]. wp_step. rewrite app_nil_r. by apply outcome_exited.
Qed.

Lemma settled_slot d i t p b u : idle t ->
  settled (probe d i Locked ++ t ++ [Ev (RemoveFile p) b; Ev (Unlock (lock_of (slot_dir d i))) u]).
Proof.
  intros (Hl & Hu & Hm & Hf). unfold settled, locked, unlocked in *. rewrite !bind_app, Hl, Hu, Hm, Hf. done.
Qed.

(** The lock of the slot is released behind whatever ran. *)
Lemma good_pool_run o : Good (pool_run_cmd o).
Proof.
  intros w. unfold pool_run_cmd. apply wp_reported. apply wp_open; [|intros; settle]. intros p f w1 Hm _.
  set (t1 := opening (pu_dir o) (dir p) f). assert (Hi1 : idle t1) by apply idle_opening.
  apply wp_reported. eapply wp_mono; [apply claim_from_spec|]. intros r [] w2 t2 (_ & k & tail & -> & Ho).
  pose proof (idle_busy (dir p) 0 k) as Hb. unfold claim_outcome in Ho. destruct r as [[slot|]|e].
  - destruct Ho as (_ & -> & ->). unfold guarded. do 2 wp_step. eapply wp_mono; [apply run_outcome|].
    intros r [] w3 t3 Hr. unfold drop_slot. do 4 wp_step. apply wp_lift. rewrite (assoc_L (++) t1).
    apply outcome_reads_well; [done|]. destruct Hr as [Hi _].
    rewrite <- (assoc_L (++)). apply settled_app; [by apply idle_settled|].
    rewrite <- (assoc_L (++)). apply settled_app; [by apply idle_settled|]. by apply settled_slot.
  - destruct Ho as (-> & ->). wp_step. rewrite !app_nil_r. split; [done|]. split; [done|]. split; [|settle].
    intros _. left. exists [], (pu_dir o), (dir p), f, (meta p). split; [done|]. split; [constructor|done].
  - apply failed_status, idle_settled, idle_app; [done|]. apply idle_app; [done|].
    destruct e; try done; destruct Ho as (_ & -> & ->); by split_and!.
Qed.

Lemma stats_from_settled d i n w :
  wp (stats_from d i n) (fun r _ _ t => settled t /\ match r with Ok l => length l = n | Err _ => True end) tt w.
Proof.
  revert i w. induction n as [|n IH]; intros i w; cbn [stats_from]; [by wp_step|]. do 6 wp_step.
  destruct a0 as [[]|e]; cbn [map_err]; [|done].
  do 3 wp_step. destruct a0 as [| |errno]; wp_run; try done.
  all: eapply wp_mono; [apply IH|]; intros [l|e] [] w2 t [Ht Hl]; [wp_step|]; cbn [app]; rewrite ?app_nil_r.
  1, 2: split; [by apply (settled_app [_; _; _; _])|]; cbn; auto.
  all: split; [by apply (settled_app [_; _; _])|]; cbn; auto.
Qed.

Lemma count_busy_le l : 0 <= count_busy l <= Z.of_nat (length l).
Proof. unfold count_busy. pose proof (length_filter (fun s => st_busy s = true) l). lia. Qed.

(** [println!] makes one call, and panics when it fails. *)
Lemma wp_println text (Q : Result unit Panic -> unit -> W -> Trace -> Prop) w :
  (forall t w', idle t -> Q (Ok tt) tt w' t) -> (forall e t w', idle t -> unprinted t -> Q (Err e) tt w' t) ->
  wp (println text) Q tt w.
Proof. intros HOk HErr. unfold println. do 2 wp_step. destruct a as [[]|e]; wp_step; [by apply HOk|by apply HErr]. Qed.
Lemma print_lines_ok ls w :
  wp (print_lines ls) (fun r _ _ t => idle t /\ match r with Ok _ => True | Err _ => unprinted t end) tt w.
Proof.
  revert w. induction ls as [|x ls IH]; intros w; cbn [print_lines]; [by wp_step|]. wp_step.
  apply wp_println; [|done]. intros t1 w1 Hi1. eapply wp_mono; [apply IH|]. intros r [] w2 t2 [Ht Hr].
  split; [by apply idle_app|]. destruct r; [done|]. by apply unprinted_app_r.
Qed.
Lemma unprinted_reads_well e t : unprinted t -> settled t -> reads_well (Err e) t.
Proof. intros. split; [by right|done]. Qed.
(** A text on standard output, and then the status 0. *)
Lemma good_println text : Good (do! println text in ret 0).
Proof.
  intros w. wp_step. apply wp_println; [intros t w' Hi; wp_step; settle|]. intros e t w' Hi Hf.
  by apply unprinted_reads_well; [|apply idle_settled].
Qed.

(** No more slots are busy than there are. *)
Lemma good_pool_stats d : Good (pool_stats_cmd d).
Proof.
  intros w. unfold pool_stats_cmd. apply wp_reported, wp_open; [|intros; settle]. intros p f w1 _ Hs.
  set (t1 := opening d (dir p) f). assert (Hi1 : idle t1) by apply idle_opening.
  apply wp_reported. eapply wp_mono; [apply stats_from_settled|]. intros [l|e] [] w2 t2 [Ht Hl]; [|settle].
  pose proof (count_busy_le l). destruct (Z.ltb_spec (m_slots (meta p)) (count_busy l)); [lia|].
  wp_step. apply wp_println.
  - intros t3 w3 Hi3. wp_step. eapply wp_mono; [apply print_lines_ok|].
    intros [[]|e] [] w4 t4 [Hi4 Hr]; [wp_step; settle|]. apply unprinted_reads_well; [|settle]. by do 3 apply unprinted_app_r.
  - intros e t3 w3 Hi3 Hf. apply unprinted_reads_well; [|settle]. by do 2 apply unprinted_app_r.
Qed.

(** ** The parsers only look whether files exist *)

Definition probing {A} (m : M W unit string A) : Prop := forall w, wp m (fun _ _ _ t => Only probes t) tt w.

Lemma probing_bind {A B} (m : M W unit string A) (k : A -> M W unit string B) :
  probing m -> (forall a, probing (k a)) -> probing (bind m k).
Proof.
  intros Hm Hk w. wp_step. eapply wp_mono; [apply Hm|]. intros [a|e] [] w' t Ht; [|done].
  eapply wp_mono; [apply Hk|]. intros. by apply only_app.
Qed.
Lemma probing_lift {A} (r : Result A string) : probing (lift r).
Proof. intros w. wp_step. constructor. Qed.
Lemma probing_ret {A} (a : A) : probing (ret a).
Proof. intros w. wp_step. constructor. Qed.
Lemma probing_not_empty label v : probing (not_empty label v).
Proof. intros w. unfold not_empty. wp_run; constructor. Qed.
Lemma probing_exists label path : probing (path_exists label path).
Proof. intros w. unfold path_exists. wp_run; by repeat constructor. Qed.
#[local] Hint Resolve probing_bind probing_lift probing_ret probing_not_empty probing_exists : heph.
Lemma probing_all_exist paths : probing (all_exist paths).
Proof. induction paths as [|[label path] paths IH]; cbn [all_exist]; auto with heph. Qed.
Lemma probing_exist_where paths : probing (exist_where paths).
Proof. induction paths as [|[[label path] []] paths IH]; cbn [exist_where]; auto with heph. Qed.
Lemma probing_all_given paths : probing (all_given paths).
Proof. induction paths as [|[[label path] []] paths IH]; cbn [all_given]; auto with heph. Qed.
#[local] Hint Resolve probing_all_exist probing_exist_where probing_all_given : heph.

(** Looking at files before a run. *)
Lemma reads_well_probes r t t' : Only probes t -> reads_well r t' -> reads_well r (t ++ t').
Proof.
  intros Hp. pose proof (probes_idle _ Hp) as Hi. destruct r as [st|e]; cbn.
  - intros (Hr & H2 & H75 & Hs). split; [done|]. split; [|split; [|settle]].
    + intros [Ho|Hg]%H2; [left; by apply only_app|right]. eapply guest_in; [done|set_solver].
    + intros [(t0 & d & d' & f & m & -> & Ho & Hm)|Hg]%H75; [left|right; eapply guest_in; [done|set_solver]].
      exists (t ++ t0), d, d', f, m. split; [by rewrite <- (assoc_L (++))|]. split; [by apply only_app|done].
  - intros [[(a & Ha & Hm)|Hf] Hs]; (split; [|settle]); [left|right; by apply unprinted_app_r]. exists a. split; [set_solver|done].
Qed.

Lemma good_parsed {O} (m : M W unit string O) k : probing m -> (forall o, Good (k o)) -> Good (parsed m k).
Proof.
  intros Hm Hk w. unfold parsed. do 2 wp_step. eapply wp_mono; [apply Hm|]. intros [o|e] [] w' t Ht.
  - eapply wp_mono; [apply Hk|]. intros. by apply reads_well_probes.
  - wp_step. rewrite app_nil_r. split; [done|]. split; [by left|]. split; [done|]. by apply idle_settled, probes_idle.
Qed.

(** A word that is no command. *)
Lemma good_usage : Good (ret 2).
Proof. intros w. wp_step. split; [done|]. split; [left; constructor|done]. Qed.
Lemma good_dispatch table args : Forall (fun e => forall args, Good (e.2 args)) table -> Good (dispatch table args).
Proof.
  intros Ht. unfold dispatch. destruct args as [|name rest]; [apply good_usage|].
  destruct (entry name table) as [command|] eqn:He; [|apply good_usage].
  exact (entry_Forall (fun _ c => forall args, Good (c args)) name table command Ht He rest).
Qed.

Lemma good_ping : Good ping_cmd.
Proof.
  intros w. unfold ping_cmd, ping. do 4 wp_step. destruct a as [s|]; [destruct (utf8_valid s) eqn:Hu|].
  - wp_step. apply wp_println; [intros t w2 Hi; wp_step; settle|]. intros e t w2 Hi Hf.
    apply unprinted_reads_well; [by apply (unprinted_app_r [_])|settle].
  - wp_step. split; [|done]. left. exists (Some s). split; [set_solver|done].
  - wp_step. split; [|done]. left. exists None. split; [set_solver|done].
Qed.

Ltac each_command := repeat (apply Forall_cons_2; [cbn; intros args|]); [..|apply Forall_nil_2].
Ltac good_table := each_command; (apply good_parsed; [auto 15 with heph|intros]).
Lemma good_pool_commands : Forall (fun e => forall args, Good (e.2 args)) pool_commands.
Proof.
  unfold pool_commands, parse_pool_init, parse_pool_run, parse_pool_dir_only. good_table.
  - apply good_pool_init.
  - apply good_pool_run.
  - apply good_pool_stats.
  - apply good_pool_destroy.
Qed.
Lemma good_vz_warm_commands : Forall (fun e => forall args, Good (e.2 args)) vz_warm_commands.
Proof.
  unfold vz_warm_commands, parse_vz_warm_args. each_command; apply good_parsed; intros; cbn [andb];
    eauto using good_vz_warm_save, good_vz_warm_run.
  all: repeat (apply probing_bind; [auto with heph|intros]); auto with heph.
  - intros w. wp_run; constructor.
Qed.
Lemma good_vz_snapshot_commands : Forall (fun e => forall args, Good (e.2 args)) vz_snapshot_commands.
Proof.
  unfold vz_snapshot_commands, parse_vz_snap_args. good_table; [apply good_vz_snap_save|apply good_vz_snap_restore].
Qed.
Lemma good_commands : Forall (fun e => forall args, Good (e.2 args)) commands.
Proof.
  unfold commands, parse_run_args, parse_rootfs_args, parse_vz_boot_args, parse_vz_exec_args, parse_vz_sh_args.
  each_command; try (apply good_parsed; [auto 15 with heph|intros]);
    auto using good_ping, good_run, good_rootfs, good_vz_boot, good_vz_exec, good_vz_sh, good_dispatch,
      good_pool_commands, good_vz_warm_commands, good_vz_snapshot_commands.
Qed.

Lemma good_main args : forallb utf8_valid args = true -> Good (main args).
Proof.
  intros Hu w. unfold main. rewrite Hu. cbn [negb]. destruct (help_text args) as [help|]; [apply good_println|].
  destruct args as [|first rest]; [apply good_dispatch, good_commands|]. destruct (_ || _); [apply good_println|].
  apply good_dispatch, good_commands.
Qed.

(** C30: The exit status of the command line can be trusted, whatever the
    operating system and the bridge answer: it is a byte; 2 means that
    nothing was done but to look whether files exist, unless the guest's own
    command exited with 2; 75 means that the metadata of a pool were read and
    every slot they announce was tried and found locked, unless the guest
    exited with 75.  Only an argument that is not UTF-8, a bridge whose [ping]
    has no text, or a standard output that cannot be written ends it with a
    panic.  The lines it writes to standard error are outside the model; one
    that cannot be written there is a panic too. *)
Theorem cli_exit_status args w :
  wp (main args) (fun r _ _ t => match r with
    | Ok st => u8_range st /\ (st = 2 -> Only probes t \/ guest_exited 2 t) /\
               (st = 75 -> exhausted t \/ guest_exited 75 t)
    | Err _ => forallb utf8_valid args = false \/ mute t \/ unprinted t
    end) tt w.
Proof.
  destruct (forallb utf8_valid args) eqn:Hu.
  - eapply wp_mono; [by apply good_main|]. intros [st|e] s w' t Hr; [naive_solver|]. right. apply Hr.
  - unfold main. rewrite Hu. cbn [negb]. wp_step. by left.
Qed.

(** C29: Whatever a command acquires it releases: at the end of every run of
    the command line, of any subcommand and on every error path, each lock on
    a slot of a pool has been given back, and each container VM that was made
    has been freed, exactly once. *)
Theorem cli_releases args w : wp (main args) (fun _ _ _ t => settled t) tt w.
Proof.
  destruct (forallb utf8_valid args) eqn:Hu.
  - eapply wp_mono; [by apply good_main|]. intros [st|e] s w' t Hr; apply Hr.
  - unfold main. rewrite Hu. cbn [negb]. by wp_step.
Qed.
End Good.
