(* ===== verification/CliExec.v ===== *)
(** * From the command line to the shell in the guest

    The path of [hephaestus vz-exec]: its arguments, the call of the bridge,
    and what the guest's agent makes of the command that was sent. *)

From S2P Require Import Prelude RustStr Utf8 World Sys Agent AgentSpec Bridge Ledger CliHelp CliArgs Cli CliProps.
Local Open Scope string_scope.
Local Open Scope Z_scope.
Local Open Scope list_scope.

(** ** The command on the wire *)

(** The prefixes that the agent does not hand to the shell. *)
Definition reserved (cmd : string) : bool := starts_with stdin_prefix cmd || is_test cmd.

Lemma starts_with_app p s : starts_with p (p +:+ s) = true.
Proof. apply starts_with_spec. by exists s. Qed.

Lemma wire_command_understood o :
  ve_stdin o = true \/ reserved (ve_command o) = false ->
  is_test (wire_command o) = false /\ script (wire_command o) = ve_command o /\
  stdio (wire_command o) = if ve_stdin o then Piped else Null.
Proof.
  unfold wire_command. destruct (ve_stdin o).
  - intros _. split; [done|]. unfold script, stdio. change "__hephaestus_stdin__" with stdin_prefix.
    by rewrite strip_prefix_app, starts_with_app.
  - intros [?|Hr]; [done|]. unfold reserved in Hr. apply orb_false_iff in Hr as [Hs Ht]. split; [done|].
    unfold script, stdio. rewrite Hs. split; [|done].
    destruct (strip_prefix stdin_prefix (ve_command o)) eqn:E; [|done]. unfold starts_with in Hs. by rewrite E in Hs.
Qed.

(** ** The call of the bridge *)

(** An argument of a process: UTF-8, and without the byte that ends it. *)
Definition plain_arg (a : string) : Prop := utf8_valid a = true /\ nul_position a = None.

Lemma plain_cstring a : plain_arg a -> cstring a = Ok a.
Proof. intros [_ Hn]. unfold cstring. by rewrite Hn. Qed.
Lemma plain_path a label : plain_arg a -> path_cstring a label = Ok a.
Proof. intros Ha. unfold path_cstring, path_to_str. rewrite (proj1 Ha). by apply plain_cstring. Qed.
Lemma plain_opt_path a label : (forall p, a = Some p -> plain_arg p) -> opt_path_cstring a label = Ok a.
Proof. intros Ha. destruct a as [p|]; cbn; [|done]. by rewrite plain_path by auto. Qed.
Lemma nul_position_app s t : nul_position s = None -> nul_position t = None -> nul_position (s +:+ t) = None.
Proof.
  intros Hs Ht. induction s as [|a s IH]; cbn in *; [done|]. destruct (byte_of a =? 0); [done|].
  destruct (nul_position s); [done|]. by rewrite IH.
Qed.

(** Values come from the arguments. *)
Lemma given_elem flag l v : given flag l = Some v -> exists n, (n, v) ∈ l.
Proof.
  induction l as [|[n u] l IH]; cbn; [done|]. destruct (given flag l) as [v'|].
  - intros [= ->]. destruct IH as [m Hm]; [done|]. exists m. set_solver.
  - destruct (String.eqb n flag); [|done]. intros [= ->]. exists n. set_solver.
Qed.
Lemma occurrences_elem {O} (arms : list (string * Arm O)) args n v : (n, Some v) ∈ occurrences arms args -> v ∈ args.
Proof.
  assert (Hl : exists k, (length args <= k)%nat) by eauto. destruct Hl as [k Hl]. revert args Hl.
  induction k as [|k IH]; intros [|a rest] Hl; cbn [length] in Hl; try (by intros ?%not_elem_of_nil); [lia|]. cbn [occurrences].
  destruct (entry a arms) as [[f|f|f]|]; try (by intros ?%not_elem_of_nil).
  - intros [Hq|Hq]%elem_of_cons; [done|]. apply elem_of_cons. right. apply IH; [lia|done].
  - destruct rest as [|u rest']; [by intros ?%not_elem_of_nil|]. cbn [length] in Hl.
    intros [[= -> ->]|Hq]%elem_of_cons; [set_solver|]. do 2 (apply elem_of_cons; right). apply IH; [lia|done].
Qed.
Lemma given_arg {O} (arms : list (string * Arm O)) args flag v :
  given flag (occurrences arms args) = Some (Some v) -> v ∈ args.
Proof. intros [n Hn]%given_elem. by eapply occurrences_elem. Qed.

Lemma text_plain {O} (arms : list (string * Arm O)) args flag d :
  Forall plain_arg args -> plain_arg d -> plain_arg (or_given text_value d (given flag (occurrences arms args))).
Proof.
  intros Ha Hd. destruct (given flag _) as [[v|]|] eqn:E; cbn; [|done..]. rewrite Forall_forall in Ha. by eapply Ha, given_arg.
Qed.

(** ** The command lines of [vz-exec] *)

Definition text_flags : list string := ["--kernel"; "--rootfs"; "--initramfs"; "--log"; "--cmd"].
Definition number_flags : list (string * Z) :=
  [("--cpus", u32_max); ("--memory-mib", u64_max); ("--timeout-seconds", u32_max)].

(** A sequence of known flags, each with its value. *)
Inductive understood : list string -> Prop :=
| understood_nil : understood []
| understood_text flag v rest : flag ∈ text_flags -> understood rest -> understood (flag :: v :: rest)
| understood_number flag max v n rest :
    (flag, max) ∈ number_flags -> parse_uint max v = Ok n -> understood rest -> understood (flag :: v :: rest)
| understood_stdin rest : understood rest -> understood ("--stdin" :: rest).

Lemma understood_parses args : understood args -> forall o, exists o', parse_loop vz_exec_arms o args = Ok o'.
Proof.
  induction 1 as [|flag v rest Hf _ IH|flag max v n rest Hf Hn _ IH|rest _ IH]; intros o; [by exists o| | |apply IH].
  - unfold text_flags in Hf. rewrite !elem_of_cons in Hf.
    destruct Hf as [->|[->|[->|[->|[->|Hf%elem_of_nil]]]]]; [apply IH..|done].
  - unfold number_flags in Hf. rewrite !elem_of_cons in Hf.
    destruct Hf as [[= -> ->]|[[= -> ->]|[[= -> ->]|Hf%elem_of_nil]]]; [..|done];
      cbn [parse_loop]; cbn -[parse_loop parse_uint]; unfold number; rewrite Hn; apply IH.
Qed.

(** What the table says of a flag. *)
Definition arm_understood (flag : string) (arm : Arm VzExecOptions) : Prop :=
  match arm with
  | Switch _ => flag = "--stdin"
  | Valued f => flag ∈ text_flags \/
      exists max, (flag, max) ∈ number_flags /\ forall v o o', f v o = Ok o' -> exists n, parse_uint max v = Ok n
  | Rest _ => False
  end.
Lemma arms_understood : Forall (fun e => arm_understood e.1 e.2) vz_exec_arms.
Proof.
  assert (Hn : forall what max set v (o o' : VzExecOptions),
    (let? n := number what max v in Ok (set n o)) = Ok o' -> exists n, parse_uint max v = Ok n).
  { intros what max set v o o'. unfold number. destruct (parse_uint max v) as [n|e]; [by exists n|done]. }
  unfold vz_exec_arms, stores, stores_number. repeat apply Forall_cons_2; [..|apply Forall_nil_2]; cbn [fst snd arm_understood];
    first [done | left; set_solver | right; first [exists u32_max; split; [apply list_elem_of_In; cbn; tauto|apply Hn]
                                                  |exists u64_max; split; [apply list_elem_of_In; cbn; tauto|apply Hn]]].
Qed.

Lemma parses_understood args o o' : parse_loop vz_exec_arms o args = Ok o' -> understood args.
Proof.
  assert (Hl : exists n, (length args <= n)%nat) by eauto. destruct Hl as [n Hl]. revert o args Hl.
  induction n as [|n IH]; intros o [|a rest] Hl; cbn [length] in Hl; try (by intros; constructor); [lia|]. cbn [parse_loop].
  destruct (entry a vz_exec_arms) as [arm|] eqn:He; [|done].
  pose proof (entry_Forall arm_understood _ _ _ arms_understood He) as Ha. clear He. destruct arm as [f|f|f]; cbn in Ha.
  - subst a. intros Hp. apply understood_stdin. apply (IH (f o)); [lia|done].
  - destruct rest as [|v rest']; [done|]. cbn [length] in Hl. destruct (f v o) as [o1|e] eqn:Hf; [|done]. intros Hp.
    assert (Hu : understood rest') by (apply (IH o1); [lia|done]).
    destruct Ha as [Ht|(max & Hm & Hn)]; [by apply understood_text|]. destruct (Hn _ _ _ Hf) as [k Hk].
    by eapply understood_number.
  - done.
Qed.

Definition checks (o : VzExecOptions) : Trace :=
  [Ev (PathExists (ve_kernel o)) true; Ev (PathExists (ve_rootfs o)) true; Ev (PathExists (ve_initramfs o)) true].
Definition exec_call (o : VzExecOptions) : Call (FfiReply Z) :=
  HbExec (ve_kernel o) (ve_initramfs o) (ve_rootfs o) (wire_command o) (ve_log o) (ve_cpus o) (ve_memory_mib o)
    (ve_timeout_seconds o) (if ve_stdin o then 1 else 0).
Definition guest_status_of (reply : FfiReply Z) : Z := match status reply with HbOk => exit_status (out reply) | _ => 1 end.

(** What must be given. *)
Definition required (o : VzExecOptions) : Prop := ve_kernel o <> "" /\ ve_rootfs o <> "" /\ ve_command o <> "".

(** Why a command line is refused: it is not understood, a required option is
    missing, or a file is not there. *)
Definition refused (args : list string) (t : Trace) : Prop :=
  let g flag d := or_given text_value d (given flag (occurrences vz_exec_arms args)) in
  ~ understood args \/ g "--kernel" "" = "" \/ g "--rootfs" "" = "" \/ g "--cmd" "" = "" \/
  exists path, path ∈ [g "--kernel" ""; g "--rootfs" ""; g "--initramfs" "build/agent.cpio.gz"] /\ Ev (PathExists path) false ∈ t.

Section Exec.
Context {W : Type} `{Outside W}.
Variable args : list string.
Hypothesis plain : Forall plain_arg args.

Lemma options_plain o : parse_loop vz_exec_arms vz_exec_defaults args = Ok o ->
  plain_arg (ve_kernel o) /\ plain_arg (ve_rootfs o) /\ plain_arg (ve_initramfs o) /\ plain_arg (ve_command o) /\
  (forall p, ve_log o = Some p -> plain_arg p).
Proof.
  intros (-> & -> & -> & Hlog & -> & _)%vz_exec_fields. split_and!; try by apply text_plain.
  intros p. rewrite Hlog. destruct (given _ _) as [[v|]|] eqn:E; cbn; [|done..]. intros [= <-].
  rewrite Forall_forall in plain. by eapply plain, given_arg.
Qed.

Lemma wire_plain o : plain_arg (ve_command o) -> plain_arg (wire_command o).
Proof.
  intros [Hu Hn]. unfold wire_command. destruct (ve_stdin o); [|done]. split; [|by apply nul_position_app].
  rewrite Pool.utf8_valid_app; done.
Qed.

Lemma wp_vz_exec_cmd o w : parse_loop vz_exec_arms vz_exec_defaults args = Ok o ->
  wp (vz_exec_cmd o) (fun r _ _ t => exists reply, t = [Ev (exec_call o) reply] /\ r = Ok (guest_status_of reply)) tt w.
Proof.
  intros (Hk & Hr & Hi & Hc & Hl)%options_plain. unfold vz_exec_cmd. apply wp_reported. unfold vz_exec.
  rewrite !plain_path, plain_cstring, plain_opt_path by auto using wire_plain. do 10 wp_step.
  apply wp_ffi; [intros reply w' Hs; wp_step|intros reply e w' Hs]; exists reply; (split; [done|]); unfold guest_status_of.
  - by rewrite Hs.
  - by destruct (status reply).
Qed.

Lemma wp_parse_vz_exec w :
  wp (parse_vz_exec_args args) (fun r _ _ t => match r with
    | Ok o => parse_loop vz_exec_arms vz_exec_defaults args = Ok o /\ t = checks o /\ required o
    | Err _ => Only probes t /\ refused args t end) tt w.
Proof.
  unfold parse_vz_exec_args, not_empty, refused. cbn [all_exist]. unfold path_exists.
  do 2 wp_step. destruct (parse_loop vz_exec_arms vz_exec_defaults args) as [o|e] eqn:Hp.
  - destruct (vz_exec_fields _ _ Hp) as (<- & <- & <- & _ & <- & _). wp_run.
    all: try (match goal with E : str_is_empty ?x = true |- _ => destruct x eqn:?; [|done] end; split; [constructor|naive_solver]).
    all: try (split; [by repeat constructor|]; do 4 right; eexists; split; [|by apply list_elem_of_In; cbn; auto 10]; set_solver).
    split; [done|]. split; [done|]. split_and!; intros Hc; by rewrite Hc in *.
  - split; [constructor|]. left. intros Hu. destruct (understood_parses _ Hu vz_exec_defaults) as [o Ho]. congruence.
Qed.
End Exec.

Lemma main_vz_exec {W} `{Outside W} args : Forall plain_arg args -> contains_help args = false ->
  main ("vz-exec" :: args) = parsed (parse_vz_exec_args args) vz_exec_cmd.
Proof.
  intros Ha Hh. unfold main. replace (forallb utf8_valid ("vz-exec" :: args)) with true.
  - cbn [negb]. replace (help_text ("vz-exec" :: args)) with (@None string); [done|]. cbn. by rewrite Hh.
  - symmetry. cbn. apply forallb_forall. intros a Hin. rewrite Forall_forall in Ha. apply (Ha a). by apply list_elem_of_In.
Qed.

(** C12: [hephaestus vz-exec] does what its arguments say.  Arguments that it
    does not understand end with the status 2, and only files were looked at:
    this happens exactly when they are not a sequence of known flags with
    their values (numbers within their width), when the kernel, the root file
    system or the command is missing or empty, or when one of the three files
    was found not to exist.  Else every option is the last one given, or its
    default; the kernel, the root file system and the initramfs were found to
    exist; exactly one call is made, with those options; and the status is the
    exit code of the guest, or 1 when the call failed or the code is no byte.
    The agent that receives the command runs it as it was written, with
    standard input connected exactly when [--stdin] was given, unless a
    command without [--stdin] begins with one of the agent's own markers.
    The arguments are UTF-8 without NUL bytes, as those of a process are that
    got past [std::env::args], and ask for no help: [-h] or [--help] anywhere
    before a [--], even as the value of a flag, prints the help text. *)
Theorem vz_exec_end_to_end {W} `{Outside W} args w :
  Forall plain_arg args -> contains_help args = false ->
  wp (main ("vz-exec" :: args)) (fun r _ _ t =>
    (r = Ok 2 /\ Only probes t /\ refused args t) \/
    exists o reply, understood args /\ t = checks o ++ [Ev (exec_call o) reply] /\ r = Ok (guest_status_of reply) /\ required o /\
      (let g flag := given flag (occurrences vz_exec_arms args) in
       ve_kernel o = or_given text_value "" (g "--kernel") /\ ve_rootfs o = or_given text_value "" (g "--rootfs") /\
       ve_initramfs o = or_given text_value "build/agent.cpio.gz" (g "--initramfs") /\ ve_log o = or_given id None (g "--log") /\
       ve_command o = or_given text_value "" (g "--cmd") /\ ve_cpus o = or_given (number_value u32_max) 0 (g "--cpus") /\
       ve_memory_mib o = or_given (number_value u64_max) 0 (g "--memory-mib") /\
       ve_timeout_seconds o = or_given (number_value u32_max) 0 (g "--timeout-seconds") /\
       ve_stdin o = or_given switch_value false (g "--stdin")) /\
      (ve_stdin o = true \/ reserved (ve_command o) = false ->
       is_test (wire_command o) = false /\ script (wire_command o) = ve_command o /\
       stdio (wire_command o) = if ve_stdin o then Piped else Null)) tt w.
Proof.
  intros Ha Hh. rewrite main_vz_exec by done. unfold parsed. do 2 wp_step. eapply wp_mono; [by apply wp_parse_vz_exec|].
  intros [o|e] [] w' t Hr.
  - destruct Hr as (Hp & -> & Hc). eapply wp_mono; [by apply (wp_vz_exec_cmd args)|]. intros r s w2 t2 (reply & -> & ->).
    right. exists o, reply. split; [by eapply parses_understood|]. split; [done|]. split; [done|]. split; [done|]. split; [by apply vz_exec_fields|]. apply wire_command_understood.
  - wp_step. left. by rewrite app_nil_r.
Qed.

Module DemoExec.
Definition args : list string := ["--kernel"; "k"; "--rootfs"; "r"; "--cmd"; "ls"; "--stdin"; "--cpus"; "2"; "--cmd"; "cat"].
Definition result : Result Z Panic * unit * unit * Trace := main (W := unit) (H := calm) ("vz-exec" :: args) tt tt.
End DemoExec.

Lemma vz_exec_end_to_end_witness :
  let '(r, _, _, t) := DemoExec.result in
  r = Ok 0 /\
  exists o reply, t = checks o ++ [Ev (exec_call o) reply] /\ ve_command o = "cat" /\ ve_cpus o = 2 /\
    script (wire_command o) = "cat" /\ stdio (wire_command o) = Piped.
Proof.
  destruct DemoExec.result as [[[r s] w] t] eqn:E. assert (Hr : r = Ok 0) by (vm_compute in E; congruence). split; [done|].
  assert (Ha : Forall plain_arg DemoExec.args) by (repeat constructor; by vm_compute).
  destruct (wp_result _ _ _ _ _ _ _ _ (@vz_exec_end_to_end unit calm DemoExec.args tt Ha eq_refl) E)
    as [[Hr2 _]|(o & reply & _ & Ht & _ & _ & (_ & _ & _ & _ & Hc & Hn & _ & _ & Hs) & Hw)]; [congruence|].
  exists o, reply. assert (Hc2 : ve_command o = "cat") by by rewrite Hc. assert (Hn2 : ve_cpus o = 2) by by rewrite Hn.
  assert (Hs2 : ve_stdin o = true) by by rewrite Hs. rewrite Hc2, Hs2 in Hw. destruct (Hw (or_introl eq_refl)) as (_ & Hsc & Hst).
  split_and!; assumption.
Defined.
