(* ===== verification/Responder.v ===== *)
(** * The thread of the metadata responder (hephaestus-firecracker/src/host_mmds.rs)

    The loop that [VmnetMmdsResponder::start] runs: it reads frames of the
    VM's network, hands them to [Packet.process] and writes the replies, until
    the flag [running] is cleared, by an error or by the drop of the
    responder.  The loop is an interaction tree; its specification is
    [Packet.exchange]. *)

From ITree Require Import ITree.
From S2P Require Import Prelude RustStr World Json Bridge BackendState Backend HostMmds Packet Proc.
Local Open Scope Z_scope.
Local Open Scope proc_scope.
Local Open Scope list_scope.

(** ** The loop *)

(** The flag, the bridge's packet calls, the pause, and what [process] reads
    on its way: the clocks and the shared document. *)
Inductive Net : Type -> Type :=
| LoadRunning : Net bool
| StopRunning : Net unit
| VmnetRead (capacity : Z) : Net (FfiReply (list Z))
| VmnetWrite (frame : list Z) : Net (FfiReply unit)
| Pause : Net unit
| Observe : Net (Clocks * RwLock Value).

Inductive ThreadEnd := Returned | PanickedAt (why : string).

Definition FRAME_CAPACITY : Z := 65536.
Definition net {X} (e : Net X) : itree Net X := ITree.trigger e.

Section Thread.
Context `{Serde}.

(** The replies to a frame; a failed write clears the flag and drops the rest. *)
Fixpoint write_replies (replies : list (list Z)) : itree Net unit :=
  match replies with
  | [] => Ret tt
  | reply :: rest =>
      let* w := net (VmnetWrite reply) in
      match into_result (status w) (out_err w) with
      | Ok _ => write_replies rest
      | Err _ => net StopRunning
      end
  end.

Definition responder_round (r : PacketResponder) : itree Net (PacketResponder + ThreadEnd) :=
  let* running := net LoadRunning in
  if negb running then Ret (inr Returned) else
  let* reply := net (VmnetRead FRAME_CAPACITY) in
  match into_result (status reply) (out_err reply) with
  | Err _ => do* net StopRunning in Ret (inl r)
  | Ok _ =>
      match out reply with
      | [] => do* net Pause in Ret (inl r)
      | frame =>
          if FRAME_CAPACITY <? Z.of_nat (length frame) then Ret (inr (PanickedAt "range end index out of range"))
          else
            let* (clk, doc) := net Observe in
            match process clk frame (with_document doc r) with
            | None => Ret (inr (PanickedAt "process"))
            | Some (replies, r') => do* write_replies replies in Ret (inl r')
            end
      end
  end.
Definition PacketResponder_new (mmds : RwLock Value) : PacketResponder := {| shared := mmds; connections := ∅ |}.
Definition responder_thread (mmds : RwLock Value) : itree Net ThreadEnd :=
  ITree.iter responder_round (PacketResponder_new mmds).

(** ** What the thread does, as an automaton *)

Inductive NPhase := NIdle | NReady | NPausing | NGot (frame : list Z) | NWriting (pending : list (list Z)) | NFailed | NOver | NDead.
Record Ghost := {
  g_phase : NPhase; g_responder : PacketResponder; g_inputs : list Input; g_written : list (list Z); g_stopped : bool }.
#[export] Instance eta_Ghost : Eta Ghost :=
  ((fun _ => Build_Ghost) <+> g_phase <+> g_responder <+> g_inputs <+> g_written <+> g_stopped)%fields.

Definition writing (pending : list (list Z)) : NPhase := match pending with [] => NIdle | _ => NWriting pending end.

(** Frames are read one at a time, and all replies to one are written, in
    order, before the next is read, unless a call failed. *)
Definition net_step (s : Ghost) (a : Act Net) : option Ghost :=
  match a with
  | Do e r =>
    match e in Net X return X -> option Ghost with
    | LoadRunning => fun running => match g_phase s with
        | NIdle => Some (s <| g_phase := if running then NReady else NOver |>)
        | _ => None
        end
    | VmnetRead capacity => fun reply => match g_phase s with
        | NReady =>
            if capacity =? FRAME_CAPACITY then
              Some (s <| g_phase := match status reply with
                                    | HbOk => match out reply with
                                              | [] => NPausing
                                              | frame => if FRAME_CAPACITY <? Z.of_nat (length frame) then NDead else NGot frame
                                              end
                                    | _ => NFailed
                                    end |>)
            else None
        | _ => None
        end
    | Pause => fun _ => match g_phase s with NPausing => Some (s <| g_phase := NIdle |>) | _ => None end
    | Observe => fun '(clk, doc) => match g_phase s with
        | NGot frame =>
            match process clk frame (with_document doc (g_responder s)) with
            | Some (replies, r') =>
                Some (s <| g_phase := writing replies |> <| g_responder := r' |>
                        <| g_inputs := g_inputs s ++ [{| in_clocks := clk; in_document := doc; in_frame := frame |}] |>)
            | None =>
                Some (s <| g_phase := NDead |>
                        <| g_inputs := g_inputs s ++ [{| in_clocks := clk; in_document := doc; in_frame := frame |}] |>)
            end
        | _ => None
        end
    | VmnetWrite frame => fun reply => match g_phase s with
        | NWriting (f :: rest) =>
            if bool_decide (frame = f)
            then Some (match status reply with
                       | HbOk => s <| g_phase := writing rest |> <| g_written := g_written s ++ [f] |>
                       | _ => s <| g_phase := NFailed |>
                       end)
            else None
        | _ => None
        end
    | StopRunning => fun _ => match g_phase s with NFailed => Some (s <| g_phase := NIdle |> <| g_stopped := true |>) | _ => None end
    end r
  end.
Abbreviation NetFollows := (Follows net_step).

Lemma into_result_status st err : match into_result st err with Ok _ => st = HbOk | Err _ => st <> HbOk end.
Proof. by destruct st. Qed.

Lemma write_replies_follows replies s : g_phase s = writing replies ->
  NetFollows s (write_replies replies) (fun _ s' => g_phase s' = NIdle /\ g_responder s' = g_responder s).
Proof.
  revert s. induction replies as [|f rest IH]; intros s Hs; cbn [write_replies]; [by apply follows_ret|].
  apply follows_event. intros w. cbn [net_step]. rewrite Hs. cbn [writing]. rewrite bool_decide_true by done.
  pose proof (into_result_status (status w) (out_err w)) as Hw. destruct (into_result _ _); eexists; (split; [done|]).
  - rewrite Hw. eapply follows_mono; [by apply IH|]. done.
  - apply follows_trigger. intros u. destruct (status w); [done|..]; cbn; eexists; by split.
Qed.

Definition at_start (mmds : RwLock Value) : Ghost :=
  {| g_phase := NIdle; g_responder := PacketResponder_new mmds; g_inputs := []; g_written := []; g_stopped := false |}.

Lemma thread_follows mmds :
  NetFollows (at_start mmds) (responder_thread mmds) (fun r s => match r with Returned => g_phase s = NOver | PanickedAt _ => g_phase s = NDead end).
Proof.
  unfold responder_thread. apply (follows_iter _ _ (fun r s => g_phase s = NIdle /\ g_responder s = r)); [|done].
  intros r s [Hp <-]. unfold responder_round. apply follows_event. intros running. cbn [net_step]. rewrite Hp.
  eexists. split; [done|]. destruct running; cbn [negb]; [|by apply follows_ret].
  apply follows_event. intros reply. cbn. eexists. split; [done|].
  pose proof (into_result_status (status reply) (out_err reply)) as Hs. destruct (into_result _ _).
  2: { apply follows_event. intros u. cbn. destruct (status reply); [done|..]; (eexists; split; [done|by apply follows_ret]). }
  rewrite Hs. destruct (out reply) as [|b frame] eqn:Hf.
  { apply follows_event. intros u. cbn. eexists. split; [done|]. by apply follows_ret. }
  destruct (_ <? _); [by apply follows_ret|]. apply follows_event. intros [clk doc]. cbn.
  destruct (process _ _ _) as [[replies r']|] eqn:E; (eexists; split; [done|]); [|by apply follows_ret].
  eapply follows_bind; [by apply (write_replies_follows replies)|]. intros u s' [Hp' Hr']. by apply follows_ret.
Qed.

(** ** What the bridge and the flag promise *)

(** A frame has bytes and fits the buffer; once cleared the flag stays
    cleared; the clock has nanoseconds below a second, and the document is of
    a size that can be rendered. *)
Definition answer_ok (stopped : bool) (a : Act Net) : Prop :=
  match a with
  | Do e r =>
    match e in Net X return X -> Prop with
    | LoadRunning => fun running => running = true -> stopped = false
    | VmnetRead capacity => fun reply => status reply = HbOk -> bytes_ok (out reply) /\ Z.of_nat (length (out reply)) <= capacity
    | Observe => fun '(clk, doc) => clocks_ok clk /\ modest (document doc)
    | _ => fun _ => True
    end r
  end.
Definition stops (a : Act Net) : bool := match a with Do StopRunning _ => true | _ => false end.
Fixpoint honest (stopped : bool) (l : list (Act Net)) : Prop :=
  match l with
  | [] => True
  | a :: rest => answer_ok stopped a /\ honest (stopped || stops a) rest
  end.

(** ** What a run shows *)

(** The frames it took up, with what was observed then; the frames written. *)
Fixpoint heard (frame : list Z) (l : list (Act Net)) : list Input :=
  match l with
  | [] => []
  | Do (VmnetRead _) reply :: rest => heard (out reply) rest
  | Do Observe (clk, doc) :: rest => {| in_clocks := clk; in_document := doc; in_frame := frame |} :: heard frame rest
  | _ :: rest => heard frame rest
  end.
Definition sent (a : Act Net) : list (list Z) :=
  match a with Do (VmnetWrite frame) {| status := HbOk |} => [frame] | _ => [] end.

Lemma accepts_shows s l s' frame : (forall f, g_phase s = NGot f -> frame = f) -> accepts net_step s l = Some s' ->
  g_inputs s' = g_inputs s ++ heard frame l /\ g_written s' = g_written s ++ concat (sent <$> l) /\
  g_stopped s' = g_stopped s || existsb stops l.
Proof.
  revert s frame. induction l as [|[X e r] l IH]; intros s frame Hf; cbn [accepts].
  { intros [= <-]. cbn. by rewrite !app_nil_r, orb_false_r. }
  destruct (net_step s (Do e r)) as [s1|] eqn:E; [|done]. intros Hl. destruct s as [p resp ins outs st]. cbn in Hf |- *.
  destruct e; [..|destruct r as [clk doc]]; cbn in E |- *; destruct p; try done.
  - injection E as <-. apply (IH _ frame) in Hl; [done|]. cbn. by destruct r.
  - injection E as <-. apply (IH _ frame) in Hl; [|done]. cbn in Hl. by rewrite orb_true_r.
  - destruct (capacity =? FRAME_CAPACITY); [|done]. injection E as <-. apply (IH _ (out r)) in Hl; [done|]. cbn.
    destruct (status r); [|done..]. destruct (out r); [done|]. destruct (_ <? _); [done|]. by intros ? [= <-].
  - destruct pending as [|f rest]; [done|]. destruct (bool_decide (frame0 = f)) eqn:Eb; [|done].
    apply bool_decide_eq_true in Eb as ->. injection E as <-. destruct r as [[] o er]; cbn in Hl |- *; apply (IH _ frame) in Hl; try done.
    + cbn in Hl. by rewrite <- (assoc_L (++)) in Hl.
    + cbn. by destruct rest.
  - injection E as <-. by apply (IH _ frame) in Hl.
  - rewrite (Hf _ eq_refl). destruct (process _ _ _) as [[fs r']|]; injection E as <-; apply (IH _ frame0) in Hl; try done; cbn in Hl.
    + by rewrite <- (assoc_L (++)) in Hl.
    + cbn. by destruct fs.
    + by rewrite <- (assoc_L (++)) in Hl.
Qed.

(** ** The thread serves as [exchange] says *)

Lemma exchange_app l1 l2 r :
  exchange (l1 ++ l2) r = '(a1, r1) ← exchange l1 r; '(a2, r2) ← exchange l2 r1; Some (a1 ++ a2, r2).
Proof.
  revert r. induction l1 as [|i l1 IH]; intros r; cbn [app exchange].
  - cbn. by destruct (exchange l2 r) as [[]|].
  - destruct (process _ _ _) as [[fs r1]|]; cbn; [|done]. rewrite IH. destruct (exchange l1 r1) as [[a1 r2]|]; cbn; [|done].
    by destruct (exchange l2 r2) as [[a2 r3]|].
Qed.

Section Served.
Variable start : PacketResponder.

Definition outstanding (s : Ghost) (rest : list (list Z)) : Prop :=
  match g_phase s with
  | NWriting p => rest = p /\ g_stopped s = false
  | NFailed => g_stopped s = false
  | NIdle | NOver => g_stopped s = false -> rest = []
  | NGot frame => rest = [] /\ g_stopped s = false /\ bytes_ok frame
  | NReady | NPausing => rest = [] /\ g_stopped s = false
  | NDead => False
  end.
Definition NInv (s : Ghost) : Prop := exists answers rest,
  exchange (g_inputs s) start = Some (answers, g_responder s) /\ responder_ok (g_responder s) /\
  concat answers = g_written s ++ rest /\ outstanding s rest.

Lemma net_step_inv s a s' : NInv s -> answer_ok (g_stopped s) a -> net_step s a = Some s' ->
  NInv s' /\ g_stopped s' = g_stopped s || stops a.
Proof.
  intros (answers & rest & He & Hr & Hc & Ho) Ha Hs. destruct a as [X e r]. destruct s as [p resp ins outs st]. cbn in *.
  unfold outstanding in Ho. cbn in Ho. destruct e; [..|destruct r as [clk doc]]; cbn in *; destruct p; try done.
  - injection Hs as <-. cbn. rewrite orb_false_r. split; [|done]. exists answers, rest. split_and!; try done. cbn.
    destruct r; cbn; [|done]. by rewrite (Ha eq_refl) in *; split; [apply Ho|].
  - injection Hs as <-. cbn. rewrite orb_true_r. split; [|done]. exists answers, rest. by split_and!.
  - destruct (capacity =? FRAME_CAPACITY) eqn:Ecap; [|done]. apply Z.eqb_eq in Ecap as ->. injection Hs as <-. cbn.
    rewrite orb_false_r. split; [|done]. exists answers, rest. split_and!; try done. cbn. destruct Ho as [-> ->].
    destruct (status r) eqn:Est; [|done..]. destruct (Ha eq_refl) as [Hb Hl]. destruct (out r) as [|b f] eqn:Eo; [done|].
    rewrite (proj2 (Z.ltb_ge FRAME_CAPACITY (Z.of_nat (S (length f)))) Hl). done.
  - destruct pending as [|f p]; [done|]. destruct (bool_decide (frame = f)) eqn:Eb; [|done]. apply bool_decide_eq_true in Eb as ->.
    injection Hs as <-. destruct Ho as [-> Hst]. destruct (status r); cbn; rewrite orb_false_r; (split; [|done]).
    + exists answers, p. split_and!; try done; [cbn; by rewrite <- (assoc_L (++))|]. destruct p; cbn; done.
    + exists answers, (f :: p). by split_and!.
    + exists answers, (f :: p). by split_and!.
  - injection Hs as <-. cbn. rewrite orb_false_r. split; [|done]. exists answers, rest. split_and!; try done. cbn. naive_solver.
  - destruct Ho as (-> & Hst & Hb). destruct Ha as [Hclk Hm].
    destruct (ends_process clk frame (with_document doc resp) Hclk Hb) as ([fs r'] & Ep & Hfs & Hr' & _); [done..|].
    rewrite Ep in Hs. injection Hs as <-. cbn. rewrite orb_false_r. split; [|done].
    exists (answers ++ [fs]), fs. cbn. split; [|split; [done|split]].
    + rewrite exchange_app, He. cbn. by rewrite Ep.
    + rewrite concat_app, Hc, app_nil_r. cbn. by rewrite app_nil_r.
    + destruct fs; cbn; done.
Qed.

Lemma accepts_inv s l s' : NInv s -> honest (g_stopped s) l -> accepts net_step s l = Some s' -> NInv s'.
Proof.
  revert s. induction l as [|a l IH]; intros s Hs; cbn; [by intros _ [= <-]|]. intros [Ha Hl].
  destruct (net_step s a) as [s1|] eqn:E; [|done]. destruct (net_step_inv _ _ _ Hs Ha E) as [H1 H2]. apply IH; [done|]. by rewrite H2.
Qed.
End Served.

Lemma NInv_start mmds : NInv (PacketResponder_new mmds) (at_start mmds).
Proof.
  exists [], []. split; [done|]. split; [|by split].
  split; cbn; [rewrite map_size_empty; lia|apply map_Forall_empty].
Qed.

(** The thread is over when it has read a cleared flag, and at no other point. *)
Lemma over_read s a s' : net_step s a = Some s' -> g_phase s' = NOver -> a = Do LoadRunning false.
Proof.
  destruct a as [X e r]. destruct s as [p resp ins outs st]. destruct e; [..|destruct r as [clk doc]]; cbn; destruct p; try done.
  - destruct r; by intros [= <-].
  - by intros [= <-].
  - destruct (_ =? _); [|done]. intros [= <-]. cbn. destruct (status r); [|done..]. destruct (out r); [done|]. by destruct (_ <? _).
  - destruct pending as [|f rest]; [done|]. destruct (bool_decide _); [|done]. intros [= <-]. destruct (status r); [|done..]. by destruct rest.
  - by intros [= <-].
  - destruct (process _ _ _) as [[fs r']|]; intros [= <-]; [|done]. by destruct fs.
Qed.
Lemma over_last s l s' : accepts net_step s l = Some s' -> g_phase s <> NOver -> g_phase s' = NOver -> last l = Some (Do LoadRunning false).
Proof.
  induction l as [|a l _] using rev_ind; cbn; [by intros [= <-]|]. rewrite accepts_app, last_snoc.
  destruct (accepts net_step s l) as [s1|]; [|done]. cbn. destruct (net_step s1 a) as [s2|] eqn:E; [|done]. intros [= <-] _ Hp.
  by rewrite (over_read _ _ _ E Hp).
Qed.

(** C18: The thread serves what [exchange] says.  In every run, under what the
    bridge and the flag promise, each frame is read whole, and the frames
    written so far are the replies of the responder to the frames read, in
    order, up to the ones still to be written.  The thread does not panic.
    It returns only right after it has read the flag as cleared; if it has not
    cleared it itself over a failed call, then every reply has been written. *)
Theorem responder_thread_serves mmds l u :
  runs (responder_thread mmds) l u -> honest false l ->
  (exists s, accepts net_step (at_start mmds) l = Some s) /\
  exists answers r unsent, exchange (heard [] l) (PacketResponder_new mmds) = Some (answers, r) /\ responder_ok r /\
    concat answers = concat (sent <$> l) ++ unsent /\
    (forall why, observe u <> RetF (PanickedAt why)) /\
    (observe u = RetF Returned -> last l = Some (Do LoadRunning false)) /\
    (observe u = RetF Returned -> existsb stops l = false -> unsent = []).
Proof.
  intros Hr Hh. destruct (thread_follows mmds l u Hr) as (s & Hs & Hq). split; [by exists s|].
  destruct (accepts_shows (at_start mmds) l s []) as (Hi & Hw & Hst); [done..|]. cbn in Hi, Hw, Hst.
  destruct (accepts_inv (PacketResponder_new mmds) _ _ _ (NInv_start mmds) Hh Hs) as (answers & rest & He & Hok & Hc & Ho).
  exists answers, (g_responder s), rest. rewrite <- Hi, <- Hw. split_and!; try done; unfold outstanding in Ho.
  - intros why Hu. apply Hq in Hu. by rewrite Hu in Ho.
  - intros Hu. by apply (over_last _ _ _ Hs); [|apply Hq in Hu].
  - intros Hu Hno. apply Hq in Hu. rewrite Hu in Ho. apply Ho. by rewrite Hst.
Qed.
End Thread.

(** A guest that sends a SYN and then nothing. *)
Module DemoThread.
#[local] Existing Instance DemoGuest.serde.
Definition syn : list Z := in_frame (syn_input DemoGuest.metadata (DemoGuest.clock 0) DemoGuest.key 99).
Definition answer {X} (e : Net X) (w : bool * list (list Z)) : X * (bool * list (list Z)) :=
  match e in Net X return X * (bool * list (list Z)) with
  | LoadRunning => (negb (fst w) && negb (bool_decide (snd w = [])), w)
  | StopRunning => (tt, (true, snd w))
  | VmnetRead capacity =>
      ({| status := if Z.of_nat (length (hd [] (snd w))) <=? capacity then HbOk else HbInvalidArgument;
          out := hd [] (snd w); out_err := None |}, (fst w, tl (snd w)))
  | VmnetWrite _ => ({| status := HbOk; out := tt; out_err := None |}, w)
  | Pause => (tt, w)
  | Observe => ((DemoGuest.clock 0, DemoGuest.metadata), w)
  end.


Lemma play_honest {R} n (t : itree Net R) w : Forall bytes_ok (snd w) -> honest (fst w) (fst (fst (play (@answer) n t w))).
Proof.
  revert t w. induction n as [|n IH]; intros t [st fs] Hf; [done|]. cbn [play]. destruct (observe t) as [r|t1|X e k]; [done|by apply IH|].
  destruct (answer e (st, fs)) as [a [st1 fs1]] eqn:Ea. specialize (IH (k a) (st1, fs1)).
  destruct (play _ n (k a) _) as [[l u] w2]. cbn [fst snd honest] in *.
  assert (H : answer_ok st (Do e a) /\ st1 = st || stops (Do e a) /\ Forall bytes_ok fs1).
  { destruct e; injection Ea as <- <- <-; cbn; rewrite ?orb_false_r, ?orb_true_r; (split; [|split; [done|]]); try done.
    - by destruct st.
    - destruct (Z.leb_spec (Z.of_nat (length (hd [] fs))) capacity); [|done]. intros _. split; [|done]. destruct Hf; [constructor|done].
    - by destruct Hf.
    - split; [by split|apply DemoGuest.metadata_modest]. }
  destruct H as (Ha & -> & Hf1). split; [done|]. by apply IH.
Qed.

Lemma play_fine {R} n (t : itree Net R) w l u w' : play (@answer) n t w = (l, u, w') -> Forall bytes_ok (snd w) ->
  runs t l u /\ honest (fst w) l.
Proof. intros E Hf. split; [by eapply play_runs|]. pose proof (play_honest n t w Hf) as Hh. by rewrite E in Hh. Qed.

Definition conversation (n : nat) := play (@answer) n (responder_thread DemoGuest.metadata) (false, [syn; []]).
Lemma syn_bytes : bytes_ok syn.
Proof. apply literal_bytes. by vm_compute. Qed.
Lemma conversation_fine n l u w : conversation n = (l, u, w) -> runs (responder_thread DemoGuest.metadata) l u /\ honest false l.
Proof. intros E. apply (play_fine _ _ _ _ _ _ E). apply Forall_cons_2; [apply syn_bytes|]. by repeat constructor. Qed.
End DemoThread.

Lemma responder_thread_serves_witness :
  let '(l, u, _) := DemoThread.conversation 60 in
  observe u = RetF Returned /\ length (concat (sent <$> l)) = 1%nat /\ last l = Some (Do LoadRunning false) /\
  exists answers r unsent,
    @exchange DemoGuest.serde (heard [] l) (PacketResponder_new DemoGuest.metadata) = Some (answers, r) /\
    responder_ok r /\ concat answers = concat (sent <$> l) ++ unsent.
Proof.
  destruct (DemoThread.conversation 60) as [[l u] w] eqn:E. split; [|split].
  - replace u with (snd (fst (DemoThread.conversation 60))) by by rewrite E. by vm_compute.
  - replace l with (fst (fst (DemoThread.conversation 60))) by by rewrite E. by vm_compute.
  - destruct (DemoThread.conversation_fine 60 l u w E) as [Hr Hh].
    assert (Hu : observe u = RetF Returned)
      by (replace u with (snd (fst (DemoThread.conversation 60))) by (by rewrite E); by vm_compute).
    destruct (@responder_thread_serves DemoGuest.serde DemoGuest.metadata l u Hr Hh) as (_ & answers & r & unsent & He & Hk & Hc & _ & Hl & _).
    split; [exact (Hl Hu)|]. exists answers, r, unsent. exact (conj He (conj Hk Hc)).
Defined.
