(* ===== verification/Daemon.v ===== *)
(** * The daemon's start (hephaestus-firecracker/src/main.rs and sandbox.rs)

    [main] up to its accept loop: the sandbox is entered first, if one is
    asked for, then the API socket is bound and the backend assembled; the
    loop and its tasks are those of [Server].  A daemon that was told to enter
    a sandbox serves nothing, and touches no other file, outside of it. *)

From S2P Require Import Prelude RustStr Utf8 Json World Bridge FcApi Pool BackendState Backend Ledger BackendSpec BackendProps Server.
Local Open Scope string_scope.
Local Open Scope Z_scope.
Local Open Scope list_scope.

(** ** The command line *)

Inductive NetworkBackend := NatBackend | VmnetBackend.
#[export] Instance NetworkBackend_eq_dec : EqDecision NetworkBackend.
Proof. solve_decision. Defined.

Record Args := {
  d_api_sock : string; d_id : string; d_pool_dir : option string; d_network_backend : NetworkBackend;
  d_sandbox_profile : option string; d_sandbox_deny_probe : option string; d_host_mmds : bool }.
#[export] Instance eta_Args : Eta Args :=
  ((fun _ => Build_Args) <+> d_api_sock <+> d_id <+> d_pool_dir <+> d_network_backend
    <+> d_sandbox_profile <+> d_sandbox_deny_probe <+> d_host_mmds)%fields.

(** What the attributes of the fields say when no flag is given. *)
Definition Args_default : Args :=
  {| d_api_sock := "/tmp/hephaestus-firecracker.socket"; d_id := "anonymous-instance"; d_pool_dir := None;
     d_network_backend := NatBackend; d_sandbox_profile := None; d_sandbox_deny_probe := None; d_host_mmds := false |}.

Definition uses_vmnet (args : Args) : bool := bool_decide (d_network_backend args = VmnetBackend).

(** ** Starting *)

(** [std::fs::read] and [std::fs::read_to_string]. *)
Definition bytes_read (r : Result FileData string) : Result string string :=
  match r with
  | Ok {| contents := text; read_error := None |} => Ok text
  | Ok {| read_error := Some e |} => Err e
  | Err e => Err e
  end.
Definition text_read (r : Result FileData string) : Result string string :=
  match bytes_read r with
  | Ok text => if utf8_valid text then Ok text else Err "stream did not contain valid UTF-8"
  | Err e => Err e
  end.

Section Start.
Context {W : Type} `{Outside W}.
Abbreviation D := (M W unit string).

Definition apply_profile (profile : string) : D unit :=
  match nul_position profile with
  | Some _ => fail "sandbox profile contains NUL"
  | None =>
      let! (rc, error) := ask (SandboxInit profile) in
      if rc =? 0 then ret tt
      else fail match error with None => "sandbox_init failed" | Some e => from_utf8_lossy e end
  end.

Definition deny_probe (probe : option string) : D unit :=
  match probe with
  | None => ret tt
  | Some probe =>
      let! r := ask (ReadFile probe) in
      match bytes_read r with
      | Ok _ => fail ("sandbox deny probe unexpectedly read " +:+ from_utf8_lossy probe)
      | Err _ => ret tt
      end
  end.

Definition enter_sandbox (args : Args) : D unit :=
  match d_sandbox_profile args with
  | None => ret tt
  | Some path =>
      let! r := ask (ReadFile path) in
      let! profile := lift (text_read r) in
      do! with_err (fun err => "failed to apply sandbox profile " +:+ from_utf8_lossy path +:+ ": " +:+ err)
            (apply_profile profile) in
      deny_probe (d_sandbox_deny_probe args)
  end.

Definition bind_socket (path : string) : D unit :=
  let! there := ask (PathExists path) in
  do! (if there then let! r := ask (RemoveFile path) in lift r else ret tt) in
  let! r := ask (UdsBind path) in
  lift r.

(** A pool directory that cannot be opened is reported and left out. *)
Definition attach_pool (dir : option string) (b : VzBackend) : D VzBackend :=
  match dir with
  | None => ret b
  | Some dir =>
      let! r := attempt (Pool.open dir) in
      ret match r with Ok pool => with_pool pool b | Err _ => b end
  end.

Definition start_up (args : Args) : D VzBackend :=
  do! enter_sandbox args in
  do! bind_socket (d_api_sock args) in
  if d_host_mmds args && negb (uses_vmnet args) then fail "--host-mmds requires --network-backend vmnet" else
  let! now := ask InstantNow in
  attach_pool (d_pool_dir args)
    (with_host_mmds (d_host_mmds args) (with_vmnet_networking (uses_vmnet args) (new (d_id args) now))).
End Start.

(** A run of the daemon so far: it failed to start, or it serves. *)
Section Life.
Context `{Decoders} {W : Type} `{Outside W} `{Serde}.

Inductive daemon_run (args : Args) : W -> Trace -> Result Server string -> W -> Prop :=
| run_refused w e w' t : start_up args tt w = (Err e, tt, w', t) -> daemon_run args w t (Err e) w'
| run_serving w b w1 t1 t2 srv w2 :
    start_up args tt w = (Ok b, tt, w1, t1) -> server_run (listening b) w1 t2 srv w2 ->
    daemon_run args w (t1 ++ t2) (Ok srv) w2.
End Life.

(** ** What happens before the daemon serves *)

(** The calls that enter the sandbox, when the files hold [file], and whether
    the daemon may go on. *)
Inductive entering (file : string -> Result FileData string) (probe : option string) : option string -> Trace -> bool -> Prop :=
| entering_none : entering file probe None [] true
| entering_unreadable path :
    is_ok (text_read (file path)) = false -> entering file probe (Some path) [Ev (ReadFile path) (file path)] false
| entering_nul path text i :
    text_read (file path) = Ok text -> nul_position text = Some i ->
    entering file probe (Some path) [Ev (ReadFile path) (file path)] false
| entering_refused path text rc error :
    text_read (file path) = Ok text -> rc <> 0 ->
    entering file probe (Some path) [Ev (ReadFile path) (file path); Ev (SandboxInit text) (rc, error)] false
| entering_unprobed path text error :
    text_read (file path) = Ok text -> probe = None ->
    entering file probe (Some path) [Ev (ReadFile path) (file path); Ev (SandboxInit text) (0, error)] true
| entering_probed path text error p a :
    text_read (file path) = Ok text -> probe = Some p ->
    entering file probe (Some path)
      [Ev (ReadFile path) (file path); Ev (SandboxInit text) (0, error); Ev (ReadFile p) a] (negb (is_ok (bytes_read a))).
Definition files {W} `{Outside W} (w : W) (path : string) : Result FileData string := fst (call (ReadFile path) w).

(** What is touched between the sandbox and the first request. *)
Definition setup_call (args : Args) (A : Type) (c : Call A) : Prop :=
  match c with
  | PathExists p => p = d_api_sock args \/ d_pool_dir args <> None
  | RemoveFile p | UdsBind p => p = d_api_sock args
  | InstantNow => True
  | Canonicalize p => d_pool_dir args = Some p
  | ReadFile _ => d_pool_dir args <> None
  | _ => False
  end.

Section Started.
Context {W : Type} `{Outside W}.

Lemma deny_probe_runs probe (w : W) :
  wp (deny_probe probe) (fun r _ _ t => match probe with
    | None => t = [] /\ r = Ok tt
    | Some p => exists a, t = [Ev (ReadFile p) a] /\ is_ok r = negb (is_ok (bytes_read a))
    end) tt w.
Proof.
  unfold deny_probe. destruct probe as [p|]; [|by wp_step]. do 2 wp_step.
  destruct (bytes_read a) eqn:Ha; wp_step; exists a; by rewrite Ha.
Qed.

Lemma enter_sandbox_runs args (w : W) :
  wp (enter_sandbox args) (fun r _ _ t => entering (files w) (d_sandbox_deny_probe args) (d_sandbox_profile args) t (is_ok r)) tt w.
Proof.
  unfold enter_sandbox, apply_profile. destruct (d_sandbox_profile args) as [path|]; [|by wp_step; constructor].
  wp_step. apply wp_ask. intros a w' Hc. assert (Ha : files w path = a) by (unfold files; by rewrite Hc).
  rewrite <- Ha. cbv beta iota. do 2 wp_step. destruct (text_read (files w path)) as [profile|e] eqn:Ht; [|by constructor; rewrite Ht].
  do 2 wp_step. destruct (nul_position profile) eqn:Hn; [by wp_step; econstructor|].
  do 2 wp_step. destruct a0 as [rc error]. destruct (Z.eqb_spec rc 0) as [->|Hrc]; wp_step; cbn [map_err]; [|by econstructor].
  eapply wp_mono; [apply deny_probe_runs|]. intros r s2 w2 t Ht2. destruct (d_sandbox_deny_probe args) as [p|] eqn:Hp.
  - destruct Ht2 as (b & -> & ->). by econstructor.
  - destruct Ht2 as [-> ->]. by econstructor.
Qed.

Lemma attach_pool_runs args b (w : W) :
  wp (attach_pool (d_pool_dir args) b) (fun r _ _ t => Only (setup_call args) t /\
    exists p, r = Ok match p with Some p => with_pool p b | None => b end /\ (d_pool_dir args = None -> p = None)) tt w.
Proof.
  unfold attach_pool. destruct (d_pool_dir args) as [dir|] eqn:Hd; [|by wp_step; split; [constructor|exists None]].
  wp_step. wp_step.
  eapply (wp_mono _ (fun _ _ _ t => Only (setup_call args) t)).
  - unfold Pool.open, PoolMeta_read. wp_run; repeat constructor; cbn; rewrite Hd; auto.
  - intros r s2 w2 t Ht. wp_step. rewrite app_nil_r. split; [done|]. by destruct r as [p|]; [exists (Some p)|exists None].
Qed.

(** Start-up enters the sandbox first; only then it binds the socket, and the
    backend it ends with is the one the flags describe. *)
Definition started (args : Args) (w : W) (r : Result VzBackend string) (t : Trace) : Prop :=
  exists t1 t2 entered, t = t1 ++ t2 /\ entering (files w) (d_sandbox_deny_probe args) (d_sandbox_profile args) t1 entered /\
    Only (setup_call args) t2 /\ (entered = false -> t2 = [] /\ is_ok r = false) /\
    forall b, r = Ok b ->
      Ev (UdsBind (d_api_sock args)) (Ok tt) ∈ t2 /\ (d_host_mmds args = true -> uses_vmnet args = true) /\
      exists now p, b = assemble (d_id args) now (uses_vmnet args) (d_host_mmds args) p /\ (d_pool_dir args = None -> p = None).

Lemma bind_socket_runs args (w : W) :
  wp (bind_socket (d_api_sock args)) (fun r _ _ t => Only (setup_call args) t /\
    (r = Ok tt -> Ev (UdsBind (d_api_sock args)) (Ok tt) ∈ t)) tt w.
Proof.
  unfold bind_socket. wp_run; (split; [repeat constructor; cbn; auto|]); [intros ->|done|intros ->]; set_solver.
Qed.

Lemma start_up_runs args (w : W) : wp (start_up args) (fun r _ _ t => started args w r t) tt w.
Proof.
  unfold start_up. wp_step. eapply wp_mono; [apply enter_sandbox_runs|]. intros [u|e] [] w1 t1 He; cbn [is_ok] in He.
  2: { exists t1, [], false. rewrite app_nil_r. split_and!; try done. constructor. }
  wp_step. eapply wp_mono; [apply bind_socket_runs|]. intros [v|e] [] w2 t2 [Ho Hb].
  2: { by exists t1, t2, true. }
  destruct v. specialize (Hb eq_refl). destruct (d_host_mmds args && negb (uses_vmnet args)) eqn:Hm.
  { wp_step. exists t1, t2, true. by rewrite app_nil_r. }
  do 2 wp_step. eapply wp_mono; [apply attach_pool_runs|]. intros r [] w4 t4 (Ho4 & p & -> & Hp).
  exists t1, (t2 ++ Ev InstantNow a :: t4), true. split_and!; try done.
  - apply only_app; [done|]. by apply only_cons.
  - intros b [= <-]. split; [apply elem_of_app; by left|]. split; [by destruct (d_host_mmds args), (uses_vmnet args)|].
    exists a, p. split; [|done]. by destruct p.
Qed.
End Started.

Section Serving.
Context `{Decoders} {W : Type} `{Outside W} `{Serde}.

Lemma daemon_enters args (w : W) t out w' :
  daemon_run args w t out w' ->
  exists t1 t2 entered, t = t1 ++ t2 /\ entering (files w) (d_sandbox_deny_probe args) (d_sandbox_profile args) t1 entered /\
    (entered = false -> t2 = [] /\ is_ok out = false) /\
    match out with
    | Err _ => Only (setup_call args) t2
    | Ok srv => Ev (UdsBind (d_api_sock args)) (Ok tt) ∈ t2 /\ (d_host_mmds args = true -> uses_vmnet args = true) /\
        exists id now vmnet host p w1 t3, server_run (listening (assemble id now vmnet host p)) w1 t3 srv w'
    end.
Proof.
  intros Hd. destruct Hd as [w e w' t Hs|w b w1 t1 t2 srv w2 Hs Hr].
  - destruct (wp_result _ _ _ _ _ _ _ _ (start_up_runs args w) Hs) as (t1 & t2 & entered & -> & He & Ho & Hf & _).
    exists t1, t2, entered. split_and!; [done|done|apply Hf|done].
  - destruct (wp_result _ _ _ _ _ _ _ _ (start_up_runs args w) Hs) as (u1 & u2 & entered & -> & He & _ & Hf & Hk).
    destruct (Hk b eq_refl) as (Hb & Hm & now & p & -> & _). exists u1, (u2 ++ t2), entered.
    split; [by rewrite <- app_assoc|]. split; [done|]. split; [by intros [_ [=]]%Hf|].
    split; [apply elem_of_app; by left|]. split; [done|]. by eexists _, _, _, _, _, _, _.
Qed.
End Serving.

Section Confinement.
Context `{TypedDecoders} {W : Type} `{Outside W} `{Serde}.

(** C21: A daemon that was given a sandbox profile reads it, enters the
    sandbox with exactly the text of that file and, if it was given a probe,
    finds that path closed, before it does anything else.  If the file is
    unreadable, holds a NUL, is refused by the system, or leaves the probe
    readable, the daemon ends there: it has bound no socket and served no
    request.  A daemon that serves has bound its API socket, offers the
    metadata address only on vmnet, and keeps the invariant of its backend. *)
Theorem sandbox_before_service args (w : W) t out w' :
  daemon_run args w t out w' ->
  exists t1 t2 entered, t = t1 ++ t2 /\ entering (files w) (d_sandbox_deny_probe args) (d_sandbox_profile args) t1 entered /\
    (entered = false -> t2 = [] /\ is_ok out = false) /\
    match out with
    | Err _ => Only (setup_call args) t2
    | Ok srv => Ev (UdsBind (d_api_sock args)) (Ok tt) ∈ t2 /\ (d_host_mmds args = true -> uses_vmnet args = true) /\ wf (backend srv)
    end.
Proof.
  intros Hd. destruct (daemon_enters args w t out w' Hd) as (t1 & t2 & entered & -> & He & Hf & Ho).
  exists t1, t2, entered. split; [done|]. split; [done|]. split; [done|]. destruct out as [srv|e]; [|done].
  destruct Ho as (Hb & Hm & id & now & vmnet & host & p & w1 & t3 & Hr). split; [done|]. split; [done|].
  apply (server_run_ok _ _ _ _ _ Hr (listening_ok id now vmnet host p)).
Qed.
End Confinement.

(** A daemon in a sandbox that serves the requests of [DemoServer]. *)
Module DemoDaemon.
Definition args : Args := Args_default <| d_id := "demo" |> <| d_sandbox_profile := Some "/r/.demo.sandbox.profile" |>.
End DemoDaemon.

Lemma sandbox_before_service_witness :
  exists t1 t2 srv, @daemon_run DemoServer.decoders unit calm Demo.serde DemoDaemon.args tt (t1 ++ t2) (Ok srv) tt /\
    entering (@files _ calm tt) None (Some "/r/.demo.sandbox.profile") t1 true /\ wf (backend srv).
Proof.
  destruct DemoServer.run as (t & srv & Hr & _).
  assert (Hd : exists t, @daemon_run DemoServer.decoders unit calm Demo.serde DemoDaemon.args tt t (Ok srv) tt) by
    (eexists; eapply run_serving; [reflexivity|exact Hr]).
  destruct Hd as [t0 Hd].
  destruct (@sandbox_before_service _ DemoServer.typed _ _ _ DemoDaemon.args tt t0 (Ok srv) tt Hd) as (t1 & t2 & entered & -> & He & Hf & _ & _ & Hwf).
  exists t1, t2, srv. split; [exact Hd|]. split; [|exact Hwf]. destruct entered; [exact He|]. by destruct (Hf eq_refl).
Defined.
