(* ===== verification/Confined.v ===== *)
(** * A jailed daemon is confined

    The jailer and the daemon share a file, the sandbox profile, and a command
    line.  The command the jailer starts is read by the daemon as meant, the
    daemon enters the profile the jailer wrote, and that profile grants the
    paths of the instance and nothing else. *)

From S2P Require Import Prelude RustStr Utf8 Json World Calls Bridge FcApi Pool BackendState Backend Ledger BackendSpec BackendProps Server UidRegistry Profile Jailer Session JailerRun Daemon.
Local Open Scope string_scope.
Local Open Scope Z_scope.
Local Open Scope list_scope.

(** ** The command line *)

(** A flag with or without a value, as [clap] reads the words of a command line. *)
Inductive Word := Option_ (flag value : string) | Flag (flag : string).
Definition flag_of (x : Word) : string := match x with Option_ f _ | Flag f => f end.
Definition spelled (ws : list Word) : list string :=
  concat ((fun x => match x with Option_ f v => [f; v] | Flag f => [f] end) <$> ws).

Definition backend_named (s : string) : option NetworkBackend :=
  if String.eqb s "nat" then Some NatBackend else if String.eqb s "vmnet" then Some VmnetBackend else None.

(** What each flag of [Args] means. *)
Definition flag_arms : list (string * (string -> Daemon.Args -> option Daemon.Args)) :=
  [("--api-sock", fun v a => Some (a <| d_api_sock := v |>));
   ("--id", fun v a => Some (a <| d_id := v |>));
   ("--pool-dir", fun v a => Some (a <| d_pool_dir := Some v |>));
   ("--network-backend", fun v a => (fun n => a <| d_network_backend := n |>) <$> backend_named v);
   ("--sandbox-profile", fun v a => Some (a <| d_sandbox_profile := Some v |>));
   ("--sandbox-deny-probe", fun v a => Some (a <| d_sandbox_deny_probe := Some v |>))].
Definition set_word (x : Word) (a : Daemon.Args) : option Daemon.Args :=
  match x with
  | Option_ f v => set ← entry f flag_arms; set v a
  | Flag f => if String.eqb f "--host-mmds" then Some (a <| d_host_mmds := true |>) else None
  end.
Fixpoint set_words (ws : list Word) (a : Daemon.Args) : option Daemon.Args :=
  match ws with [] => Some a | x :: ws => a1 ← set_word x a; set_words ws a1 end.

(** What the jailer's command line says. *)
Definition meant (plan : Plan) (args : Jailer.Args) : Daemon.Args :=
  {| d_api_sock := api_sock plan; d_id := arg_id args; d_pool_dir := arg_pool_dir args;
     d_network_backend := match arg_network_backend args with Jailer.Nat => NatBackend | Jailer.Vmnet => VmnetBackend end;
     d_sandbox_profile := Some (profile_path plan); d_sandbox_deny_probe := arg_deny_probe args;
     d_host_mmds := arg_host_mmds args |}.
Definition opt_word (flag : string) (v : option string) : list Word := match v with Some v => [Option_ flag v] | None => [] end.
Definition said (plan : Plan) (args : Jailer.Args) : list Word :=
  [Option_ "--api-sock" (api_sock plan); Option_ "--id" (arg_id args); Option_ "--sandbox-profile" (profile_path plan)]
  ++ opt_word "--pool-dir" (arg_pool_dir args) ++ opt_word "--sandbox-deny-probe" (arg_deny_probe args)
  ++ [Option_ "--network-backend" (as_flag_value (arg_network_backend args))]
  ++ (if arg_host_mmds args then [Flag "--host-mmds"] else []).

Lemma said_spelled plan args : cmd_args (build_command plan args) = spelled (said plan args).
Proof. cbn. by destruct (arg_pool_dir args), (arg_deny_probe args), (arg_host_mmds args). Qed.
Lemma said_once plan args : NoDup (flag_of <$> said plan args).
Proof. unfold said. destruct (arg_pool_dir args), (arg_deny_probe args), (arg_host_mmds args); refine (bool_decide_eq_true_1 _ _); reflexivity. Qed.
Lemma said_means plan args : set_words (said plan args) Args_default = Some (meant plan args).
Proof.
  unfold said, meant. by destruct (arg_pool_dir args), (arg_deny_probe args), (arg_host_mmds args), (arg_network_backend args).
Qed.

(** ** The jailer starts a process only through [launch] *)

Definition spawnless (A : Type) (c : Call A) : Prop := match c with Spawn _ => False | _ => True end.

Section Spawnless.
Context {W : Type} `{Outside W}.
Abbreviation Idle m := (Keeps (W := W) whatever spawnless m whatever).

Lemma or_fail_idle {A E} (f : E -> JailerError) (r : Result A E) : Idle (or_fail f r).
Proof. unfold or_fail. keeps. Qed.
Lemma expect_idle {A} (o : option A) message : Idle (expect o message).
Proof. unfold expect. keeps. Qed.
Lemma rewrite_idle {S} reg : Idle (rewrite (S := S) reg).
Proof. unfold rewrite. keeps. Qed.
Lemma open_idle {S} root : Idle (UidRegistry.open (S := S) root).
Proof. unfold UidRegistry.open. keeps. Qed.
Lemma scan_idle {S} es uid n : Idle (scan (S := S) es uid n).
Proof. revert uid. induction n; cbn [scan]; unfold passwd_entry_exists; keeps. Qed.
#[local] Hint Resolve or_fail_idle expect_idle rewrite_idle open_idle scan_idle : keeps.
Lemma instance_lock_held_idle path : Idle (instance_lock_held path).
Proof. unfold instance_lock_held. keeps. Qed.
#[local] Hint Resolve instance_lock_held_idle : keeps.
Lemma refuse_live_idle root es i uid allow : Idle (refuse_live_shared_uid root es i uid allow).
Proof. induction es as [|[]]; cbn [refuse_live_shared_uid]; keeps. Qed.
#[local] Hint Resolve refuse_live_idle : keeps.
Lemma identity_idle args explicit root : Idle (resolve_instance_identity args explicit root).
Proof. unfold resolve_instance_identity, drop_registry, allocate, upsert. keeps. Qed.
Lemma acquire_idle path i : Idle (acquire_instance_lock path i).
Proof. unfold acquire_instance_lock. generalize 3%nat. intros n. induction n; cbn [acquire_rounds]; keeps. Qed.
Lemma first_file_idle name dirs : Idle (first_file name dirs).
Proof. induction dirs; cbn [first_file]; keeps. Qed.
Lemma trusted_idle root : Idle (assert_trusted_work_root root).
Proof. unfold assert_trusted_work_root. keeps. Qed.
Lemma keep_slots_idle dir names : Idle (keep_slots dir names).
Proof. induction names; cbn [keep_slots]; keeps. Qed.
#[local] Hint Resolve identity_idle acquire_idle first_file_idle trusted_idle keep_slots_idle : keeps.
Lemma secure_idle root drop : Idle (secure_work_root root drop).
Proof. unfold secure_work_root. keeps. Qed.
Lemma materialize_idle args dir sock : Idle (materialize args dir sock).
Proof. unfold materialize, refuse_symlink. keeps. Qed.
Lemma inputs_idle args k r d : Idle (profile_inputs args k r d).
Proof. unfold profile_inputs, pool_slot_dirs. keeps. Qed.
Lemma write_profile_idle p text drop : Idle (write_profile p text drop).
Proof. unfold write_profile. keeps. Qed.
Lemma generate_idle {S} inputs : Idle (generate (S := S) inputs).
Proof.
  intros s w _. eapply wp_mono; [apply generate_run|]. intros r s1 w1 t (_ & Ho & _). split; [done|]. split; [|by destruct r].
  eapply only_mono; [|exact Ho]. by intros A [].
Qed.
Lemma resolve_user_idle user uid gid : Idle (resolve_user user uid gid).
Proof. unfold resolve_user. keeps. Qed.
Lemma resolve_binary_idle args : Idle (resolve_binary args).
Proof. unfold resolve_binary, which. keeps. Qed.
Lemma work_root_idle args : Idle (work_root_of args).
Proof. unfold work_root_of, default_work_root. keeps. Qed.
#[local] Hint Resolve secure_idle materialize_idle inputs_idle write_profile_idle generate_idle resolve_user_idle
  resolve_binary_idle work_root_idle : keeps.
Lemma prepare_idle args explicit : Idle (prepare args explicit).
Proof. unfold prepare. keeps. Qed.
Lemma remove_if_there_idle p : Idle (remove_if_there p).
Proof. unfold remove_if_there. keeps. Qed.
#[local] Hint Resolve remove_if_there_idle : keeps.
Lemma remove_instance_idle args root path locked : Idle (remove_instance args root path locked).
Proof. unfold remove_instance, refuse_symlink, drop_registry, remove. keeps. Qed.
#[local] Hint Resolve remove_instance_idle : keeps.
Lemma teardown_idle args : Idle (teardown args).
Proof. unfold teardown. keeps. Qed.
Lemma opt_path_idle flag p : Idle (opt_path_arg flag p).
Proof. unfold opt_path_arg, plist_path. keeps. Qed.
#[local] Hint Resolve opt_path_idle : keeps.
Lemma write_plist_idle args plan : Idle (write_plist args plan).
Proof. unfold write_plist, generate_launchd_plist, program_args, plist_path. keeps. Qed.

(** [launch] starts the command of the plan, and nothing else. *)
Lemma launch_spawns args plan :
  Keeps (W := W) whatever (fun A c => match c with Spawn cmd => cmd = build_command plan args | _ => True end) (launch args plan) whatever.
Proof.
  unfold launch, install_signal_forwarding, or_fail. keeps.
Qed.
End Spawnless.

(** ** What a profile grants *)

(** A computation that, if it returns, has [Q] of its result and its calls. *)
Definition Tells {W} `{Outside W} {S E A} (m : M W S E A) (Q : A -> Trace -> Prop) : Prop :=
  forall s w, wp m (fun r _ _ t => match r with Ok a => Q a t | Err _ => True end) s w.

Section Tells.
Context {W : Type} `{Outside W} {S E : Type}.
Lemma tells_bind {A B} (m : M W S E A) (k : A -> M W S E B) P Q :
  Tells m P -> (forall a t, P a t -> Tells (k a) (fun b t' => Q b (t ++ t'))) -> Tells (bind m k) Q.
Proof.
  intros Hm Hk s w. wp_step. eapply wp_mono; [apply Hm|]. intros [a|e] s1 w1 t1 H1; [|done].
  eapply wp_mono; [apply (Hk a t1 H1)|]. by intros [b|e].
Qed.
Lemma tells_skip {A B} (m : M W S E A) (k : A -> M W S E B) Q :
  (forall b t t', Q b t' -> Q b (t ++ t')) -> (forall a, Tells (k a) Q) -> Tells (bind m k) Q.
Proof.
  intros HQ Hk. apply (tells_bind _ _ (fun _ _ => True)).
  - intros s w. apply wp_intro. by intros [].
  - intros a t _ s w. eapply wp_mono; [apply Hk|]. intros [b|e]; [|done]. intros. by apply HQ.
Qed.
Lemma tells_known {A B} (a : A) (k : A -> M W S E B) Q : Tells (k a) Q -> Tells (bind (ret a) k) Q.
Proof. intros Hk s w. do 2 wp_step. apply Hk. Qed.
Lemma tells_on_error {A} (c : Call unit) (m : M W S E A) Q : Tells m Q -> Tells (on_error (ask c) m) Q.
Proof. intros Hm s w. wp_step. eapply wp_mono; [apply Hm|]. by intros [a|e]. Qed.
Lemma tells_ret {A} (a : A) (Q : A -> Trace -> Prop) : Q a [] -> Tells (ret a : M W S E A) Q.
Proof. intros HQ s w. by wp_step. Qed.
End Tells.

(** The profile as a policy: the kernel and the initramfs can be read, the
    pool too, the work directory, the slots of the pool and the root file
    system can be written; each path is the one the file system resolved. *)
Definition granting (args : Jailer.Args) (dir : string) (t : Trace) (text : string) : Prop :=
  exists kernel rootfs slots rs ds ws fs,
    arg_kernel args = Some kernel /\ arg_rootfs args = Some rootfs /\
    match arg_pool_dir args with Some d => all_slots d slots | None => slots = [] end /\
    Forall2 (canonical t) (kernel :: option_list (arg_initramfs args)) rs /\
    Forall2 (canonical t) (option_list (arg_pool_dir args)) ds /\
    Forall2 (canonical t) (dir :: slots) ws /\ Forall2 (canonical t) [rootfs] fs /\
    read_profile text = Some (policy (from_utf8_lossy <$> rs) (from_utf8_lossy <$> ds)
                                     (from_utf8_lossy <$> ws) (from_utf8_lossy <$> fs)).
Definition profiled (args : Jailer.Args) (plan : Plan) (t : Trace) : Prop :=
  work_dir plan = path_join (work_root plan) (arg_id args) /\ api_sock plan = path_join (work_dir plan) "api.sock" /\
  profile_path plan = path_join (work_root plan) (profile_name (arg_id args)) /\
  exists text, Ev (WriteFile (profile_path plan) text) (Ok tt) ∈ t /\ granting args (work_dir plan) t text.

Lemma canonical_sub t t' ps cs : t ⊆ t' -> Forall2 (canonical t) ps cs -> Forall2 (canonical t') ps cs.
Proof. intros Ht Hf. eapply Forall2_impl; [exact Hf|]. intros p c. apply Ht. Qed.
Lemma profiled_sub args plan t t' : t ⊆ t' -> profiled args plan t -> profiled args plan t'.
Proof.
  intros Ht (Hd & Hs & Hpp & text & Hw & kernel & rootfs & slots & rs & ds & ws & fs & Hk & Hr & Hl & H1 & H2 & H3 & H4 & Hp).
  split; [done|]. split; [done|]. split; [done|]. exists text. split; [by apply Ht|]. exists kernel, rootfs, slots, rs, ds, ws, fs.
  split_and!; try done; by eapply canonical_sub.
Qed.

Section Profiled.
Context {W : Type} `{Outside W}.

Lemma profile_inputs_tells args kernel rootfs dir :
  Tells (W := W) (profile_inputs args kernel rootfs dir) (fun inputs _ => exists slots,
    match arg_pool_dir args with Some d => all_slots d slots | None => slots = [] end /\
    inputs = {| work_dirs := dir :: slots; read_write_files := [rootfs];
                reads := kernel :: option_list (arg_initramfs args); read_dirs := option_list (arg_pool_dir args) |}).
Proof.
  unfold profile_inputs. destruct (arg_pool_dir args) as [d|].
  - apply (tells_bind _ _ (fun slots _ => all_slots d slots)).
    + intros s w. eapply wp_mono; [apply (pool_slot_dirs_quiet "" "")|]. intros [l|e] s1 w1 t [_ Hl]; done.
    + intros slots t Hl. apply tells_ret. by exists slots.
  - apply (tells_bind _ _ (fun slots _ => slots = [])); [by apply tells_ret|]. intros slots t ->. apply tells_ret. by exists [].
Qed.
Lemma write_profile_tells path text drop :
  Tells (W := W) (write_profile path text drop) (fun _ t => Ev (WriteFile path text) (Ok tt) ∈ t).
Proof.
  unfold write_profile, or_fail. intros s w. do 3 wp_step. apply wp_lift. destruct a as [[]|e]; cbn [map_err]; [|done].
  do 2 wp_step. apply wp_lift. destruct a as [[]|e]; cbn [map_err]; [|done]. set_solver.
Qed.

Lemma generate_tells {E} (f : GenError -> E) inputs :
  Tells (W := W) (S := Z) (with_err f (generate inputs)) (fun text t => exists rs ds ws fs,
    Forall2 (canonical t) (reads inputs) rs /\ Forall2 (canonical t) (read_dirs inputs) ds /\
    Forall2 (canonical t) (work_dirs inputs) ws /\ Forall2 (canonical t) (read_write_files inputs) fs /\
    read_profile text = Some (policy (from_utf8_lossy <$> rs) (from_utf8_lossy <$> ds)
                                     (from_utf8_lossy <$> ws) (from_utf8_lossy <$> fs))).
Proof.
  intros s w. wp_step. eapply wp_mono; [apply generate_run|]. intros [text|e] s1 w1 t (_ & _ & Hr); cbn [map_err]; [|done].
  destruct Hr as (rs & ds & ws & fs & H1 & H2 & H3 & H4 & Ht). exists rs, ds, ws, fs. split_and!; try done. by apply read_tokens.
Qed.

(** The last part of [prepare]. *)
Lemma profile_tells args plan kernel rootfs drop :
  arg_kernel args = Some kernel -> arg_rootfs args = Some rootfs ->
  work_dir plan = path_join (work_root plan) (arg_id args) -> api_sock plan = path_join (work_dir plan) "api.sock" ->
  profile_path plan = path_join (work_root plan) (profile_name (arg_id args)) ->
  Tells (W := W)
    (let! inputs := profile_inputs args kernel rootfs (work_dir plan) in
     let! profile_source := with_err (fun e => Error (ProfileError e)) (generate inputs) in
     do! write_profile (profile_path plan) profile_source drop in
     ret plan) (profiled args).
Proof.
  intros Hk Hr Hd Hs Hpp. eapply tells_bind; [apply profile_inputs_tells|]. intros inputs t1 (slots & Hl & ->).
  eapply tells_bind; [apply generate_tells|]. cbn [reads read_dirs work_dirs read_write_files].
  intros text t2 (rs & ds & ws & fs & H1 & H2 & H3 & H4 & Ht).
  eapply tells_bind; [apply write_profile_tells|]. intros u t3 Hw. apply tells_ret. split; [done|]. split; [done|]. split; [done|].
  exists text. split; [set_solver|]. exists kernel, rootfs, slots, rs, ds, ws, fs. rewrite !app_nil_r. split_and!; auto with heph.
Qed.

Lemma prepare_tells args explicit : Tells (W := W) (prepare args explicit) (profiled args).
Proof.
  assert (Hclosed : forall plan t t', profiled args plan t' -> profiled args plan (t ++ t')).
  { intros plan t t'. apply profiled_sub. set_solver. }
  assert (Hfail : forall A e (k : A -> M W Z Fault Plan), Tells (bind (fail e) k) (profiled args)) by (intros A e k s w; by do 2 wp_step).
  unfold prepare, expect. apply tells_skip; [done|]. intros ?.
  destruct (arg_kernel args) as [kernel|] eqn:Hk; [|apply Hfail].
  destruct (arg_rootfs args) as [rootfs|] eqn:Hr; [|apply tells_skip; [done|]; intros ?; apply Hfail].
  apply tells_known, tells_known. do 7 (apply tells_skip; [done|]; intros ?). cbv zeta. apply tells_skip; [done|]. intros lock.
  apply tells_on_error. apply tells_skip; [done|]. intros [uid gid]. cbv zeta. apply tells_skip; [done|]. intros ?.
  match goal with |- context [ret ?plan] => by apply (profile_tells args plan) end.
Qed.

Lemma idle_spawn t cmd a : Only spawnless t -> Ev (Spawn cmd) a ∉ t.
Proof. intros Ho Hi. by apply (proj1 (Forall_forall _ _) Ho) in Hi. Qed.

(** A process the jailer starts runs the command of a plan whose profile it
    has written. *)
Definition launched (args : Jailer.Args) (t : Trace) : Prop :=
  forall cmd a, Ev (Spawn cmd) a ∈ t -> exists plan, cmd = build_command plan args /\ profiled args plan t /\
    (arg_host_mmds args = true -> arg_network_backend args = Jailer.Vmnet).
Lemma idle_launched args t : Only spawnless t -> launched args t.
Proof. intros Ho cmd a Hi. by apply idle_spawn in Hi. Qed.

Lemma run_launches args pg (w : W) : wp (run args) (fun _ _ _ t => launched args t) pg w.
Proof.
  unfold run. destruct (arg_teardown args).
  { eapply wp_mono; [by eapply keeps_only; [apply teardown_idle|]|]. intros. by apply idle_launched. }
  destruct (arg_host_mmds args && _) eqn:Hm; [wp_step; by apply idle_launched, only_nil|].
  do 2 wp_step. eapply wp_mono; [by eapply keeps_only; [apply resolve_user_idle|]|]. intros [explicit|e] s1 w1 t1 H1; cbn [map_err]; [|by apply idle_launched].
  wp_step. eapply wp_mono; [apply wp_and; [by eapply keeps_only; [apply prepare_idle|]|apply prepare_tells]|]. intros [plan|e] s2 w2 t2 [H2 H2'].
  2: { by apply idle_launched, only_app. }
  wp_step. destruct (_ || _).
  { eapply wp_mono; [by eapply keeps_only; [apply write_plist_idle|]|]. intros r s3 w3 t3 H3 b w4. apply idle_launched.
    repeat (apply only_app; [done|]). by apply only_cons; [|apply only_nil]. }
  eapply wp_mono; [by eapply keeps_only; [apply launch_spawns|]|]. intros r s3 w3 t3 H3 b w4 cmd a Hi. exists plan. split_and!.
  - apply elem_of_app in Hi as [Hi|Hi]; [by apply idle_spawn in Hi|]. apply elem_of_app in Hi as [Hi|Hi]; [by apply idle_spawn in Hi|].
    apply elem_of_app in Hi as [Hi|Hi]; [|set_solver]. by apply (proj1 (Forall_forall _ _) H3) in Hi.
  - eapply profiled_sub; [|exact H2']. set_solver.
  - intros Hh. rewrite Hh in Hm. by apply negb_false_iff, bool_decide_eq_true in Hm.
Qed.
End Profiled.

(** ** The whole of it *)

Section Confined.
Context `{Decoders} {W W' : Type} `{Outside W} `{Outside W'} `{Serde}.
(** [clap]: when it accepts a command line of distinct known options, each
    with the value that follows it, the fields have these values and the
    others their defaults. *)
Variable clap : list string -> Result Daemon.Args string.
Definition known (x : Word) : Prop :=
  match x with Option_ f _ => is_Some (entry f flag_arms) | Flag f => f = "--host-mmds" end.
Hypothesis clap_reads : forall ws a,
  Forall known ws -> NoDup (flag_of <$> ws) -> clap (spelled ws) = Ok a -> set_words ws Args_default = Some a.

Lemma clap_meant plan args a : clap (cmd_args (build_command plan args)) = Ok a -> a = meant plan args.
Proof.
  rewrite said_spelled. intros Ha. apply clap_reads in Ha; [|..].
  - rewrite said_means in Ha. by injection Ha as <-.
  - unfold said. destruct (arg_pool_dir args), (arg_deny_probe args), (arg_host_mmds args); cbn [opt_word app];
      repeat first [apply Forall_nil_2|apply Forall_cons_2; [first [reflexivity|by eexists]|]].
  - apply said_once.
Qed.

(** C6: A daemon that the jailer starts is confined to its instance.  The
    command line the jailer gives it means what the jailer's arguments say;
    if the files the jailer wrote hold their text when the daemon starts,
    then the first thing the daemon does is to read the sandbox profile, the
    second is to enter a sandbox with that text, and it does nothing else,
    unless the sandbox was entered.  That text denies everything but the
    fixed system grants, reading the kernel, the initramfs and the pool, and
    writing the work directory of this instance, the pool's slots and the
    root file system. *)
Theorem jailed_daemon_confined args pg (w : W) r pg' w' t cmd pid dargs (d : W') td out d' :
  run args pg w = (r, pg', w', t) -> Ev (Spawn cmd) (Ok pid) ∈ t -> clap (cmd_args cmd) = Ok dargs ->
  (forall p text, Ev (WriteFile p text) (Ok tt) ∈ t -> files d p = Ok {| contents := text; read_error := None |}) ->
  daemon_run dargs d td out d' ->
  exists plan text rest,
    dargs = meant plan args /\ work_dir plan = path_join (work_root plan) (arg_id args) /\
    (d_host_mmds dargs = true -> uses_vmnet dargs = true) /\ granting args (work_dir plan) t text /\
    td = Ev (ReadFile (profile_path plan)) (Ok {| contents := text; read_error := None |}) :: rest /\
    (rest = [] /\ is_ok out = false \/
     exists rc error served, rest = Ev (SandboxInit text) (rc, error) :: served /\
       (rc <> 0 -> served = [] /\ is_ok out = false)).
Proof.
  intros Hj Hc Hclap Hfiles Hd. destruct (wp_result _ _ _ _ _ _ _ _ (run_launches args pg w) Hj cmd (Ok pid) Hc) as (plan & -> & Hp & Hm).
  apply clap_meant in Hclap as ->. destruct Hp as (Hdir & _ & _ & text & Hw & Hg). apply Hfiles in Hw.
  destruct (daemon_enters _ _ _ _ _ Hd) as (t1 & t2 & entered & -> & He & Hf & _). cbn [meant d_sandbox_profile d_sandbox_deny_probe] in He.
  assert (Htext : forall x, text_read (files d (profile_path plan)) = Ok x -> x = text).
  { rewrite Hw. cbn. intros x. destruct (utf8_valid text); [|done]. by intros [= <-]. }
  assert (Hvm : d_host_mmds (meant plan args) = true -> uses_vmnet (meant plan args) = true).
  { intros Hh. unfold uses_vmnet. cbn. by rewrite (Hm Hh). }
  exists plan, text. inversion He; subst; rewrite Hw in *; eexists;
    (split; [done|]); (split; [done|]); (split; [done|]); (split; [done|]); (split; [done|]); cbn [app].
  all: try by left; apply Hf.
  all: right; match goal with Ht : text_read _ = Ok _ |- _ => rewrite (Htext _ Ht) end; do 3 eexists; (split; [done|]);
    first [done|intros _; by apply Hf].
Qed.
End Confined.

(** A jailer that starts the daemon of instance [a], and a host that keeps
    the profile it wrote. *)
Module DemoConfined.
Definition jailer : Outside unit := demo "/r/.a.lock" 7 "".
Definition jailed := run (H := jailer) (demo_args "a") 0 tt.

(** A reader of command lines. *)
Fixpoint read_words (n : nat) (l : list string) (a : Daemon.Args) : option Daemon.Args :=
  match n, l with
  | _, [] => Some a
  | S n, f :: rest =>
      if String.eqb f "--host-mmds" then read_words n rest (a <| d_host_mmds := true |>)
      else match rest with
           | v :: rest => set ← entry f flag_arms; a1 ← set v a; read_words n rest a1
           | [] => None
           end
  | O, _ => None
  end.
Definition clap (l : list string) : Result Daemon.Args string := ok_or (read_words (length l) l Args_default) "usage".

Lemma read_words_reads ws : forall n a b, Forall known ws -> read_words n (spelled ws) a = Some b -> set_words ws a = Some b.
Proof.
  induction ws as [|[f v|f] ws IH]; intros [|n] a b Hk; try done; apply Forall_cons in Hk as [Hf Hk]; cbn [set_words set_word].
  - change (spelled (Option_ f v :: ws)) with (f :: v :: spelled ws). cbn [read_words].
    destruct (String.eqb_spec f "--host-mmds") as [->|_]; [by destruct Hf|].
    destruct (entry f flag_arms) as [set|]; [|done]. cbn. destruct (set v a) as [a1|]; [|done]. cbn. by apply IH.
  - change (spelled (Flag f :: ws)) with (f :: spelled ws). cbn [read_words]. rewrite Hf. cbn. by apply IH.
Qed.
Lemma clap_reads ws a : Forall known ws -> NoDup (flag_of <$> ws) -> clap (spelled ws) = Ok a -> set_words ws Args_default = Some a.
Proof.
  intros Hk _. unfold clap. destruct (read_words _ _ _) as [b|] eqn:E; [|done]. intros [= <-]. by eapply read_words_reads.
Qed.

(** The files a trace has written. *)
Definition wrote (e : Event) : option (string * string) := match e with Ev (WriteFile p text) (Ok _) => Some (p, text) | _ => None end.
Definition host : Outside (list (string * string)) := fun A c w =>
  (match c in Call A return A with
   | ReadFile p => match RustStr.entry p w with Some text => Ok {| contents := text; read_error := None |} | None => Err "No such file" end
   | c => calm_answer c
   end, w).
Lemma wrote_in (t : Trace) p text : Ev (WriteFile p text) (Ok tt) ∈ t -> (p, text) ∈ omap wrote t.
Proof. intros Hi. apply list_elem_of_omap. by exists (Ev (WriteFile p text) (Ok tt)). Qed.
Definition profile : string := default "" (RustStr.entry "/r/.a.sandbox.profile" (omap wrote (snd jailed))).
Definition disk : list (string * string) := [("/r/.a.sandbox.profile", profile)].
Lemma disk_keeps p text : Ev (WriteFile p text) (Ok tt) ∈ snd jailed -> @files _ host disk p = Ok {| contents := text; read_error := None |}.
Proof.
  intros Hi%wrote_in. assert (E : omap wrote (snd jailed) = disk) by by vm_compute. rewrite E in Hi.
  apply list_elem_of_singleton in Hi. injection Hi as -> ->. reflexivity.
Qed.
Definition plan : Plan :=
  {| binary := "/bin/fc"; work_root := "/r"; work_dir := "/r/a"; api_sock := "/r/a/api.sock";
     profile_path := "/r/.a.sandbox.profile"; target_uid := Some 500; target_gid := Some 500; lock := "/r/.a.lock" |}.
Lemma daemon_started : Ev (Spawn (build_command plan (demo_args "a"))) (Ok 2) ∈ snd jailed.
Proof. apply (list_elem_of_lookup_2 _ 32). by vm_compute. Qed.
End DemoConfined.

Lemma jailed_daemon_confined_witness :
  exists td srv d',
    @daemon_run DemoServer.decoders _ DemoConfined.host Demo.serde (meant DemoConfined.plan (demo_args "a")) DemoConfined.disk td (Ok srv) d' /\
    exists plan text rest, granting (demo_args "a") (work_dir plan) (snd DemoConfined.jailed) text /\
      td = Ev (ReadFile (profile_path plan)) (Ok {| contents := text; read_error := None |}) :: rest.
Proof.
  assert (Hd : exists td srv d', @daemon_run DemoServer.decoders _ DemoConfined.host Demo.serde (meant DemoConfined.plan (demo_args "a")) DemoConfined.disk td (Ok srv) d').
  { do 3 eexists. eapply run_serving; [reflexivity|apply run_nil]. }
  destruct Hd as (td & srv & d' & Hd). exists td, srv, d'. split; [exact Hd|].
  pose proof DemoConfined.daemon_started as Hc. pose proof DemoConfined.disk_keeps as Hk.
  destruct DemoConfined.jailed as [[[r pg] w] t] eqn:E.
  destruct (@jailed_daemon_confined DemoServer.decoders _ _ DemoConfined.jailer DemoConfined.host Demo.serde
    DemoConfined.clap DemoConfined.clap_reads (demo_args "a") 0 tt r pg w t _ 2 (meant DemoConfined.plan (demo_args "a"))
    DemoConfined.disk td (Ok srv) d' E Hc eq_refl Hk Hd) as (plan & text & rest & _ & _ & _ & Hg & Ht & _).
  exists plan, text, rest. exact (conj Hg Ht).
Defined.
