(* ===== verification/Typed.v ===== *)
(** * What crosses the C boundary

    Every call of the bridge has arguments of the types its C declaration
    gives them: integers fit their width, strings hold no NUL, and the arrays
    of drives have the length that is passed with them.  This is shown for
    whole runs of the daemon, from what the decoders of request bodies and the
    parser of the pool's metadata file accept. *)

From S2P Require Import Prelude RustStr Utf8 Json World Calls Bridge FcApi Pool Telemetry BackendState Backend BackendSpec BackendProps Vsock Server Daemon.
Local Open Scope string_scope.
Local Open Scope Z_scope.
Local Open Scope list_scope.

(** ** The types of the declarations *)

Definition c_str (s : string) : Prop := nul_position s = None.
Definition c_path (s : string) : Prop := c_str s /\ utf8_valid s = true.
Definition opt {A} (P : A -> Prop) (o : option A) : Prop := match o with Some a => P a | None => True end.

Definition long_args_typed (a : LongArgs) : Prop :=
  c_path (a_kernel a) /\ c_path (a_rootfs a) /\ opt c_path (a_initrd a) /\ c_path (a_log a) /\
  c_str (a_boot_args a) /\ opt c_str (a_mac a) /\ u32_range (a_cpus a) /\ u64_range (a_memory_mib a) /\
  0 <= a_network a <= 2 /\
  Z.of_nat (length (default [] (a_drive_paths a))) = a_drive_count a /\
  Z.of_nat (length (default [] (a_drive_readonly a))) = a_drive_count a /\
  Forall c_path (default [] (a_drive_paths a)).

Definition config_typed (c : HbVmConfig) : Prop :=
  c_str (c_id c) /\ c_path (c_kernel c) /\ c_path (c_initfs c) /\ c_path (c_rootfs c) /\
  u32_range (c_cpus c) /\ u64_range (c_memory_mib c) /\ opt (Forall c_str) (c_argv c) /\ opt c_str (c_cwd c) /\
  u8_range (c_ip_octet c).

(** One clause per declaration of the [extern] block with typed arguments. *)
Definition typed_call (A : Type) (c : Call A) : Prop :=
  match c with
  | HbLongNew a => long_args_typed a
  | HbLongRestore a save _ => long_args_typed a /\ c_path save
  | HbLongSetBalloonTarget _ bytes => u64_range bytes
  | HbLongServeMmds _ port _ | HbLongConnect _ port => u32_range port
  | HbLongSave _ save => c_path save
  | HbPoolRestoreLong k i r save log cpus memory | HbExecSnapshotSave k i r save log cpus memory =>
      c_path k /\ c_path i /\ c_path r /\ c_path save /\ opt c_path log /\ u32_range cpus /\ u64_range memory
  | HbStockPoolRestoreLong k r save log cpus memory =>
      c_path k /\ c_path r /\ c_path save /\ opt c_path log /\ u32_range cpus /\ u64_range memory
  | HbSnapshotSave k r log save cpus memory seconds | HbSnapshotRestore k r log save cpus memory seconds =>
      c_path k /\ c_path r /\ c_path log /\ c_path save /\ u32_range cpus /\ u64_range memory /\ u32_range seconds
  | HbExecSnapshotRestore k i r save command log cpus memory =>
      c_path k /\ c_path i /\ c_path r /\ c_path save /\ c_str command /\ opt c_path log /\ u32_range cpus /\ u64_range memory
  | HbBoot k r log cpus memory seconds =>
      c_path k /\ c_path r /\ c_path log /\ u32_range cpus /\ u64_range memory /\ u32_range seconds
  | HbSh k r cpus memory seconds =>
      c_path k /\ c_path r /\ u32_range cpus /\ u64_range memory /\ u32_range seconds
  | HbExec k i r command log cpus memory seconds stdin =>
      c_path k /\ c_path i /\ c_path r /\ c_str command /\ opt c_path log /\ u32_range cpus /\ u64_range memory /\
      u32_range seconds /\ 0 <= stdin <= 1
  | HbRootfsFromTar tar out size compression => c_path tar /\ c_path out /\ u64_range size /\ 0 <= compression <= 2
  | HbVmNew config => config_typed config
  | _ => True
  end.

(** ** Marshalling *)

Lemma cstring_typed s c : cstring s = Ok c -> c_str c.
Proof. unfold cstring, c_str. destruct (nul_position s) eqn:E; [done|]. by intros [= <-]. Qed.
Lemma path_cstring_typed p label c : path_cstring p label = Ok c -> c_path c.
Proof.
  unfold path_cstring, path_to_str. destruct (utf8_valid p) eqn:E; [|done]. cbn. intros Hc. split; [by eapply cstring_typed|].
  unfold cstring in Hc. destruct (nul_position p); [done|]. by injection Hc as <-.
Qed.
Lemma opt_path_cstring_typed p label c : opt_path_cstring p label = Ok c -> opt c_path c.
Proof.
  destruct p as [p|]; cbn; [|by intros [= <-]]. destruct (path_cstring p label) eqn:E; [|done]. cbn. intros [= <-].
  by eapply path_cstring_typed.
Qed.
Lemma opt_cstring_typed s c : opt_cstring s = Ok c -> opt c_str c.
Proof. destruct s as [s|]; cbn; [|by intros [= <-]]. destruct (cstring s) eqn:E; [|done]. cbn. intros [= <-]. by eapply cstring_typed. Qed.
Lemma drive_arrays_typed l d : drive_arrays l = Ok d -> length (d_readonly d) = length (d_paths d) /\ Forall c_path (d_paths d).
Proof.
  revert d. induction l as [|[p ro] l IH]; cbn; intros d; [by intros [= <-]|].
  destruct (path_cstring p "drive") as [c|] eqn:E; [|done]. destruct (drive_arrays l) as [d'|]; [|done]. cbn. intros [= <-]. cbn.
  destruct (IH d' eq_refl) as [Hl Hp]. split; [by rewrite Hl|]. constructor; [by eapply path_cstring_typed|done].
Qed.
#[export] Hint Resolve cstring_typed path_cstring_typed opt_path_cstring_typed opt_cstring_typed : keeps.

(** The arguments of a long-running VM, once each part has been marshalled. *)
Lemma marshalled_typed k r i log ba m cpus memory ro net host ds d :
  c_path k -> c_path r -> opt c_path i -> c_path log -> c_str ba -> opt c_str m -> u32_range cpus -> u64_range memory ->
  drive_arrays ds = Ok d ->
  long_args_typed {| a_kernel := k; a_rootfs := r; a_initrd := i; a_log := log; a_boot_args := ba; a_cpus := cpus;
    a_memory_mib := memory; a_read_only := ro; a_network := network_code net; a_host_packet_interface := host; a_mac := m;
    a_drive_count := drive_count d; a_drive_paths := paths_ptr d; a_drive_readonly := readonly_ptr d |}.
Proof.
  intros. destruct (drive_arrays_typed ds d) as [Hl Hp]; [done|]. unfold long_args_typed, paths_ptr, readonly_ptr, drive_count. cbn.
  rewrite !non_null_default, Hl. split_and!; try done; by destruct net.
Qed.

(** ** The bridge *)

Section Bridge.
Context {W : Type} `{Outside W} {S : Type} {I : S -> Prop}.
Abbreviation Typed m := (Keeps (W := W) I typed_call m whatever).

Lemma ffi_typed {A} (c : Call (FfiReply A)) : typed_call _ c -> Typed (ffi c).
Proof. intros Hc. unfold ffi. keeps. Qed.

Lemma long_args_typed_ok s a : u32_range (cpus s) -> u64_range (memory_mib s) -> long_args s = Ok a -> long_args_typed a.
Proof.
  intros Hc Hm. unfold long_args. intros Ha.
  repeat match type of Ha with result_bind ?r _ = _ => destruct r eqn:?; cbn [result_bind] in Ha; [|done] end.
  injection Ha as <-. eapply marshalled_typed; eauto with keeps.
Qed.
Lemma build_typed spec : u32_range (cpus spec) -> u64_range (memory_mib spec) -> Typed (build spec).
Proof. intros. unfold build, VzVm_new. keeps. apply ffi_typed. by eapply long_args_typed_ok. Qed.
Lemma vm_start_typed vm : Typed (vm_start vm).
Proof. by apply ffi_typed. Qed.
Lemma vm_pause_typed vm : Typed (vm_pause vm).
Proof. by apply ffi_typed. Qed.
Lemma vm_resume_typed vm : Typed (vm_resume vm).
Proof. by apply ffi_typed. Qed.
Lemma vm_request_stop_typed vm : Typed (vm_request_stop vm).
Proof. by apply ffi_typed. Qed.
Lemma vm_balloon_typed vm n : u64_range n -> Typed (vm_set_balloon_target vm n).
Proof. intros. by apply ffi_typed. Qed.
Lemma vm_mmds_typed vm port json : u32_range port -> Typed (vm_serve_mmds_vsock vm port json).
Proof. intros. by apply ffi_typed. Qed.
Lemma vm_save_typed vm p : Typed (vm_save_state vm p).
Proof. unfold vm_save_state. keeps. apply ffi_typed. cbn. eauto with keeps. Qed.
Lemma drop_vm_typed {E} vm : Typed (drop_vm (E := E) vm).
Proof. unfold drop_vm. keeps. Qed.
Lemma long_restore_typed k r i log ba save n m ro net host mac ds resume : u32_range n -> u64_range m ->
  Typed (vz_long_restore k r i log ba save n m ro net host mac ds resume).
Proof. intros. unfold vz_long_restore. keeps. apply ffi_typed. split; [eapply marshalled_typed|]; eauto with keeps. Qed.
Lemma pool_restore_typed k i r save log n m : u32_range n -> u64_range m -> Typed (vz_pool_restore_long k i r save log n m).
Proof. intros. unfold vz_pool_restore_long. keeps. apply ffi_typed. cbn. split_and!; eauto with keeps. Qed.
Lemma stock_restore_typed k r save log n m : u32_range n -> u64_range m -> Typed (vz_stock_pool_restore_long k r save log n m).
Proof. intros. unfold vz_stock_pool_restore_long. keeps. apply ffi_typed. cbn. split_and!; eauto with keeps. Qed.
Lemma exec_save_typed k i r save log n m : u32_range n -> u64_range m -> Typed (vz_exec_snapshot_save k i r save log n m).
Proof. intros. unfold vz_exec_snapshot_save. keeps. apply ffi_typed. cbn. split_and!; eauto with keeps. Qed.
Lemma snapshot_save_typed k r log save n m secs : u32_range n -> u64_range m -> u32_range secs ->
  Typed (vz_snapshot_save k r log save n m secs).
Proof. intros. unfold vz_snapshot_save. keeps. apply ffi_typed. cbn. split_and!; eauto with keeps. Qed.
Lemma exec_restore_typed k i r save command log n m : u32_range n -> u64_range m ->
  Typed (vz_exec_snapshot_restore k i r save command log n m).
Proof. intros. unfold vz_exec_snapshot_restore. keeps. apply ffi_typed. cbn. split_and!; eauto with keeps. Qed.
End Bridge.
#[export] Hint Resolve build_typed vm_start_typed vm_pause_typed vm_resume_typed vm_request_stop_typed vm_balloon_typed
  vm_mmds_typed vm_save_typed drop_vm_typed long_restore_typed pool_restore_typed stock_restore_typed exec_save_typed
  snapshot_save_typed exec_restore_typed : keeps.

(** ** The pool *)

Definition meta_typed (p : Pool) : Prop := u32_range (m_cpus (meta p)) /\ u64_range (m_memory_mib (meta p)).

Lemma meta_parse_typed f m : meta_parse f = Ok m -> u32_range (m_cpus m) /\ u64_range (m_memory_mib m).
Proof.
  unfold meta_parse, meta_of_map, result_bind. intros Hm.
  split; run_cases; first [by eapply (parse_key_range _ _ u32_max)|by eapply (parse_key_range _ _ u64_max)].
Qed.

Section Pool.
Context {W : Type} `{Outside W} {S : Type} {I : S -> Prop}.
Abbreviation Typed m := (Keeps (W := W) I typed_call m whatever).

Lemma meta_read_typed path :
  Keeps (W := W) I typed_call (PoolMeta_read path) (fun m => u32_range (m_cpus m) /\ u64_range (m_memory_mib m)).
Proof. unfold PoolMeta_read. keeps. by eapply meta_parse_typed. Qed.
#[local] Hint Resolve meta_read_typed : keeps.
Lemma open_typed d : Keeps (W := W) I typed_call (Pool.open d) meta_typed.
Proof. unfold Pool.open. keeps. Qed.
Lemma claim_typed d i n : Typed (claim_from d i n).
Proof. revert i. induction n; cbn [claim_from]; keeps. Qed.
Lemma clone_typed a b : Typed (clone_file a b).
Proof. unfold clone_file. keeps. Qed.
Lemma drop_slot_typed {E} slot : Typed (drop_slot (E := E) slot).
Proof. unfold drop_slot. keeps. Qed.
#[local] Hint Resolve claim_typed clone_typed : keeps.
Lemma claim_matching_typed p spec : Typed (try_claim_matching_slot p spec).
Proof. unfold try_claim_matching_slot, try_claim_slot. keeps. Qed.
Lemma canonicalize_typed {E} spec : Typed (canonicalize_spec (E := E) spec).
Proof. unfold canonicalize_spec, canonicalize_or. keeps. Qed.
Lemma restore_typed p slot log : meta_typed p -> Typed (restore_into_vm p slot log).
Proof. intros [Hc Hm]. unfold restore_into_vm. keeps. Qed.
End Pool.
#[export] Hint Resolve claim_matching_typed canonicalize_typed restore_typed drop_slot_typed : keeps.

(** ** The backend *)

(** The numbers that reach the bridge fit their types. *)
Definition state_typed (b : VzBackend) : Prop :=
  u8_range (Machine.vcpu_count (machine_config b)) /\ 0 <= Machine.mem_size_mib (machine_config b) <= usize_max /\
  opt meta_typed (pool b).

Section Backend.
Context {W : Type} `{Outside W} `{Serde}.
Abbreviation Typed m := (Keeps (W := W) state_typed typed_call m whatever).

Lemma wrap_u64 z : u64_range (wrap 64 z).
Proof. pose proof (wrap_range 64 z ltac:(lia)). unfold u64_range, u64_max. lia. Qed.
Lemma vcpu_u32 b : state_typed b -> u32_range (Machine.vcpu_count (machine_config b)).
Proof. intros [Hc _]. unfold u8_range, u8_max, u32_range, u32_max in *. lia. Qed.
Lemma memory_typed b m : state_typed b -> memory_u64 (Machine.mem_size_mib (machine_config b)) = Ok m -> u64_range m.
Proof. intros (_ & Hm & _). unfold memory_u64. destruct (_ <=? _); [|done]. by intros [= <-]. Qed.
Lemma pool_typed b p : state_typed b -> pool b = Some p -> meta_typed p.
Proof. intros (_ & _ & Hp) E. by rewrite E in Hp. Qed.
#[local] Hint Resolve wrap_u64 vcpu_u32 memory_typed pool_typed : keeps.

Lemma preboot_typed : Typed require_preboot.
Proof. unfold require_preboot. keeps. Qed.
Lemma balloon_amount_typed n : Typed (validate_balloon_amount n).
Proof. unfold validate_balloon_amount. keeps. Qed.
Lemma drop_arc_typed h : Typed (drop_arc h).
Proof. unfold drop_arc. keeps. Qed.
#[local] Hint Resolve preboot_typed balloon_amount_typed drop_arc_typed : keeps.
Lemma put_vmnet_typed x : Typed (put_vmnet_mmds x).
Proof. unfold put_vmnet_mmds, drop_responder. keeps. Qed.
Lemma put_bridge_typed x : Typed (put_vsock_bridge x).
Proof. unfold put_vsock_bridge, drop_bridge. keeps. Qed.
Lemma put_vm_typed x : Typed (put_vm x).
Proof. unfold put_vm. keeps. Qed.
Lemma put_slot_typed x : Typed (put_pool_slot x).
Proof. unfold put_pool_slot. keeps. Qed.
#[local] Hint Resolve put_vmnet_typed put_bridge_typed put_vm_typed put_slot_typed : keeps.
Lemma abort_typed : Typed abort_boot.
Proof. unfold abort_boot. keeps. Qed.
Lemma write_log_typed l o n m : Typed (write_log l o n m).
Proof. unfold write_log. keeps. Qed.
Lemma flush_typed : Typed flush_metrics.
Proof. unfold flush_metrics. keeps. Qed.
Lemma refresh_typed : Typed refresh_mmds_vsock_service.
Proof. unfold refresh_mmds_vsock_service. keeps. apply vm_mmds_typed. unfold u32_range, u32_max, MMDS_VSOCK_PORT. lia. Qed.
Lemma balloon_target_typed : Typed apply_balloon_target.
Proof. unfold apply_balloon_target. keeps. Qed.
#[local] Hint Resolve abort_typed write_log_typed flush_typed refresh_typed balloon_target_typed : keeps.
Lemma vmnet_start_typed h : Typed (start_vmnet_mmds h).
Proof. unfold start_vmnet_mmds, responder_start. keeps. Qed.
Lemma bridge_typed : Typed start_vsock_bridge.
Proof. unfold start_vsock_bridge, bridge_start. keeps. Qed.
Lemma initial_balloon_typed : Typed apply_initial_balloon.
Proof. unfold apply_initial_balloon. keeps. Qed.
Lemma log_path_typed : Typed serial_log_path.
Proof. unfold serial_log_path. keeps. Qed.
Lemma configured_balloon_typed : Typed validate_configured_balloon.
Proof. unfold validate_configured_balloon. keeps. Qed.
#[local] Hint Resolve vmnet_start_typed bridge_typed initial_balloon_typed log_path_typed configured_balloon_typed : keeps.
Lemma bridge_or_abort_typed : Typed bridge_or_abort.
Proof. unfold bridge_or_abort. keeps. Qed.
#[local] Hint Resolve bridge_or_abort_typed : keeps.
Lemma install_typed h st o : Typed (install_vm h st o).
Proof. unfold install_vm. keeps. Qed.
Lemma try_pool_typed p spec log : meta_typed p -> Typed (try_pool p spec log).
Proof. intros. unfold try_pool. keeps. Qed.
#[local] Hint Resolve install_typed try_pool_typed : keeps.
Lemma cold_boot_typed boot k r log ba n m : u32_range n -> u64_range m -> Typed (cold_boot boot k r log ba n m).
Proof.
  intros. unfold cold_boot, log_info. keeps_step. cbv zeta. apply (keeps_bind _ _ whatever); [|keeps].
  apply keeps_with_err, build_typed; by destruct (BootSource.initrd_path boot).
Qed.
#[local] Hint Resolve cold_boot_typed : keeps.
Lemma start_typed : Typed start_micro_vm.
Proof. unfold start_micro_vm. keeps. Qed.
Lemma load_typed params : Typed (load_snapshot params).
Proof. unfold load_snapshot, check_mem_backend, log_info. keeps. Qed.
Lemma machine_typed cfg : u8_range (Machine.vcpu_count cfg) -> 0 <= Machine.mem_size_mib cfg <= usize_max -> Typed (put_machine_config cfg).
Proof.
  intros Hc Hm. unfold put_machine_config. keeps. match goal with Hs : state_typed _ |- _ => destruct Hs as (_ & _ & Hp) end.
  exact (conj Hc (conj Hm Hp)).
Qed.
#[local] Hint Resolve start_typed load_typed machine_typed : keeps.

Lemma machine_patch_typed u : wf_request (PatchMachineConfig u) -> Typed (patch_machine_config u).
Proof.
  intros [Hc Hm]. unfold patch_machine_config. keeps.
  match goal with Hs : state_typed _ |- _ => destruct Hs as (Hc' & Hm' & _) end. apply machine_typed; cbn.
  - destruct (MachineUpdate.vcpu_count u) eqn:E; [by apply Hc|done].
  - destruct (MachineUpdate.mem_size_mib u) eqn:E; [by apply Hm|done].
Qed.
Lemma logger_typed cfg : Typed (configure_logger cfg).
Proof. unfold configure_logger, logger_path, logger_level, logger_flags, set_logger_field, log_info. keeps. Qed.
#[local] Hint Resolve machine_patch_typed logger_typed : keeps.

Lemma exec_typed r : wf_request r -> Typed (exec r).
Proof.
  intros Hr. destruct r; cbn [exec]; try solve [eauto with keeps].
  - unfold configure_boot_source. keeps.
  - unfold insert_block_device. keeps.
  - unfold update_block_device. keeps.
  - unfold insert_network_device. keeps.
  - unfold update_network_device. keeps.
  - unfold configure_metrics. keeps.
  - unfold put_mmds, publish_mmds. keeps.
  - unfold patch_mmds, publish_mmds. keeps.
  - unfold configure_mmds. keeps.
  - unfold configure_vsock. keeps.
  - by apply machine_typed; apply Hr.
  - unfold configure_balloon. keeps.
  - unfold update_balloon. keeps.
  - unfold send_ctrl_alt_del, log_info. keeps.
  - unfold create_snapshot. keeps.
  - unfold pause, log_info. keeps.
  - unfold resume, log_info. keeps.
  - unfold observe_request. keeps.
Qed.
End Backend.

(** ** The daemon *)

Section Daemon.
Context `{TypedDecoders} {W : Type} `{Outside W} `{Serde}.

Lemma answer_typed req : Keeps (W := W) state_typed typed_call (answer (plan req)) whatever.
Proof.
  destruct (plan req) as [r|r|q|r k] eqn:Hp; cbn [answer]; [keeps..|]. apply plan_Operate in Hp as [Hr _].
  apply (keeps_bind _ _ whatever); [|keeps]. apply (keeps_attempt _ whatever); [by apply exec_typed|done].
Qed.

Lemma server_step_typed srv (w : W) t srv' w' :
  server_step srv w t srv' w' -> state_typed (backend srv) -> state_typed (backend srv') /\ Only typed_call t.
Proof.
  intros Hs Hb. destruct Hs as [srv w req|srv w i id req resp b' w' t Hi E|srv w i id req resp u b' w' t Hi E|srv w u b' w' t E]; cbn.
  - split; [done|apply only_nil].
  - destruct (wp_result _ _ _ _ _ _ _ _ (answer_typed req _ w Hb) E) as (? & ? & _). done.
  - destruct (wp_result _ _ _ _ _ _ _ _ (exec_typed (ObserveRequest _ _ _ _) I _ w Hb) E) as (? & ? & _). done.
  - destruct (wp_result _ _ _ _ _ _ _ _ (exec_typed FlushMetrics I _ w Hb) E) as (? & ? & _). done.
Qed.
Lemma server_run_typed srv (w : W) t srv' w' :
  server_run srv w t srv' w' -> state_typed (backend srv) -> Only typed_call t.
Proof.
  induction 1 as [|srv w t srv1 w1 t1 srv2 w2 Hs _ IH]; intros Hb; [apply only_nil|].
  destruct (server_step_typed _ _ _ _ _ Hs Hb) as [Hb1 Ht]. apply only_app; [done|by apply IH].
Qed.

Lemma start_up_typed args : Keeps (W := W) whatever typed_call (start_up args) state_typed.
Proof.
  assert (Hnew : forall now vmnet host, state_typed (with_host_mmds host (with_vmnet_networking vmnet (new (d_id args) now)))).
  { intros. split; [by split|]. by split; [split|]. }
  unfold start_up, enter_sandbox, apply_profile, deny_probe, bind_socket, attach_pool.
  apply (keeps_bind _ _ whatever); [keeps|intros _ _]. apply (keeps_bind _ _ whatever); [keeps|intros _ _].
  keeps_step; [keeps_step|]. apply (keeps_bind _ _ whatever); [keeps|intros now _].
  destruct (d_pool_dir args) as [dir|]; [|by apply keeps_ret].
  apply (keeps_bind _ _ (fun r => match r with Ok p => meta_typed p | Err _ => True end)); [by eapply keeps_attempt; [apply open_typed|]|].
  intros [p|e] Hp; apply keeps_ret; [|done]. destruct (Hnew now (uses_vmnet args) (d_host_mmds args)) as (Hc & Hm & _). by split_and!.
Qed.

(** C22: What the daemon hands to Swift has the type that the C declaration
    asks for.  In every run, whatever the requests, the pool directory and the
    operating system say, each call of the bridge has strings without NUL
    (paths are UTF-8), integers that fit their width, and arrays of drives
    whose length is the count passed with them. *)
Theorem daemon_calls_typed args (w : W) t out w' : daemon_run args w t out w' -> Only typed_call t.
Proof.
  intros Hd. destruct Hd as [w e w' t Hs|w b w1 t1 t2 srv w2 Hs Hr].
  - by destruct (wp_result _ _ _ _ _ _ _ _ (start_up_typed args tt w I) Hs) as (_ & ? & _).
  - destruct (wp_result _ _ _ _ _ _ _ _ (start_up_typed args tt w I) Hs) as (_ & Ho & Hb). apply only_app; [done|].
    by apply (server_run_typed _ _ _ _ _ Hr).
Qed.
End Daemon.

Lemma daemon_calls_typed_witness :
  exists t srv, @daemon_run DemoServer.decoders unit calm Demo.serde DemoDaemon.args tt t (Ok srv) tt /\ Only typed_call t.
Proof.
  destruct DemoServer.run as (t & srv & Hr & _).
  assert (Hd : exists t, @daemon_run DemoServer.decoders unit calm Demo.serde DemoDaemon.args tt t (Ok srv) tt) by
    (eexists; eapply run_serving; [reflexivity|exact Hr]).
  destruct Hd as [t0 Hd]. exists t0, srv. split; [exact Hd|].
  exact (@daemon_calls_typed DemoServer.decoders DemoServer.typed unit calm Demo.serde DemoDaemon.args tt t0 (Ok srv) tt Hd).
Defined.
