(* ===== verification/TypedCli.v ===== *)
(** * What the command line hands to the bridge

    The numbers that the parsers of arguments store fit their types, and so
    every command makes calls of the types of their C declarations
    ([Typed.typed_call]). *)

From S2P Require Import Prelude RustStr Utf8 World Calls Bridge Pool CliHelp CliArgs Cli Typed.
Local Open Scope string_scope.
Local Open Scope Z_scope.
Local Open Scope list_scope.

(** ** Parsers *)

Definition arm_keeps {O} (I : O -> Prop) (arm : Arm O) : Prop :=
  match arm with
  | Switch f => forall o, I o -> I (f o)
  | Valued f => forall v o o', I o -> f v o = Ok o' -> I o'
  | Rest f => forall l o, I o -> I (f l o)
  end.

Lemma parse_loop_keeps {O} (I : O -> Prop) arms o args o' :
  Forall (fun e => arm_keeps I e.2) arms -> I o -> parse_loop arms o args = Ok o' -> I o'.
Proof.
  intros Ha. assert (Hl : exists n, (length args <= n)%nat) by eauto. destruct Hl as [n Hl]. revert o args Hl.
  induction n as [|n IH]; intros o [|a rest] Hl Ho; cbn [length] in Hl; try (by intros [= <-]); [lia|]. cbn [parse_loop].
  destruct (entry a arms) as [arm|] eqn:He; [|done].
  pose proof (entry_Forall (fun _ x => arm_keeps I x) _ _ _ Ha He) as Hs. cbn in Hs. destruct arm as [f|f|f]; cbn in Hs.
  - apply IH; [lia|]. by apply Hs.
  - destruct rest as [|v rest']; [done|]. destruct (f v o) as [o1|e] eqn:Hf; [|done]. cbn [length] in Hl. apply IH; [lia|by eapply Hs].
  - intros [= <-]. by apply Hs.
Qed.

Lemma number_range what max v n : 0 <= max -> number what max v = Ok n -> 0 <= n <= max.
Proof.
  unfold number. intros Hm. destruct (parse_uint max v) as [z|] eqn:E; cbn; [|done]. intros [= <-]. by eapply parse_uint_range.
Qed.
Lemma ip_range v n : ip_arg v = Ok n -> u8_range n.
Proof. unfold ip_arg, u8_range, u8_max. destruct (number _ _ _) as [z|]; cbn; [|done]. destruct (_ && _) eqn:E; [|done]. intros [= <-]. lia. Qed.

(** The options, as far as they are numbers. *)
Class TypedOptions (O : Type) := numbers : O -> Prop.
#[export] Instance run_numbers : TypedOptions RunOptions := fun o =>
  opt u32_range (ro_cpus o) /\ opt u64_range (ro_memory_mib o) /\ opt u8_range (ro_ip_octet o).
#[export] Instance rootfs_numbers : TypedOptions RootfsOptions := fun o => u64_range (rf_size_mib o).
#[export] Instance vz_boot_numbers : TypedOptions VzBootOptions := fun o =>
  u32_range (vb_cpus o) /\ u64_range (vb_memory_mib o) /\ u32_range (vb_run_seconds o).
#[export] Instance vz_exec_numbers : TypedOptions VzExecOptions := fun o =>
  u32_range (ve_cpus o) /\ u64_range (ve_memory_mib o) /\ u32_range (ve_timeout_seconds o).
#[export] Instance pool_init_numbers : TypedOptions PoolInitOptions := fun o =>
  u32_range (pn_cpus o) /\ u64_range (pn_memory_mib o) /\ u32_range (pn_settle_seconds o).
#[export] Instance vz_warm_numbers : TypedOptions VzWarmOptions := fun o =>
  u32_range (vw_cpus o) /\ u64_range (vw_memory_mib o).
#[export] Instance vz_sh_numbers : TypedOptions VzShOptions := fun o =>
  u32_range (vh_cpus o) /\ u64_range (vh_memory_mib o) /\ u32_range (vh_timeout_seconds o).
#[export] Instance vz_snap_numbers : TypedOptions VzSnapOptions := fun o =>
  u32_range (vp_cpus o) /\ u64_range (vp_memory_mib o) /\ u32_range (vp_seconds o).

(** An arm either stores no number, or one that was parsed at its type. *)
Ltac arm_numbers :=
  cbn [arm_keeps stores stores_number snd]; unfold result_bind; intros;
  repeat match goal with
  | H : context [match ?r with Ok _ => _ | Err _ => _ end] |- _ => destruct r eqn:?; [|discriminate H]
  | H : number _ _ _ = Ok _ |- _ => apply number_range in H; [|done]
  | H : ip_arg _ = Ok _ |- _ => apply ip_range in H
  end;
  simplify_eq/=; unfold numbers, run_numbers, rootfs_numbers, vz_boot_numbers, vz_exec_numbers, pool_init_numbers,
    vz_warm_numbers, vz_sh_numbers, vz_snap_numbers in *; cbn in *; unfold u8_range, u32_range, u64_range in *; tauto.
Ltac table_numbers := repeat (apply Forall_cons_2; [arm_numbers|]); apply Forall_nil_2.

(** ** Commands *)

Section Commands.
Context {W : Type} `{Outside W}.
Abbreviation Typed m := (Keeps (W := W) (S := unit) whatever typed_call m whatever).
Abbreviation Parses m := (Keeps (W := W) (S := unit) whatever typed_call m numbers).

Lemma parser_typed {O} `{TypedOptions O} arms d args (k : O -> M W unit string O) :
  Forall (fun e => arm_keeps numbers e.2) arms -> numbers d -> (forall o, numbers o -> Parses (k o)) ->
  Parses (bind (lift (parse_loop arms d args)) k).
Proof. intros Ha Hd Hk. apply keeps_known. intros o Ho. apply Hk. by eapply (parse_loop_keeps numbers). Qed.

Lemma not_empty_typed l v : Typed (not_empty l v).
Proof. unfold not_empty. keeps. Qed.
Lemma path_exists_typed l p : Typed (path_exists l p).
Proof. unfold path_exists. keeps. Qed.
#[local] Hint Resolve not_empty_typed path_exists_typed : keeps.
Lemma all_exist_typed ps : Typed (all_exist ps).
Proof. induction ps as [|[]]; cbn [all_exist]; keeps. Qed.
Lemma exist_where_typed ps : Typed (exist_where ps).
Proof. induction ps as [|[[]]]; cbn [exist_where]; keeps. Qed.
Lemma all_given_typed ps : Typed (all_given ps).
Proof. induction ps as [|[[]]]; cbn [all_given]; keeps. Qed.
#[local] Hint Resolve all_exist_typed exist_where_typed all_given_typed : keeps.
Ltac parser := intros; apply parser_typed; [table_numbers|by repeat split|keeps].

Lemma parse_run_typed args : Parses (parse_run_args args).
Proof. parser. Qed.
Lemma parse_rootfs_typed args : Parses (parse_rootfs_args args).
Proof. parser. Qed.
Lemma parse_vz_boot_typed args : Parses (parse_vz_boot_args args).
Proof. parser. Qed.
Lemma parse_vz_exec_typed args : Parses (parse_vz_exec_args args).
Proof. parser. Qed.
Lemma parse_pool_init_typed args : Parses (parse_pool_init args).
Proof. parser. Qed.
Lemma parse_vz_warm_typed b args : Parses (parse_vz_warm_args b args).
Proof. parser. Qed.
Lemma parse_vz_sh_typed args : Parses (parse_vz_sh_args args).
Proof. parser. Qed.
Lemma parse_vz_snap_typed b args : Parses (parse_vz_snap_args b args).
Proof. parser. Qed.
Lemma parse_pool_run_typed args : Typed (parse_pool_run args).
Proof. unfold parse_pool_run. keeps. Qed.
Lemma parse_pool_dir_typed args : Typed (parse_pool_dir_only args).
Proof. unfold parse_pool_dir_only. keeps. Qed.

Lemma reported_typed {E A} (m : M W unit E A) (R : A -> Prop) k :
  Keeps whatever typed_call m R -> (forall a, R a -> Typed (k a)) -> Typed (reported m k).
Proof.
  intros Hm Hk. unfold reported. apply (keeps_bind _ _ (fun r => match r with Ok a => R a | Err _ => True end));
    [by eapply keeps_attempt|]. intros [a|e] Ha; [by apply Hk|by apply keeps_ret].
Qed.
Lemma parsed_typed {O} (m : M W unit string O) (R : O -> Prop) k :
  Keeps whatever typed_call m R -> (forall o, R o -> Typed (k o)) -> Typed (parsed m k).
Proof.
  intros Hm Hk. unfold parsed. apply (keeps_bind _ _ (fun r => match r with Ok a => R a | Err _ => True end));
    [by eapply keeps_attempt|]. intros [a|e] Ha; [by apply Hk|by apply keeps_ret].
Qed.

Lemma cstrings_typed l cs : cstrings l = Ok cs -> Forall c_str cs.
Proof.
  revert cs. induction l as [|s l IH]; cbn; intros cs; [by intros [= <-]|]. destruct (cstring s) eqn:E; [|done].
  destruct (cstrings l); [|done]. cbn. intros [= <-]. constructor; [by eapply cstring_typed|by apply IH].
Qed.
Lemma non_null_typed l : Forall c_str l -> opt (Forall c_str) (non_null l).
Proof. by destruct l. Qed.
#[local] Hint Resolve cstrings_typed non_null_typed : keeps.
Lemma config_typed_ok s c :
  u32_range (sp_cpus s) -> u64_range (sp_memory_mib s) -> opt u8_range (sp_ip_octet s) -> vm_config s = Ok c -> config_typed c.
Proof.
  intros Hc Hm Hi. unfold vm_config. intros Ha.
  repeat match type of Ha with result_bind ?r _ = _ => destruct r eqn:?; cbn [result_bind] in Ha; [|done] end.
  injection Ha as <-. unfold config_typed. cbn. split_and!; eauto with keeps.
  destruct (sp_ip_octet s) as [n|]; cbn; [done|]. pose proof (allocate_ip_octet_range (sp_id s)). unfold u8_range, u8_max. lia.
Qed.
Lemma run_spec_typed o : numbers o ->
  u32_range (sp_cpus (run_spec o)) /\ u64_range (sp_memory_mib (run_spec o)) /\ opt u8_range (sp_ip_octet (run_spec o)).
Proof.
  intros (Hc & Hm & Hi). unfold run_spec. destruct (ro_argv o), (ro_cpus o), (ro_memory_mib o), (ro_cwd o), (ro_ip_octet o); cbn in *;
    refine (conj _ (conj _ _)); first [assumption|exact I|by split].
Qed.
Lemma drop_Vm_typed {E} vm : Typed (drop_Vm (E := E) vm).
Proof. unfold drop_Vm. keeps. Qed.
Lemma run_typed o : numbers o -> Typed (run o).
Proof.
  intros (Hc & Hm & Hi)%run_spec_typed. unfold run. apply (reported_typed _ whatever).
  { unfold container_build, Vm_new. keeps. apply ffi_typed. by eapply config_typed_ok. }
  intros vm _. apply keeps_guarded; [apply drop_Vm_typed|].
  do 3 (apply (reported_typed _ whatever); [by apply ffi_typed|intros ? _]).
  apply (keeps_bind _ _ whatever); [|keeps]. apply (keeps_attempt _ whatever); [by apply ffi_typed|done].
Qed.
Ltac command := intros; cbv [numbers run_numbers rootfs_numbers vz_boot_numbers vz_exec_numbers pool_init_numbers vz_warm_numbers
  vz_sh_numbers vz_snap_numbers] in *; destruct_and?; apply (reported_typed _ whatever); [|keeps].

Lemma rootfs_typed o : numbers o -> Typed (rootfs o).
Proof.
  intros Hs. unfold rootfs. assert (Hk : forall c, Typed (reported (build_rootfs_from_tar (rf_tar o) (rf_output o) (rf_size_mib o) c) (fun _ => ret 0))).
  { intros c. apply (reported_typed _ whatever); [|keeps]. unfold build_rootfs_from_tar. keeps. apply ffi_typed. cbn.
    split_and!; eauto with keeps; by destruct c. }
  destruct (rf_compression o); [apply Hk|]. apply (reported_typed _ whatever); [|intros; apply Hk]. unfold detect. keeps.
Qed.
Lemma vz_boot_typed o : numbers o -> Typed (vz_boot_cmd o).
Proof. command. unfold vz_boot. keeps. apply ffi_typed. cbn. split_and!; eauto with keeps. Qed.
Lemma vz_exec_typed o : numbers o -> Typed (vz_exec_cmd o).
Proof. command. unfold vz_exec. keeps. apply ffi_typed. cbn. split_and!; eauto with keeps; by destruct (ve_stdin o). Qed.
Lemma vz_warm_save_typed o : numbers o -> Typed (vz_warm_save_cmd o).
Proof. command. by apply exec_save_typed. Qed.
Lemma vz_warm_run_typed o : numbers o -> Typed (vz_warm_run_cmd o).
Proof. command. by apply exec_restore_typed. Qed.
Lemma vz_sh_typed o : numbers o -> Typed (vz_sh_cmd o).
Proof. command. unfold vz_sh. keeps. apply ffi_typed. cbn. split_and!; eauto with keeps. Qed.
Lemma vz_snap_save_typed o : numbers o -> Typed (vz_snap_save_cmd o).
Proof. command. by apply snapshot_save_typed. Qed.
Lemma vz_snap_restore_typed o : numbers o -> Typed (vz_snap_restore_cmd o).
Proof. command. unfold vz_snapshot_restore. keeps. apply ffi_typed. cbn. split_and!; eauto with keeps. Qed.

Lemma clone_idle a b : Typed (clone_file a b).
Proof. unfold clone_file. keeps. Qed.
Lemma create_slots_typed d i n : Typed (create_slots d i n).
Proof. revert i. induction n; cbn [create_slots]; keeps. Qed.
Lemma stats_typed d i n : Typed (stats_from d i n).
Proof. revert i. induction n; cbn [stats_from]; keeps. Qed.
Lemma canonicalize_or_typed {E} p : Typed (canonicalize_or (E := E) p).
Proof. unfold canonicalize_or. keeps. Qed.
#[local] Hint Resolve clone_idle create_slots_typed stats_typed canonicalize_or_typed claim_typed : keeps.
Lemma or_default_range max n d : 0 <= d <= max -> 0 <= n <= max -> 0 <= (if n =? 0 then d else n) <= max.
Proof. by destruct (n =? 0). Qed.
Lemma warm_up_typed args d pristine save n m : u32_range n -> u64_range m -> u32_range (pi_settle_seconds args) ->
  Typed (warm_up args d pristine save n m).
Proof. intros. unfold warm_up. keeps. Qed.
Lemma init_typed args : u32_range (pi_cpus args) -> u64_range (pi_memory_mib args) -> u32_range (pi_settle_seconds args) -> Typed (init args).
Proof.
  intros Hc Hm Hs. unfold init, PoolMeta_write.
  assert (Hc' : u32_range (if pi_cpus args =? 0 then DEFAULT_CPUS else pi_cpus args)) by by apply or_default_range.
  assert (Hm' : u64_range (if pi_memory_mib args =? 0 then DEFAULT_MEMORY_MIB else pi_memory_mib args)) by by apply or_default_range.
  generalize dependent (if pi_cpus args =? 0 then DEFAULT_CPUS else pi_cpus args).
  generalize dependent (if pi_memory_mib args =? 0 then DEFAULT_MEMORY_MIB else pi_memory_mib args).
  intros m Hm' n Hn. pose proof (fun d p s => warm_up_typed args d p s n m Hn Hm' Hs). keeps.
Qed.
Lemma pool_init_typed o : numbers o -> Typed (pool_init_cmd o).
Proof. intros (Hc & Hm & Hs). apply (reported_typed _ whatever); [by apply init_typed|keeps]. Qed.
Lemma pool_run_typed o : Typed (pool_run_cmd o).
Proof.
  unfold pool_run_cmd. eapply reported_typed; [apply open_typed|]. intros p [Hc Hm]. apply (reported_typed _ whatever); [unfold try_claim_slot; keeps|].
  intros [slot|] _; [|keeps]. apply keeps_guarded; [apply drop_slot_typed|]. apply (reported_typed _ whatever); [|keeps]. unfold Pool.run. keeps.
Qed.
Lemma print_lines_typed ls : Typed (print_lines ls).
Proof. induction ls; cbn [print_lines]; unfold println; keeps. Qed.
#[local] Hint Resolve print_lines_typed : keeps.
Lemma pool_stats_typed d : Typed (pool_stats_cmd d).
Proof.
  unfold pool_stats_cmd. eapply reported_typed; [apply open_typed|]. intros p _. apply (reported_typed _ whatever); [unfold stats; keeps|].
  intros. unfold println. keeps.
Qed.
Lemma pool_destroy_typed d : Typed (pool_destroy_cmd d).
Proof. apply (reported_typed _ whatever); [|keeps]. unfold destroy. keeps. Qed.

Lemma dispatch_typed table args :
  Forall (fun e => forall rest, Typed (e.2 rest)) table -> Typed (dispatch table args).
Proof.
  intros Ht. unfold dispatch. destruct args as [|name rest]; [keeps|]. destruct (entry name table) as [c|] eqn:E; [|keeps].
  by apply (entry_Forall (fun _ c => forall rest, Typed (c rest)) _ _ _ Ht E).
Qed.
Ltac each_command := repeat (apply Forall_cons_2; [cbn; intros|]); [..|apply Forall_nil_2].

Lemma commands_typed : Forall (fun e => forall rest, Typed (e.2 rest)) commands.
Proof.
  each_command.
  - unfold ping_cmd, println, ping. keeps.
  - by eapply parsed_typed; [apply parse_run_typed|apply run_typed].
  - by eapply parsed_typed; [apply parse_rootfs_typed|apply rootfs_typed].
  - by eapply parsed_typed; [apply parse_vz_boot_typed|apply vz_boot_typed].
  - by eapply parsed_typed; [apply parse_vz_exec_typed|apply vz_exec_typed].
  - apply dispatch_typed. each_command.
    + by eapply parsed_typed; [apply parse_pool_init_typed|apply pool_init_typed].
    + eapply parsed_typed; [apply parse_pool_run_typed|]. intros. apply pool_run_typed.
    + eapply parsed_typed; [apply parse_pool_dir_typed|]. intros. apply pool_stats_typed.
    + eapply parsed_typed; [apply parse_pool_dir_typed|]. intros. apply pool_destroy_typed.
  - apply dispatch_typed. each_command.
    + by eapply parsed_typed; [apply parse_vz_warm_typed|apply vz_warm_save_typed].
    + by eapply parsed_typed; [apply parse_vz_warm_typed|apply vz_warm_run_typed].
  - by eapply parsed_typed; [apply parse_vz_sh_typed|apply vz_sh_typed].
  - apply dispatch_typed. each_command.
    + by eapply parsed_typed; [apply parse_vz_snap_typed|apply vz_snap_save_typed].
    + by eapply parsed_typed; [apply parse_vz_snap_typed|apply vz_snap_restore_typed].
Qed.

(** C23: What the command line hands to Swift has the type that the C
    declaration asks for, for every argument vector and every answer of the
    outside: strings hold no NUL, paths are UTF-8, and every number is one
    its parser accepted at the width of the parameter it is passed for. *)
Theorem cli_calls_typed args w : wp (main args) (fun _ _ _ t => Only typed_call t) tt w.
Proof.
  apply (keeps_only (I := whatever) _ whatever); [|done]. unfold main, println. destruct (negb _); [apply keeps_fail|]. destruct (help_text args); [keeps|].
  destruct args as [|first rest]; [apply dispatch_typed, commands_typed|]. destruct (_ || _); [keeps|]. apply dispatch_typed, commands_typed.
Qed.
End Commands.
