(* ===== verification/Output.v ===== *)
(** * Guest output on the terminal (hephaestus-bridge, hephaestus-cli)

    Swift's [CallbackWriter] hands each chunk of the guest's output to a
    trampoline, on threads of its own; the trampoline calls the [StdioSink] of
    the VM, which for the command line is [TerminalSink]: under one mutex it
    writes the chunk and flushes.  Threads, partial writes and failing writes
    are interleaved in every way.  The sink lives in a box ([StdioState])
    that is there whenever Swift calls. *)

From S2P Require Import Prelude Bridge.
Local Open Scope Z_scope.
Local Open Scope list_scope.

(** ** From Swift to the sink *)

(** [CallbackWriter.write]. *)
Definition callback_writer (stderr : bool) (data : list Z) : option SinkCall :=
  match data with
  | [] => None
  | _ => (if stderr then trampoline_stderr else trampoline_stdout) true (Some data) (Z.of_nat (length data))
  end.

Definition bytes_of (c : SinkCall) : list Z := match c with OnStdout l | OnStderr l => l end.
Definition to_stderr (c : SinkCall) : bool := match c with OnStdout _ => false | OnStderr _ => true end.

(** What the guest writes arrives at the sink unchanged. *)
Lemma callback_writer_delivers stderr data : data <> [] ->
  callback_writer stderr data = Some (if stderr then OnStderr data else OnStdout data).
Proof.
  intros Hd. unfold callback_writer. destruct data as [|z data]; [done|].
  destruct stderr; unfold trampoline_stderr, trampoline_stdout, trampoline; by rewrite Nat2Z.id, firstn_all.
Qed.

(** ** The terminal *)

(** [holder] has the mutex and is in the middle of a call, of which [pending]
    has still to be written; [buffered] is what a failed call left in the
    buffer of [Stdout].  [begun] lists the calls in the order they took the
    mutex, with their threads, and [written] the writes of the process. *)
Record Terminal := {
  threads : list (list SinkCall); holder : option nat; pending : list Z; buffered : list Z; failed : bool;
  begun : list (nat * SinkCall); written : list (bool * list Z) }.

Definition current (s : Terminal) : bool := match last (begun s) with Some (_, c) => to_stderr c | None => false end.

Inductive output_step : Terminal -> Terminal -> Prop :=
(** [self.lock.lock()], then [write_all]: the bytes follow what is buffered. *)
| takes_lock s i c rest : holder s = None -> threads s !! i = Some (c :: rest) ->
    output_step s {| threads := <[i := rest]> (threads s); holder := Some i;
      pending := (if to_stderr c then [] else buffered s) ++ bytes_of c; buffered := if to_stderr c then buffered s else [];
      failed := failed s; begun := begun s ++ [(i, c)]; written := written s |}
(** One [write] of the system, of [write_all] or [flush]. *)
| writes s i p1 p2 : holder s = Some i -> pending s = p1 ++ p2 -> p1 <> [] ->
    output_step s {| threads := threads s; holder := Some i; pending := p2; buffered := buffered s; failed := failed s; begun := begun s;
      written := written s ++ [(current s, p1)] |}
(** A write of [write_all] fails, which is ignored: some of the bytes may be in
    the buffer of [Stdout], and the [flush] that follows tries them again. *)
| write_fails s i kept lost : holder s = Some i -> pending s = kept ++ lost -> pending s <> [] -> (current s = true -> kept = []) ->
    output_step s {| threads := threads s; holder := Some i; pending := kept; buffered := buffered s;
      failed := true; begun := begun s; written := written s |}
(** A write of [flush] fails, which is ignored too: what is left stays in the
    buffer of [Stdout], and the guards are dropped. *)
| flush_fails s i : holder s = Some i -> pending s <> [] -> current s = false ->
    output_step s {| threads := threads s; holder := None; pending := []; buffered := pending s;
      failed := true; begun := begun s; written := written s |}
(** The guards are dropped. *)
| drops_lock s i : holder s = Some i -> pending s = [] ->
    output_step s {| threads := threads s; holder := None; pending := []; buffered := buffered s; failed := failed s; begun := begun s;
      written := written s |}.

Definition at_first (progs : list (list SinkCall)) : Terminal :=
  {| threads := progs; holder := None; pending := []; buffered := []; failed := false; begun := []; written := [] |}.
Definition reached (progs : list (list SinkCall)) (s : Terminal) : Prop := rtc output_step (at_first progs) s.

(** ** What the terminal shows *)

(** The calls of a thread among those begun. *)
Definition calls_of (i : nat) (l : list (nat * SinkCall)) : list SinkCall := snd <$> filter (fun e => fst e = i) l.
(** The bytes written to a stream, and those of the calls for it. *)
Definition shown (b : bool) (l : list (bool * list Z)) : list Z := concat (snd <$> filter (fun e => fst e = b) l).
Definition sent (b : bool) (l : list (nat * SinkCall)) : list Z := concat (bytes_of <$> filter (fun c => to_stderr c = b) (snd <$> l)).
(** The writes of one call: all to its stream, and together its bytes. *)
Definition whole (g : list (bool * list Z)) (c : SinkCall) : Prop := Forall (fun w => fst w = to_stderr c) g /\ concat (snd <$> g) = bytes_of c.
(** What has still to be written to a stream. *)
Definition queued (b : bool) (s : Terminal) : list Z :=
  (if bool_decide (current s = b) then pending s else []) ++ (if b then [] else buffered s).

(** While a call is under way its writes are the last. *)
Definition chunked (s : Terminal) : Prop :=
  match holder s with
  | None => exists groups, written s = concat groups /\ Forall2 whole groups (snd <$> begun s)
  | Some _ => exists groups g i c before, written s = concat groups ++ g /\ begun s = before ++ [(i, c)] /\
      Forall2 whole groups (snd <$> before) /\ Forall (fun w => fst w = to_stderr c) g /\ concat (snd <$> g) ++ pending s = bytes_of c
  end.

Record Shows (progs : list (list SinkCall)) (s : Terminal) : Prop := {
  shows_order : forall i prog, progs !! i = Some prog -> exists rest, threads s !! i = Some rest /\ prog = calls_of i (begun s) ++ rest;
  shows_sent : forall b, shown b (written s) ++ queued b s `sublist_of` sent b (begun s);
  shows_idle : holder s = None -> pending s = [];
  shows_whole : failed s = false -> buffered s = [] /\ chunked s }.

Lemma shown_app b l1 l2 : shown b (l1 ++ l2) = shown b l1 ++ shown b l2.
Proof. unfold shown. by rewrite filter_app, fmap_app, concat_app. Qed.
Lemma shown_one b b' p : shown b [(b', p)] = if bool_decide (b' = b) then p else [].
Proof. unfold shown. case_bool_decide as Hb; [rewrite filter_cons_True by done; apply app_nil_r|by rewrite filter_cons_False]. Qed.
Lemma sent_snoc b l i c : sent b (l ++ [(i, c)]) = sent b l ++ if bool_decide (to_stderr c = b) then bytes_of c else [].
Proof.
  unfold sent. rewrite fmap_app, filter_app, fmap_app, concat_app. f_equal. cbn [fmap list_fmap snd].
  case_bool_decide as Hb; [rewrite filter_cons_True by done; apply app_nil_r|by rewrite filter_cons_False].
Qed.
Lemma calls_of_snoc i j l c : calls_of i (l ++ [(j, c)]) = calls_of i l ++ if bool_decide (j = i) then [c] else [].
Proof.
  unfold calls_of. rewrite filter_app, fmap_app. f_equal. case_bool_decide as Hb; [by rewrite filter_cons_True|by rewrite filter_cons_False].
Qed.
Lemma current_snoc s l i c : begun s = l ++ [(i, c)] -> current s = to_stderr c.
Proof. unfold current. intros ->. by rewrite last_snoc. Qed.

Lemma idle_queued b s : pending s = [] -> queued b s = if b then [] else buffered s.
Proof. unfold queued. intros ->. by case_bool_decide. Qed.

Lemma shows_takes_lock progs s i c rest : Shows progs s -> holder s = None -> threads s !! i = Some (c :: rest) ->
  Shows progs {| threads := <[i := rest]> (threads s); holder := Some i;
      pending := (if to_stderr c then [] else buffered s) ++ bytes_of c; buffered := if to_stderr c then buffered s else [];
      failed := failed s; begun := begun s ++ [(i, c)]; written := written s |}.
Proof.
  intros [Ho Hs Hi Hw] Hh Ht. split; cbn [threads holder pending buffered failed begun written].
  - intros j prog Hj. destruct (Ho j prog Hj) as (r & Hr & ->). rewrite calls_of_snoc. destruct (decide (i = j)) as [->|Hn].
    + rewrite Ht in Hr. injection Hr as <-. exists rest. rewrite list_lookup_insert_eq by (by eapply lookup_lt_Some).
      rewrite bool_decide_eq_true_2 by done. by rewrite <- app_assoc.
    + exists r. rewrite list_lookup_insert_ne by done. rewrite bool_decide_eq_false_2 by done. by rewrite app_nil_r.
  - intros b. pose proof (Hs b) as Hb. rewrite idle_queued in Hb by auto. unfold queued. cbn [pending buffered].
    rewrite (current_snoc _ (begun s) i c) by done. rewrite sent_snoc. case_bool_decide as Hc.
    + subst b. destruct (to_stderr c); cbn [app]; rewrite app_nil_r in *; [by apply sublist_app|]. rewrite app_assoc. by apply sublist_app.
    + destruct b, (to_stderr c); try done; cbn [app]; by rewrite ?app_nil_r in *.
  - done.
  - intros Hf. destruct (Hw Hf) as [-> Hk]. unfold chunked in *. rewrite Hh in Hk. destruct Hk as (groups & -> & Hg). cbn [holder begun written pending].
    split; [by destruct (to_stderr c)|]. exists groups, [], i, c, (begun s). rewrite app_nil_r. split_and!; [done..|]. by destruct (to_stderr c).
Qed.

Lemma shows_writes progs s i p1 p2 : Shows progs s -> holder s = Some i -> pending s = p1 ++ p2 ->
  Shows progs {| threads := threads s; holder := Some i; pending := p2; buffered := buffered s; failed := failed s; begun := begun s;
      written := written s ++ [(current s, p1)] |}.
Proof.
  intros [Ho Hs Hi Hw] Hh Hp. split; cbn [threads holder pending buffered failed begun written]; [done| |done|].
  - intros b. rewrite shown_app, shown_one. pose proof (Hs b) as Hb. unfold queued in *. cbn [pending buffered].
    change (current {| threads := _; holder := _; pending := _; buffered := _; failed := _; begun := begun s; written := _ |}) with (current s).
    rewrite Hp in Hb. case_bool_decide; by rewrite ?app_nil_r, <- ?app_assoc in *.
  - intros Hf. destruct (Hw Hf) as [Hb Hk]. split; [done|]. unfold chunked in *. rewrite Hh in Hk. cbn [holder begun written pending].
    destruct Hk as (groups & g & j & c & l & -> & Hl & Hg & Hst & Hc). exists groups, (g ++ [(current s, p1)]), j, c, l.
    split_and!; [by rewrite app_assoc|done|done| |].
    + apply Forall_app. split; [done|]. constructor; [|done]. by rewrite (current_snoc s l j c).
    + rewrite <- Hc, Hp, fmap_app, concat_app. cbn. by rewrite app_nil_r, <- app_assoc.
Qed.

Lemma shows_fails progs s i kept lost : Shows progs s -> holder s = Some i -> pending s = kept ++ lost -> (current s = true -> kept = []) ->
  Shows progs {| threads := threads s; holder := Some i; pending := kept; buffered := buffered s;
      failed := true; begun := begun s; written := written s |}.
Proof.
  intros [Ho Hs Hi Hw] Hh Hp Hk. split; cbn [threads holder pending buffered failed begun written]; [done| |done|done].
  intros b. etrans; [|exact (Hs b)]. apply sublist_app; [done|]. unfold queued. cbn [pending buffered].
  change (current {| threads := _; holder := _; pending := _; buffered := _; failed := _; begun := begun s; written := _ |}) with (current s).
  rewrite Hp. apply sublist_app; [|done]. case_bool_decide; [|done]. by apply sublist_inserts_r.
Qed.
Lemma shows_flush_fails progs s i : Shows progs s -> holder s = Some i -> current s = false ->
  Shows progs {| threads := threads s; holder := None; pending := []; buffered := pending s;
      failed := true; begun := begun s; written := written s |}.
Proof.
  intros [Ho Hs Hi Hw] Hh Hc. split; cbn [threads holder pending buffered failed begun written]; [done| |done|done].
  intros b. rewrite idle_queued by done. cbn [buffered]. etrans; [|exact (Hs b)]. apply sublist_app; [done|]. unfold queued. rewrite Hc.
  destruct b; [apply sublist_nil_l|]. rewrite bool_decide_eq_true_2 by done. by apply sublist_inserts_r.
Qed.
Lemma shows_drops progs s i : Shows progs s -> holder s = Some i -> pending s = [] ->
  Shows progs {| threads := threads s; holder := None; pending := []; buffered := buffered s; failed := failed s; begun := begun s; written := written s |}.
Proof.
  intros [Ho Hs Hi Hw] Hh Hp. split; cbn [threads holder pending buffered failed begun written]; [done| |done|].
  - intros b. rewrite idle_queued by done. pose proof (Hs b) as Hb. by rewrite idle_queued in Hb.
  - intros Hf. destruct (Hw Hf) as [Hb Hk]. split; [done|]. unfold chunked in *. rewrite Hh in Hk. cbn [holder begun written].
    destruct Hk as (groups & g & j & c & l & -> & -> & Hg & Hst & Hc). rewrite Hp, app_nil_r in Hc.
    exists (groups ++ [g]). rewrite concat_app, fmap_app. cbn. rewrite app_nil_r. split; [done|]. apply Forall2_app; [done|]. by constructor.
Qed.

Lemma shows_reached progs s : reached progs s -> Shows progs s.
Proof.
  intros Hr. unfold reached in Hr. remember (at_first progs) as s0 eqn:E0.
  assert (H0 : Shows progs s0).
  { subst. split; cbn; [|intros b; by destruct b|done|]; [intros i prog Hi; by exists prog|]. intros _. split; [done|]. by exists []. }
  clear E0. induction Hr as [s|s s1 s2 Hst _ IH]; [done|]. apply IH.
  destruct Hst; [by apply shows_takes_lock|by apply shows_writes|by eapply shows_fails|by eapply shows_flush_fails|by eapply shows_drops].
Qed.

(** C34: The guest's output appears on the terminal in whole chunks, in order.
    Whatever the threads of Swift do and however writes are split: the chunks
    of a thread are taken in its order; nothing is shown that was not sent, or
    twice, or out of order, also when writes fail; if none has failed, then
    between calls the process has written exactly the chunks taken, one after
    the other over both streams, none inside another; and as long as a call is
    under way or a thread has a chunk left, somebody can go on.  (The lines
    that the main thread itself writes to standard error while it boots the
    VM do not pass the sink, and are outside the model.) *)
Theorem terminal_shows_whole_chunks progs s : reached progs s ->
  (forall i prog, progs !! i = Some prog -> exists rest, threads s !! i = Some rest /\ prog = calls_of i (begun s) ++ rest) /\
  (forall b, shown b (written s) `sublist_of` sent b (begun s)) /\
  (failed s = false -> holder s = None -> exists groups, written s = concat groups /\ Forall2 whole groups (snd <$> begun s)) /\
  (holder s <> None \/ (exists i c rest, threads s !! i = Some (c :: rest)) -> exists s', output_step s s').
Proof.
  intros [Ho Hs Hi Hw]%shows_reached. split_and!; [done| | |].
  - intros b. etrans; [|apply Hs]. by apply sublist_inserts_r.
  - intros Hf Hn. destruct (Hw Hf) as [_ Hk]. unfold chunked in Hk. by rewrite Hn in Hk.
  - intros Hgo. destruct (holder s) as [i|] eqn:Hh.
    + destruct (pending s) as [|z p] eqn:Hp; eexists; [by eapply drops_lock|by apply (writes s i [z] p)].
    + destruct Hgo as [|(i & c & rest & Ht)]; [done|]. eexists. by eapply takes_lock.
Qed.

(** ** The box behind the trampolines *)

(** What the owner of a VM does to the sink: [StdioState::new], [hb_vm_new]
    from its call to its return, the drop of [Vm], and then of its field, or
    of the local when [hb_vm_new] failed. *)
Inductive OwnerOp := StdioNew | NewBegins | NewReturns (ok : bool) | VmStops | VmFrees | StdioDrop.
Definition owner_life (ok : bool) : list OwnerOp :=
  [StdioNew; NewBegins; NewReturns ok] ++ (if ok then [VmStops; VmFrees] else []) ++ [StdioDrop].

(** [sink] is the box: not made, there, or freed; Swift may call back from
    [hb_vm_new] until it failed or [hb_vm_free] returned; [fault] is a use of
    a box that is not there. *)
Record Boxed := { sink : option bool; calling : bool; ops : list OwnerOp; fault : bool }.

Inductive box_step : Boxed -> Boxed -> Prop :=
| owner_op s op rest : ops s = op :: rest ->
    box_step s (match op with
      | StdioNew => {| sink := Some true; calling := calling s; ops := rest; fault := fault s |}
      | NewBegins => {| sink := sink s; calling := true; ops := rest; fault := fault s |}
      | NewReturns ok => {| sink := sink s; calling := ok; ops := rest; fault := fault s |}
      | VmStops => {| sink := sink s; calling := calling s; ops := rest; fault := fault s |}
      | VmFrees => {| sink := sink s; calling := false; ops := rest; fault := fault s |}
      | StdioDrop => {| sink := Some false; calling := calling s; ops := rest; fault := fault s || negb (bool_decide (sink s = Some true)) |}
      end)
| swift_calls s : calling s = true ->
    box_step s {| sink := sink s; calling := true; ops := ops s; fault := fault s || negb (bool_decide (sink s = Some true)) |}.
Definition box_reached (ok : bool) (s : Boxed) : Prop :=
  rtc box_step {| sink := None; calling := false; ops := owner_life ok; fault := false |} s.

(** What is left of a life that uses the box only while it is there. *)
Fixpoint box_ok (b : option bool) (c : bool) (l : list OwnerOp) : Prop :=
  match l with
  | [] => b = Some false /\ c = false
  | StdioNew :: l => b = None /\ c = false /\ box_ok (Some true) c l
  | NewBegins :: l => b = Some true /\ box_ok b true l
  | NewReturns ok :: l => b = Some true /\ box_ok b ok l
  | VmStops :: l => b = Some true /\ box_ok b c l
  | VmFrees :: l => b = Some true /\ box_ok b false l
  | StdioDrop :: l => b = Some true /\ c = false /\ box_ok (Some false) c l
  end.
Lemma box_calling b l : box_ok b true l -> b = Some true.
Proof. destruct l as [|[] l]; cbn; intuition congruence. Qed.

(** The sink is there whenever Swift calls back, and is freed once. *)
Theorem sink_outlives_callbacks ok s : box_reached ok s -> fault s = false /\ (ops s = [] -> sink s = Some false).
Proof.
  intros Hr. cut (fault s = false /\ box_ok (sink s) (calling s) (ops s)); [intros [Hf Hb]; split; [done|]; intros E; rewrite E in Hb; apply Hb|].
  unfold box_reached in Hr. remember {| sink := None; calling := false; ops := owner_life ok; fault := false |} as s0 eqn:E0.
  assert (H0 : fault s0 = false /\ box_ok (sink s0) (calling s0) (ops s0)) by (subst; by destruct ok). clear E0.
  induction Hr as [s|s s1 s2 Hst _ IH]; [done|]. apply IH. destruct H0 as [Hf Hb]. destruct Hst as [s op rest Ho|s Hc].
  - rewrite Ho in Hb. destruct op; cbn [fault sink calling ops box_ok] in *; try tauto.
    destruct Hb as (Hs & Hc & Hl). rewrite Hf, Hs, Hc in *. done.
  - cbn [fault sink calling ops]. rewrite Hc in Hb. pose proof (box_calling _ _ Hb) as Hs. rewrite Hs in *. by rewrite Hf.
Qed.

(** ** Two threads *)

Module DemoOutput.
Definition progs : list (list SinkCall) := [[OnStdout [104; 105]; OnStderr [33]]; [OnStdout [111; 107]]].
(** The first thread's chunk in two writes, the second's between the two chunks of the first. *)
Definition ended : Terminal :=
  {| threads := [[]; []]; holder := None; pending := []; buffered := []; failed := false;
     begun := [(0%nat, OnStdout [104; 105]); (1%nat, OnStdout [111; 107]); (0%nat, OnStderr [33])];
     written := [(false, [104]); (false, [105]); (false, [111; 107]); (true, [33])] |}.
(** One step, with the state it leads to computed. *)
Tactic Notation "go" uconstr(move) := eapply rtc_l; [eapply move; [reflexivity|..]; first [reflexivity|discriminate]|];
  match goal with |- rtc _ ?s _ => let s' := eval vm_compute in s in change s with s' end.
Lemma ended_reached : reached progs ended.
Proof.
  unfold reached. go (takes_lock (at_first progs) 0). go (writes _ 0 [104] [105]). go (writes _ 0 [105] []). go drops_lock.
  go (takes_lock _ 1). go (writes _ 1 [111; 107] []). go drops_lock. go (takes_lock _ 0). go (writes _ 0 [33] []). go drops_lock.
  apply rtc_refl.
Qed.
End DemoOutput.

Lemma terminal_shows_whole_chunks_witness : exists groups,
  written DemoOutput.ended = concat groups /\ Forall2 whole groups (snd <$> begun DemoOutput.ended).
Proof. apply (terminal_shows_whole_chunks DemoOutput.progs DemoOutput.ended DemoOutput.ended_reached); reflexivity. Defined.
