(* ===== verification/Build.v ===== *)
(** * The build scripts (build.rs of hephaestus-bridge, -cli and -firecracker)

    The bridge's script writes the C header the Swift side imports, compiles
    the Swift package and tells cargo what to link; the scripts of the two
    binaries force-load the archive, whose path cargo hands them.  The build
    machine (its files, its programs, cbindgen) is the class [Machine]; a
    script changes it, prints lines for cargo and may panic. *)

From S2P Require Import Prelude RustStr Utf8.
Local Open Scope string_scope.
Local Open Scope list_scope.

Definition PATH_MAX : nat := 1024.

(** ** The build machine *)

(** [H] are the states of the machine.  An error of [canonicalize], cbindgen
    and [status] is its [Debug] text.  The laws: a path longer than [PATH_MAX]
    is refused by every system call, so it is no directory, and a directory
    entry has a file name. *)
Class Machine (H : Type) := {
  canonicalize : H -> string -> Result string string;
  exists_path : H -> string -> bool;
  is_dir : H -> string -> bool;
  read_dir : H -> string -> option (list (option string));
  create_dir_all : string -> H -> H;
  Config : Type;
  Bindings : Type;
  config_from_file : H -> string -> Result Config string;
  generate : H -> string -> Config -> Result Bindings string;
  write_to_file : Bindings -> string -> H -> H;
  run_status : string -> list string -> H -> Result bool string * H;
  run_output : string -> list string -> H -> option (bool * string) * H;
  dir_short : forall h p, is_dir h p = true -> (String.length p < PATH_MAX)%nat;
  entry_named : forall h d l name, read_dir h d = Some l -> Some name ∈ l -> name <> "" /\ starts_with "/" name = false }.

(** ** Scripts *)

(** A script panics with a message, or returns; it leaves the machine changed
    and has printed some lines. *)
Definition Script (H A : Type) : Type := H -> Result A string * H * list string.

Definition done_ {H A} (a : A) : Script H A := fun h => (Ok a, h, []).
Definition panic {H A} (why : string) : Script H A := fun h => (Err why, h, []).
Definition and_then {H A B} (m : Script H A) (k : A -> Script H B) : Script H B := fun h =>
  match m h with
  | (Ok a, h', l) => let '(r, h2, l') := k a h' in (r, h2, l ++ l')
  | (Err e, h', l) => (Err e, h', l)
  end.
Definition println {H} (line : string) : Script H unit := fun h => (Ok tt, h, [line]).
Fixpoint println_all {H} (ls : list string) : Script H unit :=
  match ls with [] => done_ tt | l :: ls' => and_then (println l) (fun _ => println_all ls') end.
Definition reading {H A} (f : H -> A) : Script H A := fun h => (Ok (f h), h, []).
Definition changing {H A} (f : H -> A * H) : Script H A := fun h => let '(a, h') := f h in (Ok a, h', []).
(** [expect], and [unwrap], whose text names the value. *)
Definition expect_with {H A} (what : string) (r : Result A string) : Script H A :=
  match r with Ok a => done_ a | Err e => panic (what +:+ ": " +:+ e) end.
Definition unwrap_ok {H A} (r : Result A string) : Script H A := expect_with "called `Result::unwrap()` on an `Err` value" r.

Declare Scope script_scope.
Delimit Scope script_scope with script.
Notation "'run!' x ':=' m 'in' k" := (and_then m (fun x => k)) (at level 10, x name, m at level 100, k at level 200) : script_scope.
Notation "'then!' m 'in' k" := (and_then m (fun _ => k)) (at level 10, m at level 100, k at level 200) : script_scope.
Local Open Scope script_scope.

(** ** Paths *)

Definition SLASH : Ascii.ascii := ch 47.
Definition joins (base : string) (parts : list string) : string := fold_left path_join parts base.
(** [Path::display]: what is not UTF-8 is replaced. *)
Definition display (p : string) : string := from_utf8_lossy p.

Fixpoint before_last (c : Ascii.ascii) (s : string) : option string :=
  match s with
  | "" => None
  | String a s' => match before_last c s' with
                   | Some p => Some (String a p)
                   | None => if Ascii.eqb a c then Some "" else None
                   end
  end.
(** [Path::parent], of a path whose last component is a file name. *)
Definition parent (p : string) : option string :=
  let q := trim_end_char SLASH p in
  if str_is_empty q then None else
  match before_last SLASH q with
  | None => Some ""
  | Some d => let d' := trim_end_char SLASH d in Some (if str_is_empty d' then "/" else d')
  end.

(** ** hephaestus-bridge/build.rs *)

(** The variables cargo runs a script with; an error is its [Debug] text. *)
Definition Env : Type := string -> Result string string.
Definition target_os (env : Env) : string := match env "CARGO_CFG_TARGET_OS" with Ok os => os | Err _ => "" end.

Section Scripts.
Context {H : Type} `{Machine H}.
Variable env : Env.

Definition generate_header (manifest_dir header_path : string) : Script H unit :=
  run! loaded := reading (fun h => config_from_file h (path_join manifest_dir "cbindgen.toml")) in
  run! cfg := expect_with "failed to load cbindgen.toml" loaded in
  run! dir := match parent header_path with Some d => done_ d | None => panic "called `Option::unwrap()` on a `None` value" end in
  then! changing (fun h => (tt, create_dir_all dir h)) in
  run! generated := reading (fun h => generate h manifest_dir cfg) in
  run! bindings := expect_with "cbindgen generation failed" generated in
  changing (fun h => (tt, write_to_file bindings header_path h)).

(** The lines of [rerun_for_dir]; the fuel bounds the nesting of directories,
    [None] when it is not enough. *)
Fixpoint rerun_for_dir (fuel : nat) (h : H) (dir : string) : option (list string) :=
  match fuel with
  | O => None
  | S fuel' =>
      match read_dir h dir with
      | None => Some []
      | Some entries =>
          mjoin <$> mapM (fun name =>
            let path := path_join dir name in
            if is_dir h path then rerun_for_dir fuel' h path else Some ["cargo:rerun-if-changed=" +:+ display path])
            (omap id entries)
      end
  end.

Definition xcode_swift_static_lib_dir : Script H (option string) :=
  run! out := changing (run_output "xcode-select" ["-p"]) in
  match out with
  | None => done_ None
  | Some (success, stdout) =>
      if negb success then done_ None else
      if negb (utf8_valid stdout) then done_ None else
      let path := joins (trim stdout) ["Toolchains"; "XcodeDefault.xctoolchain"; "usr"; "lib"; "swift"; "macosx"] in
      run! there := reading (fun h => exists_path h path) in
      done_ (if there then Some path else None)
  end.

Definition ARCHIVE : string := "libHephaestusBridge.a".
Definition candidates (swift_pkg : string) : list string :=
  let build_root := path_join swift_pkg ".build" in
  [path_join build_root "release"; joins build_root ["arm64-apple-macosx"; "release"];
   joins build_root ["apple"; "Products"; "Release"]].
Definition swift_build_args (swift_pkg : string) : list string :=
  ["swift"; "build"; "-c"; "release"; "--triple"; "arm64-apple-macosx15.0"; "--package-path"; swift_pkg].

(** The lines about the archive, the system's libraries and the Swift runtime. *)
Definition link_lines (lib_dir : string) : list string :=
  ["cargo:rustc-link-search=native=" +:+ display lib_dir;
   "cargo:rustc-link-lib=static=HephaestusBridge";
   "cargo:rustc-env=HEPHAESTUS_BRIDGE_ARCHIVE=" +:+ display (path_join lib_dir ARCHIVE);
   "cargo:archive=" +:+ display (path_join lib_dir ARCHIVE)] ++
  ((fun lib => "cargo:rustc-link-lib=dylib=" +:+ lib) <$> ["archive"; "z"; "bz2"; "lzma"; "iconv"; "c++"]) ++
  ((fun framework => "cargo:rustc-link-lib=framework=" +:+ framework) <$>
    ["Foundation"; "Virtualization"; "Network"; "Security"; "vmnet"]) ++
  ["cargo:rustc-link-search=native=/usr/lib/swift"; "cargo:rustc-link-arg=-Wl,-rpath,/usr/lib/swift";
   "cargo:rustc-link-lib=dylib=swiftCore"; "cargo:rustc-link-lib=dylib=swiftFoundation"].
Definition toolchain_lines (dir : option string) : list string :=
  match dir with
  | Some d => ("cargo:rustc-link-search=native=" +:+ display d) ::
      ((fun lib => "cargo:rustc-link-lib=static=" +:+ lib) <$>
        ["swiftCompatibility50"; "swiftCompatibility51"; "swiftCompatibility56"; "swiftCompatibilityConcurrency";
         "swiftCompatibilityDynamicReplacements"; "swiftCompatibilityPacks"])
  | None => ["cargo:warning=hephaestus-bridge: Xcode toolchain not found via xcode-select -p; Swift compatibility shims may fail to link"]
  end.

Definition bridge_main : Script H unit :=
  then! println "cargo:rerun-if-changed=src/lib.rs" in
  then! println "cargo:rerun-if-changed=cbindgen.toml" in
  run! manifest_dir := unwrap_ok (env "CARGO_MANIFEST_DIR") in
  run! found := reading (fun h => canonicalize h (joins manifest_dir [".."; ".."; "swift"; "HephaestusBridge"])) in
  run! swift_pkg := expect_with "swift package not found" found in
  then! generate_header manifest_dir (joins swift_pkg ["Sources"; "CHephaestusBridge"; "include"; "hephaestus_bridge.h"]) in
  if negb (String.eqb (target_os env) "macos")
  then println "cargo:warning=hephaestus-bridge: skipping Swift build on non-macOS target" else
  then! println ("cargo:rerun-if-changed=" +:+ display (path_join swift_pkg "Package.swift")) in
  run! sources := reading (fun h => rerun_for_dir (S PATH_MAX) h (path_join swift_pkg "Sources")) in
  then! match sources with Some ls => println_all ls | None => panic "out of fuel" end in
  run! status := changing (run_status "xcrun" (swift_build_args swift_pkg)) in
  run! success := expect_with "failed to invoke `xcrun swift build`" status in
  then! (if success then done_ tt else panic "swift build failed (see output above)") in
  run! lib := reading (fun h => find (fun p => exists_path h (path_join p ARCHIVE)) (candidates swift_pkg)) in
  run! lib_dir := match lib with
                  | Some d => done_ d
                  | None => panic (ARCHIVE +:+ " not found under " +:+ display (path_join swift_pkg ".build"))
                  end in
  then! println_all (link_lines lib_dir) in
  run! toolchain := xcode_swift_static_lib_dir in
  println_all (toolchain_lines toolchain).

(** ** hephaestus-cli/build.rs and hephaestus-firecracker/build.rs *)

(** The two scripts differ in the instruction that passes a linker argument. *)
Definition force_load_main (link_arg : string) : Script H unit :=
  if negb (String.eqb (target_os env) "macos") then done_ tt else
  match env "DEP_HEPHAESTUS_BRIDGE_NATIVE_ARCHIVE" with
  | Err _ => println "cargo:warning=DEP_HEPHAESTUS_BRIDGE_NATIVE_ARCHIVE not set; hephaestus-bridge may not have run its build.rs"
  | Ok archive =>
      then! println "cargo:rerun-if-env-changed=DEP_HEPHAESTUS_BRIDGE_NATIVE_ARCHIVE" in
      then! println ("cargo:" +:+ link_arg +:+ "=-Wl,-force_load," +:+ archive) in
      println ("cargo:" +:+ link_arg +:+ "=-Wl,-rpath,/usr/lib/swift")
  end.
Definition cli_main : Script H unit := force_load_main "rustc-link-arg".
Definition firecracker_main : Script H unit := force_load_main "rustc-link-arg-bin=hephaestus-firecracker".
End Scripts.

(** ** The walk of the sources ends *)

Lemma path_join_longer d name : name <> "" -> starts_with "/" name = false -> (String.length d < String.length (path_join d name))%nat.
Proof.
  intros Hn Hs. unfold path_join. rewrite Hs. assert (0 < String.length name)%nat by (destruct name; [done|cbn; lia]).
  destruct (_ || _); rewrite !length_app_s; cbn; lia.
Qed.

Definition watches (l : string) : Prop := exists p, l = "cargo:rerun-if-changed=" +:+ p.

(** Whatever links there are among the directories: a path grows at each level
    and a long one is no directory. *)
Lemma rerun_for_dir_ends `{Machine H} n h d : (PATH_MAX < n + String.length d)%nat -> n <> O ->
  exists ls, rerun_for_dir n h d = Some ls /\ Forall watches ls.
Proof.
  revert d. induction n as [|n IH]; intros d Hl Hn; [done|]. cbn [rerun_for_dir].
  destruct (read_dir h d) as [entries|] eqn:Hd; [|by eexists].
  match goal with |- context [mapM ?g _] => set (f := g) end.
  assert (Hf : Forall (fun name => exists ls, f name = Some ls /\ Forall watches ls) (omap id entries)).
  { apply Forall_forall. intros name (o & Ho & E)%list_elem_of_omap. cbn in E. subst o.
    destruct (entry_named _ _ _ _ Hd Ho) as [Hne Hs]. unfold f. pose proof (path_join_longer d name Hne Hs) as Hj.
    destruct (is_dir h (path_join d name)) eqn:Hi.
    - pose proof (dir_short _ _ Hi). apply IH; lia.
    - eexists. split; [done|]. by repeat econstructor. }
  clearbody f. induction Hf as [|name l (ls & Hls & Hw) _ (ls' & Hls' & Hw')]; [by eexists|].
  cbn. rewrite Hls. cbn. destruct (mapM f l) as [lss|]; [|done]. cbn in *. injection Hls' as <-. eexists. split; [done|]. by apply Forall_app.
Qed.

(** The files below a directory, links followed. *)
Inductive file_under `{Machine H} (h : H) (d : string) : string -> Prop :=
| file_here l name : read_dir h d = Some l -> Some name ∈ l -> is_dir h (path_join d name) = false -> file_under h d (path_join d name)
| file_below l name p : read_dir h d = Some l -> Some name ∈ l -> is_dir h (path_join d name) = true ->
    file_under h (path_join d name) p -> file_under h d p.

(** The walk names the files there are, and no directory: cargo does not run
    the script again for a file added later. *)
Theorem rerun_for_dir_exact `{Machine H} n h d ls : rerun_for_dir n h d = Some ls ->
  forall l, l ∈ ls <-> exists p, file_under h d p /\ l = "cargo:rerun-if-changed=" +:+ display p.
Proof.
  revert d ls. induction n as [|n IH]; intros d ls; [done|]. cbn [rerun_for_dir].
  destruct (read_dir h d) as [entries|] eqn:Hd.
  2:{ intros [= <-] l. rewrite elem_of_nil. split; [done|]. intros (p & Hp & _). destruct Hp; congruence. }
  match goal with |- context [mapM ?g _] => set (f := g) end.
  intros (lss & Hm%mapM_Some & ->)%fmap_Some l. rewrite list_elem_of_join. split.
  - intros (ls & Hl & [i Hls]%list_elem_of_lookup_1). destruct (Forall2_lookup_r _ _ _ _ _ Hm Hls) as (name & Hi%list_elem_of_lookup_2 & Hn).
    apply list_elem_of_omap in Hi as (o & Ho & E). cbn in E. subst o.
    unfold f in Hn. destruct (is_dir h (path_join d name)) eqn:Hi.
    + apply (IH _ _ Hn) in Hl as (p & Hp & ->). eexists. split; [by eapply file_below|done].
    + injection Hn as <-. apply list_elem_of_singleton in Hl as ->. eexists. split; [by eapply file_here|done].
  - intros (p & Hp & ->).
    assert (Hname : exists name, name ∈ omap id entries /\ forall ls, f name = Some ls -> ("cargo:rerun-if-changed=" +:+ display p) ∈ ls).
    { destruct Hp as [l' name Hl' Hn Hi|l' name p Hl' Hn Hi Hp]; rewrite Hd in Hl'; injection Hl' as <-;
        (exists name; split; [by apply list_elem_of_omap; exists (Some name)|unfold f; rewrite Hi; intros ls]).
      - intros [= <-]. by apply list_elem_of_singleton.
      - intros Hls. apply (IH _ _ Hls). eauto. }
    destruct Hname as (name & [i Hn]%list_elem_of_lookup_1 & Hls). destruct (Forall2_lookup_l _ _ _ _ _ Hm Hn) as (ls & Hin%list_elem_of_lookup_2 & Hf). eauto.
Qed.

(** ** What a successful run of the bridge's script did *)

Section Success.
Context {H : Type} `{Machine H}.

Lemma println_all_run ls (h : H) : println_all ls h = (Ok tt, h, ls).
Proof. induction ls as [|l ls IH]; [done|]. cbn [println_all]. unfold and_then, println at 1. by rewrite IH. Qed.

Lemma and_then_ok {A B} (m : Script H A) (k : A -> Script H B) h b h' out : and_then m k h = (Ok b, h', out) ->
  exists a h1 l1 l2, m h = (Ok a, h1, l1) /\ k a h1 = (Ok b, h', l2) /\ out = l1 ++ l2.
Proof.
  unfold and_then. destruct (m h) as [[[a|e] h1] l1]; [|done]. destruct (k a h1) as [[r h2] l2] eqn:E. intros [= -> -> <-]. eauto 8.
Qed.
Lemma expect_ok {A} what (r : Result A string) (h : H) a h' l : expect_with what r h = (Ok a, h', l) -> r = Ok a /\ h' = h /\ l = [].
Proof. destruct r; cbn; [|done]. unfold done_. by intros [= -> -> <-]. Qed.
Lemma reading_ok {A} (f : H -> A) (h : H) a h' l : reading f h = (Ok a, h', l) -> a = f h /\ h' = h /\ l = [].
Proof. unfold reading. by intros [= -> -> <-]. Qed.
Lemma println_ok line (h : H) u h' l : println line h = (Ok u, h', l) -> u = tt /\ h' = h /\ l = [line].
Proof. unfold println. by intros [= -> -> <-]. Qed.

(** Take the first part off a run that succeeded. *)
Ltac peel Hk :=
  lazymatch type of Hk with
  | and_then (expect_with _ _) _ _ = _ => let E := fresh "Hok" in apply and_then_ok in Hk as (? & ? & ? & ? & (E & -> & ->)%expect_ok & Hk & ->)
  | and_then (println_all _) _ _ = _ =>
      let E := fresh in apply and_then_ok in Hk as (? & ? & ? & ? & E & Hk & ->); rewrite println_all_run in E; injection E as <- <- <-
  | and_then (changing _) _ _ = _ =>
      let E := fresh "Hrun" in apply and_then_ok in Hk as (? & ? & ? & ? & E & Hk & ->); unfold changing in E
  | and_then (reading _) _ _ = _ => apply and_then_ok in Hk as (? & ? & ? & ? & (-> & -> & ->)%reading_ok & Hk & ->)
  | and_then (println _) _ _ = _ => apply and_then_ok in Hk as (? & ? & ? & ? & (-> & -> & ->)%println_ok & Hk & ->)
  | and_then (done_ _) _ _ = _ => apply and_then_ok in Hk as (? & ? & ? & ? & [= <- <- <-] & Hk & ->)
  end; cbn beta in Hk.

Lemma generate_header_quiet manifest_dir header (h : H) u h' l : generate_header manifest_dir header h = (Ok u, h', l) -> l = [].
Proof.
  unfold generate_header. intros Hk. peel Hk. peel Hk. destruct (parent header); [|done]. peel Hk. peel Hk. injection Hrun as _ <- <-. peel Hk. peel Hk.
  by injection Hk as _ _ <-.
Qed.

Lemma xcode_ok (h : H) : exists r h', xcode_swift_static_lib_dir h = (Ok r, h', []).
Proof.
  unfold xcode_swift_static_lib_dir, and_then, changing, reading, done_. destruct (run_output _ _ h) as [[[[] out]|] h1]; cbn [negb]; try by eexists _, _.
  destruct (utf8_valid out); by eexists _, _.
Qed.
Lemma xcode_quiet (h : H) r h' l : xcode_swift_static_lib_dir h = (Ok r, h', l) -> l = [].
Proof. destruct (xcode_ok h) as (r0 & h0 & ->). by intros [= _ _ <-]. Qed.

(** The lines of a successful run on macOS, around the archive found. *)
Lemma bridge_built env (h : H) h' out : bridge_main env h = (Ok tt, h', out) -> target_os env = "macos" ->
  exists manifest_dir swift_pkg built lib_dir watched toolchain,
    env "CARGO_MANIFEST_DIR" = Ok manifest_dir /\
    canonicalize h (joins manifest_dir [".."; ".."; "swift"; "HephaestusBridge"]) = Ok swift_pkg /\
    (exists h2, run_status "xcrun" (swift_build_args swift_pkg) h2 = (Ok true, built)) /\
    find (fun p => exists_path built (path_join p ARCHIVE)) (candidates swift_pkg) = Some lib_dir /\
    Forall watches watched /\ out = watched ++ link_lines lib_dir ++ toolchain_lines toolchain.
Proof.
  unfold bridge_main. intros Hk Hos. rewrite Hos in Hk. cbn [String.eqb negb] in Hk.
  unfold unwrap_ok in Hk. do 5 peel Hk.
  apply and_then_ok in Hk as (u & h1 & ? & ? & ->%generate_header_quiet & Hk & ->).
  replace (negb _) with false in Hk by reflexivity. cbn iota in Hk. do 2 peel Hk.
  match type of Hk with context [rerun_for_dir ?n ?h ?d] => destruct (rerun_for_dir_ends n h d) as (ls & Hls & Hw); [unfold PATH_MAX; lia|done|] end.
  rewrite Hls in Hk. cbn iota in Hk. do 2 peel Hk. destruct (run_status _ _ h1) as [st built] eqn:Hst. injection Hrun as -> <- <-. peel Hk.
  match type of Hk with context [if ?b then _ else _] => destruct b; [|done] end. do 2 peel Hk.
  destruct (find _ _) as [lib_dir|] eqn:Hf; [|done]. do 2 peel Hk. 
  apply and_then_ok in Hk as (tc & h2 & ? & ? & ->%xcode_quiet & Hk & ->). rewrite println_all_run in Hk. injection Hk as <- <-.
  exists x, x0, built, lib_dir. eexists (_ :: _ :: _ :: ls), tc. split_and!; [done|done|by subst; eauto|done| |reflexivity].
  repeat (constructor; [by eexists|]). done.
Qed.

(** ** When it succeeds *)

Lemma trim_end_kept c s a : Ascii.eqb a c = false -> trim_end_char c (s +:+ String a "") = s +:+ String a "".
Proof.
  intros Ha. unfold trim_end_char. induction s as [|b s IH]; cbn; [by rewrite Ha|]. rewrite IH. by destruct s.
Qed.
Lemma before_last_none c s : contains_char c s = false -> before_last c s = None.
Proof. induction s as [|a s IH]; cbn; [done|]. intros [Ha Hs]%orb_false_iff. by rewrite IH, Ha. Qed.
Lemma before_last_app c d s : contains_char c s = false -> before_last c (d +:+ String c s) = Some d.
Proof.
  intros Hs. induction d as [|a d IH]; cbn; [by rewrite before_last_none, Ascii.eqb_refl|]. by rewrite IH.
Qed.
Lemma ends_with_snoc c s a : ends_with_char c (s +:+ String a "") = Ascii.eqb a c.
Proof. induction s as [|b s IH]; [done|]. cbn. rewrite IH. by destruct s. Qed.
Lemma path_join_snoc d p a : starts_with "/" (p +:+ String a "") = false -> exists x, path_join d (p +:+ String a "") = x +:+ String a "".
Proof.
  intros Hp. unfold path_join. rewrite Hp. destruct (_ || _); [exists (d +:+ p)|exists (d +:+ "/" +:+ p)]; by rewrite !app_assoc_s.
Qed.

(** The header's directory. *)
Definition include_of (swift_pkg : string) : string := joins swift_pkg ["Sources"; "CHephaestusBridge"; "include"].
Lemma header_parent swift_pkg :
  parent (joins swift_pkg ["Sources"; "CHephaestusBridge"; "include"; "hephaestus_bridge.h"]) = Some (include_of swift_pkg).
Proof.
  change (joins swift_pkg ["Sources"; "CHephaestusBridge"; "include"; "hephaestus_bridge.h"]) with (path_join (include_of swift_pkg) "hephaestus_bridge.h").
  unfold include_of. cbn [joins fold_left]. destruct (path_join_snoc (path_join (path_join swift_pkg "Sources") "CHephaestusBridge") "includ" (ch 101) eq_refl) as [x Hx].
  change ("includ" +:+ String (ch 101) "") with "include" in Hx. rewrite Hx. unfold path_join.
  replace (starts_with "/" "hephaestus_bridge.h") with false by reflexivity.
  rewrite ends_with_snoc. replace (str_is_empty _) with false by (by destruct x). cbn [orb Ascii.eqb]. 
  replace (Ascii.eqb (ch 101) (ch 47)) with false by reflexivity.
  change ("/" +:+ "hephaestus_bridge.h") with (String SLASH "hephaestus_bridge.h"). unfold parent. cbv zeta.
  replace (trim_end_char SLASH (_ +:+ String SLASH _)) with ((x +:+ String (ch 101) "") +:+ String SLASH "hephaestus_bridge.h").
  - rewrite before_last_app by reflexivity. rewrite trim_end_kept by reflexivity. by destruct x.
  - symmetry. change (String SLASH "hephaestus_bridge.h") with ("/hephaestus_bridge." +:+ String (ch 104) ""). rewrite <- app_assoc_s. by apply trim_end_kept.
Qed.

Definition header_of (swift_pkg : string) : string := joins swift_pkg ["Sources"; "CHephaestusBridge"; "include"; "hephaestus_bridge.h"].

Lemma generate_header_ok md pkg (h : H) u h' l : generate_header md (header_of pkg) h = (Ok u, h', l) <->
  exists cfg bindings, config_from_file h (path_join md "cbindgen.toml") = Ok cfg /\
    generate (create_dir_all (include_of pkg) h) md cfg = Ok bindings /\
    h' = write_to_file bindings (header_of pkg) (create_dir_all (include_of pkg) h) /\ l = [].
Proof.
  destruct u. split.
  - unfold generate_header. intros Hk. do 2 peel Hk. unfold header_of in Hk at 1. rewrite header_parent in Hk. do 2 peel Hk.
    injection Hrun as _ <- <-. do 2 peel Hk. injection Hk as <- <-. eauto 10.
  - intros (cfg & bindings & Hc & Hb & -> & ->). unfold generate_header, header_of at 1. rewrite header_parent.
    unfold and_then, reading, changing, expect_with, done_. by rewrite Hc, Hb.
Qed.

(** The script panics exactly if the manifest's directory is not told, the
    Swift package is not there, cbindgen fails to read its configuration or
    to generate, or, for macOS, the Swift build cannot be run, fails or leaves
    no archive in the three places. *)
Theorem bridge_succeeds_iff env (h : H) : (exists h' out, bridge_main env h = (Ok tt, h', out)) <->
  exists md pkg cfg bindings,
    env "CARGO_MANIFEST_DIR" = Ok md /\ canonicalize h (joins md [".."; ".."; "swift"; "HephaestusBridge"]) = Ok pkg /\
    config_from_file h (path_join md "cbindgen.toml") = Ok cfg /\
    let h1 := create_dir_all (include_of pkg) h in generate h1 md cfg = Ok bindings /\
    (target_os env = "macos" -> exists built, run_status "xcrun" (swift_build_args pkg) (write_to_file bindings (header_of pkg) h1) = (Ok true, built) /\
       exists p, p ∈ candidates pkg /\ exists_path built (path_join p ARCHIVE) = true).
Proof.
  unfold bridge_main, unwrap_ok. split.
  - intros (h' & out & Hk). do 5 peel Hk. apply and_then_ok in Hk as (u & h1 & ? & ? & Hg & Hk & ->).
    apply generate_header_ok in Hg as (cfg & bindings & Hc & Hb & -> & ->).
    eexists _, _, cfg, bindings. split_and!; [done..|]. intros Hos. rewrite Hos in Hk.
    replace (negb _) with false in Hk by reflexivity. cbn iota in Hk. do 2 peel Hk. destruct (rerun_for_dir _ _ _); [|done]. do 2 peel Hk.
    destruct (run_status _ _ _) as [st built]. injection Hrun as -> <- <-. peel Hk. subst.
    match type of Hk with context [if ?b then _ else _] => destruct b; [|done] end. do 2 peel Hk.
    destruct (find _ _) as [lib_dir|] eqn:Hf; [|done]. apply find_some in Hf as [Hin Hf]. eexists. split; [done|]. exists lib_dir. by rewrite list_elem_of_In.
  - intros (md & pkg & cfg & bindings & Hmd & Hpkg & Hc & Hb & Hos). rewrite Hmd.
    pose proof (proj2 (generate_header_ok md pkg h tt _ _) (ex_intro _ cfg (ex_intro _ bindings (conj Hc (conj Hb (conj eq_refl eq_refl)))))) as Hg.
    unfold header_of in Hg at 1. set (h1 := write_to_file _ _ _) in *. clearbody h1.
    unfold and_then, println, reading, changing, expect_with, done_. rewrite Hpkg. cbn beta iota zeta. rewrite Hg.
    destruct (String.eqb_spec (target_os env) "macos") as [Eos|Eos]; cbn [negb]; [|by eexists _, _].
    destruct (Hos Eos) as (built & Hst & p & Hp & He).
    destruct (rerun_for_dir_ends (S PATH_MAX) h1 (path_join pkg "Sources")) as (ls & -> & _); [unfold PATH_MAX; lia|done|].
    rewrite println_all_run, Hst.
    destruct (find _ _) as [lib_dir|] eqn:Hf; [|by rewrite (find_none _ _ Hf p) in He; [|by apply list_elem_of_In]].
    rewrite println_all_run. destruct (xcode_ok built) as (tc & h2 & ->). rewrite println_all_run. by eexists _, _.
Qed.
End Success.

(** ** From the bridge's script to the binaries *)

(** Cargo's documentation of build scripts: a line [cargo:KEY=VALUE] whose key
    is not one of cargo's instructions is metadata, and the build scripts of
    the packages that depend on one with a [links] key see it as
    [DEP_LINKS_KEY]. *)
Definition instructions : list string :=
  ["rerun-if-changed"; "rerun-if-env-changed"; "rustc-link-arg"; "rustc-link-arg-bin"; "rustc-link-arg-bins"; "rustc-link-arg-tests";
   "rustc-link-arg-examples"; "rustc-link-arg-benches"; "rustc-cdylib-link-arg"; "rustc-link-lib"; "rustc-link-search"; "rustc-flags";
   "rustc-cfg"; "rustc-check-cfg"; "rustc-env"; "warning"; "error"; "metadata"].
Definition dep_name (links key : string) : string := "DEP_" +:+ to_ascii_uppercase links +:+ "_" +:+ to_ascii_uppercase key.
Definition metadata_line (line : string) : option (string * string) :=
  match strip_prefix "cargo:" line with
  | Some kv => match split_once (ch 61) kv with
               | Some (key, value) => if existsb (String.eqb key) instructions then None else Some (key, value)
               | None => None
               end
  | None => None
  end.
Definition metadata (stdout : string) : list (string * string) := omap metadata_line (split_char NL stdout).
Definition passes_metadata (dep_env : string -> string -> string -> option string) : Prop :=
  forall links stdout key value, (key, value) ∈ metadata stdout ->
    (forall key' value', (key', value') ∈ metadata stdout -> dep_name links key' = dep_name links key -> value' = value) ->
    dep_env links stdout (dep_name links key) = Some value.

(** hephaestus-bridge/Cargo.toml *)
Definition LINKS : string := "hephaestus_bridge_native".

Lemma watches_no_metadata l : Forall watches l -> omap metadata_line l = [].
Proof. induction 1 as [|? l [p ->] _ IH]; [done|]. exact IH. Qed.

(** The archive is the only metadata there is. *)
Lemma archive_metadata lib_dir watched toolchain : Forall watches watched ->
  let out := watched ++ link_lines lib_dir ++ toolchain_lines toolchain in
  Forall (fun l => contains_char NL l = false) out -> metadata (unlines out) = [("archive", display (path_join lib_dir ARCHIVE))].
Proof.
  intros Hw out Hnl. unfold metadata. rewrite split_unlines by done. unfold out. clear Hnl out. rewrite !omap_app, watches_no_metadata by done. by destruct toolchain.
Qed.
Lemma archive_passed dep_env lib_dir watched toolchain : passes_metadata dep_env -> Forall watches watched ->
  let out := watched ++ link_lines lib_dir ++ toolchain_lines toolchain in
  Forall (fun l => contains_char NL l = false) out ->
  dep_env LINKS (unlines out) "DEP_HEPHAESTUS_BRIDGE_NATIVE_ARCHIVE" = Some (display (path_join lib_dir ARCHIVE)).
Proof.
  intros Hd Hw out Hnl. change "DEP_HEPHAESTUS_BRIDGE_NATIVE_ARCHIVE" with (dep_name LINKS "archive"). pose proof (archive_metadata _ _ _ Hw Hnl) as Hm.
  fold out in Hm. apply Hd; rewrite Hm; [by apply list_elem_of_singleton|]. intros k v Hin%list_elem_of_singleton _. by injection Hin.
Qed.

Lemma force_load_lines {H} `{Machine H} env arg archive (h : H) : target_os env = "macos" ->
  env "DEP_HEPHAESTUS_BRIDGE_NATIVE_ARCHIVE" = Ok archive ->
  force_load_main env arg h = (Ok tt, h, ["cargo:rerun-if-env-changed=DEP_HEPHAESTUS_BRIDGE_NATIVE_ARCHIVE";
    "cargo:" +:+ arg +:+ "=-Wl,-force_load," +:+ archive; "cargo:" +:+ arg +:+ "=-Wl,-rpath,/usr/lib/swift"]).
Proof. unfold force_load_main. by intros -> ->. Qed.

(** What the linker is called with.  Cargo's documentation: a line
    [cargo:rustc-link-arg=FLAG] adds the flag for every target of the package,
    [cargo:rustc-link-arg-bin=BIN=FLAG] for one.  The linker driver's: what
    follows [-Wl,] is a list of arguments for the linker, separated by commas. *)
Definition flags_for (bin line : string) : list string :=
  match strip_prefix "cargo:" line with
  | Some kv => match split_once (ch 61) kv with
               | Some (key, value) =>
                   if String.eqb key "rustc-link-arg" then [value]
                   else if String.eqb key "rustc-link-arg-bin" then
                     match split_once (ch 61) value with Some (b, flag) => if String.eqb b bin then [flag] else [] | None => [] end
                   else []
               | None => []
               end
  | None => []
  end.
Definition for_linker (flag : string) : list string :=
  match strip_prefix "-Wl," flag with Some args => split_char (ch 44) args | None => [] end.
Definition linker_args (bin : string) (lines : list string) : list string := (lines ≫= flags_for bin) ≫= for_linker.

(** The scripts' instructions, with the binary each is for. *)
Definition binaries : list (string * string) :=
  [("hephaestus", "rustc-link-arg"); ("hephaestus-firecracker", "rustc-link-arg-bin=hephaestus-firecracker")].
Lemma force_load_args bin arg archive : (bin, arg) ∈ binaries -> contains_char (ch 44) archive = false ->
  linker_args bin ["cargo:rerun-if-env-changed=DEP_HEPHAESTUS_BRIDGE_NATIVE_ARCHIVE";
    "cargo:" +:+ arg +:+ "=-Wl,-force_load," +:+ archive; "cargo:" +:+ arg +:+ "=-Wl,-rpath,/usr/lib/swift"] =
  ["-force_load"; archive; "-rpath"; "/usr/lib/swift"].
Proof.
  intros Hin Hc. unfold binaries in Hin. repeat (apply elem_of_cons in Hin as [[= -> ->]|Hin]); [..|by apply elem_of_nil in Hin];
    (transitivity (("-force_load" :: split_char (ch 44) archive) ++ ["-rpath"; "/usr/lib/swift"]); [reflexivity|]; by rewrite split_char_none).
Qed.

(** C35: The archive the Swift build left is the one both binaries load in full.
    If the bridge's script succeeds for macOS and prints no path with a line
    break, then the Swift build succeeded and left an archive in one of the
    three places; the script links against the first place that has it; and
    the scripts of the command line and of the daemon, run with the variable
    cargo sets from it, succeed, and if the path of the archive is UTF-8 and
    has no comma, then the linker is called, for either binary, to force-load
    exactly that archive.  (Paths are printed with what is not UTF-8 replaced,
    and the linker driver splits the argument that holds the path at commas.) *)
Theorem archive_reaches_binaries {H} `{Machine H} env (h : H) h' out dep_env env' (h2 : H) :
  bridge_main env h = (Ok tt, h', out) -> target_os env = "macos" -> Forall (fun l => contains_char NL l = false) out ->
  passes_metadata dep_env -> target_os env' = "macos" ->
  env' "DEP_HEPHAESTUS_BRIDGE_NATIVE_ARCHIVE" = ok_or (dep_env LINKS (unlines out) "DEP_HEPHAESTUS_BRIDGE_NATIVE_ARCHIVE") "NotPresent" ->
  exists swift_pkg built lib_dir,
    (exists h1, run_status "xcrun" (swift_build_args swift_pkg) h1 = (Ok true, built)) /\
    find (fun p => exists_path built (path_join p ARCHIVE)) (candidates swift_pkg) = Some lib_dir /\
    exists_path built (path_join lib_dir ARCHIVE) = true /\
    ("cargo:rustc-link-search=native=" +:+ display lib_dir) ∈ out /\
    let archive := path_join lib_dir ARCHIVE in
    forall bin main, (bin, main) ∈ [("hephaestus", cli_main env'); ("hephaestus-firecracker", firecracker_main env')] ->
      exists lines, main h2 = (Ok tt, h2, lines) /\
        (utf8_valid archive = true -> contains_char (ch 44) archive = false ->
         linker_args bin lines = ["-force_load"; archive; "-rpath"; "/usr/lib/swift"]).
Proof.
  intros Hb Hos Hnl Hd Hos' Henv.
  destruct (bridge_built _ _ _ _ Hb Hos) as (md & pkg & built & lib_dir & watched & tc & _ & _ & Hst & Hf & Hw & ->). clear Hb.
  rewrite (archive_passed _ _ _ _ Hd Hw Hnl) in Henv. cbn [ok_or] in Henv.
  exists pkg, built, lib_dir. split_and!; [done|done|by apply find_some in Hf as [_ Hf]| |].
  - rewrite !elem_of_app. right. left. unfold link_lines. by apply elem_of_cons; left.
  - cbv zeta. intros bin main Hin. repeat (apply elem_of_cons in Hin as [[= -> ->]|Hin]); [..|by apply elem_of_nil in Hin];
      (eexists; split; [by apply force_load_lines|]; intros Hu Hc; unfold display; rewrite lossy_valid by done; apply force_load_args;
       [unfold binaries; set_solver|done]).
Qed.

(** ** A build, with the archive where the triple puts it *)

Module DemoBuild.
(** Whether the package was built. *)
Definition pkg : string := "/w/swift/HephaestusBridge".
Definition archive : string := "/w/swift/HephaestusBridge/.build/arm64-apple-macosx/release/libHephaestusBridge.a".
Definition dirs : list (string * list string) :=
  [("/w/swift/HephaestusBridge/Sources", ["HephaestusBridge"; "CHephaestusBridge"]);
   ("/w/swift/HephaestusBridge/Sources/HephaestusBridge", ["DirectVZ.swift"]);
   ("/w/swift/HephaestusBridge/Sources/CHephaestusBridge", ["module.modulemap"])].
Definition listing (p : string) : option (list string) := snd <$> find (fun d => String.eqb d.1 p) dirs.
Lemma listing_short p : bool_decide (is_Some (listing p)) = true -> (String.length p < PATH_MAX)%nat.
Proof.
  intros [l Hl]%bool_decide_eq_true. revert Hl. unfold listing, dirs. cbn [find fst].
  repeat (match goal with |- context [String.eqb ?a p] => destruct (String.eqb_spec a p) as [<-|_] end; [intros _; apply Nat.ltb_lt; vm_compute; reflexivity|]). done.
Qed.
Lemma listing_named d l name : option_map (map Some) (listing d) = Some l -> Some name ∈ l -> name <> "" /\ starts_with "/" name = false.
Proof.
  unfold listing, dirs. cbn [find fst].
  repeat (match goal with |- context [String.eqb ?a d] => destruct (String.eqb_spec a d) as [<-|_] end; [intros [= <-] Hn; cbn in Hn;
    repeat (apply elem_of_cons in Hn as [[= ->]|Hn]; [done|]); by apply elem_of_nil in Hn|]). done.
Qed.

#[local] Instance machine : Machine bool := {
  canonicalize _ p := if String.eqb p "/w/src/hephaestus-bridge/../../swift/HephaestusBridge" then Ok pkg else Err "NotFound";
  exists_path built p := built && String.eqb p archive;
  is_dir _ p := bool_decide (is_Some (listing p));
  read_dir _ p := option_map (map Some) (listing p);
  create_dir_all _ h := h;
  Config := unit; Bindings := unit;
  config_from_file _ _ := Ok tt;
  generate _ _ _ := Ok tt;
  write_to_file _ _ h := h;
  run_status _ _ _ := (Ok true, true);
  run_output _ _ h := (None, h);
  dir_short _ := listing_short;
  entry_named _ := listing_named }.

Definition env : Env := fun v =>
  if String.eqb v "CARGO_MANIFEST_DIR" then Ok "/w/src/hephaestus-bridge" else
  if String.eqb v "CARGO_CFG_TARGET_OS" then Ok "macos" else Err "NotPresent".
Definition printed : list string := snd (bridge_main env false).

(** A cargo: the first metadata line with the name. *)
Definition dep_env (links stdout name : string) : option string :=
  snd <$> find (fun kv => String.eqb (dep_name links kv.1) name) (metadata stdout).
Lemma dep_env_passes : passes_metadata dep_env.
Proof.
  intros links stdout key value Hin Hu. unfold dep_env. destruct (find _ _) as [[k v]|] eqn:Hf.
  - apply find_some in Hf as [Hk He%String.eqb_eq]. rewrite <- list_elem_of_In in Hk. cbn. f_equal. by eapply Hu.
  - rewrite list_elem_of_In in Hin. pose proof (find_none _ _ Hf _ Hin) as Hn. cbn in Hn. by rewrite String.eqb_refl in Hn.
Qed.
(** The variables of the binaries' scripts. *)
Definition env' : Env := fun v =>
  if String.eqb v "DEP_HEPHAESTUS_BRIDGE_NATIVE_ARCHIVE" then ok_or (dep_env LINKS (unlines printed) v) "NotPresent" else env v.
Lemma printed_lines : Forall (fun l => contains_char NL l = false) printed.
Proof. vm_compute. repeat (constructor; [reflexivity|]). constructor. Qed.
End DemoBuild.

Lemma archive_reaches_binaries_witness : exists h',
  @bridge_main bool DemoBuild.machine DemoBuild.env false = (Ok tt, h', DemoBuild.printed) /\
  exists lib_dir lines, path_join lib_dir ARCHIVE = DemoBuild.archive /\ cli_main (H := bool) DemoBuild.env' true = (Ok tt, true, lines) /\
    linker_args "hephaestus" lines = ["-force_load"; DemoBuild.archive; "-rpath"; "/usr/lib/swift"].
Proof.
  exists true. split; [vm_compute; reflexivity|].
  destruct (@archive_reaches_binaries bool DemoBuild.machine DemoBuild.env false true DemoBuild.printed DemoBuild.dep_env DemoBuild.env' true)
    as (pkg & built & lib_dir & [h1 Hst] & _ & Ha & _ & Hl);
    [vm_compute; reflexivity|reflexivity|apply DemoBuild.printed_lines|apply DemoBuild.dep_env_passes|reflexivity|reflexivity|].
  injection Hst as <-. assert (Hp : path_join lib_dir ARCHIVE = DemoBuild.archive) by exact (proj1 (String.eqb_eq _ _) Ha).
  exists lib_dir. cbv zeta in Hl. rewrite Hp in Hl.
  destruct (Hl "hephaestus" (cli_main DemoBuild.env') (list_elem_of_here _ _)) as (lines & Hr & Hargs).
  exists lines. split; [exact Hp|]. split; [exact Hr|]. apply Hargs; vm_compute; reflexivity.
Defined.
